(** * Image-text-extractor: the document field extraction engine

    A shallow embedding of [DataExtractor] (extractCNICData,
    extractPassportData, cleanData) and of the MRZ and confidence steps of
    the [/passport] route, with the properties the specification states
    about them.

    Texts are JavaScript strings restricted to the ASCII range: a [string]
    is a sequence of code units below 128 (the OCR worker is loaded with the
    English language data).  [toUpperCase], [trim] and the regular
    expression classes [\s], [\w], [\d] are modelled on that range; the
    non-ASCII dash that three character classes of the source list can then
    never match and is left out of them. *)

From Stdlib Require Import String Ascii List Bool Arith ZArith QArith Qround Qabs Qpower
  Qreduction Lia Lqa.
From stdpp Require Import base option list strings gmap fin_maps.

Local Open Scope string_scope.
Local Open Scope list_scope.

(** ** JavaScript string methods *)

Module JsStr.

Definition code (c : ascii) : nat := nat_of_ascii c.

Definition in_range (lo hi : nat) (c : ascii) : bool :=
  (lo <=? code c)%nat && (code c <=? hi)%nat.


Definition is_digit (c : ascii) : bool := in_range 48 57 c.
Definition is_upper (c : ascii) : bool := in_range 65 90 c.
Definition is_lower (c : ascii) : bool := in_range 97 122 c.
Definition is_alpha (c : ascii) : bool := is_upper c || is_lower c.
(* \w *)
Definition is_word (c : ascii) : bool :=
  is_alpha c || is_digit c || (code c =? 95)%nat.
(* \s, also what trim() strips: TAB LF VT FF CR SPACE *)
Definition is_space (c : ascii) : bool :=
  in_range 9 13 c || (code c =? 32)%nat.
(* line terminators: what "." does not match *)
Definition is_newline (c : ascii) : bool :=
  (code c =? 10)%nat || (code c =? 13)%nat.

Definition upper (c : ascii) : ascii :=
  if is_lower c then ascii_of_nat (code c - 32) else c.
Definition lower (c : ascii) : ascii :=
  if is_upper c then ascii_of_nat (code c + 32) else c.

Fixpoint map_chars (f : ascii -> ascii) (s : string) : string :=
  match s with
  | EmptyString => EmptyString
  | String c r => String (f c) (map_chars f r)
  end.

Definition toUpperCase (s : string) : string := map_chars upper s.
Definition toLowerCase (s : string) : string := map_chars lower s.

Fixpoint trimStart (s : string) : string :=
  match s with
  | String c r => if is_space c then trimStart r else s
  | EmptyString => EmptyString
  end.

Fixpoint trimEnd (s : string) : string :=
  match s with
  | EmptyString => EmptyString
  | String c r =>
      match trimEnd r with
      | EmptyString => if is_space c then EmptyString else String c EmptyString
      | r' => String c r'
      end
  end.

Definition trim (s : string) : string := trimEnd (trimStart s).

Fixpoint startsWith (p s : string) : bool :=
  match p, s with
  | EmptyString, _ => true
  | String a p', String b s' => Ascii.eqb a b && startsWith p' s'
  | String _ _, EmptyString => false
  end.

Fixpoint includes (p s : string) : bool :=
  startsWith p s ||
  match s with
  | EmptyString => false
  | String _ s' => includes p s'
  end.

Fixpoint drop (n : nat) (s : string) : string :=
  match n, s with
  | O, _ => s
  | S n', String _ r => drop n' r
  | S _, EmptyString => EmptyString
  end.

Fixpoint take (n : nat) (s : string) : string :=
  match n, s with
  | O, _ => EmptyString
  | S n', String c r => String c (take n' r)
  | S _, EmptyString => EmptyString
  end.

Definition endsWith (p s : string) : bool :=
  (String.length p <=? String.length s)%nat &&
  String.eqb (drop (String.length s - String.length p) s) p.

(* s.substring(a, b) with 0 <= a <= b; s.substring(a) is [drop a s] *)
Definition substring (a b : nat) (s : string) : string :=
  take (b - a) (drop a s).

Fixpoint repeat_char (c : ascii) (n : nat) : string :=
  match n with
  | O => EmptyString
  | S n' => String c (repeat_char c n')
  end.

Definition padEnd (n : nat) (c : ascii) (s : string) : string :=
  s ++ repeat_char c (n - String.length s).
Definition padStart (n : nat) (c : ascii) (s : string) : string :=
  repeat_char c (n - String.length s) ++ s.

(* s.split(c) for a one-character separator *)
Fixpoint split_char (sep : ascii) (s : string) : list string :=
  match s with
  | EmptyString => [EmptyString]
  | String c r =>
      if Ascii.eqb c sep then EmptyString :: split_char sep r
      else match split_char sep r with
           | w :: ws => String c w :: ws
           | [] => [String c EmptyString]
           end
  end.

Fixpoint count_chars (p : ascii -> bool) (s : string) : nat :=
  match s with
  | EmptyString => O
  | String c r => (if p c then 1 else 0) + count_chars p r
  end.

Fixpoint all_chars (p : ascii -> bool) (s : string) : bool :=
  match s with
  | EmptyString => true
  | String c r => p c && all_chars p r
  end.

Definition nonempty (s : string) : bool :=
  match s with EmptyString => false | _ => true end.

End JsStr.

(** ** Regular expressions

    The patterns are kept as the source writes them: [Regex.parse] reads the
    text between the slashes of a RegExp literal and [Regex.rmatch] is a
    backtracking matcher with the priorities of the ECMAScript one (leftmost
    start, alternatives left to right, greedy and lazy quantifiers, an
    optional iteration that consumes nothing is rejected). *)

Module Regex.
Import JsStr.

Inductive citem : Type :=
| CChar (c : ascii)
| CRange (a b : ascii)
| CDigit | CSpace | CWord
| CNotDigit | CNotSpace | CNotWord.

Inductive re : Type :=
| Empty
| Chr (c : ascii)
| Any
| Cls (neg : bool) (items : list citem)
| Seq (r1 r2 : re)
| Alt (r1 r2 : re)
| Rep (min : nat) (max : option nat) (greedy : bool) (r : re)
| Grp (n : nat) (r : re)
| Bol | Eol
| WordB | NotWordB
| Backref (n : nat).

Record flags : Type := Flags { f_global : bool; f_icase : bool; f_multi : bool }.

Record regex : Type := Regex { rx_re : re; rx_groups : nat; rx_flags : flags }.

(** *** Parser for RegExp literals *)

Definition digit_val (c : ascii) : nat := code c - 48.

Fixpoint read_nat (acc : nat) (s : string) : nat * string :=
  match s with
  | String c r => if is_digit c then read_nat (10 * acc + digit_val c) r else (acc, s)
  | EmptyString => (acc, s)
  end.

(* the character an identity or control escape stands for *)
Definition escaped_char (c : ascii) : ascii :=
  if Ascii.eqb c "n" then ascii_of_nat 10
  else if Ascii.eqb c "r" then ascii_of_nat 13
  else if Ascii.eqb c "t" then ascii_of_nat 9
  else c.

Definition class_escape (c : ascii) : citem :=
  if Ascii.eqb c "d" then CDigit
  else if Ascii.eqb c "s" then CSpace
  else if Ascii.eqb c "w" then CWord
  else if Ascii.eqb c "D" then CNotDigit
  else if Ascii.eqb c "S" then CNotSpace
  else if Ascii.eqb c "W" then CNotWord
  else CChar (escaped_char c).

(* one class atom: an escape or a plain character *)
Definition class_atom (s : string) : option (citem * string) :=
  match s with
  | String "\" (String c r) => Some (class_escape c, r)
  | String "\" EmptyString => None
  | String c r => Some (CChar c, r)
  | EmptyString => None
  end.

(* the items of a class up to the closing bracket *)
Fixpoint parse_class (fuel : nat) (s : string) : option (list citem * string) :=
  match fuel with
  | O => None
  | S fuel' =>
      match s with
      | String "]" r => Some ([], r)
      | _ =>
          match class_atom s with
          | Some (CChar a, String "-" r) =>
              match r with
              | String "]" _ =>
                  match parse_class fuel' (String "-" r) with
                  | Some (its, r') => Some (CChar a :: its, r')
                  | None => None
                  end
              | _ =>
                  match class_atom r with
                  | Some (CChar b, r') =>
                      match parse_class fuel' r' with
                      | Some (its, r'') => Some (CRange a b :: its, r'')
                      | None => None
                      end
                  | _ => None
                  end
              end
          | Some (it, r) =>
              match parse_class fuel' r with
              | Some (its, r') => Some (it :: its, r')
              | None => None
              end
          | None => None
          end
      end
  end.

(* a quantifier after an atom, if there is one *)
Definition parse_quant (s : string) : option (nat * option nat * string) :=
  match s with
  | String "*" r => Some (0, None, r)
  | String "+" r => Some (1, None, r)
  | String "?" r => Some (0, Some 1, r)
  | String "{" r =>
      let '(lo, r1) := read_nat 0 r in
      match r1 with
      | String "}" r2 => Some (lo, Some lo, r2)
      | String "," (String "}" r2) => Some (lo, None, r2)
      | String "," r2 =>
          let '(hi, r3) := read_nat 0 r2 in
          match r3 with
          | String "}" r4 => Some (lo, Some hi, r4)
          | _ => None
          end
      | _ => None
      end
  | _ => None
  end.

Definition quantified (a : re) (s : string) : re * string :=
  match parse_quant s with
  | Some (lo, hi, String "?" r) => (Rep lo hi false a, r)
  | Some (lo, hi, r) => (Rep lo hi true a, r)
  | None => (a, s)
  end.

Definition mkseq (a b : re) : re :=
  match b with Empty => a | _ => Seq a b end.

(* disjunction, alternative and term; [n] counts the capturing groups
   opened so far *)
Fixpoint parse_disj (fuel : nat) (s : string) (n : nat) : option (re * string * nat) :=
  match fuel with
  | O => None
  | S fuel' =>
      match parse_alt fuel' s n with
      | Some (a, String "|" r, n1) =>
          match parse_disj fuel' r n1 with
          | Some (b, r', n2) => Some (Alt a b, r', n2)
          | None => None
          end
      | other => other
      end
  end
with parse_alt (fuel : nat) (s : string) (n : nat) : option (re * string * nat) :=
  match fuel with
  | O => None
  | S fuel' =>
      match s with
      | EmptyString => Some (Empty, s, n)
      | String "|" _ => Some (Empty, s, n)
      | String ")" _ => Some (Empty, s, n)
      | _ =>
          match parse_term fuel' s n with
          | Some (a, r, n1) =>
              match parse_alt fuel' r n1 with
              | Some (b, r', n2) => Some (mkseq a b, r', n2)
              | None => None
              end
          | None => None
          end
      end
  end
with parse_term (fuel : nat) (s : string) (n : nat) : option (re * string * nat) :=
  match fuel with
  | O => None
  | S fuel' =>
      match s with
      | EmptyString => None
      | String "^" r => Some (Bol, r, n)
      | String "$" r => Some (Eol, r, n)
      | String "\" (String "b" r) => Some (WordB, r, n)
      | String "\" (String "B" r) => Some (NotWordB, r, n)
      | String "(" (String "?" (String ":" r)) =>
          match parse_disj fuel' r n with
          | Some (a, String ")" r', n1) =>
              let '(q, r'') := quantified a r' in Some (q, r'', n1)
          | _ => None
          end
      | String "(" r =>
          match parse_disj fuel' r (S n) with
          | Some (a, String ")" r', n1) =>
              let '(q, r'') := quantified (Grp (S n) a) r' in Some (q, r'', n1)
          | _ => None
          end
      | String "[" (String "^" r) =>
          match parse_class fuel' r with
          | Some (its, r') =>
              let '(q, r'') := quantified (Cls true its) r' in Some (q, r'', n)
          | None => None
          end
      | String "[" r =>
          match parse_class fuel' r with
          | Some (its, r') =>
              let '(q, r'') := quantified (Cls false its) r' in Some (q, r'', n)
          | None => None
          end
      | String "." r =>
          let '(q, r') := quantified Any r in Some (q, r', n)
      | String "\" (String c r) =>
          let a :=
            if is_digit c then Backref (digit_val c)
            else match class_escape c with
                 | CChar x => Chr x
                 | it => Cls false [it]
                 end in
          let '(q, r') := quantified a r in Some (q, r', n)
      | String "\" EmptyString => None
      | String "*" _ | String "+" _ | String "?" _ => None
      | String c r =>
          let '(q, r') := quantified (Chr c) r in Some (q, r', n)
      end
  end.

Definition has_flag (c : ascii) (fl : string) : bool :=
  includes (String c EmptyString) fl.

Definition parse_flags (fl : string) : flags :=
  Flags (has_flag "g" fl) (has_flag "i" fl) (has_flag "m" fl).

(* new RegExp(src, fl); [None] is the SyntaxError *)
Definition parse (src fl : string) : option regex :=
  match parse_disj (3 * String.length src + 3) src 0 with
  | Some (r, EmptyString, n) => Some (Regex r n (parse_flags fl))
  | _ => None
  end.

(** *** Matcher *)

Record mstate : Type := MState {
  ms_rest : string;                 (* input from the current position on *)
  ms_prev : option ascii;           (* the character before it *)
  ms_pos : nat;                     (* the current index *)
  ms_caps : list (option string)    (* captures, by group number *)
}.

Definition citem_has (it : citem) (c : ascii) : bool :=
  match it with
  | CChar a => Ascii.eqb a c
  | CRange a b => in_range (code a) (code b) c
  | CDigit => is_digit c
  | CSpace => is_space c
  | CWord => is_word c
  | CNotDigit => negb (is_digit c)
  | CNotSpace => negb (is_space c)
  | CNotWord => negb (is_word c)
  end.

Definition items_have (its : list citem) (c : ascii) : bool :=
  existsb (fun it => citem_has it c) its.

(* with the i flag both sides are compared after canonicalization *)
Definition chr_ok (fl : flags) (a c : ascii) : bool :=
  if f_icase fl then Ascii.eqb (upper a) (upper c) else Ascii.eqb a c.

Definition cls_ok (fl : flags) (neg : bool) (its : list citem) (c : ascii) : bool :=
  xorb neg
    (if f_icase fl
     then items_have its c || items_have its (upper c) || items_have its (lower c)
     else items_have its c).

Definition step_char (c : ascii) (r : string) (s : mstate) : mstate :=
  MState r (Some c) (S (ms_pos s)) (ms_caps s).

Definition eat (p : ascii -> bool) (s : mstate) : list mstate :=
  match ms_rest s with
  | String c r => if p c then [step_char c r s] else []
  | EmptyString => []
  end.

Definition word_before (s : mstate) : bool :=
  match ms_prev s with Some c => is_word c | None => false end.
Definition word_after (s : mstate) : bool :=
  match ms_rest s with String c _ => is_word c | EmptyString => false end.

Definition at_bol (fl : flags) (s : mstate) : bool :=
  match ms_prev s with
  | None => true
  | Some c => f_multi fl && is_newline c
  end.
Definition at_eol (fl : flags) (s : mstate) : bool :=
  match ms_rest s with
  | EmptyString => true
  | String c _ => f_multi fl && is_newline c
  end.

Definition guard (b : bool) (s : mstate) : list mstate := if b then [s] else [].

(* consume the literal [w] (a back reference) *)
Fixpoint eat_string (fl : flags) (w : string) (s : mstate) : list mstate :=
  match w with
  | EmptyString => [s]
  | String a w' =>
      match ms_rest s with
      | String c r =>
          if chr_ok fl a c then eat_string fl w' (step_char c r s) else []
      | EmptyString => []
      end
  end.

Definition cap (s : mstate) (n : nat) : option string :=
  match ms_caps s !! n with Some (Some w) => Some w | _ => None end.

Definition set_cap (n : nat) (w : string) (s : mstate) : mstate :=
  MState (ms_rest s) (ms_prev s) (ms_pos s) (<[n := Some w]> (ms_caps s)).

(* RepeatMatcher: [n] bounds the iterations still allowed *)
Fixpoint rep_iter (step : mstate -> list mstate) (greedy : bool)
    (n min : nat) (s : mstate) : list mstate :=
  match n with
  | O => [s]
  | S n' =>
      let more :=
        flat_map (fun s1 =>
          if (min =? 0)%nat && (ms_pos s1 =? ms_pos s)%nat then []
          else rep_iter step greedy n' (pred min) s1) (step s) in
      if (0 <? min)%nat then more
      else if greedy then more ++ [s] else s :: more
  end.

(* every way [r] matches from [s], best first *)
Fixpoint rmatch (fl : flags) (r : re) (s : mstate) : list mstate :=
  match r with
  | Empty => [s]
  | Chr a => eat (chr_ok fl a) s
  | Any => eat (fun c => negb (is_newline c)) s
  | Cls neg its => eat (cls_ok fl neg its) s
  | Seq a b => flat_map (rmatch fl b) (rmatch fl a s)
  | Alt a b => rmatch fl a s ++ rmatch fl b s
  | Rep min max greedy a =>
      let n := match max with
               | Some k => k
               | None => min + String.length (ms_rest s)
               end in
      rep_iter (rmatch fl a) greedy n min s
  | Grp n a =>
      map (fun s' => set_cap n (take (ms_pos s' - ms_pos s) (ms_rest s)) s')
          (rmatch fl a s)
  | Bol => guard (at_bol fl s) s
  | Eol => guard (at_eol fl s) s
  | WordB => guard (xorb (word_before s) (word_after s)) s
  | NotWordB => guard (negb (xorb (word_before s) (word_after s))) s
  | Backref n =>
      match cap s n with
      | Some w => eat_string fl w s
      | None => [s]
      end
  end.

(** *** Match results and the String/RegExp methods built on them *)

(* the array a successful exec returns: [m_groups] holds the whole match
   at index 0 and the captures after it *)
Record result : Type := Result {
  m_index : nat;
  m_length : nat;
  m_groups : list (option string)
}.

Definition whole (m : result) : string :=
  match m_groups m !! 0 with Some (Some w) => w | _ => EmptyString end.

(* a match starting exactly at the position of [rest] *)
Definition exec_at (rx : regex) (rest : string) (prev : option ascii)
    (pos : nat) : option result :=
  let s0 := MState rest prev pos (replicate (S (rx_groups rx)) None) in
  match rmatch (rx_flags rx) (rx_re rx) s0 with
  | s1 :: _ =>
      let len := ms_pos s1 - pos in
      Some (Result pos len (<[0 := Some (take len rest)]> (ms_caps s1)))
  | [] => None
  end.

Fixpoint search (rx : regex) (rest : string) (prev : option ascii)
    (pos : nat) : option result :=
  match exec_at rx rest prev pos with
  | Some m => Some m
  | None =>
      match rest with
      | String c r => search rx r (Some c) (S pos)
      | EmptyString => None
      end
  end.

(* rx.exec(s) from index 0 (lastIndex plays no part without the g flag) *)
Definition exec (rx : regex) (s : string) : option result := search rx s None 0.

Definition test (rx : regex) (s : string) : bool :=
  match exec rx s with Some _ => true | None => false end.

(* all successive matches of a global pattern; [skip] characters are
   still inside the previous match *)
Fixpoint scan (rx : regex) (rest : string) (prev : option ascii)
    (pos skip : nat) : list result :=
  match skip with
  | S k =>
      match rest with
      | String c r => scan rx r (Some c) (S pos) k
      | EmptyString => []
      end
  | O =>
      match exec_at rx rest prev pos with
      | Some m =>
          m :: match rest with
               | String c r => scan rx r (Some c) (S pos) (pred (m_length m))
               | EmptyString => []
               end
      | None =>
          match rest with
          | String c r => scan rx r (Some c) (S pos) 0
          | EmptyString => []
          end
      end
  end.

(* s.matchAll(rx) *)
Definition matchAll (rx : regex) (s : string) : list result := scan rx s None 0 0.

(* the expansion of a replacement template for one match *)
Fixpoint expand (ngroups : nat) (m : result) (tpl : string) : string :=
  match tpl with
  | EmptyString => EmptyString
  | String "$" (String "$" r) => String "$" (expand ngroups m r)
  | String "$" (String "&" r) => whole m ++ expand ngroups m r
  | String "$" (String d r) =>
      if is_digit d && (1 <=? digit_val d)%nat && (digit_val d <=? ngroups)%nat
      then match m_groups m !! digit_val d with
           | Some (Some w) => w ++ expand ngroups m r
           | _ => expand ngroups m r
           end
      else String "$" (String d (expand ngroups m r))
  | String c r => String c (expand ngroups m r)
  end.

(* [all = true]: every match is replaced, else only the first one *)
Fixpoint replace_go (rx : regex) (tpl : string) (all : bool) (rest : string)
    (prev : option ascii) (pos skip : nat) : string :=
  match skip with
  | S k =>
      match rest with
      | String c r => replace_go rx tpl all r (Some c) (S pos) k
      | EmptyString => EmptyString
      end
  | O =>
      match exec_at rx rest prev pos with
      | Some m =>
          expand (rx_groups rx) m tpl ++
          (if all then
             match rest with
             | String c r =>
                 (if (m_length m =? 0)%nat then String c EmptyString else EmptyString)
                 ++ replace_go rx tpl all r (Some c) (S pos) (pred (m_length m))
             | EmptyString => EmptyString
             end
           else drop (m_length m) rest)
      | None =>
          match rest with
          | String c r => String c (replace_go rx tpl all r (Some c) (S pos) 0)
          | EmptyString => EmptyString
          end
      end
  end.

(* s.replace(rx, tpl) *)
Definition replace (rx : regex) (tpl : string) (s : string) : string :=
  replace_go rx tpl (f_global (rx_flags rx)) s None 0 0.

(* the pieces between successive non-empty matches *)
Fixpoint split_go (rx : regex) (rest : string) (prev : option ascii)
    (pos skip : nat) : list string :=
  match skip with
  | S k =>
      match rest with
      | String c r => split_go rx r (Some c) (S pos) k
      | EmptyString => [EmptyString]
      end
  | O =>
      match rest with
      | EmptyString => [EmptyString]
      | String c r =>
          match exec_at rx rest prev pos with
          | Some m =>
              if (m_length m =? 0)%nat then
                match split_go rx r (Some c) (S pos) 0 with
                | w :: ws => String c w :: ws
                | [] => [String c EmptyString]
                end
              else EmptyString :: split_go rx r (Some c) (S pos) (pred (m_length m))
          | None =>
              match split_go rx r (Some c) (S pos) 0 with
              | w :: ws => String c w :: ws
              | [] => [String c EmptyString]
              end
          end
      end
  end.

(* s.split(rx), for a pattern without capturing groups that matches no
   empty string (those are the ones the source splits on) *)
Definition split (rx : regex) (s : string) : list string := split_go rx s None 0 0.

End Regex.

(** ** Values, exceptions and objects *)

Module Js.
Import JsStr.

(* the values a field of the extracted record can hold *)
Inductive jsval : Type :=
| Null
| Undefined
| Str (s : string).

Definition jsval_eqb (a b : jsval) : bool :=
  match a, b with
  | Null, Null => true
  | Undefined, Undefined => true
  | Str x, Str y => String.eqb x y
  | _, _ => false
  end.

(* ToBoolean *)
Definition truthy (v : jsval) : bool :=
  match v with
  | Str s => nonempty s
  | _ => false
  end.

(* a computation that returns or throws (TypeError, SyntaxError) *)
Inductive res (A : Type) : Type :=
| Ok (a : A)
| Throw.
Arguments Ok {A} a.
Arguments Throw {A}.

Definition bind {A B : Type} (m : res A) (k : A -> res B) : res B :=
  match m with
  | Ok a => k a
  | Throw => Throw
  end.

(* the receiver of a string method call: anything but a string throws *)
Definition str_of (v : jsval) : res string :=
  match v with
  | Str s => Ok s
  | _ => Throw
  end.

(* a[i] *)
Definition at_ (a : list string) (i : nat) : jsval :=
  match a !! i with
  | Some s => Str s
  | None => Undefined
  end.

(* m[n] for a match array *)
Definition grp (m : Regex.result) (n : nat) : jsval :=
  match Regex.m_groups m !! n with
  | Some (Some w) => Str w
  | _ => Undefined
  end.

(* new RegExp(src, fl) *)
Definition new_RegExp (src fl : string) : res Regex.regex :=
  match Regex.parse src fl with
  | Some rx => Ok rx
  | None => Throw
  end.

(* o.k and o.k = v on a plain object *)
Definition get (o : gmap string jsval) (k : string) : jsval :=
  default Undefined (o !! k).
Definition set (k : string) (v : jsval) (o : gmap string jsval) : gmap string jsval :=
  <[k := v]> o.
(* k in o *)
Definition has (k : string) (o : gmap string jsval) : bool :=
  bool_decide (is_Some (o !! k)).

(* how a loop body ends: fall through to the next iteration, or break *)
Inductive ctl (S : Type) : Type :=
| Next (s : S)
| Break (s : S).
Arguments Next {S} s.
Arguments Break {S} s.

(* for (let i = from; i < from + count; i++) body *)
Fixpoint for_range {S : Type} (body : nat -> S -> res (ctl S))
    (from count : nat) (s : S) : res S :=
  match count with
  | O => Ok s
  | Datatypes.S c =>
      match body from s with
      | Ok (Next s') => for_range body (Datatypes.S from) c s'
      | Ok (Break s') => Ok s'
      | Throw => Throw
      end
  end.

(* for (const x of xs) body *)
Fixpoint for_of {A S : Type} (body : A -> S -> res (ctl S))
    (xs : list A) (s : S) : res S :=
  match xs with
  | [] => Ok s
  | x :: xs' =>
      match body x s with
      | Ok (Next s') => for_of body xs' s'
      | Ok (Break s') => Ok s'
      | Throw => Throw
      end
  end.

(* two statements of a loop body in sequence *)
Definition and_then {S : Type} (a : res (ctl S)) (b : S -> res (ctl S)) : res (ctl S) :=
  match a with
  | Ok (Next s) => b s
  | other => other
  end.

End Js.

Export Js.

Notation "'let*' x ':=' m 'in' k" := (bind m (fun x => k))
  (at level 10, x name, m at level 100, k at level 200).

(* a RegExp literal /src/fl, read when the definition is checked *)
Ltac regex_literal src fl :=
  let r := eval vm_compute in (Regex.parse src fl) in
  lazymatch r with
  | Some ?rx => exact rx
  end.
Notation "'RX' src fl" := (ltac:(regex_literal src fl))
  (at level 10, src at level 0, fl at level 0, only parsing).

(** ** DataExtractor

    The receiver of a string method is the last argument:
    [includes "NAME" lineUpper] is [lineUpper.includes("NAME")]. *)

Module DataExtractor.
Import JsStr.

(* text.replace(/\s+/g, " "), used all over *)
Definition re_spaces_g : Regex.regex := RX "\s+" "g".
Definition collapse (s : string) : string := Regex.replace re_spaces_g " " s.

Definition re_space_g : Regex.regex := RX "\s" "g".
Definition re_dash_g : Regex.regex := RX "-" "g".
Definition re_lines : Regex.regex := RX "\n|\r\n?" "".
Definition re_words : Regex.regex := RX "\s+" "".
Definition re_leading_digit : Regex.regex := RX "^\d" "".

(* text.split(/\n|\r\n?/).map(l => l.trim()).filter(l => l.length > 0) *)
Definition lines_of (text : string) : list string :=
  List.filter nonempty (map trim (Regex.split re_lines text)).

(* `${cnic.substring(0, 5)}-${cnic.substring(5, 12)}-${cnic.substring(12)}` *)
Definition dashed (cnic : string) : string :=
  substring 0 5 cnic ++ "-" ++ substring 5 12 cnic ++ "-" ++ drop 12 cnic.

(** *** extractCNICData *)

Definition cnic_initial (text : string) : gmap string jsval :=
  set "name" Null (set "fatherName" Null (set "country" Null
  (set "cnicNumber" Null (set "dateOfBirth" Null (set "dateOfIssue" Null
  (set "dateOfExpiry" Null (set "gender" Null (set "address" Null
  (set "rawText" (Str text) ∅))))))))).

Definition cnicPattern : Regex.regex := RX "(\d{5}[-]?\s?\d{7}[-]?\s?\d{1})" "".

Definition cnic_number (normalizedText : string) (data : gmap string jsval)
    : res (gmap string jsval) :=
  match Regex.exec cnicPattern normalizedText with
  | Some cnicMatch =>
      let* g := str_of (grp cnicMatch 1) in
      let cnic := Regex.replace re_dash_g "" (Regex.replace re_space_g "" g) in
      if (String.length cnic =? 13)%nat
      then Ok (set "cnicNumber" (Str (dashed cnic)) data)
      else Ok (set "cnicNumber" (grp cnicMatch 1) data)
  | None => Ok data
  end.

Definition datePattern : Regex.regex := RX "(\d{1,2}[.\/]\d{1,2}[.\/]\d{4})" "g".
Definition dobPattern : Regex.regex :=
  RX "(?:DOB|Date\s+of\s+Birth|Birth)[:\s]*(\d{1,2}[.\/]\d{1,2}[.\/]\d{4})" "i".
Definition issuePattern : Regex.regex :=
  RX "(?:DOI|Date\s+of\s+Issue|Issue)[:\s]*(\d{1,2}[.\/]\d{1,2}[.\/]\d{4})" "i".
Definition expiryPattern : Regex.regex :=
  RX "(?:DOE|Date\s+of\s+Expiry|Expiry|Valid\s+Until)[:\s]*(\d{1,2}[.\/]\d{1,2}[.\/]\d{4})" "i".

(* normalizedText.match(datePattern) || [] *)
Definition cnic_dates (normalizedText : string) : list string :=
  map Regex.whole (Regex.matchAll datePattern normalizedText).

(* if (m) data[k] = m[1]; else if (dates.length >= n + 1) data[k] = dates[n] *)
Definition labelled_or_nth (pattern : Regex.regex) (k : string) (n : nat)
    (normalizedText : string) (dates : list string)
    (data : gmap string jsval) : gmap string jsval :=
  match Regex.exec pattern normalizedText with
  | Some m => set k (grp m 1) data
  | None =>
      if (n + 1 <=? length dates)%nat then set k (at_ dates n) data else data
  end.

Definition cnic_date_fields (normalizedText : string) (data : gmap string jsval)
    : gmap string jsval :=
  let dates := cnic_dates normalizedText in
  let data := labelled_or_nth dobPattern "dateOfBirth" 0 normalizedText dates data in
  let data := labelled_or_nth issuePattern "dateOfIssue" 1 normalizedText dates data in
  labelled_or_nth expiryPattern "dateOfExpiry" 2 normalizedText dates data.

Definition genderPattern : Regex.regex := RX "\b(MALE|FEMALE|M|F)\b" "i".

Definition gender_field (normalizedText : string) (data : gmap string jsval)
    : res (gmap string jsval) :=
  match Regex.exec genderPattern normalizedText with
  | Some genderMatch =>
      let* g := str_of (grp genderMatch 1) in
      Ok (set "gender" (Str (toUpperCase g)) data)
  | None => Ok data
  end.

Definition excludeKeywords : list string :=
  [ "PAKISTAN"; "PAK"; "NATIONAL"; "IDENTITY"; "CARD"; "ISLAMIC"; "REPUBLIC";
    "CNIC"; "MALE"; "FEMALE"; "GENDER"; "COUNTRY"; "DATE"; "BIRTH"; "ISSUE";
    "EXPIRY"; "ADDRESS"; "HOLDER"; "SIGNATURE"; "STAY"; "OF"; "NUMBER" ].

(* v === keyword || v.startsWith(keyword + " ") || v.endsWith(" " + keyword) *)
Definition excluded_strict (v : string) : bool :=
  existsb (fun keyword =>
    String.eqb v keyword
    || startsWith (keyword ++ " ") v
    || endsWith (" " ++ keyword) v) excludeKeywords.

(* v === keyword || (v.length < 20 && v.includes(keyword)) *)
Definition excluded_lenient (v : string) : bool :=
  existsb (fun keyword =>
    String.eqb v keyword
    || ((String.length v <? 20)%nat && includes keyword v)) excludeKeywords.

(* lineUpper.includes(keyword) && lineUpper.length < 30 *)
Definition excluded_line (lineUpper : string) : bool :=
  existsb (fun keyword =>
    includes keyword lineUpper && (String.length lineUpper <? 30)%nat) excludeKeywords.

Definition re_name_same : Regex.regex := RX "Name[:\s]+(.+)$" "i".
Definition re_name_other_label : Regex.regex :=
  RX "^(FATHER|HUSBAND|GENDER|COUNTRY|IDENTITY|CNIC|DATE|BIRTH|ISSUE|EXPIRY)" "".
Definition re_name_next_label : Regex.regex :=
  RX "^(FATHER|HUSBAND|GENDER|COUNTRY|IDENTITY|CNIC|DATE|BIRTH|ISSUE|EXPIRY|MALE|FEMALE)" "".

(* the value on the label's own line: "Name: VALUE" *)
Definition cnic_name_same_line (line : string) (data : gmap string jsval)
    : res (ctl (gmap string jsval)) :=
  match Regex.exec re_name_same line with
  | Some sameLineMatch =>
      if truthy (grp sameLineMatch 1) then
        let* g := str_of (grp sameLineMatch 1) in
        let name := collapse (trim g) in
        let nameUpper := toUpperCase name in
        if (2 <=? String.length name)%nat
           && negb (Regex.test re_leading_digit name)
           && negb (excluded_strict nameUpper)
           && negb (Regex.test re_name_other_label nameUpper)
        then Ok (Break (set "name" (Str (toUpperCase name)) data))
        else Ok (Next data)
      else Ok (Next data)
  | None => Ok (Next data)
  end.

(* the value on the line after the label *)
Definition cnic_name_next_line (lines : list string) (i : nat)
    (data : gmap string jsval) : res (ctl (gmap string jsval)) :=
  if negb (truthy (get data "name")) && (i + 1 <? length lines)%nat then
    let* l := str_of (at_ lines (i + 1)) in
    let name := collapse (trim l) in
    let nameUpper := toUpperCase name in
    if (2 <=? String.length name)%nat
       && negb (Regex.test re_leading_digit name)
       && negb (excluded_lenient nameUpper)
       && negb (Regex.test re_name_next_label nameUpper)
    then Ok (Break (set "name" (Str (toUpperCase name)) data))
    else Ok (Next data)
  else Ok (Next data).

Definition cnic_name_label_body (lines : list string) (i : nat)
    (data : gmap string jsval) : res (ctl (gmap string jsval)) :=
  let* l := str_of (at_ lines i) in
  let line := trim l in
  let lineUpper := toUpperCase line in
  let hasName := includes "NAME" lineUpper in
  let hasFather := includes "FATHER" lineUpper in
  let hasHusband := includes "HUSBAND" lineUpper in
  let isNameLabel := hasName && negb hasFather && negb hasHusband in
  if isNameLabel then
    and_then (cnic_name_same_line line data) (cnic_name_next_line lines i)
  else Ok (Next data).

Definition cnic_name_label (lines : list string) (data : gmap string jsval)
    : res (gmap string jsval) :=
  for_range (cnic_name_label_body lines) 0 (length lines) data.

(** the name by position, after the header lines *)

(* the last of the first five lines that names the country or the card *)
Definition header_end_body (lines : list string) (i : nat)
    (headerEndIndex : option nat) : res (ctl (option nat)) :=
  let* l := str_of (at_ lines i) in
  let lineUpper := toUpperCase l in
  if includes "PAKISTAN" lineUpper
     || includes "IDENTITY" lineUpper
     || includes "CARD" lineUpper
  then Ok (Next (Some i))
  else Ok (Next headerEndIndex).

Definition re_five_digits : Regex.regex := RX "\d{5}" "".

Definition cnic_name_fallback_body (lines : list string) (i : nat)
    (data : gmap string jsval) : res (ctl (gmap string jsval)) :=
  let* l := str_of (at_ lines i) in
  let line := trim l in
  let lineUpper := toUpperCase line in
  let containsExcluded := excluded_line lineUpper in
  let isLabel := Regex.test re_name_next_label lineUpper in
  let hasNumbers := Regex.test re_five_digits line in
  let wordCount := length (Regex.split re_words line) in
  let isNameLike :=
    (1 <=? wordCount)%nat && (wordCount <=? 4)%nat
    && (3 <=? String.length line)%nat && (String.length line <=? 30)%nat
    && negb (Regex.test re_leading_digit line)
    && negb containsExcluded && negb isLabel && negb hasNumbers in
  if isNameLike
  then Ok (Break (set "name" (Str (toUpperCase (trim (collapse line)))) data))
  else Ok (Next data).

Definition cnic_name_fallback (lines : list string) (data : gmap string jsval)
    : res (gmap string jsval) :=
  if negb (truthy (get data "name")) && (1 <? length lines)%nat then
    let* headerEndIndex :=
      for_range (header_end_body lines) 0 (Nat.min (length lines) 5) None in
    let startIndex := match headerEndIndex with Some h => h + 1 | None => 1 end in
    for_range (cnic_name_fallback_body lines) startIndex
      (Nat.min (length lines) (startIndex + 5) - startIndex) data
  else Ok data.

(** the father's or husband's name by label *)

Definition re_father_same : Regex.regex :=
  RX "(?:Father\s+Name|Father|Husband\s+Name|Husband|S\/O|D\/O|W\/O)[:\s]+(.+)$" "i".
Definition re_father_other_label : Regex.regex :=
  RX "^(GENDER|COUNTRY|IDENTITY|CNIC|DATE|BIRTH|ISSUE|EXPIRY|NAME)" "".
Definition re_father_next_label : Regex.regex :=
  RX "^(GENDER|COUNTRY|IDENTITY|CNIC|DATE|BIRTH|ISSUE|EXPIRY|MALE|FEMALE|NAME)" "".

(* !data.name || fatherName.toUpperCase() !== data.name.toUpperCase() *)
Definition differs_from_name (fatherName : string) (data : gmap string jsval)
    : res bool :=
  if negb (truthy (get data "name")) then Ok true
  else
    let* n := str_of (get data "name") in
    Ok (negb (String.eqb (toUpperCase fatherName) (toUpperCase n))).

Definition cnic_father_same_line (line : string) (data : gmap string jsval)
    : res (ctl (gmap string jsval)) :=
  match Regex.exec re_father_same line with
  | Some sameLineMatch =>
      if truthy (grp sameLineMatch 1) then
        let* g := str_of (grp sameLineMatch 1) in
        let fatherName := collapse (trim g) in
        let fatherNameUpper := toUpperCase fatherName in
        if (2 <=? String.length fatherName)%nat
           && negb (Regex.test re_leading_digit fatherName)
           && negb (excluded_strict fatherNameUpper)
           && negb (Regex.test re_father_other_label fatherNameUpper)
        then
          let* other := differs_from_name fatherName data in
          if other
          then Ok (Break (set "fatherName" (Str (toUpperCase fatherName)) data))
          else Ok (Next data)
        else Ok (Next data)
      else Ok (Next data)
  | None => Ok (Next data)
  end.

Definition cnic_father_next_line (lines : list string) (i : nat)
    (data : gmap string jsval) : res (ctl (gmap string jsval)) :=
  if negb (truthy (get data "fatherName")) && (i + 1 <? length lines)%nat then
    let* l := str_of (at_ lines (i + 1)) in
    let fatherName := collapse (trim l) in
    let fatherNameUpper := toUpperCase fatherName in
    if (2 <=? String.length fatherName)%nat
       && negb (Regex.test re_leading_digit fatherName)
       && negb (excluded_lenient fatherNameUpper)
       && negb (Regex.test re_father_next_label fatherNameUpper)
    then
      let* other := differs_from_name fatherName data in
      if other
      then Ok (Break (set "fatherName" (Str (toUpperCase fatherName)) data))
      else Ok (Next data)
    else Ok (Next data)
  else Ok (Next data).

Definition cnic_father_label_body (lines : list string) (i : nat)
    (data : gmap string jsval) : res (ctl (gmap string jsval)) :=
  let* l := str_of (at_ lines i) in
  let line := trim l in
  let lineUpper := toUpperCase line in
  let hasFather := includes "FATHER" lineUpper in
  let hasHusband := includes "HUSBAND" lineUpper in
  let hasName := includes "NAME" lineUpper in
  let isFatherNameLabel :=
    (hasFather && hasName) || (hasHusband && hasName)
    || includes "S/O" lineUpper || includes "D/O" lineUpper
    || includes "W/O" lineUpper in
  if isFatherNameLabel then
    and_then (cnic_father_same_line line data) (cnic_father_next_line lines i)
  else Ok (Next data).

Definition cnic_father_label (lines : list string) (data : gmap string jsval)
    : res (gmap string jsval) :=
  for_range (cnic_father_label_body lines) 0 (length lines) data.

(** the father's name by position, below the line of the name *)

Definition name_line_body (lines : list string) (name : string) (i : nat)
    (nameLineIndex : option nat) : res (ctl (option nat)) :=
  let* l := str_of (at_ lines i) in
  let lineUpper := toUpperCase l in
  let nameUpper := toUpperCase name in
  if includes nameUpper lineUpper
     || includes lineUpper nameUpper
     || ((5 <? String.length nameUpper)%nat
         && includes (substring 0 5 nameUpper)
              (substring 0 (String.length nameUpper) lineUpper))
  then Ok (Break (Some i))
  else Ok (Next nameLineIndex).

Definition re_no_letter : Regex.regex := RX "^[^A-Za-z]*$" "".
Definition re_letter_g : Regex.regex := RX "[A-Za-z]" "g".
Definition re_repeated : Regex.regex := RX "(.)\1{2,}" "".
Definition re_non_letter_g : Regex.regex := RX "[^A-Za-z]" "g".
(* the source class also lists a non-ASCII dash *)
Definition re_leading_marks : Regex.regex := RX "^[\-_|]+" "".
Definition re_leading_non_letters : Regex.regex := RX "^[^A-Za-z]{2,}" "".
Definition re_trailing_marks : Regex.regex := RX "[|\-_\s]+$" "".
Definition re_leading_marks_ws : Regex.regex := RX "^[|\-_\s]+" "".
Definition re_three_letters : Regex.regex := RX "[A-Za-z]{3,}" "".

Definition cnic_father_fallback_body (lines : list string) (name : string)
    (i : nat) (data : gmap string jsval) : res (ctl (gmap string jsval)) :=
  let* l := str_of (at_ lines i) in
  let line := trim l in
  let lineUpper := toUpperCase line in
  if (String.length line <? 6)%nat then Ok (Next data)
  else if Regex.test re_no_letter line then Ok (Next data)
  else
    let containsExcluded := excluded_line lineUpper in
    let isLabel := Regex.test re_father_next_label lineUpper in
    let hasNumbers := Regex.test re_five_digits line in
    let letterCount := length (Regex.matchAll re_letter_g line) in
    (* letterCount >= line.length * 0.6 *)
    let hasEnoughLetters := (6 * String.length line <=? 10 * letterCount)%nat in
    let hasSuspiciousPattern := Regex.test re_repeated line in
    let words := List.filter nonempty (Regex.split re_words line) in
    let hasProperNameWord :=
      existsb (fun word =>
        (3 <=? String.length (Regex.replace re_non_letter_g "" word))%nat) words in
    let wordCount := length words in
    let isFatherNameLike :=
      (1 <=? wordCount)%nat && (wordCount <=? 4)%nat
      && (8 <=? String.length line)%nat && (String.length line <=? 35)%nat
      && negb (Regex.test re_leading_digit line)
      && negb containsExcluded && negb isLabel && negb hasNumbers
      && hasEnoughLetters
      && negb (Regex.test re_leading_marks line)
      && negb (Regex.test re_leading_non_letters line)
      && negb hasSuspiciousPattern
      && hasProperNameWord in
    if isFatherNameLike then
      if negb (String.eqb (toUpperCase line) (toUpperCase name)) then
        let cleaned := trim (collapse line) in
        let cleaned := trim (Regex.replace re_trailing_marks "" cleaned) in
        let cleaned := trim (Regex.replace re_leading_marks_ws "" cleaned) in
        if (8 <=? String.length cleaned)%nat && Regex.test re_three_letters cleaned
        then Ok (Break (set "fatherName" (Str (toUpperCase cleaned)) data))
        else Ok (Next data)
      else Ok (Next data)
    else Ok (Next data).

Definition cnic_father_fallback (lines : list string) (data : gmap string jsval)
    : res (gmap string jsval) :=
  if negb (truthy (get data "fatherName")) && truthy (get data "name")
     && (2 <? length lines)%nat
  then
    let* name := str_of (get data "name") in
    let* nameLineIndex :=
      for_range (name_line_body lines name) 0 (length lines) None in
    let startIndex := match nameLineIndex with Some n => n + 2 | None => 3 end in
    for_range (cnic_father_fallback_body lines name) startIndex
      (Nat.min (length lines) (startIndex + 6) - startIndex) data
  else Ok data.

(** the country *)

Definition countryKeywords : list string :=
  [ "PAKISTAN"; "PAK"; "USA"; "UNITED STATES"; "UNITED STATES OF AMERICA";
    "UK"; "UNITED KINGDOM"; "CANADA"; "AUSTRALIA"; "INDIA"; "CHINA";
    "GERMANY"; "FRANCE"; "ITALY"; "SPAIN"; "SAUDI ARABIA"; "UAE";
    "UNITED ARAB EMIRATES"; "BANGLADESH"; "SRI LANKA"; "AFGHANISTAN"; "IRAN";
    "TURKEY"; "EGYPT"; "JAPAN"; "SOUTH KOREA"; "THAILAND"; "MALAYSIA";
    "INDONESIA"; "SINGAPORE"; "PHILIPPINES"; "VIETNAM" ].

Definition normalize_country (keyword : string) : string :=
  if String.eqb keyword "PAK" then "PAKISTAN"
  else if String.eqb keyword "USA" || String.eqb keyword "US" then "UNITED STATES"
  else if String.eqb keyword "UK" then "UNITED KINGDOM"
  else if String.eqb keyword "UAE" then "UNITED ARAB EMIRATES"
  else keyword.

(* new RegExp(`\\b${keyword.replace(/\s+/g, "\\s+")}\\b`, "i") *)
Definition keyword_regexp (keyword : string) : res Regex.regex :=
  new_RegExp ("\b" ++ Regex.replace re_spaces_g "\s+" keyword ++ "\b") "i".

Definition country_keyword_body (text : string) (keyword : string)
    (data : gmap string jsval) : res (ctl (gmap string jsval)) :=
  let* pattern := keyword_regexp keyword in
  if Regex.test pattern text
  then Ok (Break (set "country" (Str (normalize_country keyword)) data))
  else Ok (Next data).

Definition countryPatterns : list Regex.regex :=
  [ RX "(?:Country|Nationality|Country\s+of\s+Birth|Country\s+Name|Nationality\s+Code)[:\s]+([A-Z\s]{2,}?)(?:\s+\d|$)" "im";
    RX "(?:Issued\s+in|Issued\s+by|Place\s+of\s+Issue)[:\s]+([A-Z\s]{2,}?)(?:\s+\d|$)" "i" ].

(* countryKeywords.find(keyword => ...) *)
Definition matched_country (country : string) : option string :=
  List.find (fun keyword =>
    includes keyword country
    || includes country keyword
    || includes (collapse keyword) (collapse country)) countryKeywords.

Definition country_pattern_body (text : string) (pattern : Regex.regex)
    (data : gmap string jsval) : res (ctl (gmap string jsval)) :=
  match Regex.exec pattern text with
  | Some m =>
      if truthy (grp m 1) then
        let* g := str_of (grp m 1) in
        let country := toUpperCase (trim g) in
        match matched_country country with
        | Some keyword =>
            Ok (Break (set "country" (Str (normalize_country keyword)) data))
        | None =>
            if (3 <=? String.length country)%nat
               && negb (Regex.test re_leading_digit country)
            then Ok (Break (set "country" (Str country) data))
            else Ok (Next data)
        end
      else Ok (Next data)
  | None => Ok (Next data)
  end.

Definition re_pakistan_word : Regex.regex := RX "\bPAKISTAN\b" "i".
Definition re_pak_word : Regex.regex := RX "\bPAK\b" "i".
Definition re_pakistan : Regex.regex := RX "PAKISTAN" "i".

Definition cnic_country (text : string) (data : gmap string jsval)
    : res (gmap string jsval) :=
  let* data := for_of (country_keyword_body text) countryKeywords data in
  let* data :=
    if negb (truthy (get data "country"))
    then for_of (country_pattern_body text) countryPatterns data
    else Ok data in
  if negb (truthy (get data "country")) then
    if Regex.test re_pakistan_word text
    then Ok (set "country" (Str "PAKISTAN") data)
    else if Regex.test re_pak_word text && negb (Regex.test re_pakistan text)
    then Ok (set "country" (Str "PAKISTAN") data)
    else Ok data
  else Ok data.

Definition addressPattern : Regex.regex :=
  RX "(?:Address|Residence)[:\s]+(.+?)(?:\s+\d{5}|$)" "i".

Definition cnic_address (normalizedText : string) (data : gmap string jsval)
    : res (gmap string jsval) :=
  match Regex.exec addressPattern normalizedText with
  | Some addressMatch =>
      if truthy (grp addressMatch 1) then
        let* g := str_of (grp addressMatch 1) in
        Ok (set "address" (Str (trim g)) data)
      else Ok data
  | None => Ok data
  end.

Definition extractCNICData (text : string) : res (gmap string jsval) :=
  let data := cnic_initial text in
  let normalizedText := trim (collapse text) in
  let* data := cnic_number normalizedText data in
  let data := cnic_date_fields normalizedText data in
  let* data := gender_field normalizedText data in
  let lines := lines_of text in
  let* data := cnic_name_label lines data in
  let* data := cnic_name_fallback lines data in
  let* data := cnic_father_label lines data in
  let* data := cnic_father_fallback lines data in
  let* data := cnic_country text data in
  cnic_address normalizedText data.

(** *** extractPassportData *)

(* the object the route builds from a valid MRZ *)
Record MrzData : Type := {
  mrz_passportNumber : jsval;
  mrz_surname : jsval;
  mrz_givenNames : jsval;
  mrz_nationality : jsval;
  mrz_dateOfBirth : jsval;
  mrz_gender : jsval;
  mrz_dateOfExpiry : jsval;
  mrz_issuingAuthority : jsval;
  mrz_citizenshipNumber : jsval
}.

Definition passport_initial (text : string) : gmap string jsval :=
  set "passportNumber" Null (set "surname" Null (set "givenNames" Null
  (set "nationality" Null (set "dateOfBirth" Null (set "placeOfBirth" Null
  (set "gender" Null (set "dateOfIssue" Null (set "dateOfExpiry" Null
  (set "issuingAuthority" Null (set "husbandName" Null (set "fatherName" Null
  (set "citizenshipNumber" Null (set "trackingNumber" Null
  (set "rawText" (Str text) ∅)))))))))))))).

(* if (v) data[k] = v *)
Definition set_if_truthy (k : string) (v : jsval) (data : gmap string jsval)
    : gmap string jsval :=
  if truthy v then set k v data else data.

Definition apply_mrz (mrzData : option MrzData) (data : gmap string jsval)
    : gmap string jsval :=
  match mrzData with
  | Some mrz =>
      let data := set_if_truthy "passportNumber" (mrz_passportNumber mrz) data in
      let data := set_if_truthy "surname" (mrz_surname mrz) data in
      let data := set_if_truthy "givenNames" (mrz_givenNames mrz) data in
      let data := set_if_truthy "nationality" (mrz_nationality mrz) data in
      let data := set_if_truthy "dateOfBirth" (mrz_dateOfBirth mrz) data in
      let data := set_if_truthy "gender" (mrz_gender mrz) data in
      let data := set_if_truthy "dateOfExpiry" (mrz_dateOfExpiry mrz) data in
      set_if_truthy "citizenshipNumber" (mrz_citizenshipNumber mrz) data
  | None => data
  end.

(** The label loops of extractPassportData share one shape: find a line
    that carries the label, take the value after the label on that line
    (trimmed, checked, stored and break) or else, when the field is still
    empty, the line below. *)
Record label_rule : Type := {
  lr_key : string;
  lr_is_label : string -> bool;    (* on the upper-cased line *)
  lr_same : Regex.regex;           (* the value on the label's line *)
  lr_clean : string -> string;     (* what follows the trim *)
  lr_same_ok : string -> bool;
  lr_next_ok : string -> bool;
  lr_store : string -> string
}.

Definition label_same_line (rule : label_rule) (line : string)
    (data : gmap string jsval) : res (ctl (gmap string jsval)) :=
  match Regex.exec (lr_same rule) line with
  | Some sameLineMatch =>
      if truthy (grp sameLineMatch 1) then
        let* g := str_of (grp sameLineMatch 1) in
        let v := lr_clean rule (trim g) in
        if lr_same_ok rule v
        then Ok (Break (set (lr_key rule) (Str (lr_store rule v)) data))
        else Ok (Next data)
      else Ok (Next data)
  | None => Ok (Next data)
  end.

Definition label_next_line (rule : label_rule) (lines : list string) (i : nat)
    (data : gmap string jsval) : res (ctl (gmap string jsval)) :=
  if negb (truthy (get data (lr_key rule))) && (i + 1 <? length lines)%nat then
    let* l := str_of (at_ lines (i + 1)) in
    let v := lr_clean rule (trim l) in
    if lr_next_ok rule v
    then Ok (Break (set (lr_key rule) (Str (lr_store rule v)) data))
    else Ok (Next data)
  else Ok (Next data).

Definition label_body (rule : label_rule) (lines : list string) (i : nat)
    (data : gmap string jsval) : res (ctl (gmap string jsval)) :=
  let* l := str_of (at_ lines i) in
  let line := trim l in
  let lineUpper := toUpperCase line in
  if lr_is_label rule lineUpper then
    and_then (label_same_line rule line data) (label_next_line rule lines i)
  else Ok (Next data).

Definition label_loop (rule : label_rule) (lines : list string)
    (data : gmap string jsval) : res (gmap string jsval) :=
  for_range (label_body rule lines) 0 (length lines) data.

Definition len_between (lo hi : nat) (v : string) : bool :=
  (lo <=? String.length v)%nat && (String.length v <=? hi)%nat.
Definition len_at_least (lo : nat) (v : string) : bool :=
  (lo <=? String.length v)%nat.
Definition no_leading_digit (v : string) : bool :=
  negb (Regex.test re_leading_digit v).

Definition re_a_digit : Regex.regex := RX "\d" "".
Definition has_digit (v : string) : bool := Regex.test re_a_digit v.

Definition re_upper_alnum : Regex.regex := RX "^[A-Z0-9]+$" "".
Definition re_all_digits : Regex.regex := RX "^\d+$" "".

Definition rule_passportNumber : label_rule := {|
  lr_key := "passportNumber";
  lr_is_label u := includes "PASSPORT" u && includes "NUMBER" u;
  lr_same := RX "Passport\s+Number[:\s]+(.+)$" "i";
  lr_clean v := v;
  lr_same_ok v := len_between 6 12 v;
  lr_next_ok v := len_between 6 12 v && Regex.test re_upper_alnum v;
  lr_store := toUpperCase |}.

Definition rule_dateOfBirth : label_rule := {|
  lr_key := "dateOfBirth";
  lr_is_label u := includes "DATE" u && includes "BIRTH" u;
  lr_same := RX "Date\s+of\s+Birth[:\s]+(.+)$" "i";
  lr_clean v := v;
  lr_same_ok := has_digit;
  lr_next_ok := has_digit;
  lr_store := toUpperCase |}.

Definition rule_dateOfExpiry : label_rule := {|
  lr_key := "dateOfExpiry";
  lr_is_label u := includes "DATE" u && (includes "EXPIRY" u || includes "EXPIR" u);
  lr_same := RX "Date\s+of\s+Expiry[:\s]+(.+)$" "i";
  lr_clean v := v;
  lr_same_ok := has_digit;
  lr_next_ok := has_digit;
  lr_store := toUpperCase |}.

Definition rule_nationality : label_rule := {|
  lr_key := "nationality";
  lr_is_label u := includes "NATIONALITY" u && negb (includes "NUMBER" u);
  lr_same := RX "Nationality[:\s]+(.+)$" "i";
  lr_clean v := v;
  lr_same_ok v := len_at_least 3 v;
  lr_next_ok v := len_at_least 3 v && no_leading_digit v;
  lr_store := toUpperCase |}.

Definition rule_surname : label_rule := {|
  lr_key := "surname";
  lr_is_label u :=
    (includes "SURNAME" u || includes "SUR NAME" u) && negb (includes "GIVEN" u);
  lr_same := RX "(?:Sur\s*)?Name[:\s]+(.+)$" "i";
  lr_clean v := v;
  lr_same_ok v := len_at_least 2 v && no_leading_digit v;
  lr_next_ok v :=
    len_at_least 2 v && no_leading_digit v
    && negb (includes "GIVEN" (toUpperCase v));
  lr_store := toUpperCase |}.

Definition rule_givenNames : label_rule := {|
  lr_key := "givenNames";
  lr_is_label u := includes "GIVEN" u && includes "NAME" u;
  lr_same := RX "Given\s+Names?[:\s]+(.+)$" "i";
  lr_clean := collapse;
  lr_same_ok v := len_at_least 2 v && no_leading_digit v;
  lr_next_ok v :=
    len_at_least 2 v && no_leading_digit v
    && negb (includes "NATIONALITY" (toUpperCase v));
  lr_store := toUpperCase |}.

Definition rule_placeOfBirth : label_rule := {|
  lr_key := "placeOfBirth";
  lr_is_label u := includes "PLACE" u && includes "BIRTH" u;
  lr_same := RX "Place\s+of\s+Birth[:\s]+(.+)$" "i";
  lr_clean v := v;
  lr_same_ok v := len_at_least 3 v;
  lr_next_ok v := len_at_least 3 v;
  lr_store := toUpperCase |}.

Definition rule_fatherName : label_rule := {|
  lr_key := "fatherName";
  lr_is_label u :=
    (includes "FATHER" u && includes "NAME" u)
    || (includes "FATHER" u && negb (includes "HUSBAND" u));
  lr_same := RX "Father\s+Name[:\s]+(.+)$" "i";
  lr_clean := collapse;
  lr_same_ok v := len_at_least 2 v && no_leading_digit v;
  lr_next_ok v := len_at_least 2 v && no_leading_digit v;
  lr_store := toUpperCase |}.

Definition rule_dateOfIssue : label_rule := {|
  lr_key := "dateOfIssue";
  lr_is_label u :=
    (includes "DATE" u && includes "ISSUE" u)
    || (includes "DATE" u && includes "ISSUANCE" u);
  lr_same := RX "Date\s+of\s+(?:Issue|Issuance)[:\s]+(.+)$" "i";
  lr_clean v := v;
  lr_same_ok := has_digit;
  lr_next_ok := has_digit;
  lr_store := toUpperCase |}.

Definition rule_issuingAuthority : label_rule := {|
  lr_key := "issuingAuthority";
  lr_is_label u := includes "ISSUING" u && includes "AUTHORITY" u;
  lr_same := RX "Issuing\s+Authority[:\s]+(.+)$" "i";
  lr_clean v := v;
  lr_same_ok v := len_at_least 3 v;
  lr_next_ok v := len_at_least 3 v && no_leading_digit v;
  lr_store := toUpperCase |}.

Definition rule_trackingNumber : label_rule := {|
  lr_key := "trackingNumber";
  lr_is_label u := includes "TRACKING" u && includes "NUMBER" u;
  lr_same := RX "Tracking\s+Number[:\s]+(.+)$" "i";
  lr_clean v := v;
  lr_same_ok v := len_at_least 5 v;
  lr_next_ok v := len_at_least 5 v && Regex.test re_all_digits v;
  lr_store v := v |}.

Definition rule_citizenshipNumber : label_rule := {|
  lr_key := "citizenshipNumber";
  lr_is_label u := includes "CITIZENSHIP" u && includes "NUMBER" u;
  lr_same := RX "Citizenship\s+Number[:\s]+(.+)$" "i";
  lr_clean v := v;
  lr_same_ok := has_digit;
  lr_next_ok := has_digit;
  lr_store v := v |}.

(** the fallbacks of extractPassportData *)

Definition passportPattern : Regex.regex :=
  RX "(?:Passport|P\s*No|Passport\s*No)[:\s]*([A-Z0-9]{6,12})" "i".
Definition re_passport_shape : Regex.regex := RX "\b([A-Z]{2}\d{7,8})\b" "".

Definition passport_number_lines_body (lines : list string) (i : nat)
    (data : gmap string jsval) : res (ctl (gmap string jsval)) :=
  let* line := str_of (at_ lines i) in
  match Regex.exec re_passport_shape line with
  | Some passportMatch =>
      let* g := str_of (grp passportMatch 1) in
      Ok (Break (set "passportNumber" (Str (toUpperCase g)) data))
  | None => Ok (Next data)
  end.

Definition passport_number_fallback (lines : list string) (normalizedText : string)
    (data : gmap string jsval) : res (gmap string jsval) :=
  if negb (truthy (get data "passportNumber")) then
    let* data :=
      match Regex.exec passportPattern normalizedText with
      | Some passportMatch =>
          let* g := str_of (grp passportMatch 1) in
          Ok (set "passportNumber" (Str (toUpperCase g)) data)
      | None => Ok data
      end in
    if negb (truthy (get data "passportNumber"))
    then for_range (passport_number_lines_body lines) 0 (length lines) data
    else Ok data
  else Ok data.

Definition re_day_digits : Regex.regex := RX "^\d{1,2}$" "".

(* the day of a "DD MMM YYYY" date with the usual misreadings repaired;
   [dflt] is the day taken when no digit is left *)
Definition fix_day (dflt : string) (day0 : string) : string :=
  let dayLower := toLowerCase day0 in
  let day :=
    if String.eqb dayLower "lo" || String.eqb dayLower "io" || String.eqb dayLower "1o"
    then "10" else day0 in
  let day :=
    if String.eqb dayLower "o1" || String.eqb dayLower "01" then "01" else day in
  let day :=
    if String.eqb dayLower "o2" || String.eqb dayLower "02" then "02" else day in
  if negb (Regex.test re_day_digits day) then
    match Regex.exec re_a_digit day with
    | Some digitMatch => padStart 2 "0" (Regex.whole digitMatch)
    | None => dflt
    end
  else day.

(* `${day.padStart(2, "0")} ${month} ${year}` *)
Definition month_date (dflt : string) (m : Regex.result) : res string :=
  let* d := str_of (grp m 1) in
  let day := fix_day dflt d in
  let* mo := str_of (grp m 2) in
  let month := toUpperCase mo in
  let* year := str_of (grp m 3) in
  Ok (padStart 2 "0" day ++ " " ++ month ++ " " ++ year)%string.

Definition re_dob_line : Regex.regex :=
  RX "(?:-?\s*)?(\d{1,2}|[a-z]{2})\s+(JAN|FEB|MAR|APR|MAY|JUN|JUL|AUG|SEP|OCT|NOV|DEC)\s+(\d{4})" "i".
Definition re_cnic_dashed : Regex.regex := RX "\d{5}-\d{7}-\d{1}" "".
Definition re_thirteen_digits : Regex.regex := RX "\d{13}" "".

Definition dob_lines_body (lines : list string) (i : nat)
    (data : gmap string jsval) : res (ctl (gmap string jsval)) :=
  let* l := str_of (at_ lines i) in
  let line := trim l in
  match Regex.exec re_dob_line line with
  | Some dateMatch =>
      let* date := month_date "10" dateMatch in
      if Regex.test re_cnic_dashed line || Regex.test re_thirteen_digits line
      then Ok (Break (set "dateOfBirth" (Str date) data))
      else Ok (Next data)
  | None => Ok (Next data)
  end.

Definition dob_lines_fallback (lines : list string) (data : gmap string jsval)
    : res (gmap string jsval) :=
  if negb (truthy (get data "dateOfBirth"))
  then for_range (dob_lines_body lines) 0 (length lines) data
  else Ok data.

Definition re_expiry_line : Regex.regex :=
  RX "(?:[^0-9]*?)(\d{1,2}|[a-z]{2})\s+(JAN|FEB|MAR|APR|MAY|JUN|JUL|AUG|SEP|OCT|NOV|DEC)\s+(\d{4})" "i".
Definition re_tracking_digits : Regex.regex := RX "\d{10,12}" "".

Definition expiry_lines_body (lines : list string) (i : nat)
    (data : gmap string jsval) : res (ctl (gmap string jsval)) :=
  let* l := str_of (at_ lines i) in
  let line := trim l in
  let lineUpper := toUpperCase line in
  match Regex.exec re_expiry_line line with
  | Some dateMatch =>
      if negb (includes "BIRTH" lineUpper) then
        let* date := month_date "01" dateMatch in
        if Regex.test re_tracking_digits line
        then Ok (Break (set "dateOfExpiry" (Str date) data))
        else Ok (Next data)
      else Ok (Next data)
  | None => Ok (Next data)
  end.

Definition expiry_lines_fallback (lines : list string) (data : gmap string jsval)
    : res (gmap string jsval) :=
  if negb (truthy (get data "dateOfExpiry"))
  then for_range (expiry_lines_body lines) 0 (length lines) data
  else Ok data.

Definition datePatterns : list Regex.regex :=
  [ RX "(\d{1,2}\s+(?:JAN|FEB|MAR|APR|MAY|JUN|JUL|AUG|SEP|OCT|NOV|DEC)\s+\d{4})" "gi";
    RX "(\d{1,2}[.\/]\d{1,2}[.\/]\d{4})" "g" ].
Definition dobPatterns : list Regex.regex :=
  [ RX "(?:DOB|Date\s+of\s+Birth|Birth)[:\s]*(\d{1,2}\s+(?:JAN|FEB|MAR|APR|MAY|JUN|JUL|AUG|SEP|OCT|NOV|DEC)\s+\d{4})" "i";
    RX "(?:DOB|Date\s+of\s+Birth|Birth)[:\s]*(\d{1,2}[.\/]\d{1,2}[.\/]\d{4})" "i" ].
Definition expiryPatterns : list Regex.regex :=
  [ RX "(?:DOE|Date\s+of\s+Expiry|Expiry|Valid\s+Until)[:\s]*(\d{1,2}\s+(?:JAN|FEB|MAR|APR|MAY|JUN|JUL|AUG|SEP|OCT|NOV|DEC)\s+\d{4})" "i";
    RX "(?:DOE|Date\s+of\s+Expiry|Expiry|Valid\s+Until)[:\s]*(\d{1,2}[.\/]\d{1,2}[.\/]\d{4})" "i" ].

(* the matches of every date pattern, pattern by pattern *)
Definition passport_dates (normalizedText : string) : list string :=
  flat_map (fun pattern =>
    List.filter nonempty (map Regex.whole (Regex.matchAll pattern normalizedText)))
    datePatterns.

(* if (match && match[1] && !data[k]) { data[k] = match[1].trim(); break; } *)
Definition labelled_date_body (k : string) (normalizedText : string)
    (pattern : Regex.regex) (data : gmap string jsval)
    : res (ctl (gmap string jsval)) :=
  match Regex.exec pattern normalizedText with
  | Some m =>
      if truthy (grp m 1) && negb (truthy (get data k)) then
        let* g := str_of (grp m 1) in
        Ok (Break (set k (Str (trim g)) data))
      else Ok (Next data)
  | None => Ok (Next data)
  end.

(* if (!data[k] && dates.length >= n + 1) data[k] = dates[n] *)
Definition nth_date (k : string) (n : nat) (dates : list string)
    (data : gmap string jsval) : gmap string jsval :=
  if negb (truthy (get data k)) && (n + 1 <=? length dates)%nat
  then set k (at_ dates n) data
  else data.

Definition passport_date_fallback (normalizedText : string)
    (data : gmap string jsval) : res (gmap string jsval) :=
  if negb (truthy (get data "dateOfBirth")) || negb (truthy (get data "dateOfExpiry"))
  then
    let dates := passport_dates normalizedText in
    let* data := for_of (labelled_date_body "dateOfBirth" normalizedText) dobPatterns data in
    let data := nth_date "dateOfBirth" 0 dates data in
    let* data := for_of (labelled_date_body "dateOfExpiry" normalizedText) expiryPatterns data in
    Ok (nth_date "dateOfExpiry" 1 dates data)
  else Ok data.

Definition nationality_fallback_body (lines : list string) (i : nat)
    (data : gmap string jsval) : res (ctl (gmap string jsval)) :=
  let* l := str_of (at_ lines i) in
  if includes "PAKISTANI" (toUpperCase l)
  then Ok (Break (set "nationality" (Str "PAKISTANI") data))
  else Ok (Next data).

Definition nationality_fallback (lines : list string) (data : gmap string jsval)
    : res (gmap string jsval) :=
  if negb (truthy (get data "nationality"))
  then for_range (nationality_fallback_body lines) 0 (length lines) data
  else Ok data.

Definition re_after_passport : Regex.regex := RX "PASSPORT\s+([A-Z\s]{3,40})" "i".
Definition re_trailing_letter : Regex.regex := RX "\s+[a-z]\s*$" "i".
Definition re_trailing_letters : Regex.regex := RX "\s+[a-z]\s+[a-z]\s*$" "i".

Definition given_names_fallback_body (lines : list string) (i : nat)
    (data : gmap string jsval) : res (ctl (gmap string jsval)) :=
  let* l := str_of (at_ lines i) in
  let line := trim l in
  let lineUpper := toUpperCase line in
  if includes "PASSPORT" lineUpper && negb (includes "NUMBER" lineUpper) then
    match Regex.exec re_after_passport line with
    | Some nameMatch =>
        if truthy (grp nameMatch 1) then
          let* g := str_of (grp nameMatch 1) in
          let givenNames := trim g in
          let givenNames := trim (Regex.replace re_trailing_letter "" givenNames) in
          let givenNames := trim (Regex.replace re_trailing_letters "" givenNames) in
          let givenNames := collapse givenNames in
          let words := length (Regex.split re_words givenNames) in
          if (3 <=? String.length givenNames)%nat
             && negb (includes "PAKISTAN" (toUpperCase givenNames))
             && negb (includes "NUMBER" (toUpperCase givenNames))
             && (1 <=? words)%nat && (words <=? 4)%nat
          then Ok (Break (set "givenNames" (Str (toUpperCase givenNames)) data))
          else Ok (Next data)
        else Ok (Next data)
    | None => Ok (Next data)
    end
  else Ok (Next data).

Definition given_names_fallback (lines : list string) (data : gmap string jsval)
    : res (gmap string jsval) :=
  if negb (truthy (get data "givenNames"))
  then for_range (given_names_fallback_body lines) 0 (length lines) data
  else Ok data.

Definition re_place_pak : Regex.regex := RX "([A-Z\s]{3,20}),\s*PAK" "i".
Definition re_fy : Regex.regex := RX "Fy\s+" "i".

Definition place_fallback_body (lines : list string) (i : nat)
    (data : gmap string jsval) : res (ctl (gmap string jsval)) :=
  let* l := str_of (at_ lines i) in
  let line := trim l in
  match Regex.exec re_place_pak line with
  | Some placeMatch =>
      let* g := str_of (grp placeMatch 1) in
      let place := Regex.replace re_fy "" (trim g) in
      if len_between 3 30 place
      then Ok (Break (set "placeOfBirth" (Str (toUpperCase place ++ ", PAK")) data))
      else Ok (Next data)
  | None => Ok (Next data)
  end.

Definition place_fallback (lines : list string) (data : gmap string jsval)
    : res (gmap string jsval) :=
  if negb (truthy (get data "placeOfBirth"))
  then for_range (place_fallback_body lines) 0 (length lines) data
  else Ok data.

Definition re_comma_name : Regex.regex := RX "^[A-Z][A-Z\s,]{5,40}$" "".
Definition re_leading_letter : Regex.regex := RX "^[a-z]\s+" "i".
Definition re_leading_short_word : Regex.regex := RX "^[a-z]{1,2}\s+" "i".

Definition father_fallback_body (lines : list string) (i : nat)
    (data : gmap string jsval) : res (ctl (gmap string jsval)) :=
  let* l := str_of (at_ lines i) in
  let line := trim l in
  let lineUpper := toUpperCase line in
  if includes "," line
     && Regex.test re_comma_name line
     && negb (includes "PAKISTAN" lineUpper)
     && negb (includes "SIALKOT" lineUpper)
     && negb (includes "LAHORE" lineUpper)
     && negb (includes "KARACHI" lineUpper)
     && (length (split_char "," line) =? 2)%nat
  then
    let fatherName := trim (Regex.replace re_leading_letter "" line) in
    let fatherName := trim (Regex.replace re_leading_short_word "" fatherName) in
    let fatherName := collapse fatherName in
    if includes "," fatherName && len_between 5 50 fatherName
    then Ok (Break (set "fatherName" (Str (toUpperCase fatherName)) data))
    else Ok (Next data)
  else Ok (Next data).

Definition father_fallback (lines : list string) (data : gmap string jsval)
    : res (gmap string jsval) :=
  if negb (truthy (get data "fatherName"))
  then for_range (father_fallback_body lines) 0 (length lines) data
  else Ok data.

Definition authority_fallback_body (lines : list string) (i : nat)
    (data : gmap string jsval) : res (ctl (gmap string jsval)) :=
  let* l := str_of (at_ lines i) in
  let lineUpper := toUpperCase l in
  if includes "PAKISTAN" lineUpper
     && (includes "AUTHORITY" lineUpper || includes "ISSUING" lineUpper
         || (5 <? i)%nat)
  then Ok (Break (set "issuingAuthority" (Str "PAKISTAN") data))
  else Ok (Next data).

Definition authority_fallback (lines : list string) (data : gmap string jsval)
    : res (gmap string jsval) :=
  if negb (truthy (get data "issuingAuthority"))
  then for_range (authority_fallback_body lines) 0 (length lines) data
  else Ok data.

Definition re_tracking_word : Regex.regex := RX "\b(\d{10,12})\b" "".
Definition re_year_end : Regex.regex := RX "\d{4}$" "".

Definition tracking_fallback_body (lines : list string) (i : nat)
    (data : gmap string jsval) : res (ctl (gmap string jsval)) :=
  let* l := str_of (at_ lines i) in
  let line := trim l in
  match Regex.exec re_tracking_word line with
  | Some trackingMatch =>
      let* num := str_of (grp trackingMatch 1) in
      if negb (Regex.test re_year_end num)
         || ((String.length num =? 11)%nat && negb (Regex.test re_cnic_dashed num))
      then Ok (Break (set "trackingNumber" (Str num) data))
      else Ok (Next data)
  | None => Ok (Next data)
  end.

Definition tracking_fallback (lines : list string) (data : gmap string jsval)
    : res (gmap string jsval) :=
  if negb (truthy (get data "trackingNumber"))
  then for_range (tracking_fallback_body lines) 0 (length lines) data
  else Ok data.

Definition re_cnic_group : Regex.regex := RX "(\d{5}-\d{7}-\d{1})" "".
Definition re_cnic_plain : Regex.regex := RX "\b(\d{13})\b" "".

Definition citizenship_fallback_body (lines : list string) (i : nat)
    (data : gmap string jsval) : res (ctl (gmap string jsval)) :=
  let* l := str_of (at_ lines i) in
  let line := trim l in
  match Regex.exec re_cnic_group line with
  | Some cnicMatch => Ok (Break (set "citizenshipNumber" (grp cnicMatch 1) data))
  | None =>
      match Regex.exec re_cnic_plain line with
      | Some cnicMatch2 =>
          let* cnic := str_of (grp cnicMatch2 1) in
          Ok (Break (set "citizenshipNumber" (Str (dashed cnic)) data))
      | None => Ok (Next data)
      end
  end.

Definition citizenship_fallback (lines : list string) (data : gmap string jsval)
    : res (gmap string jsval) :=
  if negb (truthy (get data "citizenshipNumber"))
  then for_range (citizenship_fallback_body lines) 0 (length lines) data
  else Ok data.

Definition issueDatePattern : Regex.regex :=
  RX "(?:DOI|Date\s+of\s+Issue|Date\s+of\s+Issuance|Issue)[:\s]*(\d{1,2}\s+(?:JAN|FEB|MAR|APR|MAY|JUN|JUL|AUG|SEP|OCT|NOV|DEC)\s+\d{4})" "i".

Definition issue_date_fallback (normalizedText : string) (data : gmap string jsval)
    : res (gmap string jsval) :=
  if negb (truthy (get data "dateOfIssue")) then
    match Regex.exec issueDatePattern normalizedText with
    | Some issueMatch =>
        let* g := str_of (grp issueMatch 1) in
        Ok (set "dateOfIssue" (Str (trim g)) data)
    | None => Ok data
    end
  else Ok data.

Definition extractPassportData (text : string) (mrzData : option MrzData)
    : res (gmap string jsval) :=
  let data := apply_mrz mrzData (passport_initial text) in
  let normalizedText := trim (collapse text) in
  let lines := lines_of text in
  let* data := label_loop rule_passportNumber lines data in
  let* data := passport_number_fallback lines normalizedText data in
  let* data := label_loop rule_dateOfBirth lines data in
  let* data := dob_lines_fallback lines data in
  let* data := label_loop rule_dateOfExpiry lines data in
  let* data := expiry_lines_fallback lines data in
  let* data := passport_date_fallback normalizedText data in
  let* data := gender_field normalizedText data in
  let* data := label_loop rule_nationality lines data in
  let* data := nationality_fallback lines data in
  let* data := label_loop rule_surname lines data in
  let* data := label_loop rule_givenNames lines data in
  let* data := given_names_fallback lines data in
  let* data := label_loop rule_placeOfBirth lines data in
  let* data := place_fallback lines data in
  let* data := label_loop rule_fatherName lines data in
  let* data := father_fallback lines data in
  let* data := label_loop rule_dateOfIssue lines data in
  let* data := label_loop rule_issuingAuthority lines data in
  let* data := authority_fallback lines data in
  let* data := label_loop rule_trackingNumber lines data in
  let* data := tracking_fallback lines data in
  let* data := label_loop rule_citizenshipNumber lines data in
  let* data := citizenship_fallback lines data in
  issue_date_fallback normalizedText data.

(* the record of extractPassportData when its date fallback starts: the
   MRZ values, and what the label lines and the line heuristics of the
   passport number and of the two dates have stored *)
Definition passport_before_date_fallback (text : string)
    (mrzData : option MrzData) : res (gmap string jsval) :=
  let data := apply_mrz mrzData (passport_initial text) in
  let normalizedText := trim (collapse text) in
  let lines := lines_of text in
  let* data := label_loop rule_passportNumber lines data in
  let* data := passport_number_fallback lines normalizedText data in
  let* data := label_loop rule_dateOfBirth lines data in
  let* data := dob_lines_fallback lines data in
  let* data := label_loop rule_dateOfExpiry lines data in
  expiry_lines_fallback lines data.

(* the record of extractPassportData when the fallback of the citizenship
   number starts: all the steps down to the "Citizenship Number" label
   lines *)
Definition passport_before_citizenship_fallback (text : string)
    (mrzData : option MrzData) : res (gmap string jsval) :=
  let normalizedText := trim (collapse text) in
  let lines := lines_of text in
  let* data := passport_before_date_fallback text mrzData in
  let* data := passport_date_fallback normalizedText data in
  let* data := gender_field normalizedText data in
  let* data := label_loop rule_nationality lines data in
  let* data := nationality_fallback lines data in
  let* data := label_loop rule_surname lines data in
  let* data := label_loop rule_givenNames lines data in
  let* data := given_names_fallback lines data in
  let* data := label_loop rule_placeOfBirth lines data in
  let* data := place_fallback lines data in
  let* data := label_loop rule_fatherName lines data in
  let* data := father_fallback lines data in
  let* data := label_loop rule_dateOfIssue lines data in
  let* data := label_loop rule_issuingAuthority lines data in
  let* data := authority_fallback lines data in
  let* data := label_loop rule_trackingNumber lines data in
  let* data := tracking_fallback lines data in
  label_loop rule_citizenshipNumber lines data.

(** *** cleanData *)

Definition cnicRequiredFields : list string :=
  [ "name"; "fatherName"; "country"; "cnicNumber" ].

Definition passportRequiredFields : list string :=
  [ "passportNumber"; "surname"; "givenNames"; "nationality"; "fatherName";
    "dateOfIssue"; "issuingAuthority"; "trackingNumber"; "husbandName";
    "citizenshipNumber" ].

Definition required_for (data : gmap string jsval) : list string :=
  let isPassport := has "passportNumber" data || has "surname" data in
  if isPassport then passportRequiredFields else cnicRequiredFields.

(* cleaned[key] === null || cleaned[key] === "" *)
Definition null_or_empty (v : jsval) : bool :=
  match v with
  | Null => true
  | Str s => negb (nonempty s)
  | Undefined => false
  end.

(* requiredFields.includes(key) *)
Definition member (key : string) (fields : list string) : bool :=
  existsb (String.eqb key) fields.

(* Object.keys(cleaned).forEach(key => ... delete cleaned[key] ...) *)
Definition drop_empty (requiredFields : list string)
    (cleaned : gmap string jsval) : gmap string jsval :=
  foldl (fun c key =>
    if null_or_empty (get c key) && negb (member key requiredFields)
    then delete key c else c) cleaned (map fst (map_to_list cleaned)).

(* requiredFields.forEach(field => { if (!(field in cleaned)) cleaned[field] = null }) *)
Definition ensure_required (requiredFields : list string)
    (cleaned : gmap string jsval) : gmap string jsval :=
  foldl (fun c field => if has field c then c else set field Null c)
    cleaned requiredFields.

Definition cleanData (data : gmap string jsval) : gmap string jsval :=
  let requiredFields := required_for data in
  ensure_required requiredFields (drop_empty requiredFields data).

End DataExtractor.

(** ** JavaScript numbers

    A finite number is the rational it denotes.  The arithmetic operators
    round the exact result to the nearest double (binary64: 53 bits, the
    last place never below 2^-1074, a tie going to the even neighbour).
    Infinity, NaN and the sign of zero are not represented: the operands
    here never have a magnitude of 2^1024, and no divisor is a zero. *)

Module Double.
Local Open Scope Q_scope.

(* 2^e *)
Definition pow2 (e : Z) : Q := 2 ^ e.

(* the binary exponent of x > 0: 2^(mag x) <= x < 2^(mag x + 1) *)
Definition mag (x : Q) : Z :=
  let r := Qred x in
  let e := (Z.log2 (Qnum r) - Z.log2 (Zpos (Qden r)))%Z in
  if Qle_bool (pow2 e) r then e else (e - 1)%Z.

(* the exponent of the last place of the doubles of the size of x: 53
   bits, and never below 2^-1074 (gradual underflow) *)
Definition ulp_exp (x : Q) : Z := Z.max (mag (Qabs x) - 52) (-1074).

(* the nearest integer, a tie going to the even one *)
Definition nearest_even (q : Q) : Z :=
  let f := Qfloor q in
  match Qcompare (q - inject_Z f) (1 # 2) with
  | Lt => f
  | Gt => (f + 1)%Z
  | Eq => if Z.even f then f else (f + 1)%Z
  end.

(* the double nearest to the real number x *)
Definition round (x : Q) : Q :=
  let e := ulp_exp x in
  Qred (inject_Z (nearest_even (x / pow2 e)) * pow2 e).

Definition add (x y : Q) : Q := round (x + y).
Definition mul (x y : Q) : Q := round (x * y).
Definition div (x y : Q) : Q := round (x / y).

(* a number literal of the source *)
Definition lit (x : Q) : Q := round x.

End Double.

(** ** The /passport route: MRZ lines, MRZ data and the confidence figures

    What is modelled is the handler from the recognised text on: the search
    for the two MRZ lines, their normalization, the call of the MRZ parser,
    the extraction and the confidence block of the response.  The upload,
    the OCR worker, the file clean-up and the debug block are left out.
    The parser is the [parse] function of the external [mrz] package and is
    a parameter.  The numbers of the confidence block are doubles, with the
    arithmetic of [Double]. *)

Module PassportRoute.
Import JsStr DataExtractor.

(* mrzResult.fields *)
Record MrzFields : Type := {
  documentNumber : jsval;
  lastName : jsval;
  firstName : jsval;
  nationality : jsval;
  birthDate : jsval;
  sex : jsval;
  expirationDate : jsval;
  issuingCountry : jsval;
  optionalData : jsval
}.

Record MrzResult : Type := { valid : bool; fields : MrzFields }.

Definition re_pipe_g : Regex.regex := RX "\|" "g".
Definition re_vo_g : Regex.regex := RX "vo\s*" "gi".
Definition re_peor_g : Regex.regex := RX "peor\s*" "gi".
Definition re_mrz_signature : Regex.regex :=
  RX "PSPAK|P<PAK|AA\d+|PAK\d{6}[MF]|CLL|LLL" "".

(* the OCR artefacts removed before a line is looked at *)
Definition strip_artifacts (line : string) : string :=
  Regex.replace re_space_g ""
    (Regex.replace re_peor_g ""
      (Regex.replace re_vo_g ""
        (Regex.replace re_pipe_g "" line))).

Definition hasMRZPattern (line : string) : bool :=
  Regex.test re_mrz_signature line
  || ((20 <=? String.length line)%nat
      && (includes "PAK" line || includes "<<" line)).

(* the substitution table, in the order it is applied *)
Definition clean_mrz_line (line : string) : string :=
  let s := Regex.replace (RX "[^A-Z0-9<]" "g") "" line in
  let s := Regex.replace (RX "PS" "g") "P<" s in
  let s := Regex.replace (RX "^P([A-Z])" "g") "P<$1" s in
  let s := Regex.replace (RX "CLL" "g") "<" s in
  let s := Regex.replace (RX "LLL" "g") "<" s in
  let s := Regex.replace (RX "LL" "g") "<" s in
  let s := Regex.replace (RX "([A-Z])K([A-Z])" "g") "$1<$2" s in
  let s := Regex.replace (RX "K<<<" "g") "<<<" s in
  let s := Regex.replace (RX "K<<" "g") "<<" s in
  Regex.replace (RX "K<" "g") "<" s.

Definition starts_with_marker (line : string) : bool :=
  startsWith "P<" line || startsWith "I<" line || startsWith "A<" line.

Definition isLine1 (cleanedLine : string) : bool :=
  startsWith "P<" cleanedLine
  || startsWith "I<" cleanedLine
  || startsWith "A<" cleanedLine
  || Regex.test (RX "^P[A-Z]{3}" "") cleanedLine
  || Regex.test (RX "^I[A-Z]{3}" "") cleanedLine
  || Regex.test (RX "^A[A-Z]{3}" "") cleanedLine
  || (includes "PAK" cleanedLine && includes "<" cleanedLine)
  || (includes "<" cleanedLine && Regex.test (RX "[A-Z]{3}[A-Z]+" "") cleanedLine).

Definition isLine2 (cleanedLine : string) : bool :=
  (Regex.test (RX "^[A-Z0-9]{9,}" "") cleanedLine
   && (includes "<" cleanedLine
       || Regex.test (RX "\d{6}[MF]\d{6}" "") cleanedLine
       || includes "PAK" cleanedLine))
  || ((25 <=? String.length cleanedLine)%nat
      && Regex.test (RX "^[A-Z]{2}\d{7,}" "") cleanedLine).

Definition isLine2_fallback (cleanedLine : string) : bool :=
  (25 <=? String.length cleanedLine)%nat
  && Regex.test (RX "^[A-Z0-9]" "") cleanedLine
  && negb (startsWith "P<" cleanedLine)
  && negb (startsWith "I<" cleanedLine)
  && negb (startsWith "A<" cleanedLine)
  && negb (Regex.test (RX "^[PIA][A-Z]{3}" "") cleanedLine).

(* one line of the scan; [mrzLines] is the array filled so far *)
Definition accept_line (cleanedLine : string) (mrzLines : list string)
    : list string :=
  if (20 <=? String.length cleanedLine)%nat then
    if (length mrzLines =? 0)%nat then
      if isLine1 cleanedLine then
        let cleanedLine :=
          if negb (starts_with_marker cleanedLine)
          then Regex.replace (RX "^([PIA])([A-Z])" "") "$1<$2" cleanedLine
          else cleanedLine in
        mrzLines ++ [cleanedLine]
      else mrzLines
    else if (length mrzLines =? 1)%nat then
      if isLine2 cleanedLine then mrzLines ++ [cleanedLine]
      else if isLine2_fallback cleanedLine then mrzLines ++ [cleanedLine]
      else mrzLines
    else mrzLines
  else mrzLines.

(* the body of the loop, at index i = allLines.length - 1 - k *)
Definition scan_body (allLines : list string) (k : nat)
    (mrzLines : list string) : res (ctl (list string)) :=
  let i := length allLines - 1 - k in
  let* l := str_of (at_ allLines i) in
  let line := strip_artifacts l in
  if (20 <=? String.length line)%nat || hasMRZPattern line then
    let mrzLines := accept_line (clean_mrz_line line) mrzLines in
    if (2 <=? length mrzLines)%nat then Ok (Break mrzLines)
    else Ok (Next mrzLines)
  else Ok (Next mrzLines).

(* for (i = allLines.length - 1; i >= Math.max(0, allLines.length - 15); i--) *)
Definition find_mrz_lines (extractedText : string) : res (list string) :=
  let allLines := map trim (split_char (ascii_of_nat 10) extractedText) in
  for_range (scan_body allLines) 0 (Nat.min (length allLines) 15) [].

(* line.padEnd(44, '<').substring(0, 44) *)
Definition pad44 (line : string) : string :=
  substring 0 44 (padEnd 44 "<" line).

(* the first line made to start with its category marker *)
Definition anchor_line1 (line1 : string) : string :=
  if negb (starts_with_marker line1) then
    if startsWith "P" line1 then "P<" ++ drop 1 line1
    else if startsWith "I" line1 then "I<" ++ drop 1 line1
    else if startsWith "A" line1 then "A<" ++ drop 1 line1
    else line1
  else line1.

(* the two lines handed to the parser *)
Definition normalize_mrz (l1 l2 : string) : string * string :=
  (anchor_line1 (pad44 l1), pad44 l2).

Definition months : list string :=
  [ "JAN"; "FEB"; "MAR"; "APR"; "MAY"; "JUN";
    "JUL"; "AUG"; "SEP"; "OCT"; "NOV"; "DEC" ].

(* months[parseInt(month) - 1], as the template string prints it *)
Definition month_name (month : string) : string :=
  match fst (Regex.read_nat 0 month) with
  | O => "undefined"
  | S n => match months !! n with Some m => m | None => "undefined" end
  end.

Definition re_iso_date : Regex.regex := RX "^\d{4}-\d{2}-\d{2}$" "".

Definition formatDate (dateStr : jsval) : jsval :=
  match dateStr with
  | Str d =>
      if nonempty d then
        if Regex.test re_iso_date d then
          match split_char "-" d with
          | [year; month; day] => Str (day ++ " " ++ month_name month ++ " " ++ year)
          | _ => dateStr
          end
        else dateStr
      else Null
  | _ => Null
  end.

Definition re_optional_cnic : Regex.regex := RX "(\d{5}[-]?\d{7}[-]?\d{1})" "".
Definition re_only_thirteen : Regex.regex := RX "^\d{13}$" "".

(* the citizenship number carried by the optional data of the MRZ *)
Definition mrz_citizenship (f : MrzFields) : res jsval :=
  if truthy (optionalData f) then
    let* o := str_of (optionalData f) in
    let optionalData := Regex.replace re_space_g "" o in
    match Regex.exec re_optional_cnic optionalData with
    | Some cnicMatch =>
        let* g := str_of (grp cnicMatch 1) in
        let cnic := Regex.replace re_dash_g "" g in
        if (String.length cnic =? 13)%nat then Ok (Str (dashed cnic)) else Ok Null
    | None =>
        if Regex.test re_only_thirteen optionalData
        then Ok (Str (dashed optionalData))
        else Ok Null
    end
  else Ok Null.

(* v || null *)
Definition or_null (v : jsval) : jsval := if truthy v then v else Null.

Definition gender_of_sex (f : MrzFields) : jsval :=
  if truthy (sex f)
  then (if jsval_eqb (sex f) (Str "M") then Str "MALE" else Str "FEMALE")
  else Null.

Definition mrz_data_of (f : MrzFields) : res MrzData :=
  let* citizenshipNumber := mrz_citizenship f in
  Ok {| mrz_passportNumber := or_null (documentNumber f);
        mrz_surname := or_null (lastName f);
        mrz_givenNames := or_null (firstName f);
        mrz_nationality := or_null (nationality f);
        mrz_dateOfBirth := formatDate (birthDate f);
        mrz_gender := gender_of_sex f;
        mrz_dateOfExpiry := formatDate (expirationDate f);
        mrz_issuingAuthority := or_null (issuingCountry f);
        mrz_citizenshipNumber := citizenshipNumber |}.

Definition newline : string := String (ascii_of_nat 10) EmptyString.

Section WithParser.
(* parse of the mrz package: it returns a result or throws *)
Variable parse : string -> res MrzResult.

(* the body of the try block *)
Definition try_mrz (mrzLines : list string) : res (option MrzData) :=
  let* l1 := str_of (at_ mrzLines 0) in
  let* l2 := str_of (at_ mrzLines 1) in
  let '(line1, line2) := normalize_mrz l1 l2 in
  let mrzText := (line1 ++ newline ++ line2)%string in
  let* mrzResult := parse mrzText in
  if valid mrzResult then
    let* mrzData := mrz_data_of (fields mrzResult) in
    Ok (Some mrzData)
  else Ok None.

(* try { ... } catch (mrzError) { } : mrzData keeps its null *)
Definition read_mrz (mrzLines : list string) : option MrzData :=
  if (2 <=? length mrzLines)%nat then
    match try_mrz mrzLines with
    | Ok mrzData => mrzData
    | Throw => None
    end
  else None.
End WithParser.

(** the confidence block *)

(* Math.round: the integer nearest to the number, the upper one at a tie;
   it is exact *)
Definition js_round (x : Q) : Z := Qfloor (x + (1 # 2))%Q.

(* the mean of the word confidences above zero, 0 without any:
   confidences.reduce((a, b) => a + b, 0) / confidences.length *)
Definition image_confidence (words : list Q) : Q :=
  let confidences := List.filter (fun conf => negb (Qle_bool conf 0%Q)) words in
  if (0 <? length confidences)%nat
  then Double.div (fold_left Double.add confidences 0%Q)
                  (inject_Z (Z.of_nat (length confidences)))
  else 0%Q.

Definition fieldsToCheck : list string :=
  [ "passportNumber"; "surname"; "givenNames"; "nationality"; "dateOfBirth";
    "placeOfBirth"; "gender"; "dateOfIssue"; "dateOfExpiry"; "issuingAuthority";
    "husbandName"; "citizenshipNumber" ].

(* cleanedData[field] !== null && !== '' && !== undefined *)
Definition extracted (cleanedData : gmap string jsval) (field : string) : bool :=
  truthy (get cleanedData field).

Definition extractionAccuracy_of (cleanedData : gmap string jsval) : Z :=
  let totalFields := length fieldsToCheck in
  let extractedFields := length (List.filter (extracted cleanedData) fieldsToCheck) in
  if (0 <? totalFields)%nat
  then js_round (Double.mul
                   (Double.div (inject_Z (Z.of_nat extractedFields))
                               (inject_Z (Z.of_nat totalFields)))
                   100%Q)
  else 0%Z.

Definition overallConfidence_of (ocrConfidence : Q) (extractionAccuracy : Z)
    (mrzUsed : bool) : Z :=
  let mrzBonus : Q := if mrzUsed then 20%Q else 0%Q in
  Z.min 100 (js_round
               (Double.add
                  (Double.add
                     (Double.mul ocrConfidence (Double.lit (5 # 10)))
                     (Double.mul (inject_Z extractionAccuracy)
                                 (Double.lit (3 # 10))))
                  mrzBonus)).

Record Confidence : Type := {
  ocrConfidence : Z;
  extractionAccuracy : Z;
  overallConfidence : Z;
  mrzUsed : bool
}.

(* the 200 response: data and confidence *)
Record Response : Type := { data : gmap string jsval; confidence : Confidence }.

(* what the recognition step hands over *)
Inductive Upload : Type :=
| Pdf (extractedText : string)
| Image (extractedText : string) (words : list Q).

Definition upload_text (u : Upload) : string :=
  match u with Pdf t => t | Image t _ => t end.

Definition upload_confidence (u : Upload) : Q :=
  match u with
  | Pdf _ => 85%Q
  | Image _ words => image_confidence words
  end.

Section Handler.
Variable parse : string -> res MrzResult.

(* [Throw] is the catch block of the handler: the error response *)
Definition passport_route (u : Upload) : res Response :=
  let extractedText := upload_text u in
  let ocrConfidence := upload_confidence u in
  let* mrzLines := find_mrz_lines extractedText in
  let mrzData := read_mrz parse mrzLines in
  let* extractedData := extractPassportData extractedText mrzData in
  let cleanedData := cleanData extractedData in
  let extractionAccuracy := extractionAccuracy_of cleanedData in
  let mrzUsed := match mrzData with Some _ => true | None => false end in
  let overallConfidence :=
    overallConfidence_of ocrConfidence extractionAccuracy mrzUsed in
  Ok {| data := cleanedData;
        confidence := {| ocrConfidence := js_round ocrConfidence;
                         extractionAccuracy := extractionAccuracy;
                         overallConfidence := overallConfidence;
                         mrzUsed := mrzUsed |} |}.
End Handler.

End PassportRoute.

(** ** The /cnic route

    The handler of the identity-card route, from the request on.  The two
    recognition services (pdfService.extractTextFromPDF and
    ocrService.extractTextFromImage) read files and run the OCR engine:
    they are parameters that return the text or throw.  The file clean-up
    is left out. *)

From stdpp Require Import pretty.

Module CnicRoute.
Import JsStr DataExtractor.

(* req.file *)
Record File : Type := { mimetype : string; path : string }.

(* the request: req.file and req.query.debug *)
Record Request : Type := { file : option File; query_debug : jsval }.

(* response.debug *)
Record Debug : Type := { rawText : string; lines : list string }.

Inductive Reply : Type :=
| BadRequest                      (* 400, "No file uploaded" *)
| Success (data : gmap string jsval) (debug : option Debug)   (* 200 *)
| Failure.                        (* the catch block: error.statusCode || 500 *)

Definition quote : string := String (ascii_of_nat 34) EmptyString.

(* `${idx}: "${line.trim()}"` *)
Definition debug_line (idx : nat) (line : string) : string :=
  pretty idx ++ ": " ++ quote ++ trim line ++ quote.

(* lines.map((line, idx) => ...) *)
Fixpoint number_lines (idx : nat) (ls : list string) : list string :=
  match ls with
  | [] => []
  | l :: ls' => debug_line idx l :: number_lines (S idx) ls'
  end.

Definition debug_block (n : nat) (extractedText : string) : Debug :=
  {| rawText := extractedText;
     lines := firstn n (number_lines 0 (Regex.split re_lines extractedText)) |}.

Section Handler.
Variable extractTextFromPDF : string -> res string.
Variable extractTextFromImage : string -> res string.

Definition recognise (f : File) : res string :=
  if String.eqb (mimetype f) "application/pdf"
  then extractTextFromPDF (path f)
  else extractTextFromImage (path f).

(* the try block, after the check of req.file *)
Definition cnic_body (req : Request) (f : File) : res Reply :=
  let* extractedText := recognise f in
  let* extractedData := extractCNICData extractedText in
  let cleanedData := cleanData extractedData in
  let includeRawText :=
    jsval_eqb (query_debug req) (Str "true")
    || (negb (truthy (get cleanedData "name"))
        && negb (truthy (get cleanedData "fatherName"))) in
  Ok (Success cleanedData
        (if includeRawText then Some (debug_block 20 extractedText) else None)).

Definition cnic_route (req : Request) : Reply :=
  match file req with
  | None => BadRequest
  | Some f =>
      match cnic_body req f with
      | Ok reply => reply
      | Throw => Failure
      end
  end.
End Handler.

End CnicRoute.

(** ** The earlier data extractor

    The file of the services also holds the earlier version of the data
    extractor.  Its extractCNICData is the one above, line for line; its
    extractPassportData works on the normalized text with one pattern per
    field, and its cleanData knows the identity-card fields only. *)

(* a pattern with a lookahead at its end, /p(?=q)/: a way [p] matches
   counts when [q] matches behind it ([q] has no group) *)
Module Lookahead.
Import JsStr Regex.

Definition follows (fl : flags) (look : re) (s : mstate) : bool :=
  match rmatch fl look s with
  | [] => false
  | _ :: _ => true
  end.

Definition exec_at (rx : regex) (look : re) (rest : string)
    (prev : option ascii) (pos : nat) : option result :=
  let s0 := MState rest prev pos (replicate (S (rx_groups rx)) None) in
  match List.filter (follows (rx_flags rx) look)
          (rmatch (rx_flags rx) (rx_re rx) s0) with
  | s1 :: _ =>
      let len := ms_pos s1 - pos in
      Some (Result pos len (<[0 := Some (take len rest)]> (ms_caps s1)))
  | [] => None
  end.

Fixpoint search (rx : regex) (look : re) (rest : string) (prev : option ascii)
    (pos : nat) : option result :=
  match exec_at rx look rest prev pos with
  | Some m => Some m
  | None =>
      match rest with
      | String c r => search rx look r (Some c) (S pos)
      | EmptyString => None
      end
  end.

Definition exec (rx : regex) (look : re) (s : string) : option result :=
  search rx look s None 0.

End Lookahead.

Module LegacyExtractor.
Import JsStr DataExtractor.

(* a RegExp literal, plain or with a lookahead at its end *)
Inductive pattern : Type :=
| Plain (rx : Regex.regex)
| Ahead (rx : Regex.regex) (look : Regex.regex).

(* text.match(pattern) *)
Definition pmatch (p : pattern) (s : string) : option Regex.result :=
  match p with
  | Plain rx => Regex.exec rx s
  | Ahead rx look => Lookahead.exec rx (Regex.rx_re look) s
  end.

Definition passport_initial (text : string) : gmap string jsval :=
  set "passportNumber" Null (set "surname" Null (set "givenNames" Null
  (set "nationality" Null (set "dateOfBirth" Null (set "placeOfBirth" Null
  (set "gender" Null (set "dateOfIssue" Null (set "dateOfExpiry" Null
  (set "issuingAuthority" Null (set "rawText" (Str text) ∅)))))))))).

Definition passportPattern : Regex.regex :=
  RX "(?:Passport|P\s*No|Passport\s*No)[:\s]*([A-Z0-9]{6,9})" "i".

Definition passport_number (normalizedText : string) (data : gmap string jsval)
    : res (gmap string jsval) :=
  match Regex.exec passportPattern normalizedText with
  | Some passportMatch =>
      let* g := str_of (grp passportMatch 1) in
      Ok (set "passportNumber" (Str (toUpperCase g)) data)
  | None => Ok data
  end.

Definition nationalityPattern : Regex.regex :=
  RX "(?:Nationality|Country)[:\s]+([A-Z\s]{2,})" "i".

(* if (m) data[k] = m[1].trim() *)
Definition trimmed_group (rx : Regex.regex) (k : string) (normalizedText : string)
    (data : gmap string jsval) : res (gmap string jsval) :=
  match Regex.exec rx normalizedText with
  | Some m =>
      let* g := str_of (grp m 1) in
      Ok (set k (Str (trim g)) data)
  | None => Ok data
  end.

Definition surnamePatterns : list pattern :=
  [ Plain (RX "(?:Surname|Last\s+Name)[:\s]+([A-Z\s]+?)(?:\s+Given|$)" "i");
    (* /^([A-Z]{2,})\s+(?=[A-Z])/ *)
    Ahead (RX "^([A-Z]{2,})\s+" "") (RX "[A-Z]" "") ].

Definition givenNamesPatterns : list pattern :=
  [ Plain (RX "(?:Given\s+Names?|First\s+Name)[:\s]+([A-Z\s]+?)(?:\s+Nationality|$)" "i");
    Plain (RX "(?:Surname[:\s]+[A-Z\s]+)[:\s]+([A-Z\s]{3,})" "") ].

(* if (match && match[1]) { data[k] = match[1].trim(); break; } *)
Definition first_pattern_body (k : string) (normalizedText : string)
    (p : pattern) (data : gmap string jsval) : res (ctl (gmap string jsval)) :=
  match pmatch p normalizedText with
  | Some m =>
      if truthy (grp m 1) then
        let* g := str_of (grp m 1) in
        Ok (Break (set k (Str (trim g)) data))
      else Ok (Next data)
  | None => Ok (Next data)
  end.

Definition placeOfBirthPattern : Regex.regex :=
  RX "(?:Place\s+of\s+Birth|Born\s+in)[:\s]+([A-Z\s,]+?)(?:\s+\d|$)" "i".
Definition authorityPattern : Regex.regex :=
  RX "(?:Issuing\s+Authority|Authority)[:\s]+([A-Z\s]+?)(?:\s+\d|$)" "i".

(* the date block and the gender block are those of extractCNICData *)
Definition extractPassportData (text : string) : res (gmap string jsval) :=
  let data := passport_initial text in
  let normalizedText := trim (collapse text) in
  let* data := passport_number normalizedText data in
  let data := cnic_date_fields normalizedText data in
  let* data := gender_field normalizedText data in
  let* data := trimmed_group nationalityPattern "nationality" normalizedText data in
  let* data := for_of (first_pattern_body "surname" normalizedText) surnamePatterns data in
  let* data :=
    for_of (first_pattern_body "givenNames" normalizedText) givenNamesPatterns data in
  let* data := trimmed_group placeOfBirthPattern "placeOfBirth" normalizedText data in
  trimmed_group authorityPattern "issuingAuthority" normalizedText data.

Definition requiredFields : list string :=
  [ "name"; "fatherName"; "country"; "cnicNumber" ].

Definition cleanData (data : gmap string jsval) : gmap string jsval :=
  ensure_required requiredFields (drop_empty requiredFields data).

End LegacyExtractor.


(** * Properties *)

(** ** Strings *)

Module StrFacts.
Import JsStr.

Lemma app_nil_l (s : string) : ("" ++ s)%string = s.
Proof. reflexivity. Qed.

Lemma app_cons (c : ascii) (s t : string) :
  (String c s ++ t)%string = String c (s ++ t).
Proof. reflexivity. Qed.

Lemma app_nil_r (s : string) : (s ++ "")%string = s.
Proof. induction s as [|c s IH]; [reflexivity|]. now rewrite app_cons, IH. Qed.

Lemma app_assoc (a b c : string) : ((a ++ b) ++ c)%string = (a ++ (b ++ c))%string.
Proof.
  induction a as [|x a IH]; [reflexivity|].
  now rewrite !app_cons, IH.
Qed.

Lemma length_app (a b : string) :
  String.length (a ++ b) = String.length a + String.length b.
Proof.
  induction a as [|x a IH]; [reflexivity|].
  rewrite app_cons. simpl. now rewrite IH.
Qed.

Lemma take_app_length (a b : string) : take (String.length a) (a ++ b) = a.
Proof.
  induction a as [|x a IH].
  - now destruct b.
  - rewrite app_cons. simpl. now rewrite IH.
Qed.

Lemma drop_app_length (a b : string) : drop (String.length a) (a ++ b) = b.
Proof.
  induction a as [|x a IH]; [reflexivity|].
  rewrite app_cons. simpl. exact IH.
Qed.

Lemma length_take (n : nat) (s : string) :
  String.length (take n s) = Nat.min n (String.length s).
Proof.
  revert s. induction n as [|n IH]; intros [|c s]; simpl; try reflexivity.
  now rewrite IH.
Qed.

Lemma length_drop (n : nat) (s : string) :
  String.length (drop n s) = String.length s - n.
Proof.
  revert s. induction n as [|n IH]; intros [|c s]; simpl; try reflexivity.
  apply IH.
Qed.

Lemma length_repeat_char (c : ascii) (n : nat) :
  String.length (repeat_char c n) = n.
Proof. induction n as [|n IH]; simpl; [reflexivity|now rewrite IH]. Qed.

Lemma length_map_chars (f : ascii -> ascii) (s : string) :
  String.length (map_chars f s) = String.length s.
Proof. induction s as [|c s IH]; simpl; [reflexivity|now rewrite IH]. Qed.

Lemma nonempty_length (s : string) : nonempty s = true <-> 0 < String.length s.
Proof. destruct s; simpl; split; intros; try lia; try discriminate; reflexivity. Qed.

Lemma all_chars_app (p : ascii -> bool) (a b : string) :
  all_chars p (a ++ b) = all_chars p a && all_chars p b.
Proof.
  induction a as [|x a IH]; [reflexivity|].
  rewrite app_cons. simpl. rewrite IH. now rewrite andb_assoc.
Qed.

End StrFacts.

(** ** The matcher

    [lang fl r w]: the word [w] has the shape of [r] (assertions and back
    references put no condition on it).  Everything the matcher consumes has
    that shape, and so has every capture. *)

Module RegexFacts.
Import JsStr Regex StrFacts.

Definition concat_str (ws : list string) : string :=
  fold_right append EmptyString ws.

Fixpoint lang (fl : flags) (r : re) (w : string) : Prop :=
  match r with
  | Empty | Bol | Eol | WordB | NotWordB => w = EmptyString
  | Chr a => exists c, w = String c EmptyString /\ chr_ok fl a c = true
  | Any => exists c, w = String c EmptyString /\ is_newline c = false
  | Cls neg its => exists c, w = String c EmptyString /\ cls_ok fl neg its c = true
  | Seq a b => exists w1 w2, w = (w1 ++ w2)%string /\ lang fl a w1 /\ lang fl b w2
  | Alt a b => lang fl a w \/ lang fl b w
  | Rep min max _ a =>
      exists ws, w = concat_str ws /\ Forall (lang fl a) ws /\
        match max with
        | Some k => length ws <= k /\ (min <= k -> min <= length ws)
        | None => min <= length ws
        end
  | Grp _ a => lang fl a w
  | Backref _ => True
  end.

(* group [n] is set by every match of [r] *)
Fixpoint defines (n : nat) (r : re) : bool :=
  match r with
  | Grp k a => (k =? n)%nat || defines n a
  | Seq a b => defines n a || defines n b
  | Alt a b => defines n a && defines n b
  | _ => false
  end.

(* the pattern inside group [n] of [r], if [r] has that group *)
Fixpoint group_body (n : nat) (r : re) : option re :=
  match r with
  | Grp k a => if (k =? n)%nat then Some a else group_body n a
  | Seq a b | Alt a b =>
      match group_body n a with
      | Some g => Some g
      | None => group_body n b
      end
  | Rep _ _ _ a => group_body n a
  | _ => None
  end.

(* every group numbered [n] inside [r] has the body [g] *)
Fixpoint groups_are (n : nat) (g : re) (r : re) : Prop :=
  match r with
  | Grp k a => (k = n -> a = g) /\ groups_are n g a
  | Seq a b | Alt a b => groups_are n g a /\ groups_are n g b
  | Rep _ _ _ a => groups_are n g a
  | _ => True
  end.

(* [s'] is [s] after the word [w] *)
Definition after (s : mstate) (w : string) (s' : mstate) : Prop :=
  ms_rest s = (w ++ ms_rest s')%string /\
  ms_pos s' = ms_pos s + String.length w /\
  length (ms_caps s') = length (ms_caps s).

Lemma after_refl (s : mstate) : after s EmptyString s.
Proof. unfold after. simpl. repeat split; lia. Qed.

Lemma after_trans (s1 s2 s3 : mstate) (w1 w2 : string) :
  after s1 w1 s2 -> after s2 w2 s3 -> after s1 (w1 ++ w2) s3.
Proof.
  unfold after. intros (R1 & P1 & C1) (R2 & P2 & C2).
  rewrite R1, R2, app_assoc, length_app. repeat split; lia.
Qed.

Lemma eat_sound (p : ascii -> bool) (s s' : mstate) :
  In s' (eat p s) ->
  exists c, p c = true /\ after s (String c EmptyString) s' /\ ms_caps s' = ms_caps s.
Proof.
  unfold eat. destruct (ms_rest s) as [|c r] eqn:E; [intros []|].
  destruct (p c) eqn:Hp; [|intros []].
  intros [<-|[]]. exists c. split; [exact Hp|]. unfold after. simpl.
  rewrite E. repeat split; lia.
Qed.

Lemma guard_sound (b : bool) (s s' : mstate) : In s' (guard b s) -> s' = s.
Proof. destruct b; simpl; intros [->|[]] || intros []. reflexivity. Qed.

Lemma eat_string_sound (fl : flags) (w : string) (s s' : mstate) :
  In s' (eat_string fl w s) ->
  exists v, after s v s' /\ ms_caps s' = ms_caps s.
Proof.
  revert s. induction w as [|a w IH]; intros s; simpl.
  - intros [<-|[]]. exists EmptyString. split; [apply after_refl|reflexivity].
  - destruct (ms_rest s) as [|c r] eqn:E; [intros []|].
    destruct (chr_ok fl a c); [|intros []].
    intros H. apply IH in H as (v & Hv & Hc).
    exists (String c v). split; [|exact Hc].
    destruct Hv as (R & P & C). unfold after. simpl in *.
    rewrite E, app_cons, R. repeat split; lia.
Qed.

Lemma rep_iter_inv (I : mstate -> Prop) (step : mstate -> list mstate)
    (greedy : bool) :
  (forall s s', I s -> In s' (step s) -> I s') ->
  forall n min s s', I s -> In s' (rep_iter step greedy n min s) -> I s'.
Proof.
  intros Hstep. induction n as [|n IH]; intros min s s' Hs; simpl.
  - intros [<-|[]]. exact Hs.
  - set (more := flat_map _ _).
    assert (Hmore : In s' more -> I s').
    { unfold more. rewrite in_flat_map. intros (s1 & H1 & H2).
      destruct ((min =? 0)%nat && (ms_pos s1 =? ms_pos s)%nat); [destruct H2|].
      eapply IH; [|exact H2]. eapply Hstep; eauto. }
    destruct (0 <? min)%nat; [exact Hmore|].
    destruct greedy.
    + rewrite in_app_iff. intros [H|[<-|[]]]; auto.
    + intros [<-|H]; auto.
Qed.

Lemma rep_iter_sound (P : string -> Prop) (step : mstate -> list mstate)
    (greedy : bool) :
  (forall s s', In s' (step s) -> exists w, after s w s' /\ P w) ->
  forall n min s s', In s' (rep_iter step greedy n min s) ->
    exists ws, after s (concat_str ws) s' /\ Forall P ws /\
               length ws <= n /\ (min <= n -> min <= length ws).
Proof.
  intros Hstep. induction n as [|n IH]; intros min s s'; simpl.
  - intros [<-|[]]. exists []. simpl.
    split; [apply after_refl|]. split; [constructor|]. split; lia.
  - set (more := flat_map _ _).
    assert (Hmore : In s' more ->
      exists ws, after s (concat_str ws) s' /\ Forall P ws /\
                 length ws <= S n /\ (min <= S n -> min <= length ws)).
    { unfold more. rewrite in_flat_map. intros (s1 & H1 & H2).
      destruct ((min =? 0)%nat && (ms_pos s1 =? ms_pos s)%nat); [destruct H2|].
      apply Hstep in H1 as (w1 & A1 & P1).
      apply IH in H2 as (ws & A2 & F2 & L2 & M2).
      exists (w1 :: ws). simpl.
      split; [eapply after_trans; eauto|].
      split; [constructor; assumption|]. split; lia. }
    assert (Hself : (0 <? min)%nat = false -> s' = s ->
      exists ws, after s (concat_str ws) s' /\ Forall P ws /\
                 length ws <= S n /\ (min <= S n -> min <= length ws)).
    { intros Hmin ->. apply Nat.ltb_ge in Hmin. exists []. simpl.
      split; [apply after_refl|]. split; [constructor|]. split; lia. }
    destruct (0 <? min)%nat eqn:Hmin; [exact Hmore|].
    destruct greedy.
    + rewrite in_app_iff. intros [H|[<-|[]]]; auto.
    + intros [<-|H]; auto.
Qed.

(** whatever the matcher consumes has the shape of the pattern *)
Lemma rmatch_sound (fl : flags) (r : re) :
  forall s s', In s' (rmatch fl r s) -> exists w, after s w s' /\ lang fl r w.
Proof.
  induction r as [|a| |neg its|a IHa b IHb|a IHa b IHb|min max greedy a IHa
                 |k a IHa| | | | |k]; intros s s'; simpl.
  - intros [<-|[]]. exists EmptyString. split; [apply after_refl|reflexivity].
  - intros H. apply eat_sound in H as (c & Hc & A & _).
    exists (String c EmptyString). split; [exact A|]. exists c. auto.
  - intros H. apply eat_sound in H as (c & Hc & A & _).
    exists (String c EmptyString). split; [exact A|]. exists c.
    split; [reflexivity|]. now apply negb_true_iff in Hc.
  - intros H. apply eat_sound in H as (c & Hc & A & _).
    exists (String c EmptyString). split; [exact A|]. exists c. auto.
  - rewrite in_flat_map. intros (s1 & H1 & H2).
    apply IHa in H1 as (w1 & A1 & L1). apply IHb in H2 as (w2 & A2 & L2).
    exists (w1 ++ w2)%string. split; [eapply after_trans; eauto|].
    exists w1, w2. auto.
  - rewrite in_app_iff. intros [H|H].
    + apply IHa in H as (w & A & L). exists w. auto.
    + apply IHb in H as (w & A & L). exists w. auto.
  - intros H.
    apply (rep_iter_sound (lang fl a) _ _ IHa) in H as (ws & A & F & Ln & Lmin).
    exists (concat_str ws). split; [exact A|]. exists ws.
    split; [reflexivity|]. split; [exact F|].
    destruct max as [k|]; [split; assumption|]. apply Lmin. lia.
  - rewrite in_map_iff. intros (s1 & <- & H).
    apply IHa in H as (w & A & L). exists w. split; [|exact L].
    destruct A as (R & P & C). unfold after, set_cap. simpl.
    rewrite length_insert. auto.
  - intros H. apply guard_sound in H as ->. exists EmptyString.
    split; [apply after_refl|reflexivity].
  - intros H. apply guard_sound in H as ->. exists EmptyString.
    split; [apply after_refl|reflexivity].
  - intros H. apply guard_sound in H as ->. exists EmptyString.
    split; [apply after_refl|reflexivity].
  - intros H. apply guard_sound in H as ->. exists EmptyString.
    split; [apply after_refl|reflexivity].
  - destruct (cap s k) as [w|].
    + intros H. apply eat_string_sound in H as (v & A & _). exists v. auto.
    + intros [<-|[]]. exists EmptyString. split; [apply after_refl|exact I].
Qed.

(** captures: once set they stay set, and a group on the way sets its own *)

Definition cap_set (n : nat) (s : mstate) : Prop :=
  exists w, ms_caps s !! n = Some (Some w).

Lemma set_cap_keeps (n k : nat) (w : string) (s : mstate) :
  cap_set n s -> cap_set n (set_cap k w s).
Proof.
  intros (v & Hv). unfold cap_set, set_cap. simpl.
  destruct (decide (k = n)) as [->|Hne].
  - exists w. apply list_lookup_insert_eq. eapply lookup_lt_Some; eauto.
  - exists v. now rewrite list_lookup_insert_ne.
Qed.

Lemma rmatch_keeps (fl : flags) (n : nat) (r : re) :
  forall s s', cap_set n s -> In s' (rmatch fl r s) -> cap_set n s'.
Proof.
  induction r as [|a| |neg its|a IHa b IHb|a IHa b IHb|min max greedy a IHa
                 |k a IHa| | | | |k]; intros s s' Hs; simpl.
  - intros [<-|[]]; exact Hs.
  - intros H. apply eat_sound in H as (c & _ & _ & C). unfold cap_set. now rewrite C.
  - intros H. apply eat_sound in H as (c & _ & _ & C). unfold cap_set. now rewrite C.
  - intros H. apply eat_sound in H as (c & _ & _ & C). unfold cap_set. now rewrite C.
  - rewrite in_flat_map. intros (s1 & H1 & H2). eauto.
  - rewrite in_app_iff. intros [H|H]; eauto.
  - apply rep_iter_inv; [|exact Hs]. intros; eauto.
  - rewrite in_map_iff. intros (s1 & <- & H). apply set_cap_keeps. eauto.
  - intros H. apply guard_sound in H as ->. exact Hs.
  - intros H. apply guard_sound in H as ->. exact Hs.
  - intros H. apply guard_sound in H as ->. exact Hs.
  - intros H. apply guard_sound in H as ->. exact Hs.
  - destruct (cap s k) as [w|].
    + intros H. apply eat_string_sound in H as (v & _ & C). unfold cap_set. now rewrite C.
    + intros [<-|[]]; exact Hs.
Qed.

Lemma rmatch_defines (fl : flags) (n : nat) (r : re) :
  defines n r = true ->
  forall s s', n < length (ms_caps s) -> In s' (rmatch fl r s) -> cap_set n s'.
Proof.
  induction r as [|a| |neg its|a IHa b IHb|a IHa b IHb|min max greedy a IHa
                 |k a IHa| | | | |k]; simpl; try discriminate; intros D s s' Hn.
  - rewrite in_flat_map. intros (s1 & H1 & H2).
    apply orb_true_iff in D as [D|D].
    + eapply rmatch_keeps; [|exact H2]. eapply IHa; eauto.
    + eapply IHb; [exact D| |exact H2].
      apply rmatch_sound in H1 as (w & (_ & _ & C) & _). lia.
  - apply andb_true_iff in D as [Da Db].
    rewrite in_app_iff. intros [H|H]; eauto.
  - rewrite in_map_iff. intros (s1 & <- & H).
    apply orb_true_iff in D as [D|D].
    + apply Nat.eqb_eq in D as ->. exists (take (ms_pos s1 - ms_pos s) (ms_rest s)).
      unfold set_cap. simpl. apply list_lookup_insert_eq.
      apply rmatch_sound in H as (w & (_ & _ & C) & _). lia.
    + apply set_cap_keeps. eapply IHa; eauto.
Qed.

(** and every capture of group [n] has the shape of the group's body *)

Definition cap_in (fl : flags) (n : nat) (g : re) (s : mstate) : Prop :=
  forall w, ms_caps s !! n = Some (Some w) -> lang fl g w.

Lemma rmatch_group (fl : flags) (n : nat) (g : re) (r : re) :
  groups_are n g r ->
  forall s s', cap_in fl n g s -> In s' (rmatch fl r s) -> cap_in fl n g s'.
Proof.
  induction r as [|a| |neg its|a IHa b IHb|a IHa b IHb|min max greedy a IHa
                 |k a IHa| | | | |k]; simpl; intros G s s' Hs.
  - intros [<-|[]]; exact Hs.
  - intros H. apply eat_sound in H as (c & _ & _ & C). unfold cap_in. now rewrite C.
  - intros H. apply eat_sound in H as (c & _ & _ & C). unfold cap_in. now rewrite C.
  - intros H. apply eat_sound in H as (c & _ & _ & C). unfold cap_in. now rewrite C.
  - destruct G as [Ga Gb]. rewrite in_flat_map. intros (s1 & H1 & H2). eauto.
  - destruct G as [Ga Gb]. rewrite in_app_iff. intros [H|H]; eauto.
  - apply rep_iter_inv; [|exact Hs]. intros; eauto.
  - destruct G as [Gk Ga]. rewrite in_map_iff. intros (s1 & <- & H).
    pose proof (IHa Ga _ _ Hs H) as H1.
    apply rmatch_sound in H as (w & (R & P & C) & L).
    intros v. unfold set_cap. simpl.
    destruct (decide (k = n)) as [->|Hne].
    + destruct (decide (n < length (ms_caps s1))) as [Hlt|Hge].
      * rewrite list_lookup_insert_eq by exact Hlt. intros [= <-].
        rewrite (Gk eq_refl) in L.
        replace (ms_pos s1 - ms_pos s) with (String.length w) by lia.
        rewrite R, take_app_length. exact L.
      * rewrite list_insert_ge by lia. apply H1.
    + rewrite list_lookup_insert_ne by exact Hne. apply H1.
  - intros H. apply guard_sound in H as ->. exact Hs.
  - intros H. apply guard_sound in H as ->. exact Hs.
  - intros H. apply guard_sound in H as ->. exact Hs.
  - intros H. apply guard_sound in H as ->. exact Hs.
  - destruct (cap s k) as [w|].
    + intros H. apply eat_string_sound in H as (v & _ & C). unfold cap_in. now rewrite C.
    + intros [<-|[]]; exact Hs.
Qed.

(** the String/RegExp methods *)

Lemma exec_at_inv (rx : regex) (rest : string) (prev : option ascii)
    (pos : nat) (m : result) :
  exec_at rx rest prev pos = Some m ->
  exists s1 w,
    In s1 (rmatch (rx_flags rx) (rx_re rx)
             (MState rest prev pos (replicate (S (rx_groups rx)) None))) /\
    rest = (w ++ ms_rest s1)%string /\
    lang (rx_flags rx) (rx_re rx) w /\
    m = Result pos (String.length w) (<[0 := Some w]> (ms_caps s1)) /\
    length (ms_caps s1) = S (rx_groups rx).
Proof.
  unfold exec_at.
  destruct (rmatch _ _ _) as [|s1 l] eqn:E; [discriminate|]. intros [= <-].
  assert (H : In s1 (rmatch (rx_flags rx) (rx_re rx)
             (MState rest prev pos (replicate (S (rx_groups rx)) None))))
    by (rewrite E; now left).
  pose proof H as H'. apply rmatch_sound in H' as (w & (R & P & C) & L).
  simpl in R, P, C. rewrite length_replicate in C.
  exists s1, w. split; [now left|]. split; [exact R|]. split; [exact L|].
  split; [|exact C].
  replace (ms_pos s1 - pos) with (String.length w) by lia.
  now rewrite R, take_app_length.
Qed.

Lemma search_inv (rx : regex) (m : result) :
  forall rest prev pos, search rx rest prev pos = Some m ->
  exists pre rest' prev',
    rest = (pre ++ rest')%string /\
    exec_at rx rest' prev' (pos + String.length pre) = Some m.
Proof.
  induction rest as [|c rest IH]; intros prev pos; simpl.
  - destruct (exec_at rx EmptyString prev pos) eqn:E; [|discriminate].
    intros [= <-]. exists EmptyString, EmptyString, prev. simpl.
    rewrite Nat.add_0_r. auto.
  - destruct (exec_at rx (String c rest) prev pos) eqn:E.
    + intros [= <-]. exists EmptyString, (String c rest), prev. simpl.
      rewrite Nat.add_0_r. auto.
    + intros H. apply IH in H as (pre & rest' & prev' & -> & H).
      exists (String c pre), rest', prev'. split; [reflexivity|].
      simpl. now replace (pos + S (String.length pre))
        with (S pos + String.length pre) by lia.
Qed.

(** a match: where it is, and that the whole match has the pattern's shape *)
Lemma exec_whole (rx : regex) (s : string) (m : result) :
  exec rx s = Some m ->
  exists pre post,
    s = (pre ++ whole m ++ post)%string /\
    lang (rx_flags rx) (rx_re rx) (whole m) /\
    m_index m = String.length pre /\
    m_length m = String.length (whole m).
Proof.
  unfold exec. intros H.
  apply search_inv in H as (pre & rest & prev & -> & H).
  apply exec_at_inv in H as (s1 & w & _ & -> & L & -> & C).
  exists pre, (ms_rest s1). unfold whole. simpl.
  rewrite list_lookup_insert_eq by lia. auto.
Qed.

(** a group that every match sets is a string, of the shape of its body *)
Lemma exec_group (rx : regex) (s : string) (m : result) (n : nat) :
  exec rx s = Some m ->
  1 <= n <= rx_groups rx ->
  defines n (rx_re rx) = true ->
  exists w, grp m n = Str w /\
    forall g, groups_are n g (rx_re rx) -> lang (rx_flags rx) g w.
Proof.
  unfold exec. intros H Hn D.
  apply search_inv in H as (pre & rest & prev & _ & H).
  apply exec_at_inv in H as (s1 & w & H1 & _ & _ & -> & C).
  pose proof H1 as H2.
  apply (rmatch_defines _ n _ D) in H2 as (v & Hv);
    [|simpl; rewrite length_replicate; lia].
  exists v. unfold grp. simpl.
  rewrite list_lookup_insert_ne by lia. rewrite Hv. split; [reflexivity|].
  intros g G. eapply (rmatch_group _ n g _ G); [|exact H1|exact Hv].
  intros u Hu. cbn [ms_caps] in Hu.
  apply lookup_replicate in Hu as [? _]. discriminate.
Qed.

(** every element of matchAll is a match with a whole string *)
Lemma scan_whole (rx : regex) :
  forall rest prev pos skip m, In m (scan rx rest prev pos skip) ->
    lang (rx_flags rx) (rx_re rx) (whole m).
Proof.
  induction rest as [|c rest IH]; intros prev pos skip m.
  - destruct skip; simpl; [|intros []].
    destruct (exec_at rx EmptyString prev pos) eqn:E; [|intros []].
    intros [<-|[]].
    apply exec_at_inv in E as (s1 & w & _ & _ & L & -> & C).
    unfold whole. simpl. now rewrite list_lookup_insert_eq by lia.
  - destruct skip; simpl; [|apply IH].
    destruct (exec_at rx (String c rest) prev pos) eqn:E; [|apply IH].
    intros [<-|H]; [|eapply IH; exact H].
    apply exec_at_inv in E as (s1 & w & _ & _ & L & -> & C).
    unfold whole. simpl. now rewrite list_lookup_insert_eq by lia.
Qed.

End RegexFacts.

(** ** The extractors, step by step

    Every step of an extractor returns (it does not throw) and writes only
    its own field, and what it writes is a string. *)

Module StepFacts.
Import JsStr DataExtractor RegexFacts.

(* [d'] is [d] except at keys of [K], where it may hold a new string *)
Definition writes (K : list string) (d d' : gmap string jsval) : Prop :=
  forall k, d' !! k = d !! k \/ (In k K /\ exists s, d' !! k = Some (Str s)).

Lemma writes_refl (K : list string) (d : gmap string jsval) : writes K d d.
Proof. intros k. now left. Qed.

Lemma writes_trans (K : list string) (d1 d2 d3 : gmap string jsval) :
  writes K d1 d2 -> writes K d2 d3 -> writes K d1 d3.
Proof.
  intros H12 H23 k. destruct (H23 k) as [E|H]; [|now right].
  rewrite E. apply H12.
Qed.

Lemma writes_mono (K K' : list string) (d d' : gmap string jsval) :
  incl K K' -> writes K d d' -> writes K' d d'.
Proof.
  intros HK H k. destruct (H k) as [E|[Hk E]]; [now left|right].
  split; [now apply HK|exact E].
Qed.

Lemma writes_set (k : string) (s : string) (d : gmap string jsval) :
  writes [k] d (set k (Str s) d).
Proof.
  intros j. unfold set. destruct (decide (k = j)) as [->|Hne].
  - right. split; [now left|]. exists s. apply lookup_insert_eq.
  - left. now apply lookup_insert_ne.
Qed.

Lemma writes_other (K : list string) (d d' : gmap string jsval) (k : string) :
  writes K d d' -> ~ In k K -> d' !! k = d !! k.
Proof. intros H Hk. destruct (H k) as [E|[Hin _]]; [exact E|contradiction]. Qed.

Lemma writes_get_other (K : list string) (d d' : gmap string jsval) (k : string) :
  writes K d d' -> ~ In k K -> get d' k = get d k.
Proof. intros H Hk. unfold get. now rewrite (writes_other K d d' k H Hk). Qed.

Definition ctl_state {S : Type} (c : ctl S) : S :=
  match c with Next s => s | Break s => s end.

(** loops *)

Lemma for_range_inv {S : Type} (I : S -> Prop) (body : nat -> S -> res (ctl S)) :
  forall count from s,
    I s ->
    (forall i s1, from <= i < from + count -> I s1 ->
       exists c, body i s1 = Ok c /\ I (ctl_state c)) ->
    exists s', for_range body from count s = Ok s' /\ I s'.
Proof.
  induction count as [|count IH]; intros from s Hs Hbody; simpl.
  - eauto.
  - destruct (Hbody from s) as (c & -> & Hc); [lia|exact Hs|].
    destruct c as [s1|s1]; simpl in Hc; [|eauto].
    apply IH; [exact Hc|]. intros i s2 Hi. apply Hbody. lia.
Qed.

(* the iterations that leave the state as it is can be skipped *)
Lemma for_range_skip {S : Type} (body : nat -> S -> res (ctl S)) (s : S) :
  forall n m from,
    (forall i, from <= i < from + n -> body i s = Ok (Next s)) ->
    for_range body from (n + m) s = for_range body (from + n) m s.
Proof.
induction n as [|n IH]; intros m from H.
- now rewrite Nat.add_0_r.
- cbn [Nat.add for_range]. rewrite H by lia.
  rewrite IH by (intros i Hi; apply H; lia). f_equal. lia.
Qed.

Lemma for_of_inv {A S : Type} (I : S -> Prop) (body : A -> S -> res (ctl S)) :
  forall xs s,
    I s ->
    (forall x s1, In x xs -> I s1 -> exists c, body x s1 = Ok c /\ I (ctl_state c)) ->
    exists s', for_of body xs s = Ok s' /\ I s'.
Proof.
  induction xs as [|x xs IH]; intros s Hs Hbody; simpl.
  - eauto.
  - destruct (Hbody x s) as (c & -> & Hc); [now left|exact Hs|].
    destruct c as [s1|s1]; simpl in Hc; [|eauto].
    apply IH; [exact Hc|]. intros y s2 Hy. apply Hbody. now right.
Qed.

(* a loop over the lines whose body writes the keys [K] *)
Lemma for_lines_writes (K : list string) (lines : list string)
    (body : nat -> gmap string jsval -> res (ctl (gmap string jsval)))
    (from count : nat) (d : gmap string jsval) :
  (forall i, from <= i < from + count -> i < length lines) ->
  (forall i d1, i < length lines ->
     exists c, body i d1 = Ok c /\ writes K d1 (ctl_state c)) ->
  exists d', for_range body from count d = Ok d' /\ writes K d d'.
Proof.
  intros Hlen Hbody. apply (for_range_inv (writes K d)); [apply writes_refl|].
  intros i d1 Hi H1. destruct (Hbody i d1) as (c & E & Hc); [now apply Hlen|].
  exists c. split; [exact E|]. eapply writes_trans; eauto.
Qed.

Lemma at_in_range (lines : list string) (i : nat) :
  i < length lines -> exists l, at_ lines i = Str l.
Proof.
  intros Hi. unfold at_. destruct (lookup_lt_is_Some_2 lines i Hi) as [l ->]. eauto.
Qed.

Lemma truthy_str (v : jsval) : truthy v = true -> exists s, v = Str s.
Proof. destruct v; simpl; try discriminate. eauto. Qed.

(* the two ways a loop body ends *)
Lemma ends_next (K : list string) (d : gmap string jsval) :
  exists c, Ok (Next d) = Ok c /\ writes K d (ctl_state c).
Proof. eexists. split; [reflexivity|apply writes_refl]. Qed.

Lemma ends_break (k : string) (s : string) (d : gmap string jsval) :
  exists c, Ok (Break (set k (Str s) d)) = Ok c /\ writes [k] d (ctl_state c).
Proof. eexists. split; [reflexivity|apply writes_set]. Qed.

Lemma and_then_writes (K : list string) (d : gmap string jsval)
    (a : res (ctl (gmap string jsval)))
    (b : gmap string jsval -> res (ctl (gmap string jsval))) :
  (exists c, a = Ok c /\ writes K d (ctl_state c)) ->
  (forall d1, exists c, b d1 = Ok c /\ writes K d1 (ctl_state c)) ->
  exists c, and_then a b = Ok c /\ writes K d (ctl_state c).
Proof.
  intros (c & -> & Hc) Hb. destruct c as [d1|d1]; simpl in *.
  - destruct (Hb d1) as (c & E & H). exists c. split; [exact E|].
    eapply writes_trans; eauto.
  - eauto.
Qed.

(** *** the label loops of extractPassportData *)

Lemma label_same_line_ok (rule : label_rule) (line : string)
    (d : gmap string jsval) :
  exists c, label_same_line rule line d = Ok c /\
            writes [lr_key rule] d (ctl_state c).
Proof.
  unfold label_same_line.
  destruct (Regex.exec _ _) as [m|]; [|apply ends_next].
  destruct (truthy (grp m 1)) eqn:T; [|apply ends_next].
  apply truthy_str in T as [g ->]. simpl.
  destruct (lr_same_ok _ _); [apply ends_break|apply ends_next].
Qed.

Lemma label_next_line_ok (rule : label_rule) (lines : list string) (i : nat)
    (d : gmap string jsval) :
  exists c, label_next_line rule lines i d = Ok c /\
            writes [lr_key rule] d (ctl_state c).
Proof.
  unfold label_next_line.
  destruct (negb _ && (i + 1 <? length lines)%nat) eqn:C; [|apply ends_next].
  apply andb_true_iff in C as [_ C]. apply Nat.ltb_lt in C.
  destruct (at_in_range lines (i + 1) C) as [l ->]. simpl.
  destruct (lr_next_ok _ _); [apply ends_break|apply ends_next].
Qed.

Lemma label_body_ok (rule : label_rule) (lines : list string) (i : nat)
    (d : gmap string jsval) :
  i < length lines ->
  exists c, label_body rule lines i d = Ok c /\
            writes [lr_key rule] d (ctl_state c).
Proof.
  intros Hi. unfold label_body.
  destruct (at_in_range lines i Hi) as [l ->]. simpl.
  destruct (lr_is_label _ _); [|apply ends_next].
  apply and_then_writes; [apply label_same_line_ok|].
  intros d1. apply label_next_line_ok.
Qed.

Lemma label_loop_ok (rule : label_rule) (lines : list string)
    (d : gmap string jsval) :
  exists d', label_loop rule lines d = Ok d' /\ writes [lr_key rule] d d'.
Proof.
  unfold label_loop. apply (for_lines_writes _ lines); [intros; lia|].
  intros i d1 Hi. now apply label_body_ok.
Qed.

(** *** the other steps *)

Lemma grp_defined (rx : Regex.regex) (s : string) (m : Regex.result) (n : nat) :
  Regex.exec rx s = Some m ->
  (1 <=? n)%nat && (n <=? Regex.rx_groups rx)%nat
    && defines n (Regex.rx_re rx) = true ->
  exists w, grp m n = Str w.
Proof.
  intros E H. apply andb_true_iff in H as [H D].
  apply andb_true_iff in H as [H1 H2].
  apply Nat.leb_le in H1. apply Nat.leb_le in H2.
  destruct (exec_group rx s m n E (conj H1 H2) D) as (w & Hw & _). eauto.
Qed.

(* group [n] of the match in [E] is a string *)
Ltac use_group E n :=
  let g := fresh "g" in
  destruct (grp_defined _ _ _ n E eq_refl) as [g ->].

Lemma ok_same (K : list string) (d : gmap string jsval) :
  exists d', Ok d = Ok d' /\ writes K d d'.
Proof. eexists. split; [reflexivity|apply writes_refl]. Qed.

Lemma ok_set (k : string) (s : string) (d : gmap string jsval) :
  exists d', Ok (set k (Str s) d) = Ok d' /\ writes [k] d d'.
Proof. eexists. split; [reflexivity|apply writes_set]. Qed.

Ltac ends := first [apply ends_next | apply ends_break | apply ok_same | apply ok_set].

(* a step that runs a loop over all the lines when its field is empty *)
Ltac line_loop lines :=
  match goal with
  | |- context [if ?b then _ else _] => destruct b; [|apply ok_same]
  end;
  apply (for_lines_writes _ lines); [intros; lia|].

Lemma cnic_number_ok (nt : string) (d : gmap string jsval) :
  exists d', cnic_number nt d = Ok d' /\ writes ["cnicNumber"] d d'.
Proof.
  unfold cnic_number.
  destruct (Regex.exec cnicPattern nt) as [m|] eqn:E; [|ends].
  use_group E 1. cbn [str_of bind].
  destruct (_ =? 13)%nat; ends.
Qed.

Lemma labelled_or_nth_writes (pattern : Regex.regex) (k : string) (n : nat)
    (nt : string) (dates : list string) (d : gmap string jsval) :
  (1 <=? 1)%nat && (1 <=? Regex.rx_groups pattern)%nat
    && defines 1 (Regex.rx_re pattern) = true ->
  writes [k] d (labelled_or_nth pattern k n nt dates d).
Proof.
  intros D. unfold labelled_or_nth.
  destruct (Regex.exec pattern nt) as [m|] eqn:E.
  - destruct (grp_defined _ _ _ 1 E D) as [g ->]. apply writes_set.
  - destruct (n + 1 <=? length dates)%nat eqn:L; [|apply writes_refl].
    apply Nat.leb_le in L.
    destruct (at_in_range dates n) as [x ->]; [lia|]. apply writes_set.
Qed.

Definition cnic_date_keys : list string :=
  ["dateOfBirth"; "dateOfIssue"; "dateOfExpiry"].

Lemma cnic_date_fields_writes (nt : string) (d : gmap string jsval) :
  writes cnic_date_keys d (cnic_date_fields nt d).
Proof.
  unfold cnic_date_fields. cbv zeta.
  set (dates := cnic_dates nt).
  set (d1 := labelled_or_nth dobPattern "dateOfBirth" 0 nt dates d).
  set (d2 := labelled_or_nth issuePattern "dateOfIssue" 1 nt dates d1).
  pose proof (labelled_or_nth_writes dobPattern "dateOfBirth" 0 nt dates d eq_refl) as H1.
  pose proof (labelled_or_nth_writes issuePattern "dateOfIssue" 1 nt dates d1 eq_refl) as H2.
  pose proof (labelled_or_nth_writes expiryPattern "dateOfExpiry" 2 nt dates d2 eq_refl) as H3.
  apply (writes_trans _ _ d2); [apply (writes_trans _ _ d1)|].
  - eapply writes_mono; [|exact H1]. intros k [<-|[]]. now left.
  - eapply writes_mono; [|exact H2]. intros k [<-|[]]. right. now left.
  - eapply writes_mono; [|exact H3]. intros k [<-|[]]. right. right. now left.
Qed.

Lemma gender_field_ok (nt : string) (d : gmap string jsval) :
  exists d', gender_field nt d = Ok d' /\ writes ["gender"] d d'.
Proof.
  unfold gender_field.
  destruct (Regex.exec genderPattern nt) as [m|] eqn:E; [|ends].
  use_group E 1. cbn [str_of bind]. ends.
Qed.

Lemma cnic_name_label_ok (lines : list string) (d : gmap string jsval) :
  exists d', cnic_name_label lines d = Ok d' /\ writes ["name"] d d'.
Proof.
  unfold cnic_name_label. apply (for_lines_writes _ lines); [intros; lia|].
  intros i d1 Hi. unfold cnic_name_label_body.
  destruct (at_in_range lines i Hi) as [l ->]. cbn [str_of bind].
  match goal with |- context [if ?b then _ else _] => destruct b; [|ends] end.
  apply and_then_writes.
  - unfold cnic_name_same_line.
    destruct (Regex.exec _ _) as [m|]; [|ends].
    destruct (truthy (grp m 1)) eqn:T; [|ends].
    apply truthy_str in T as [g ->]. cbn [str_of bind].
    match goal with |- context [if ?b then _ else _] => destruct b; ends end.
  - intros d2. unfold cnic_name_next_line.
    destruct (negb _ && (i + 1 <? length lines)%nat) eqn:C; [|ends].
    apply andb_true_iff in C as [_ C]. apply Nat.ltb_lt in C.
    destruct (at_in_range lines (i + 1) C) as [l' ->]. cbn [str_of bind].
    match goal with |- context [if ?b then _ else _] => destruct b; ends end.
Qed.

(* a loop that only looks for an index *)
Lemma index_loop_ok (lines : list string)
    (body : nat -> option nat -> res (ctl (option nat))) (count : nat) :
  count <= length lines ->
  (forall i o, i < length lines -> exists c, body i o = Ok c) ->
  exists o, for_range body 0 count None = Ok o.
Proof.
  intros Hc Hbody.
  destruct (for_range_inv (fun _ => True) body count 0 None I) as (o & E & _).
  - intros i o Hi _. destruct (Hbody i o) as [c Ec]; [lia|]. eauto.
  - eauto.
Qed.

Lemma cnic_name_fallback_ok (lines : list string) (d : gmap string jsval) :
  exists d', cnic_name_fallback lines d = Ok d' /\ writes ["name"] d d'.
Proof.
  unfold cnic_name_fallback.
  match goal with |- context [if ?b then _ else _] => destruct b; [|ends] end.
  destruct (index_loop_ok lines (header_end_body lines)
              (Nat.min (length lines) 5)) as [h ->]; [lia| |].
  { intros i o Hi. unfold header_end_body.
    destruct (at_in_range lines i Hi) as [l ->]. cbn [str_of bind].
    match goal with |- context [if ?b then _ else _] => destruct b; eauto end. }
  cbn [bind].
  apply (for_lines_writes _ lines); [intros; lia|].
  intros i d1 Hi. unfold cnic_name_fallback_body.
  destruct (at_in_range lines i Hi) as [l ->]. cbn [str_of bind].
  match goal with |- context [if ?b then _ else _] => destruct b; ends end.
Qed.

Lemma differs_from_name_ok (fatherName : string) (d : gmap string jsval) :
  exists b, differs_from_name fatherName d = Ok b.
Proof.
  unfold differs_from_name.
  destruct (truthy (get d "name")) eqn:T; cbn [negb]; [|eauto].
  apply truthy_str in T as [n ->]. cbn [str_of bind]. eauto.
Qed.

Lemma cnic_father_label_ok (lines : list string) (d : gmap string jsval) :
  exists d', cnic_father_label lines d = Ok d' /\ writes ["fatherName"] d d'.
Proof.
  unfold cnic_father_label. apply (for_lines_writes _ lines); [intros; lia|].
  intros i d1 Hi. unfold cnic_father_label_body.
  destruct (at_in_range lines i Hi) as [l ->]. cbn [str_of bind].
  match goal with |- context [if ?b then _ else _] => destruct b; [|ends] end.
  apply and_then_writes.
  - unfold cnic_father_same_line.
    destruct (Regex.exec _ _) as [m|]; [|ends].
    destruct (truthy (grp m 1)) eqn:T; [|ends].
    apply truthy_str in T as [g ->]. cbn [str_of bind].
    match goal with |- context [if ?b then _ else _] => destruct b; [|ends] end.
    destruct (differs_from_name_ok (collapse (trim g)) d1) as [b ->].
    cbn [bind]. destruct b; ends.
  - intros d2. unfold cnic_father_next_line.
    destruct (negb _ && (i + 1 <? length lines)%nat) eqn:C; [|ends].
    apply andb_true_iff in C as [_ C]. apply Nat.ltb_lt in C.
    destruct (at_in_range lines (i + 1) C) as [l' ->]. cbn [str_of bind].
    match goal with |- context [if ?b then _ else _] => destruct b; [|ends] end.
    destruct (differs_from_name_ok (collapse (trim l')) d2) as [b ->].
    cbn [bind]. destruct b; ends.
Qed.

Lemma cnic_father_fallback_ok (lines : list string) (d : gmap string jsval) :
  exists d', cnic_father_fallback lines d = Ok d' /\ writes ["fatherName"] d d'.
Proof.
  unfold cnic_father_fallback.
  destruct (negb _ && truthy (get d "name") && _) eqn:C; [|ends].
  apply andb_true_iff in C as [C _]. apply andb_true_iff in C as [_ T].
  apply truthy_str in T as [name ->]. cbn [str_of bind].
  destruct (index_loop_ok lines (name_line_body lines name) (length lines))
    as [h ->]; [lia| |].
  { intros i o Hi. unfold name_line_body.
    destruct (at_in_range lines i Hi) as [l ->]. cbn [str_of bind].
    match goal with |- context [if ?b then _ else _] => destruct b; eauto end. }
  cbn [bind].
  apply (for_lines_writes _ lines); [intros; lia|].
  intros i d1 Hi. unfold cnic_father_fallback_body.
  destruct (at_in_range lines i Hi) as [l ->]. cbn [str_of bind].
  repeat match goal with
         | |- context [if ?b then _ else _] => destruct b; try solve [ends]
         end.
Qed.

Lemma keyword_regexps_parse :
  forallb (fun keyword =>
    match keyword_regexp keyword with Ok _ => true | Throw => false end)
    countryKeywords = true.
Proof. vm_compute. reflexivity. Qed.

Lemma country_keyword_body_ok (text keyword : string) (d : gmap string jsval) :
  In keyword countryKeywords ->
  exists c, country_keyword_body text keyword d = Ok c /\
            writes ["country"] d (ctl_state c).
Proof.
  intros Hk. pose proof keyword_regexps_parse as H.
  rewrite forallb_forall in H. specialize (H keyword Hk).
  unfold country_keyword_body.
  destruct (keyword_regexp keyword) as [rx|]; [|discriminate]. cbn [bind].
  destruct (Regex.test rx text); ends.
Qed.

Lemma country_pattern_body_ok (text : string) (pattern : Regex.regex)
    (d : gmap string jsval) :
  exists c, country_pattern_body text pattern d = Ok c /\
            writes ["country"] d (ctl_state c).
Proof.
  unfold country_pattern_body.
  destruct (Regex.exec pattern text) as [m|]; [|ends].
  destruct (truthy (grp m 1)) eqn:T; [|ends].
  apply truthy_str in T as [g ->]. cbn [str_of bind].
  destruct (matched_country _); [ends|].
  match goal with |- context [if ?b then _ else _] => destruct b; ends end.
Qed.

Lemma cnic_country_ok (text : string) (d : gmap string jsval) :
  exists d', cnic_country text d = Ok d' /\ writes ["country"] d d'.
Proof.
  unfold cnic_country.
  destruct (for_of_inv (writes ["country"] d) (country_keyword_body text)
              countryKeywords d (writes_refl _ _)) as (d1 & -> & H1).
  { intros k d1 Hk H1. destruct (country_keyword_body_ok text k d1 Hk) as (c & E & Hc).
    exists c. split; [exact E|]. eapply writes_trans; eauto. }
  cbn [bind].
  assert (exists d2,
    (if negb (truthy (get d1 "country"))
     then for_of (country_pattern_body text) countryPatterns d1
     else Ok d1) = Ok d2 /\ writes ["country"] d d2) as (d2 & -> & H2).
  { destruct (negb _); [|eauto].
    apply for_of_inv; [exact H1|]. intros p d2 _ H2.
    destruct (country_pattern_body_ok text p d2) as (c & E & Hc).
    exists c. split; [exact E|]. eapply writes_trans; eauto. }
  cbn [bind].
  repeat match goal with
         | |- context [if ?b then _ else _] => destruct b
         end;
    eexists; (split; [reflexivity|]); try exact H2;
    (eapply writes_trans; [exact H2|apply writes_set]).
Qed.

Lemma cnic_address_ok (nt : string) (d : gmap string jsval) :
  exists d', cnic_address nt d = Ok d' /\ writes ["address"] d d'.
Proof.
  unfold cnic_address.
  destruct (Regex.exec _ _) as [m|]; [|ends].
  destruct (truthy (grp m 1)) eqn:T; [|ends].
  apply truthy_str in T as [g ->]. cbn [str_of bind]. ends.
Qed.

(** the fallbacks of extractPassportData *)

Ltac split_if :=
  match goal with |- context [if ?b then _ else _] => destruct b end.

Lemma passport_number_fallback_ok (lines : list string) (nt : string)
    (d : gmap string jsval) :
  exists d', passport_number_fallback lines nt d = Ok d' /\
             writes ["passportNumber"] d d'.
Proof.
  unfold passport_number_fallback.
  destruct (negb (truthy (get d "passportNumber"))); [|ends].
  assert (exists d1,
    match Regex.exec passportPattern nt with
    | Some passportMatch =>
        let* g := str_of (grp passportMatch 1) in
        Ok (set "passportNumber" (Str (toUpperCase g)) d)
    | None => Ok d
    end = Ok d1 /\ writes ["passportNumber"] d d1) as (d1 & -> & H1).
  { destruct (Regex.exec passportPattern nt) as [m|] eqn:E; [|ends].
    use_group E 1. cbn [str_of bind]. ends. }
  cbn [bind].
  destruct (negb (truthy (get d1 "passportNumber"))); [|eauto].
  destruct (for_lines_writes ["passportNumber"] lines
              (passport_number_lines_body lines) 0 (length lines) d1)
    as (d2 & E2 & H2); [intros; lia| |].
  { intros i d2 Hi. unfold passport_number_lines_body.
    destruct (at_in_range lines i Hi) as [l ->]. cbn [str_of bind].
    destruct (Regex.exec re_passport_shape l) as [m|] eqn:E; [|ends].
    use_group E 1. cbn [str_of bind]. ends. }
  exists d2. split; [exact E2|]. eapply writes_trans; eauto.
Qed.

Lemma month_date_ok (rx : Regex.regex) (dflt line : string) (m : Regex.result) :
  Regex.exec rx line = Some m ->
  (3 <=? Regex.rx_groups rx)%nat
    && defines 1 (Regex.rx_re rx) && defines 2 (Regex.rx_re rx)
    && defines 3 (Regex.rx_re rx) = true ->
  exists date, month_date dflt m = Ok date.
Proof.
  intros E H. apply andb_true_iff in H as [H D3].
  apply andb_true_iff in H as [H D2]. apply andb_true_iff in H as [G D1].
  apply Nat.leb_le in G. unfold month_date.
  destruct (exec_group rx line m 1 E) as (g1 & -> & _); [lia|exact D1|].
  destruct (exec_group rx line m 2 E) as (g2 & -> & _); [lia|exact D2|].
  destruct (exec_group rx line m 3 E) as (g3 & -> & _); [lia|exact D3|].
  cbn [str_of bind]. eauto.
Qed.

Lemma dob_lines_fallback_ok (lines : list string) (d : gmap string jsval) :
  exists d', dob_lines_fallback lines d = Ok d' /\ writes ["dateOfBirth"] d d'.
Proof.
  unfold dob_lines_fallback. line_loop lines.
  intros i d1 Hi. unfold dob_lines_body.
  destruct (at_in_range lines i Hi) as [l ->]. cbn [str_of bind].
  destruct (Regex.exec re_dob_line (trim l)) as [m|] eqn:E; [|ends].
  destruct (month_date_ok _ "10" _ _ E eq_refl) as [date ->]. cbn [bind].
  split_if; ends.
Qed.

Lemma expiry_lines_fallback_ok (lines : list string) (d : gmap string jsval) :
  exists d', expiry_lines_fallback lines d = Ok d' /\ writes ["dateOfExpiry"] d d'.
Proof.
  unfold expiry_lines_fallback. line_loop lines.
  intros i d1 Hi. unfold expiry_lines_body.
  destruct (at_in_range lines i Hi) as [l ->]. cbn [str_of bind].
  destruct (Regex.exec re_expiry_line (trim l)) as [m|] eqn:E; [|ends].
  split_if; [|ends].
  destruct (month_date_ok _ "01" _ _ E eq_refl) as [date ->]. cbn [bind].
  split_if; ends.
Qed.

Lemma labelled_date_body_ok (k nt : string) (pattern : Regex.regex)
    (d : gmap string jsval) :
  exists c, labelled_date_body k nt pattern d = Ok c /\
            writes [k] d (ctl_state c).
Proof.
  unfold labelled_date_body.
  destruct (Regex.exec pattern nt) as [m|]; [|ends].
  destruct (truthy (grp m 1)) eqn:T; cbn [andb]; [|ends].
  apply truthy_str in T as [g ->].
  split_if; [|ends]. cbn [str_of bind]. ends.
Qed.

Lemma labelled_dates_ok (k nt : string) (patterns : list Regex.regex)
    (d : gmap string jsval) :
  exists d', for_of (labelled_date_body k nt) patterns d = Ok d' /\ writes [k] d d'.
Proof.
  apply for_of_inv; [apply writes_refl|]. intros p d1 _ H1.
  destruct (labelled_date_body_ok k nt p d1) as (c & E & Hc).
  exists c. split; [exact E|]. eapply writes_trans; eauto.
Qed.

Lemma nth_date_writes (k : string) (n : nat) (dates : list string)
    (d : gmap string jsval) :
  writes [k] d (nth_date k n dates d).
Proof.
  unfold nth_date.
  destruct (negb _ && (n + 1 <=? length dates)%nat) eqn:C; [|apply writes_refl].
  apply andb_true_iff in C as [_ C]. apply Nat.leb_le in C.
  destruct (at_in_range dates n) as [x ->]; [lia|]. apply writes_set.
Qed.

Definition passport_date_keys : list string := ["dateOfBirth"; "dateOfExpiry"].

Lemma passport_date_fallback_ok (nt : string) (d : gmap string jsval) :
  exists d', passport_date_fallback nt d = Ok d' /\ writes passport_date_keys d d'.
Proof.
  unfold passport_date_fallback. split_if; [|ends]. cbv zeta.
  destruct (labelled_dates_ok "dateOfBirth" nt dobPatterns d) as (d1 & -> & H1).
  cbn [bind].
  set (d2 := nth_date "dateOfBirth" 0 (passport_dates nt) d1).
  destruct (labelled_dates_ok "dateOfExpiry" nt expiryPatterns d2) as (d3 & -> & H3).
  cbn [bind]. eexists. split; [reflexivity|].
  apply (writes_trans _ _ d3); [apply (writes_trans _ _ d2); [apply (writes_trans _ _ d1)|]|].
  - eapply writes_mono; [|exact H1]. intros k [<-|[]]. now left.
  - eapply writes_mono; [|apply nth_date_writes]. intros k [<-|[]]. now left.
  - eapply writes_mono; [|exact H3]. intros k [<-|[]]. right. now left.
  - eapply writes_mono; [|apply nth_date_writes]. intros k [<-|[]]. right. now left.
Qed.

Lemma nationality_fallback_ok (lines : list string) (d : gmap string jsval) :
  exists d', nationality_fallback lines d = Ok d' /\ writes ["nationality"] d d'.
Proof.
  unfold nationality_fallback. line_loop lines.
  intros i d1 Hi. unfold nationality_fallback_body.
  destruct (at_in_range lines i Hi) as [l ->]. cbn [str_of bind].
  split_if; ends.
Qed.

Lemma given_names_fallback_ok (lines : list string) (d : gmap string jsval) :
  exists d', given_names_fallback lines d = Ok d' /\ writes ["givenNames"] d d'.
Proof.
  unfold given_names_fallback. line_loop lines.
  intros i d1 Hi. unfold given_names_fallback_body.
  destruct (at_in_range lines i Hi) as [l ->]. cbn [str_of bind].
  split_if; [|ends].
  destruct (Regex.exec _ _) as [m|]; [|ends].
  destruct (truthy (grp m 1)) eqn:T; [|ends].
  apply truthy_str in T as [g ->]. cbn [str_of bind].
  split_if; ends.
Qed.

Lemma place_fallback_ok (lines : list string) (d : gmap string jsval) :
  exists d', place_fallback lines d = Ok d' /\ writes ["placeOfBirth"] d d'.
Proof.
  unfold place_fallback. line_loop lines.
  intros i d1 Hi. unfold place_fallback_body.
  destruct (at_in_range lines i Hi) as [l ->]. cbn [str_of bind].
  destruct (Regex.exec re_place_pak (trim l)) as [m|] eqn:E; [|ends].
  use_group E 1. cbn [str_of bind]. split_if; ends.
Qed.

Lemma father_fallback_ok (lines : list string) (d : gmap string jsval) :
  exists d', father_fallback lines d = Ok d' /\ writes ["fatherName"] d d'.
Proof.
  unfold father_fallback. line_loop lines.
  intros i d1 Hi. unfold father_fallback_body.
  destruct (at_in_range lines i Hi) as [l ->]. cbn [str_of bind].
  split_if; [|ends]. split_if; ends.
Qed.

Lemma authority_fallback_ok (lines : list string) (d : gmap string jsval) :
  exists d', authority_fallback lines d = Ok d' /\ writes ["issuingAuthority"] d d'.
Proof.
  unfold authority_fallback. line_loop lines.
  intros i d1 Hi. unfold authority_fallback_body.
  destruct (at_in_range lines i Hi) as [l ->]. cbn [str_of bind].
  split_if; ends.
Qed.

Lemma tracking_fallback_ok (lines : list string) (d : gmap string jsval) :
  exists d', tracking_fallback lines d = Ok d' /\ writes ["trackingNumber"] d d'.
Proof.
  unfold tracking_fallback. line_loop lines.
  intros i d1 Hi. unfold tracking_fallback_body.
  destruct (at_in_range lines i Hi) as [l ->]. cbn [str_of bind].
  destruct (Regex.exec re_tracking_word (trim l)) as [m|] eqn:E; [|ends].
  use_group E 1. cbn [str_of bind]. split_if; ends.
Qed.

Lemma citizenship_fallback_ok (lines : list string) (d : gmap string jsval) :
  exists d', citizenship_fallback lines d = Ok d' /\
             writes ["citizenshipNumber"] d d'.
Proof.
  unfold citizenship_fallback. line_loop lines.
  intros i d1 Hi. unfold citizenship_fallback_body.
  destruct (at_in_range lines i Hi) as [l ->]. cbn [str_of bind].
  destruct (Regex.exec re_cnic_group (trim l)) as [m|] eqn:E.
  - use_group E 1. ends.
  - destruct (Regex.exec re_cnic_plain (trim l)) as [m|] eqn:E2; [|ends].
    use_group E2 1. cbn [str_of bind]. ends.
Qed.

Lemma issue_date_fallback_ok (nt : string) (d : gmap string jsval) :
  exists d', issue_date_fallback nt d = Ok d' /\ writes ["dateOfIssue"] d d'.
Proof.
  unfold issue_date_fallback. split_if; [|ends].
  destruct (Regex.exec issueDatePattern nt) as [m|] eqn:E; [|ends].
  use_group E 1. cbn [str_of bind]. ends.
Qed.

(** *** the extractors as a whole *)

Ltac step_by lem :=
  let d := fresh "d" in
  let E := fresh "E" in
  let W := fresh "W" in
  destruct lem as (d & E & W); rewrite E; cbn [bind].

(* run the first step of the chain in the goal *)
Ltac run_step :=
  lazymatch goal with
  | |- context [bind (label_loop ?r ?l ?d) _] => step_by (label_loop_ok r l d)
  | |- context [bind (passport_number_fallback ?l ?n ?d) _] =>
      step_by (passport_number_fallback_ok l n d)
  | |- context [bind (dob_lines_fallback ?l ?d) _] => step_by (dob_lines_fallback_ok l d)
  | |- context [bind (expiry_lines_fallback ?l ?d) _] =>
      step_by (expiry_lines_fallback_ok l d)
  | |- context [bind (passport_date_fallback ?n ?d) _] =>
      step_by (passport_date_fallback_ok n d)
  | |- context [bind (gender_field ?n ?d) _] => step_by (gender_field_ok n d)
  | |- context [bind (nationality_fallback ?l ?d) _] =>
      step_by (nationality_fallback_ok l d)
  | |- context [bind (given_names_fallback ?l ?d) _] =>
      step_by (given_names_fallback_ok l d)
  | |- context [bind (place_fallback ?l ?d) _] => step_by (place_fallback_ok l d)
  | |- context [bind (father_fallback ?l ?d) _] => step_by (father_fallback_ok l d)
  | |- context [bind (authority_fallback ?l ?d) _] =>
      step_by (authority_fallback_ok l d)
  | |- context [bind (tracking_fallback ?l ?d) _] => step_by (tracking_fallback_ok l d)
  | |- context [bind (citizenship_fallback ?l ?d) _] =>
      step_by (citizenship_fallback_ok l d)
  | |- context [bind (cnic_number ?n ?d) _] => step_by (cnic_number_ok n d)
  | |- context [bind (cnic_name_label ?l ?d) _] => step_by (cnic_name_label_ok l d)
  | |- context [bind (cnic_name_fallback ?l ?d) _] =>
      step_by (cnic_name_fallback_ok l d)
  | |- context [bind (cnic_father_label ?l ?d) _] =>
      step_by (cnic_father_label_ok l d)
  | |- context [bind (cnic_father_fallback ?l ?d) _] =>
      step_by (cnic_father_fallback_ok l d)
  | |- context [bind (cnic_country ?t ?d) _] => step_by (cnic_country_ok t d)
  end.

(* [get d' k] goes back to the state before a step that does not write [k] *)
Ltac back k :=
  repeat match goal with
         | W : writes ?K ?d ?d' |- context [get ?d' k] =>
             rewrite (writes_get_other K d d' k W) by (simpl; intuition discriminate)
         end.

(* chain the steps recorded in the context into one [writes K d0 d] *)
Ltac incl_keys :=
  let k := fresh "k" in
  let H := fresh "H" in
  intros k H; cbv in H |- *; tauto.

Ltac chain K :=
  repeat match goal with
         | W : writes _ ?d ?d' |- writes K _ ?d' =>
             apply (writes_trans K _ d);
             [clear W|eapply (writes_mono _ K); [|exact W]; incl_keys]
         end;
  try apply writes_refl.

Definition cnic_written : list string :=
  [ "name"; "fatherName"; "country"; "cnicNumber"; "dateOfBirth"; "dateOfIssue";
    "dateOfExpiry"; "gender"; "address" ].

Lemma extractCNICData_writes (text : string) :
  exists d, extractCNICData text = Ok d /\ writes cnic_written (cnic_initial text) d.
Proof.
  unfold extractCNICData. cbv zeta.
  run_step.
  pose proof (cnic_date_fields_writes (trim (collapse text)) d) as Wd.
  repeat run_step.
  destruct (cnic_address_ok (trim (collapse text)) d5) as (d6 & E6 & W6).
  exists d6. split; [exact E6|]. chain cnic_written.
Qed.

Lemma set_if_truthy_writes (k : string) (v : jsval) (d : gmap string jsval) :
  writes [k] d (set_if_truthy k v d).
Proof.
  unfold set_if_truthy. destruct (truthy v) eqn:T; [|apply writes_refl].
  apply truthy_str in T as [s ->]. apply writes_set.
Qed.

Definition mrz_keys : list string :=
  [ "passportNumber"; "surname"; "givenNames"; "nationality"; "dateOfBirth";
    "gender"; "dateOfExpiry"; "citizenshipNumber" ].

Lemma apply_mrz_writes (mrzData : option MrzData) (d : gmap string jsval) :
  writes mrz_keys d (apply_mrz mrzData d).
Proof.
  destruct mrzData as [mrz|]; [|apply writes_refl]. unfold apply_mrz. cbv zeta.
  repeat match goal with
         | |- writes _ _ (set_if_truthy ?k ?v ?d1) =>
             apply (writes_trans _ _ d1);
             [|eapply writes_mono; [|apply set_if_truthy_writes]; incl_keys]
         end.
  apply writes_refl.
Qed.

Definition passport_written : list string :=
  [ "passportNumber"; "surname"; "givenNames"; "nationality"; "dateOfBirth";
    "placeOfBirth"; "gender"; "dateOfIssue"; "dateOfExpiry"; "issuingAuthority";
    "fatherName"; "citizenshipNumber"; "trackingNumber" ].

Lemma extractPassportData_writes (text : string) (mrzData : option MrzData) :
  exists d, extractPassportData text mrzData = Ok d /\
            writes passport_written (passport_initial text) d.
Proof.
  unfold extractPassportData. cbv zeta.
  pose proof (apply_mrz_writes mrzData (passport_initial text)) as Wm.
  repeat run_step.
  match goal with
  | |- context [issue_date_fallback ?n ?d] =>
      destruct (issue_date_fallback_ok n d) as (dl & El & Wl)
  end.
  exists dl. split; [exact El|]. chain passport_written.
Qed.

(** *** the records the extractors return *)

Definition cnic_fields : list string :=
  [ "name"; "fatherName"; "country"; "cnicNumber"; "dateOfBirth"; "dateOfIssue";
    "dateOfExpiry"; "gender"; "address"; "rawText" ].

Definition passport_fields : list string :=
  [ "passportNumber"; "surname"; "givenNames"; "nationality"; "dateOfBirth";
    "placeOfBirth"; "gender"; "dateOfIssue"; "dateOfExpiry"; "issuingAuthority";
    "husbandName"; "fatherName"; "citizenshipNumber"; "trackingNumber"; "rawText" ].

(* a string or an explicit null *)
Definition null_or_string (v : jsval) : Prop := v = Null \/ exists s, v = Str s.

(* [d] has exactly the keys [fields], each null or a string *)
Definition record_of (fields : list string) (d : gmap string jsval) : Prop :=
  forall k,
    (In k fields -> exists v, d !! k = Some v /\ null_or_string v) /\
    (~ In k fields -> d !! k = None).

Lemma lookup_set (k j : string) (v : jsval) (d : gmap string jsval) :
  set k v d !! j = if String.eqb k j then Some v else d !! j.
Proof.
  unfold set. destruct (String.eqb_spec k j) as [->|Hne].
  - apply lookup_insert_eq.
  - now apply lookup_insert_ne.
Qed.

Lemma eqb_not_in (k j : string) (l : list string) :
  ~ In j (k :: l) -> String.eqb k j = false /\ ~ In j l.
Proof.
  intros H. split.
  - apply String.eqb_neq. intros ->. apply H. now left.
  - intros Hj. apply H. now right.
Qed.

Ltac absent_key H :=
  repeat (rewrite lookup_set;
          let E := fresh "E" in
          apply eqb_not_in in H as [E H]; rewrite E; clear E);
  apply lookup_empty.

Ltac present_key H :=
  simpl in H;
  repeat (destruct H as [<-|H];
          [eexists; split; [vm_compute; reflexivity|]; (left; reflexivity) || (right; eauto)|]);
  destruct H.

Lemma cnic_initial_record (text : string) : record_of cnic_fields (cnic_initial text).
Proof.
  intros k. split; intros H.
  - present_key H.
  - unfold cnic_initial, cnic_fields in *. absent_key H.
Qed.

Lemma passport_initial_record (text : string) :
  record_of passport_fields (passport_initial text).
Proof.
  intros k. split; intros H.
  - present_key H.
  - unfold passport_initial, passport_fields in *. absent_key H.
Qed.

Lemma record_of_writes (fields K : list string) (d d' : gmap string jsval) :
  incl K fields -> record_of fields d -> writes K d d' -> record_of fields d'.
Proof.
  intros HK Hd W k. destruct (Hd k) as [Hin Hout].
  destruct (W k) as [E|(Hk & s & E)]; rewrite E.
  - split; assumption.
  - split; [intros _; exists (Str s); split; [reflexivity|right; eauto]|].
    intros Hn. exfalso. apply Hn. now apply HK.
Qed.

Lemma extractCNICData_record (text : string) :
  exists d, extractCNICData text = Ok d /\
            record_of cnic_fields d /\
            d !! "rawText" = Some (Str text).
Proof.
  destruct (extractCNICData_writes text) as (d & E & W).
  exists d. split; [exact E|]. split.
  - eapply record_of_writes; [|apply cnic_initial_record|exact W]. incl_keys.
  - rewrite (writes_other _ _ _ "rawText" W); [reflexivity|].
    cbv. intuition discriminate.
Qed.

Lemma extractPassportData_record (text : string) (mrzData : option MrzData) :
  exists d, extractPassportData text mrzData = Ok d /\
            record_of passport_fields d /\
            d !! "rawText" = Some (Str text).
Proof.
  destruct (extractPassportData_writes text mrzData) as (d & E & W).
  exists d. split; [exact E|]. split.
  - eapply record_of_writes; [|apply passport_initial_record|exact W]. incl_keys.
  - rewrite (writes_other _ _ _ "rawText" W); [reflexivity|].
    cbv. intuition discriminate.
Qed.

End StepFacts.

(** ** cleanData *)

Module CleanFacts.
Import JsStr DataExtractor StepFacts.

Lemma member_In (k : string) (fields : list string) :
  member k fields = true <-> In k fields.
Proof.
  unfold member. rewrite existsb_exists. split.
  - intros (x & Hx & E). apply String.eqb_eq in E as ->. exact Hx.
  - intros H. exists k. split; [exact H|apply String.eqb_refl].
Qed.

Lemma member_not_In (k : string) (fields : list string) :
  member k fields = false <-> ~ In k fields.
Proof.
  rewrite <- member_In. destruct (member k fields); split; intros; congruence.
Qed.

(* one callback of the forEach that drops the empty fields *)
Definition drop_one (requiredFields : list string) (c : gmap string jsval)
    (key : string) : gmap string jsval :=
  if null_or_empty (get c key) && negb (member key requiredFields)
  then delete key c else c.

Lemma drop_keys_lookup (requiredFields keys : list string) (k : string) :
  forall c : gmap string jsval,
    foldl (drop_one requiredFields) c keys !! k =
    if member k keys && null_or_empty (get c k) && negb (member k requiredFields)
    then None else c !! k.
Proof.
  induction keys as [|a keys IH]; intros c; [reflexivity|].
  cbn [foldl]. rewrite IH. cbn [member existsb]. fold (member k keys).
  destruct (String.eqb_spec k a) as [<-|Hne]; cbn [orb].
  - unfold drop_one.
    destruct (null_or_empty (get c k)) eqn:C1;
      destruct (member k requiredFields) eqn:C2; cbn [negb andb];
      rewrite ?C1, ?C2, ?andb_false_r; cbn [negb andb]; try reflexivity.
    unfold get. rewrite lookup_delete_eq. cbn [default null_or_empty].
    rewrite andb_false_r. cbn [andb]. reflexivity.
  - assert (Hk : drop_one requiredFields c a !! k = c !! k).
    { unfold drop_one. destruct (_ && _); [|reflexivity].
      apply lookup_delete_ne. congruence. }
    unfold get. rewrite Hk. reflexivity.
Qed.

Lemma member_keys (m : gmap string jsval) (k : string) :
  is_Some (m !! k) -> member k (map fst (map_to_list m)) = true.
Proof.
  intros [v Hv]. apply member_In. apply in_map_iff. exists (k, v).
  split; [reflexivity|]. apply list_elem_of_In. now apply elem_of_map_to_list.
Qed.

Lemma drop_empty_lookup (requiredFields : list string)
    (m : gmap string jsval) (k : string) :
  drop_empty requiredFields m !! k =
  if null_or_empty (get m k) && negb (member k requiredFields)
  then None else m !! k.
Proof.
  unfold drop_empty.
  etransitivity;
    [exact (drop_keys_lookup requiredFields (map fst (map_to_list m)) k m)|].
  destruct (m !! k) as [v|] eqn:E.
  - rewrite member_keys by (rewrite E; eauto). reflexivity.
  - unfold get. rewrite E. cbn [default null_or_empty].
    rewrite andb_false_r. reflexivity.
Qed.

Lemma ensure_required_lookup (requiredFields : list string) (k : string) :
  forall c : gmap string jsval,
    ensure_required requiredFields c !! k =
    match c !! k with
    | Some v => Some v
    | None => if member k requiredFields then Some Null else None
    end.
Proof.
  unfold ensure_required.
  induction requiredFields as [|a fields IH]; intros c.
  - cbn. now destruct (c !! k).
  - cbn [foldl]. rewrite IH. cbn [member existsb]. fold (member k fields).
    unfold has. destruct (c !! a) as [va|] eqn:Ea.
    + rewrite bool_decide_eq_true_2 by eauto.
      destruct (c !! k) as [v|] eqn:Ek; [reflexivity|].
      destruct (String.eqb_spec k a) as [->|Hne]; [congruence|reflexivity].
    + rewrite bool_decide_eq_false_2 by (intros [? ?]; discriminate).
      rewrite lookup_set.
      destruct (String.eqb_spec a k) as [->|Hne].
      * rewrite Ea. now rewrite String.eqb_refl.
      * destruct (String.eqb_spec k a) as [->|_]; [congruence|reflexivity].
Qed.

(** what cleanData keeps of a record *)
Lemma cleanData_lookup (d : gmap string jsval) (k : string) :
  cleanData d !! k =
  if member k (required_for d)
  then match d !! k with Some v => Some v | None => Some Null end
  else if null_or_empty (get d k) then None else d !! k.
Proof.
  unfold cleanData. cbv zeta.
  rewrite ensure_required_lookup, drop_empty_lookup.
  destruct (member k (required_for d)); cbn [negb].
  - rewrite andb_false_r. reflexivity.
  - rewrite andb_true_r. destruct (null_or_empty (get d k)); [reflexivity|].
    now destruct (d !! k).
Qed.

Lemma required_for_cnic (d : gmap string jsval) :
  record_of cnic_fields d -> required_for d = cnicRequiredFields.
Proof.
  intros H. unfold required_for, has.
  assert (E1 : d !! "passportNumber" = None)
    by (apply H; cbv; intuition discriminate).
  assert (E2 : d !! "surname" = None)
    by (apply H; cbv; intuition discriminate).
  rewrite E1, E2.
  rewrite !bool_decide_eq_false_2 by (intros [? ?]; discriminate). reflexivity.
Qed.

Lemma required_for_passport (d : gmap string jsval) :
  record_of passport_fields d -> required_for d = passportRequiredFields.
Proof.
  intros H. unfold required_for, has.
  destruct (H "passportNumber") as [Hin _].
  destruct Hin as (v & E & _); [cbv; tauto|]. rewrite E.
  rewrite bool_decide_eq_true_2 by eauto. reflexivity.
Qed.

End CleanFacts.

(** ** Shapes of the identifier patterns *)

Module ShapeFacts.
Import JsStr Regex StrFacts RegexFacts.

Fixpoint filter_chars (p : ascii -> bool) (s : string) : string :=
  match s with
  | EmptyString => EmptyString
  | String c r => if p c then String c (filter_chars p r) else filter_chars p r
  end.

(* XXXXX-XXXXXXX-X *)
Definition is_canonical (s : string) : bool :=
  (String.length s =? 15)%nat
  && all_chars is_digit (substring 0 5 s)
  && String.eqb (substring 5 6 s) "-"
  && all_chars is_digit (substring 6 13 s)
  && String.eqb (substring 13 14 s) "-"
  && all_chars is_digit (substring 14 15 s).

Lemma filter_chars_app (p : ascii -> bool) (a b : string) :
  filter_chars p (a ++ b) = (filter_chars p a ++ filter_chars p b)%string.
Proof.
induction a as [|c a IH]; [reflexivity|].
rewrite app_cons. cbn [filter_chars]. destruct (p c); [|exact IH].
now rewrite app_cons, IH.
Qed.

Lemma filter_chars_all (p : ascii -> bool) (s : string) :
  all_chars p s = true -> filter_chars p s = s.
Proof.
induction s as [|c s IH]; [reflexivity|]. cbn [all_chars filter_chars].
intros H. apply andb_true_iff in H as [Hc Hs]. rewrite Hc. now rewrite IH.
Qed.

Lemma filter_chars_none (p : ascii -> bool) (s : string) :
  all_chars (fun c => negb (p c)) s = true -> filter_chars p s = EmptyString.
Proof.
induction s as [|c s IH]; [reflexivity|]. cbn [all_chars filter_chars].
intros H. apply andb_true_iff in H as [Hc Hs].
apply negb_true_iff in Hc. rewrite Hc. now apply IH.
Qed.

Lemma all_chars_filter (p q : ascii -> bool) (s : string) :
  all_chars q s = true -> all_chars q (filter_chars p s) = true.
Proof.
induction s as [|c s IH]; [reflexivity|]. cbn [all_chars filter_chars].
intros H. apply andb_true_iff in H as [Hc Hs].
destruct (p c); [cbn [all_chars]; rewrite Hc|]; now apply IH.
Qed.

Lemma all_chars_impl (p q : ascii -> bool) (s : string) :
  (forall c, p c = true -> q c = true) ->
  all_chars p s = true -> all_chars q s = true.
Proof.
intros Hpq. induction s as [|c s IH]; [reflexivity|]. cbn [all_chars].
intros H. apply andb_true_iff in H as [Hc Hs]. rewrite (Hpq c Hc). now apply IH.
Qed.

(** replacing every character of a class by nothing is a filter *)

Definition single_char (rx : regex) (p : ascii -> bool) : Prop :=
  forall s, rmatch (rx_flags rx) (rx_re rx) s = eat p s.

Lemma exec_at_single (rx : regex) (p : ascii -> bool) (rest : string)
    (prev : option ascii) (pos : nat) :
  single_char rx p ->
  exec_at rx rest prev pos =
  match rest with
  | String c r =>
      if p c
      then Some (Result pos 1
                   (<[0 := Some (String c EmptyString)]>
                      (replicate (S (rx_groups rx)) None)))
      else None
  | EmptyString => None
  end.
Proof.
intros H. unfold exec_at. rewrite H. unfold eat. cbn [ms_rest].
destruct rest as [|c r]; [reflexivity|]. destruct (p c); [|reflexivity].
cbn [step_char ms_pos ms_caps].
assert (HH : S pos - pos = 1) by lia. rewrite HH.
reflexivity.
Qed.

Lemma replace_go_single (rx : regex) (p : ascii -> bool) :
  single_char rx p ->
  forall s prev pos,
    replace_go rx EmptyString true s prev pos 0 =
    filter_chars (fun c => negb (p c)) s.
Proof.
intros H. induction s as [|c s IH]; intros prev pos;
  cbn [replace_go filter_chars]; rewrite (exec_at_single rx p _ _ _ H).
- reflexivity.
- destruct (p c); cbn [negb].
  + cbn [expand m_length Nat.eqb pred]. rewrite !app_nil_l. apply IH.
  + now rewrite IH.
Qed.

Lemma replace_single (rx : regex) (p : ascii -> bool) (s : string) :
  single_char rx p -> f_global (rx_flags rx) = true ->
  replace rx EmptyString s = filter_chars (fun c => negb (p c)) s.
Proof.
intros H G. unfold replace. rewrite G. now apply replace_go_single.
Qed.

(** digits, blanks and dashes *)

Lemma digit_not_space (c : ascii) : is_digit c = true -> is_space c = false.
Proof. destruct c as [[] [] [] [] [] [] [] []]; vm_compute; congruence. Qed.

Lemma digit_not_dash (c : ascii) : is_digit c = true -> Ascii.eqb "-" c = false.
Proof. destruct c as [[] [] [] [] [] [] [] []]; vm_compute; congruence. Qed.

Lemma dash_not_space (c : ascii) : Ascii.eqb "-" c = true -> is_space c = false.
Proof. intros H. apply Ascii.eqb_eq in H as <-. reflexivity. Qed.

Definition no_flags : flags := Flags false false false.

Lemma cls_digit (c : ascii) : cls_ok no_flags false [CDigit] c = is_digit c.
Proof. unfold cls_ok, items_have. cbn. now rewrite orb_false_r. Qed.

Lemma cls_space (g : bool) (c : ascii) :
  cls_ok (Flags g false false) false [CSpace] c = is_space c.
Proof. unfold cls_ok, items_have. cbn. now rewrite orb_false_r. Qed.

Lemma cls_dash (c : ascii) : cls_ok no_flags false [CChar "-"] c = Ascii.eqb "-" c.
Proof. unfold cls_ok, items_have. cbn [f_icase no_flags existsb citem_has xorb]. now rewrite orb_false_r. Qed.

Lemma filter_chars_ext (p q : ascii -> bool) (s : string) :
  (forall c, p c = q c) -> filter_chars p s = filter_chars q s.
Proof.
intros H. induction s as [|c s IH]; [reflexivity|]. cbn [filter_chars].
now rewrite H, IH.
Qed.

Definition not_space (c : ascii) : bool := negb (is_space c).
Definition not_dash (c : ascii) : bool := negb (Ascii.eqb "-" c).

(* cnic.replace(/\s/g, "").replace(/-/g, "") *)
Lemma strip_is_filter (g : string) :
  replace DataExtractor.re_dash_g EmptyString
    (replace DataExtractor.re_space_g EmptyString g) =
  filter_chars not_dash (filter_chars not_space g).
Proof.
rewrite (replace_single DataExtractor.re_dash_g (Ascii.eqb "-"));
  [|intros s; reflexivity|reflexivity].
rewrite (replace_single DataExtractor.re_space_g
           (cls_ok (Flags true false false) false [CSpace]));
  [|intros s; reflexivity|reflexivity].
f_equal. apply filter_chars_ext. intros c. unfold not_space. cbn beta.
now rewrite cls_space.
Qed.

(** words of a repeated class *)

Lemma rep_class_lang (fl : flags) (min k : nat) (g neg : bool)
    (its : list citem) (w : string) :
  lang fl (Rep min (Some k) g (Cls neg its)) w -> min <= k ->
  min <= String.length w <= k /\ all_chars (cls_ok fl neg its) w = true.
Proof.
cbn [lang]. intros (ws & -> & F & Hk & Hmin) Hle. specialize (Hmin Hle).
assert (H : String.length (concat_str ws) = length ws /\
            all_chars (cls_ok fl neg its) (concat_str ws) = true).
{ clear Hk Hmin. induction F as [|x ws (c & -> & Hc) _ [IH1 IH2]]; [split; reflexivity|].
  cbn [concat_str fold_right length]. fold (concat_str ws).
  rewrite app_cons, app_nil_l. cbn [String.length all_chars].
  rewrite IH1, Hc, IH2. split; reflexivity. }
destruct H as [H1 H2]. rewrite H1. split; [lia|exact H2].
Qed.

(* the part of the text a digit run, an optional dash or an optional blank
   of the identifier pattern stands for *)
Lemma digits_lang (n : nat) (g : bool) (w : string) :
  lang no_flags (Rep n (Some n) g (Cls false [CDigit])) w ->
  String.length w = n /\ all_chars is_digit w = true.
Proof.
intros H. apply rep_class_lang in H as [H1 H2]; [|lia]. split; [lia|].
eapply all_chars_impl; [|exact H2]. intros c. now rewrite cls_digit.
Qed.

Lemma opt_dash_lang (g : bool) (w : string) :
  lang no_flags (Rep 0 (Some 1) g (Cls false [CChar "-"])) w ->
  all_chars (Ascii.eqb "-") w = true.
Proof.
intros H. apply rep_class_lang in H as [_ H2]; [|lia].
eapply all_chars_impl; [|exact H2]. intros c. now rewrite cls_dash.
Qed.

Lemma opt_space_lang (g : bool) (w : string) :
  lang no_flags (Rep 0 (Some 1) g (Cls false [CSpace])) w ->
  all_chars is_space w = true.
Proof.
intros H. apply rep_class_lang in H as [_ H2]; [|lia].
eapply all_chars_impl; [|exact H2]. intros c. unfold no_flags.
now rewrite cls_space.
Qed.

Lemma keep_digits (p : ascii -> bool) (w : string) :
  (forall c, is_digit c = true -> p c = true) ->
  all_chars is_digit w = true -> filter_chars p w = w.
Proof. intros Hp H. apply filter_chars_all. eapply all_chars_impl; eauto. Qed.

Lemma digits_not_space (w : string) :
  all_chars is_digit w = true -> filter_chars not_space w = w.
Proof.
apply keep_digits. intros c H. unfold not_space. now rewrite digit_not_space.
Qed.

Lemma digits_not_dash (w : string) :
  all_chars is_digit w = true -> filter_chars not_dash w = w.
Proof.
apply keep_digits. intros c H. unfold not_dash. now rewrite digit_not_dash.
Qed.

Lemma dashes_not_space (w : string) :
  all_chars (Ascii.eqb "-") w = true -> filter_chars not_space w = w.
Proof.
intros H. apply filter_chars_all. eapply all_chars_impl; [|exact H].
intros c Hc. unfold not_space. now rewrite dash_not_space.
Qed.

Lemma dashes_dropped (w : string) :
  all_chars (Ascii.eqb "-") w = true -> filter_chars not_dash w = EmptyString.
Proof.
intros H. apply filter_chars_none. eapply all_chars_impl; [|exact H].
intros c Hc. unfold not_dash. now rewrite Hc.
Qed.

Lemma spaces_dropped (w : string) :
  all_chars is_space w = true -> filter_chars not_space w = EmptyString.
Proof.
intros H. apply filter_chars_none. eapply all_chars_impl; [|exact H].
intros c Hc. unfold not_space. now rewrite Hc.
Qed.

(** the canonical form *)

Lemma dashed_parts (a b c : string) :
  String.length a = 5 -> String.length b = 7 ->
  DataExtractor.dashed (a ++ b ++ c) = (a ++ "-" ++ b ++ "-" ++ c)%string.
Proof.
intros La Lb.
do 5 (destruct a as [|? a]; [discriminate|]). destruct a; [|discriminate].
do 7 (destruct b as [|? b]; [discriminate|]). destruct b; [|discriminate].
reflexivity.
Qed.

Lemma canonical_of_parts (a b c : string) :
  String.length a = 5 -> String.length b = 7 -> String.length c = 1 ->
  all_chars is_digit a = true -> all_chars is_digit b = true ->
  all_chars is_digit c = true ->
  is_canonical (a ++ "-" ++ b ++ "-" ++ c) = true.
Proof.
intros La Lb Lc Da Db Dc.
do 5 (destruct a as [|? a]; [discriminate|]). destruct a; [|discriminate].
do 7 (destruct b as [|? b]; [discriminate|]). destruct b; [|discriminate].
destruct c as [|? c]; [discriminate|]. destruct c; [|discriminate].
cbn [all_chars] in Da, Db, Dc.
repeat match goal with
       | H : _ && _ = true |- _ => apply andb_true_iff in H as [? ?]
       end.
cbv -[is_digit].
repeat match goal with
       | H : is_digit _ = true |- _ => rewrite H; clear H
       end.
reflexivity.
Qed.

Lemma ascii_eqb_dash (c : ascii) :
  String.eqb (String c EmptyString) "-" = true -> c = "-"%char.
Proof. intros H. apply String.eqb_eq in H. now injection H. Qed.

Lemma canonical_parts (s : string) :
  is_canonical s = true ->
  exists a b c,
    s = (a ++ "-" ++ b ++ "-" ++ c)%string /\
    String.length a = 5 /\ String.length b = 7 /\ String.length c = 1 /\
    all_chars is_digit a = true /\ all_chars is_digit b = true /\
    all_chars is_digit c = true.
Proof.
unfold is_canonical. intros H.
repeat match goal with
       | H : _ && _ = true |- _ => apply andb_true_iff in H as [H ?]
       end.
apply Nat.eqb_eq in H.
do 15 (destruct s as [|? s]; [discriminate|]). destruct s; [|discriminate].
match goal with
| H5 : String.eqb (substring 5 6 _) _ = true,
  H13 : String.eqb (substring 13 14 _) _ = true |- _ =>
    apply ascii_eqb_dash in H5; apply ascii_eqb_dash in H13; subst
end.
eexists (String _ (String _ (String _ (String _ (String _ EmptyString))))),
        (String _ (String _ (String _ (String _ (String _ (String _
          (String _ EmptyString))))))),
        (String _ EmptyString).
split; [reflexivity|]. repeat split; assumption.
Qed.

(* the digits of an identifier, as the extractor gets them *)
Definition digits_of (g : string) : string :=
  filter_chars not_dash (filter_chars not_space g).

Lemma digits_of_app (a b : string) :
  digits_of (a ++ b) = (digits_of a ++ digits_of b)%string.
Proof. unfold digits_of. now rewrite !filter_chars_app. Qed.

Lemma digits_of_digits (w : string) :
  all_chars is_digit w = true -> digits_of w = w.
Proof.
intros H. unfold digits_of. now rewrite (digits_not_space _ H), (digits_not_dash _ H).
Qed.

Lemma digits_of_dashes (w : string) :
  all_chars (Ascii.eqb "-") w = true -> digits_of w = EmptyString.
Proof.
intros H. unfold digits_of. now rewrite (dashes_not_space _ H), (dashes_dropped _ H).
Qed.

Lemma digits_of_spaces (w : string) :
  all_chars is_space w = true -> digits_of w = EmptyString.
Proof. intros H. unfold digits_of. now rewrite (spaces_dropped _ H). Qed.

(** formatting is the identity on a canonical identifier *)
Lemma dashed_canonical_id (g : string) :
  is_canonical g = true -> DataExtractor.dashed (digits_of g) = g.
Proof.
intros H. apply canonical_parts in H
  as (a & b & c & -> & La & Lb & Lc & Da & Db & Dc).
rewrite !digits_of_app.
rewrite (digits_of_digits _ Da), (digits_of_digits _ Db), (digits_of_digits _ Dc).
rewrite (digits_of_dashes "-" eq_refl), !app_nil_l. now apply dashed_parts.
Qed.

(** the patterns of the national identifier *)

Definition digits (n : nat) : re := Rep n (Some n) true (Cls false [CDigit]).
Definition opt_dash : re := Rep 0 (Some 1) true (Cls false [CChar "-"]).
Definition opt_space : re := Rep 0 (Some 1) true (Cls false [CSpace]).

(* \d{5}[-]?\s?\d{7}[-]?\s?\d{1} *)
Definition cnic_body : re :=
  Seq (digits 5) (Seq opt_dash (Seq opt_space
    (Seq (digits 7) (Seq opt_dash (Seq opt_space (digits 1)))))).

(* \d{5}-\d{7}-\d{1} *)
Definition cnic_dashed_body : re :=
  Seq (digits 5) (Seq (Chr "-") (Seq (digits 7) (Seq (Chr "-") (digits 1)))).

Lemma cnic_body_shape (g : string) :
  lang no_flags cnic_body g ->
  is_canonical (DataExtractor.dashed (digits_of g)) = true /\
  String.length (digits_of g) = 13.
Proof.
intros (w1 & r1 & -> & H1 & (w2 & r2 & -> & H2 & (w3 & r3 & -> & H3 &
        (w4 & r4 & -> & H4 & (w5 & r5 & -> & H5 & (w6 & w7 & -> & H6 & H7)))))).
apply digits_lang in H1 as [L1 D1]. apply digits_lang in H4 as [L4 D4].
apply digits_lang in H7 as [L7 D7].
apply opt_dash_lang in H2. apply opt_dash_lang in H5.
apply opt_space_lang in H3. apply opt_space_lang in H6.
rewrite !digits_of_app.
rewrite (digits_of_digits _ D1), (digits_of_digits _ D4), (digits_of_digits _ D7).
rewrite (digits_of_dashes _ H2), (digits_of_dashes _ H5).
rewrite (digits_of_spaces _ H3), (digits_of_spaces _ H6).
rewrite !app_nil_l.
split.
- rewrite dashed_parts by assumption. now apply canonical_of_parts.
- rewrite !length_app. lia.
Qed.

Lemma chr_lang (a : ascii) (w : string) :
  lang no_flags (Chr a) w -> w = String a EmptyString.
Proof.
intros (c & -> & H). unfold chr_ok in H. cbn [f_icase no_flags] in H.
apply Ascii.eqb_eq in H as ->. reflexivity.
Qed.

Lemma cnic_dashed_body_shape (g : string) :
  lang no_flags cnic_dashed_body g -> is_canonical g = true.
Proof.
intros (w1 & r1 & -> & H1 & (w2 & r2 & -> & H2 & (w3 & r3 & -> & H3 &
        (w4 & w5 & -> & H4 & H5)))).
apply digits_lang in H1 as [L1 D1]. apply digits_lang in H3 as [L3 D3].
apply digits_lang in H5 as [L5 D5].
apply chr_lang in H2 as ->. apply chr_lang in H4 as ->.
now apply canonical_of_parts.
Qed.

Lemma thirteen_digits_shape (g : string) :
  lang no_flags (digits 13) g -> is_canonical (DataExtractor.dashed g) = true.
Proof.
intros H. apply digits_lang in H as [L D].
assert (E : g = (take 5 g ++ take 7 (drop 5 g) ++ drop 12 g)%string).
{ do 13 (destruct g as [|? g]; [discriminate|]). destruct g; [|discriminate].
  reflexivity. }
assert (all_chars is_digit (take 5 g) = true /\
        all_chars is_digit (take 7 (drop 5 g)) = true /\
        all_chars is_digit (drop 12 g) = true) as (D1 & D2 & D3).
{ rewrite E in D. rewrite !all_chars_app in D.
  apply andb_true_iff in D as [D1 D]. apply andb_true_iff in D as [D2 D3]. auto. }
rewrite E. rewrite dashed_parts.
- apply canonical_of_parts; try assumption.
  + rewrite length_take. lia.
  + rewrite length_take, length_drop. lia.
  + rewrite length_drop. lia.
- rewrite length_take. lia.
- rewrite length_take, length_drop. lia.
Qed.

End ShapeFacts.

(** ** Single fields: identifiers and dates *)

Module FieldFacts.
Import JsStr DataExtractor RegexFacts StepFacts ShapeFacts.

Lemma get_set (k j : string) (v : jsval) (d : gmap string jsval) :
  get (set k v d) j = if String.eqb k j then v else get d j.
Proof. unfold get. rewrite lookup_set. now destruct (String.eqb k j). Qed.

(* no line carries the label of [rule] *)
Definition no_label (rule : label_rule) (lines : list string) : bool :=
  forallb (fun l => negb (lr_is_label rule (toUpperCase (trim l)))) lines.

(* no line has a match of [rx] *)
Definition no_line_matches (rx : Regex.regex) (lines : list string) : bool :=
  forallb (fun l => negb (Regex.test rx (trim l))) lines.

(* the MRZ data, if any, have no value for the field [proj] *)
Definition mrz_without (proj : MrzData -> jsval) (mrzData : option MrzData) : bool :=
  match mrzData with
  | Some mrz => negb (truthy (proj mrz))
  | None => true
  end.

Lemma at_In (lines : list string) (i : nat) (l : string) :
  at_ lines i = Str l -> In l lines.
Proof.
unfold at_. destruct (lines !! i) as [x|] eqn:E; [|discriminate].
intros [= <-]. apply list_elem_of_In. eapply list_elem_of_lookup_2; eauto.
Qed.

(* a loop whose body changes nothing *)
Lemma for_lines_same (lines : list string)
    (body : nat -> gmap string jsval -> res (ctl (gmap string jsval)))
    (d : gmap string jsval) :
  (forall i, i < length lines -> body i d = Ok (Next d)) ->
  for_range body 0 (length lines) d = Ok d.
Proof.
intros Hbody.
destruct (for_range_inv (fun d1 => d1 = d) body (length lines) 0 d eq_refl)
  as (d' & E & ->); [|exact E].
intros i d1 Hi ->. exists (Next d). split; [apply Hbody; lia|reflexivity].
Qed.

Lemma label_loop_no_label (rule : label_rule) (lines : list string)
    (d : gmap string jsval) :
  no_label rule lines = true -> label_loop rule lines d = Ok d.
Proof.
intros H. unfold no_label in H. rewrite forallb_forall in H.
unfold label_loop. apply for_lines_same. intros i Hi. unfold label_body.
destruct (at_in_range lines i Hi) as [l E]. rewrite E. cbn [str_of bind].
apply at_In in E. apply H in E. apply negb_true_iff in E. now rewrite E.
Qed.

Lemma test_false (rx : Regex.regex) (s : string) :
  Regex.test rx s = false -> Regex.exec rx s = None.
Proof. unfold Regex.test. now destruct (Regex.exec rx s). Qed.

Lemma dob_lines_fallback_none (lines : list string) (d : gmap string jsval) :
  no_line_matches re_dob_line lines = true -> dob_lines_fallback lines d = Ok d.
Proof.
intros H. unfold no_line_matches in H. rewrite forallb_forall in H.
unfold dob_lines_fallback. destruct (negb _); [|reflexivity].
apply for_lines_same. intros i Hi. unfold dob_lines_body.
destruct (at_in_range lines i Hi) as [l E]. rewrite E. cbn [str_of bind].
apply at_In in E. apply H in E. apply negb_true_iff in E.
now rewrite (test_false _ _ E).
Qed.

Lemma expiry_lines_fallback_none (lines : list string) (d : gmap string jsval) :
  no_line_matches re_expiry_line lines = true -> expiry_lines_fallback lines d = Ok d.
Proof.
intros H. unfold no_line_matches in H. rewrite forallb_forall in H.
unfold expiry_lines_fallback. destruct (negb _); [|reflexivity].
apply for_lines_same. intros i Hi. unfold expiry_lines_body.
destruct (at_in_range lines i Hi) as [l E]. rewrite E. cbn [str_of bind].
apply at_In in E. apply H in E. apply negb_true_iff in E.
now rewrite (test_false _ _ E).
Qed.

Lemma issue_date_fallback_none (nt : string) (d : gmap string jsval) :
  Regex.test issueDatePattern nt = false -> issue_date_fallback nt d = Ok d.
Proof.
intros H. unfold issue_date_fallback. destruct (negb _); [|reflexivity].
now rewrite (test_false _ _ H).
Qed.

(** the MRZ values *)

Lemma get_set_if_truthy (k j : string) (v : jsval) (d : gmap string jsval) :
  get (set_if_truthy k v d) j =
  if String.eqb k j && truthy v then v else get d j.
Proof.
unfold set_if_truthy. destruct (truthy v); [|now rewrite andb_false_r].
rewrite get_set. now rewrite andb_true_r.
Qed.

Lemma apply_mrz_without (proj : MrzData -> jsval) (k : string)
    (mrzData : option MrzData) (text : string) :
  (proj = mrz_dateOfBirth /\ k = "dateOfBirth") \/
  (proj = mrz_dateOfExpiry /\ k = "dateOfExpiry") \/
  (proj = mrz_citizenshipNumber /\ k = "citizenshipNumber") ->
  mrz_without proj mrzData = true ->
  get (apply_mrz mrzData (passport_initial text)) k = Null.
Proof.
intros Hk H. destruct mrzData as [mrz|]; cbn [apply_mrz mrz_without] in *.
- apply negb_true_iff in H.
  destruct Hk as [[-> ->]|[[-> ->]|[-> ->]]];
    rewrite !get_set_if_truthy; cbn [String.eqb Ascii.eqb Bool.eqb andb];
    rewrite ?H; reflexivity.
- destruct Hk as [[-> ->]|[[-> ->]|[-> ->]]]; reflexivity.
Qed.

(** the national identifier *)

Lemma cnicPattern_group (nt : string) (m : Regex.result) :
  Regex.exec cnicPattern nt = Some m ->
  exists g, grp m 1 = Str g /\ lang no_flags cnic_body g.
Proof.
intros E. destruct (exec_group cnicPattern nt m 1 E) as (g & Hg & L);
  [cbn; lia|reflexivity|].
exists g. split; [exact Hg|]. apply L. cbn. repeat split; auto.
Qed.

Lemma cnic_number_spec (nt : string) (d : gmap string jsval) :
  exists d',
    cnic_number nt d = Ok d' /\
    match Regex.exec cnicPattern nt with
    | None => d' = d
    | Some m =>
        exists g, grp m 1 = Str g /\
                  d' = set "cnicNumber" (Str (dashed (digits_of g))) d /\
                  is_canonical (dashed (digits_of g)) = true
    end.
Proof.
unfold cnic_number.
destruct (Regex.exec cnicPattern nt) as [m|] eqn:E; [|eauto].
destruct (cnicPattern_group nt m E) as (g & Hg & L).
rewrite Hg. cbn [str_of bind]. rewrite strip_is_filter. fold (digits_of g).
destruct (cnic_body_shape g L) as [C Len]. rewrite Len. cbn [Nat.eqb].
eexists. split; [reflexivity|]. exists g. auto.
Qed.

Lemma cnic_plain_group (line : string) (m : Regex.result) :
  Regex.exec re_cnic_plain line = Some m ->
  exists g, grp m 1 = Str g /\ is_canonical (dashed g) = true.
Proof.
intros E. destruct (exec_group re_cnic_plain line m 1 E) as (g & Hg & L);
  [cbn; lia|reflexivity|].
exists g. split; [exact Hg|]. apply thirteen_digits_shape.
apply L. cbn. repeat split; auto.
Qed.

Lemma cnic_group_group (line : string) (m : Regex.result) :
  Regex.exec re_cnic_group line = Some m ->
  exists g, grp m 1 = Str g /\ is_canonical g = true.
Proof.
intros E. destruct (exec_group re_cnic_group line m 1 E) as (g & Hg & L);
  [cbn; lia|reflexivity|].
exists g. split; [exact Hg|]. apply cnic_dashed_body_shape.
apply L. cbn. repeat split; auto.
Qed.

(* the field is as before, or a canonical identifier *)
Definition same_or_canonical (k : string) (d d' : gmap string jsval) : Prop :=
  get d' k = get d k \/
  exists s, get d' k = Str s /\ is_canonical s = true.

Lemma citizenship_fallback_spec (lines : list string) (d : gmap string jsval) :
  exists d',
    citizenship_fallback lines d = Ok d' /\
    same_or_canonical "citizenshipNumber" d d'.
Proof.
unfold citizenship_fallback.
destruct (negb _); [|exists d; split; [reflexivity|now left]].
apply (for_range_inv (same_or_canonical "citizenshipNumber" d)); [now left|].
intros i d1 Hi H1. unfold citizenship_fallback_body.
destruct (at_in_range lines i) as [l ->]; [lia|]. cbn [str_of bind].
destruct (Regex.exec re_cnic_group (trim l)) as [m|] eqn:E.
- destruct (cnic_group_group _ _ E) as (g & -> & C).
  eexists. split; [reflexivity|]. right. exists g.
  cbn [ctl_state]. now rewrite get_set.
- destruct (Regex.exec re_cnic_plain (trim l)) as [m|] eqn:E2.
  + destruct (cnic_plain_group _ _ E2) as (g & -> & C). cbn [str_of bind].
    eexists. split; [reflexivity|]. right. exists (dashed g).
    cbn [ctl_state]. now rewrite get_set.
  + eexists. split; [reflexivity|exact H1].
Qed.

(* no line has an identifier, dashed or plain *)
Definition no_identifier (lines : list string) : bool :=
  forallb (fun l => negb (Regex.test re_cnic_group (trim l))
                    && negb (Regex.test re_cnic_plain (trim l))) lines.

Lemma no_identifier_body (lines : list string) (i : nat) (d : gmap string jsval) :
  no_identifier lines = true -> i < length lines ->
  citizenship_fallback_body lines i d = Ok (Next d).
Proof.
intros H Hi. unfold no_identifier in H. rewrite forallb_forall in H.
unfold citizenship_fallback_body.
destruct (at_in_range lines i Hi) as [l E]. rewrite E. cbn [str_of bind].
apply at_In, H, andb_true_iff in E as [T1 T2].
apply negb_true_iff in T1, T2.
now rewrite (test_false _ _ T1), (test_false _ _ T2).
Qed.

Lemma citizenship_fallback_none (lines : list string) (d : gmap string jsval) :
  no_identifier lines = true -> citizenship_fallback lines d = Ok d.
Proof.
intros H. unfold citizenship_fallback. destruct (negb _); [|reflexivity].
apply for_lines_same. intros i Hi. now apply no_identifier_body.
Qed.

(* the first line with an identifier decides *)
Lemma citizenship_fallback_first (pre post : list string) (l : string)
    (d : gmap string jsval) :
  truthy (get d "citizenshipNumber") = false ->
  no_identifier pre = true ->
  citizenship_fallback (pre ++ l :: post) d =
  match Regex.exec re_cnic_group (trim l) with
  | Some m => Ok (set "citizenshipNumber" (grp m 1) d)
  | None =>
      match Regex.exec re_cnic_plain (trim l) with
      | Some m =>
          let* cnic := str_of (grp m 1) in
          Ok (set "citizenshipNumber" (Str (dashed cnic)) d)
      | None => for_range (citizenship_fallback_body (pre ++ l :: post))
                  (S (length pre)) (length post) d
      end
  end.
Proof.
intros T Hpre. unfold citizenship_fallback. rewrite T. cbn [negb].
rewrite List.length_app. cbn [length].
rewrite (for_range_skip _ d (length pre) (S (length post)) 0).
- cbn [Nat.add for_range]. unfold citizenship_fallback_body at 1. unfold at_.
  rewrite lookup_app_r by lia. rewrite Nat.sub_diag. cbn [lookup list_lookup].
  cbn [str_of bind].
  destruct (Regex.exec re_cnic_group (trim l)) as [m|]; [reflexivity|].
  destruct (Regex.exec re_cnic_plain (trim l)) as [m|] eqn:E2; [|reflexivity].
  destruct (cnic_plain_group _ _ E2) as (g & -> & _). reflexivity.
- intros i Hi. unfold citizenship_fallback_body. unfold at_.
  rewrite lookup_app_l by lia.
  destruct (lookup_lt_is_Some_2 pre i) as [a Ha]; [lia|]. rewrite Ha.
  cbn [str_of bind].
  unfold no_identifier in Hpre. rewrite forallb_forall in Hpre.
  assert (Hin : In a pre) by (apply list_elem_of_In; eapply list_elem_of_lookup_2, Ha).
  apply Hpre, andb_true_iff in Hin as [T1 T2].
  apply negb_true_iff in T1, T2.
  now rewrite (test_false _ _ T1), (test_false _ _ T2).
Qed.

(** the dates of extractCNICData *)

Lemma get_labelled_or_nth (pattern : Regex.regex) (k j : string) (n : nat)
    (nt : string) (dates : list string) (d : gmap string jsval) :
  get (labelled_or_nth pattern k n nt dates d) j =
  if String.eqb k j then
    match Regex.exec pattern nt with
    | Some m => grp m 1
    | None => if (n + 1 <=? length dates)%nat then at_ dates n else get d j
    end
  else get d j.
Proof.
unfold labelled_or_nth.
destruct (Regex.exec pattern nt) as [m|]; [apply get_set|].
destruct (n + 1 <=? length dates)%nat; [apply get_set|].
now destruct (String.eqb_spec k j) as [->|].
Qed.

(* the value of a date field: the labelled date, else the date at the
   ordinal position of the field *)
Definition labelled_else_nth (pattern : Regex.regex) (n : nat) (nt : string)
    (v : jsval) : Prop :=
  (forall m, Regex.exec pattern nt = Some m -> v = grp m 1) /\
  (Regex.exec pattern nt = None ->
   forall x, cnic_dates nt !! n = Some x -> v = Str x).

Lemma labelled_else_nth_intro (pattern : Regex.regex) (n : nat) (nt : string)
    (v0 : jsval) :
  labelled_else_nth pattern n nt
    (match Regex.exec pattern nt with
     | Some m => grp m 1
     | None => if (n + 1 <=? length (cnic_dates nt))%nat
               then at_ (cnic_dates nt) n else v0
     end).
Proof.
split.
- intros m ->. reflexivity.
- intros -> x Hx.
  assert (Hlen : n < length (cnic_dates nt)) by (eapply lookup_lt_Some; eauto).
  destruct (Nat.leb_spec (n + 1) (length (cnic_dates nt))); [|lia].
  unfold at_. now rewrite Hx.
Qed.

(** the dates of extractPassportData *)

(* the trimmed date of the first pattern that matches with a date *)
Fixpoint first_labelled (nt : string) (patterns : list Regex.regex) : option string :=
  match patterns with
  | [] => None
  | p :: ps =>
      match Regex.exec p nt with
      | Some m =>
          match grp m 1 with
          | Str g => if nonempty g then Some (trim g) else first_labelled nt ps
          | _ => first_labelled nt ps
          end
      | None => first_labelled nt ps
      end
  end.

Lemma labelled_dates_spec (k nt : string) (patterns : list Regex.regex)
    (d : gmap string jsval) :
  truthy (get d k) = false ->
  for_of (labelled_date_body k nt) patterns d =
  Ok (match first_labelled nt patterns with
      | Some v => set k (Str v) d
      | None => d
      end).
Proof.
intros T. induction patterns as [|p ps IH]; [reflexivity|].
cbn [for_of first_labelled]. unfold labelled_date_body at 1.
destruct (Regex.exec p nt) as [m|]; [|exact IH].
rewrite T. cbn [negb]. rewrite andb_true_r.
destruct (grp m 1) as [| |g]; cbn [truthy]; try exact IH.
destruct (nonempty g); [|exact IH]. reflexivity.
Qed.

Lemma labelled_dates_kept (k nt : string) (patterns : list Regex.regex)
    (d : gmap string jsval) :
  truthy (get d k) = true ->
  for_of (labelled_date_body k nt) patterns d = Ok d.
Proof.
intros T. induction patterns as [|p ps IH]; [reflexivity|].
cbn [for_of]. unfold labelled_date_body at 1.
destruct (Regex.exec p nt) as [m|]; [|exact IH].
rewrite T. cbn [negb]. rewrite andb_false_r. exact IH.
Qed.

(* the value of a date field after the fallback: the labelled date when
   there is one, else the date at position [n] *)
Definition labelled_else_ordinal (patterns : list Regex.regex) (n : nat)
    (nt : string) (v : jsval) : Prop :=
  (forall x, first_labelled nt patterns = Some x -> nonempty x = true -> v = Str x) /\
  (first_labelled nt patterns = None ->
   forall x, passport_dates nt !! n = Some x -> v = Str x).

Lemma nth_date_after_labelled (k : string) (patterns : list Regex.regex)
    (n : nat) (nt : string) (d : gmap string jsval) :
  truthy (get d k) = false ->
  labelled_else_ordinal patterns n nt
    (get (nth_date k n (passport_dates nt)
            (match first_labelled nt patterns with
             | Some v => set k (Str v) d
             | None => d
             end)) k).
Proof.
intros T. unfold nth_date. split.
- intros x -> Hx. rewrite get_set, String.eqb_refl. cbn [truthy]. rewrite Hx.
  cbn [negb andb]. now rewrite get_set, String.eqb_refl.
- intros -> x Hx. rewrite T. cbn [negb andb].
  assert (Hlen : n < length (passport_dates nt)) by (eapply lookup_lt_Some; eauto).
  destruct (Nat.leb_spec (n + 1) (length (passport_dates nt))); [|lia].
  rewrite get_set, String.eqb_refl. unfold at_. now rewrite Hx.
Qed.

Lemma passport_date_fallback_birth (nt : string) (d d' : gmap string jsval) :
  passport_date_fallback nt d = Ok d' ->
  truthy (get d "dateOfBirth") = false ->
  labelled_else_ordinal dobPatterns 0 nt (get d' "dateOfBirth").
Proof.
unfold passport_date_fallback. intros E T. rewrite T in E. cbn [negb orb] in E.
cbv zeta in E. rewrite (labelled_dates_spec _ _ _ _ T) in E. cbn [bind] in E.
match type of E with
| context [for_of ?b ?ps ?d2] =>
    destruct (labelled_dates_ok "dateOfExpiry" nt ps d2) as (d3 & E3 & W3);
    rewrite E3 in E; cbn [bind] in E
end.
injection E as <-.
pose proof (nth_date_writes "dateOfExpiry" 1 (passport_dates nt) d3) as W4.
rewrite (writes_get_other _ _ _ "dateOfBirth" W4) by (cbv; intuition discriminate).
rewrite (writes_get_other _ _ _ "dateOfBirth" W3) by (cbv; intuition discriminate).
now apply nth_date_after_labelled.
Qed.

Lemma passport_date_fallback_expiry (nt : string) (d d' : gmap string jsval) :
  passport_date_fallback nt d = Ok d' ->
  truthy (get d "dateOfExpiry") = false ->
  labelled_else_ordinal expiryPatterns 1 nt (get d' "dateOfExpiry").
Proof.
unfold passport_date_fallback. intros E T. rewrite T in E.
cbn [negb] in E. rewrite orb_true_r in E. cbv zeta in E.
destruct (labelled_dates_ok "dateOfBirth" nt dobPatterns d) as (d1 & E1 & W1).
rewrite E1 in E. cbn [bind] in E.
pose proof (nth_date_writes "dateOfBirth" 0 (passport_dates nt) d1) as W2.
set (d2 := nth_date "dateOfBirth" 0 (passport_dates nt) d1) in *.
assert (T2 : truthy (get d2 "dateOfExpiry") = false).
{ rewrite (writes_get_other _ _ _ "dateOfExpiry" W2) by (cbv; intuition discriminate).
  rewrite (writes_get_other _ _ _ "dateOfExpiry" W1) by (cbv; intuition discriminate).
  exact T. }
rewrite (labelled_dates_spec _ _ _ _ T2) in E. cbn [bind] in E.
injection E as <-. now apply nth_date_after_labelled.
Qed.

End FieldFacts.

(** ** The arithmetic of doubles *)

Module DoubleFacts.
Import Double.
Local Open Scope Q_scope.

Lemma pow2_pos (e : Z) : 0 < pow2 e.
Proof. apply Qpower_0_lt. reflexivity. Qed.

Lemma pow2_add (a b : Z) : pow2 (a + b) == pow2 a * pow2 b.
Proof. apply Qpower_plus. discriminate. Qed.

Lemma pow2_Z (n : Z) : (0 <= n)%Z -> pow2 n == inject_Z (2 ^ n).
Proof. intros H. unfold pow2. now rewrite Zpower_Qpower. Qed.

Lemma pow2_le (a b : Z) : (a <= b)%Z -> pow2 a <= pow2 b.
Proof. intros H. apply Qpower_le_compat_l; [exact H|discriminate]. Qed.

Lemma pow2_lt (a b : Z) : (a < b)%Z -> pow2 a < pow2 b.
Proof. intros H. apply Qpower_lt_compat_l; [exact H|reflexivity]. Qed.

Lemma pow2_lt_inv (a b : Z) : pow2 a < pow2 b -> (a < b)%Z.
Proof. intros H. apply (Qpower_lt_compat_l_inv 2); [exact H|reflexivity]. Qed.

(* a multiple of a finer grid *)
Lemma pow2_split (a b : Z) :
  (a <= b)%Z -> pow2 b == inject_Z (2 ^ (b - a)) * pow2 a.
Proof.
intros H. rewrite <- pow2_Z by lia. rewrite <- pow2_add.
now replace (b - a + a)%Z with b by lia.
Qed.

(** the binary exponent *)

Lemma mag_raw_spec (n : Z) (d : positive) :
  (0 < n)%Z ->
  let e := (Z.log2 n - Z.log2 (Zpos d))%Z in
  pow2 (e - 1) < n # d /\ n # d < pow2 (e + 1).
Proof.
intros Hn e.
destruct (Z.log2_spec n Hn) as [Ha1 Ha2].
destruct (Z.log2_spec (Zpos d) (Pos2Z.is_pos d)) as [Hb1 Hb2].
pose proof (Z.log2_nonneg n) as Ha0. pose proof (Z.log2_nonneg (Zpos d)) as Hb0.
set (a := Z.log2 n) in *. set (b := Z.log2 (Zpos d)) in *.
assert (Hx : (n # d) * inject_Z (Zpos d) == inject_Z n).
{ unfold Qeq, Qmult, inject_Z. cbn. lia. }
assert (HA1 : pow2 a <= inject_Z n) by (rewrite pow2_Z by lia; now rewrite <- Zle_Qle).
assert (HA2 : inject_Z n < pow2 (a + 1))
  by (rewrite pow2_Z by lia; rewrite <- Zlt_Qlt; now rewrite <- Z.add_1_r in Ha2).
assert (HB1 : pow2 b <= inject_Z (Zpos d)) by (rewrite pow2_Z by lia; now rewrite <- Zle_Qle).
assert (HB2 : inject_Z (Zpos d) < pow2 (b + 1))
  by (rewrite pow2_Z by lia; rewrite <- Zlt_Qlt; now rewrite <- Z.add_1_r in Hb2).
assert (Hxpos : 0 < n # d) by (unfold Qlt; cbn; lia).
pose proof (pow2_pos b) as Pb. pose proof (pow2_pos (e - 1)) as Pe1.
pose proof (pow2_pos (e + 1)) as Pe2.
split.
- (* 2^(e-1) * 2^(b+1) = 2^a <= n = x * d < x * 2^(b+1) *)
  assert (E : pow2 a == pow2 (e - 1) * pow2 (b + 1)).
  { rewrite <- pow2_add. unfold e. now replace (a - b - 1 + (b + 1))%Z with a by lia. }
  apply (Qmult_lt_r _ _ (pow2 (b + 1))); [apply pow2_pos|].
  rewrite <- E.
  apply Qle_lt_trans with (inject_Z n); [exact HA1|].
  rewrite <- Hx. apply Qmult_lt_l; assumption.
- assert (E : pow2 (a + 1) == pow2 (e + 1) * pow2 b).
  { rewrite <- pow2_add. unfold e. now replace (a - b + 1 + b)%Z with (a + 1)%Z by lia. }
  apply (Qmult_lt_r _ _ (pow2 b)); [exact Pb|].
  rewrite <- E.
  apply Qle_lt_trans with (inject_Z n); [|exact HA2].
  rewrite <- Hx. apply Qmult_le_l; assumption.
Qed.

Lemma mag_spec (x : Q) :
  0 < x -> pow2 (mag x) <= x /\ x < pow2 (mag x + 1).
Proof.
intros Hx. unfold mag. cbv zeta.
pose proof (Qred_correct x) as Hr.
set (r := Qred x) in *.
assert (Hrpos : 0 < r) by now rewrite Hr.
destruct r as [n d]. 
assert (Hn : (0 < n)%Z) by (unfold Qlt in Hrpos; cbn in Hrpos; lia).
destruct (mag_raw_spec n d Hn) as [H1 H2]. cbn [Qnum Qden].
set (e := (Z.log2 n - Z.log2 (Zpos d))%Z) in *.
destruct (Qle_bool (pow2 e) (n # d)) eqn:T.
- apply Qle_bool_iff in T. rewrite <- Hr. split; assumption.
- assert (T' : ~ pow2 e <= n # d).
  { intros C. apply Qle_bool_iff in C. congruence. }
  apply Qnot_le_lt in T'. rewrite <- Hr. split; [now apply Qlt_le_weak|].
  now replace (e - 1 + 1)%Z with e by lia.
Qed.

Lemma mag_unique (x : Q) (e : Z) :
  pow2 e <= x -> x < pow2 (e + 1) -> mag x = e.
Proof.
intros H1 H2.
assert (Hx : 0 < x) by (eapply Qlt_le_trans; [apply pow2_pos|exact H1]).
destruct (mag_spec x Hx) as [M1 M2].
assert (A : (mag x < e + 1)%Z)
  by (apply pow2_lt_inv; eapply Qle_lt_trans; eassumption).
assert (B : (e < mag x + 1)%Z)
  by (apply pow2_lt_inv; eapply Qle_lt_trans; eassumption).
lia.
Qed.

Lemma mag_le (x y : Q) : 0 < x -> x <= y -> (mag x <= mag y)%Z.
Proof.
intros Hx Hxy.
assert (Hy : 0 < y) by (eapply Qlt_le_trans; eassumption).
destruct (mag_spec x Hx) as [M1 _]. destruct (mag_spec y Hy) as [_ N2].
assert (A : (mag x < mag y + 1)%Z).
{ apply pow2_lt_inv. eapply Qle_lt_trans; [exact M1|].
  eapply Qle_lt_trans; eassumption. }
lia.
Qed.

Lemma mag_lt_pow2 (x : Q) (e : Z) : 0 < x -> x < pow2 e -> (mag x < e)%Z.
Proof.
intros Hx H. destruct (mag_spec x Hx) as [M1 _].
apply pow2_lt_inv. eapply Qle_lt_trans; eassumption.
Qed.

#[global] Instance mag_comp : Proper (Qeq ==> eq) mag.
Proof.
intros x y H. unfold mag. now rewrite (Qred_complete x y H).
Qed.

#[global] Instance ulp_exp_comp : Proper (Qeq ==> eq) ulp_exp.
Proof. intros x y H. unfold ulp_exp. now rewrite H. Qed.

Lemma ulp_exp_min (x : Q) : (-1074 <= ulp_exp x)%Z.
Proof. unfold ulp_exp. lia. Qed.

Lemma ulp_exp_pos (x : Q) : 0 < x -> ulp_exp x = Z.max (mag x - 52) (-1074).
Proof. intros H. unfold ulp_exp. now rewrite Qabs_pos by now apply Qlt_le_weak. Qed.

Lemma ulp_exp_le (x y : Q) : 0 < x -> x <= y -> (ulp_exp x <= ulp_exp y)%Z.
Proof.
intros Hx Hxy. unfold ulp_exp.
assert (Hy : 0 < y) by (eapply Qlt_le_trans; eassumption).
rewrite !Qabs_pos by now apply Qlt_le_weak.
pose proof (mag_le x y Hx Hxy). lia.
Qed.

(** the nearest integer *)

#[global] Instance nearest_even_comp : Proper (Qeq ==> eq) nearest_even.
Proof.
intros x y H. unfold nearest_even.
rewrite (Qfloor_comp x y H).
assert (E : Qcompare (x - inject_Z (Qfloor y)) (1 # 2)
            = Qcompare (y - inject_Z (Qfloor y)) (1 # 2)).
{ apply Qcompare_comp; [now rewrite H|reflexivity]. }
now rewrite E.
Qed.

Lemma nearest_even_Z (n : Z) : nearest_even (inject_Z n) = n.
Proof.
unfold nearest_even. rewrite Qfloor_Z.
assert (E : Qcompare (inject_Z n - inject_Z n) (1 # 2) = Lt).
{ apply (proj1 (Qlt_alt _ _)).
  unfold Qlt, Qminus, Qplus, Qopp, inject_Z. cbn [Qnum Qden]. lia. }
now rewrite E.
Qed.

Lemma nearest_even_bounds (q : Q) :
  (Qfloor q <= nearest_even q <= Qfloor q + 1)%Z.
Proof.
unfold nearest_even.
destruct (Qcompare _ _); [destruct (Z.even _)| |]; lia.
Qed.

Lemma nearest_even_le (a b : Q) : a <= b -> (nearest_even a <= nearest_even b)%Z.
Proof.
intros H.
pose proof (Qfloor_resp_le a b H) as Hf.
pose proof (nearest_even_bounds a) as Ba. pose proof (nearest_even_bounds b) as Bb.
destruct (Z.eq_dec (Qfloor a) (Qfloor b)) as [E|N]; [|lia].
unfold nearest_even in *. rewrite <- E in *.
set (f := Qfloor a) in *.
destruct (Qcompare_spec (a - inject_Z f) (1 # 2)) as [Ea|La|Ga];
  destruct (Qcompare_spec (b - inject_Z f) (1 # 2)) as [Eb|Lb|Gb];
  try destruct (Z.even f); try lia; exfalso; lra.
Qed.

(** rounding to a double *)

#[global] Instance round_comp : Proper (Qeq ==> Qeq) round.
Proof.
intros x y H. unfold round. cbv zeta. rewrite !Qred_correct.
rewrite (ulp_exp_comp x y H).
assert (E : nearest_even (x / pow2 (ulp_exp y)) = nearest_even (y / pow2 (ulp_exp y))).
{ apply nearest_even_comp. apply Qdiv_comp; [exact H|reflexivity]. }
now rewrite E.
Qed.

Lemma round_eq (x : Q) :
  round x == inject_Z (nearest_even (x / pow2 (ulp_exp x))) * pow2 (ulp_exp x).
Proof. unfold round. cbv zeta. apply Qred_correct. Qed.

(* the rounding does not cross a point of the grid of x *)
Lemma round_le_grid (x : Q) (n : Z) :
  x <= inject_Z n * pow2 (ulp_exp x) ->
  round x <= inject_Z n * pow2 (ulp_exp x).
Proof.
intros H. rewrite round_eq.
pose proof (pow2_pos (ulp_exp x)) as P.
apply Qmult_le_compat_r; [|now apply Qlt_le_weak].
rewrite <- Zle_Qle. rewrite <- (nearest_even_Z n). apply nearest_even_le.
apply Qle_shift_div_r; assumption.
Qed.

Lemma round_ge_grid (x : Q) (n : Z) :
  inject_Z n * pow2 (ulp_exp x) <= x ->
  inject_Z n * pow2 (ulp_exp x) <= round x.
Proof.
intros H. rewrite round_eq.
pose proof (pow2_pos (ulp_exp x)) as P.
apply Qmult_le_compat_r; [|now apply Qlt_le_weak].
rewrite <- Zle_Qle. rewrite <- (nearest_even_Z n) at 1. apply nearest_even_le.
apply Qle_shift_div_l; assumption.
Qed.

Lemma round_0 : round 0 == 0.
Proof. reflexivity. Qed.

Lemma round_nonneg (x : Q) : 0 <= x -> 0 <= round x.
Proof.
intros H. pose proof (round_ge_grid x 0) as G.
assert (E : inject_Z 0 * pow2 (ulp_exp x) == 0) by ring.
rewrite E in G. now apply G.
Qed.

Lemma round_nonpos (x : Q) : x <= 0 -> round x <= 0.
Proof.
intros H. pose proof (round_le_grid x 0) as G.
assert (E : inject_Z 0 * pow2 (ulp_exp x) == 0) by ring.
rewrite E in G. now apply G.
Qed.

(* the doubles: the multiples of the last place of their size *)
Definition representable (x : Q) : Prop :=
  exists m : Z, x == inject_Z m * pow2 (ulp_exp x).

#[global] Instance representable_comp : Proper (Qeq ==> iff) representable.
Proof.
intros x y H. unfold representable. split; intros [m Hm]; exists m.
- now rewrite <- H.
- now rewrite H.
Qed.

Lemma round_representable (x : Q) : representable x -> round x == x.
Proof.
intros [m Hm]. rewrite round_eq.
assert (E : x / pow2 (ulp_exp x) == inject_Z m).
{ rewrite Hm at 1. field. apply Qnot_eq_sym, Qlt_not_eq, pow2_pos. }
rewrite E, nearest_even_Z. now rewrite <- Hm.
Qed.

(* an integer of up to 53 bits, scaled by a power of two of the range *)
Lemma representable_dyadic (n j : Z) :
  (0 < n < 2 ^ 53)%Z -> (-1074 <= j)%Z ->
  representable (inject_Z n * pow2 j).
Proof.
intros [Hn0 Hn1] Hj.
pose proof (pow2_pos j) as Pj.
assert (Hpos : 0 < inject_Z n * pow2 j).
{ apply Qmult_lt_0_compat; [|exact Pj]. change 0 with (inject_Z 0).
  now rewrite <- Zlt_Qlt. }
assert (Hlt : inject_Z n * pow2 j < pow2 (53 + j)).
{ rewrite pow2_add. apply Qmult_lt_r; [exact Pj|].
  rewrite pow2_Z by lia. now rewrite <- Zlt_Qlt. }
pose proof (mag_lt_pow2 _ _ Hpos Hlt) as Hm.
assert (Hu : (ulp_exp (inject_Z n * pow2 j) <= j)%Z).
{ rewrite (ulp_exp_pos _ Hpos). lia. }
exists (n * 2 ^ (j - ulp_exp (inject_Z n * pow2 j)))%Z.
rewrite inject_Z_mult, <- Qmult_assoc, <- pow2_split by exact Hu.
reflexivity.
Qed.

Lemma representable_Z (n : Z) : (0 < n < 2 ^ 53)%Z -> representable (inject_Z n).
Proof.
intros H. destruct (representable_dyadic n 0 H ltac:(lia)) as [m Hm].
assert (E : inject_Z n * pow2 0 == inject_Z n) by (unfold pow2; cbn; ring).
rewrite E in Hm. now exists m.
Qed.

Lemma representable_pow2 (e : Z) : (-1074 <= e)%Z -> representable (pow2 e).
Proof.
intros H. destruct (representable_dyadic 1 e ltac:(lia) H) as [m Hm].
assert (E : inject_Z 1 * pow2 e == pow2 e) by ring.
rewrite E in Hm. now exists m.
Qed.

(* rounding does not cross a double *)
Lemma round_le (x y : Q) : x <= y -> 0 < y -> representable y -> round x <= y.
Proof.
intros Hxy Hy [m Hm].
destruct (Qlt_le_dec 0 x) as [Hx|Hx].
- pose proof (ulp_exp_le x y Hx Hxy) as Hu.
  rewrite (pow2_split _ _ Hu), Qmult_assoc, <- inject_Z_mult in Hm.
  rewrite Hm in Hxy |- *. now apply round_le_grid.
- apply Qle_trans with 0; [now apply round_nonpos|now apply Qlt_le_weak].
Qed.

Lemma round_ge (x y : Q) : y <= x -> 0 < y -> representable y -> y <= round x.
Proof.
intros Hyx Hy [m Hm].
assert (Hx : 0 < x) by (eapply Qlt_le_trans; eassumption).
pose proof (ulp_exp_le y x Hy Hyx) as Hu.
destruct (Z.eq_dec (ulp_exp y) (ulp_exp x)) as [E|N].
- rewrite E in Hm. rewrite Hm in Hyx |- *. now apply round_ge_grid.
- (* y lies below the binade of x *)
  rewrite (ulp_exp_pos y Hy), (ulp_exp_pos x Hx) in Hu, N.
  assert (Hux : ulp_exp x = (mag x - 52)%Z) by (rewrite (ulp_exp_pos x Hx); lia).
  assert (Hmag : (mag y < mag x)%Z) by lia.
  destruct (mag_spec y Hy) as [_ Y2]. destruct (mag_spec x Hx) as [X1 _].
  assert (G : pow2 (mag x) == inject_Z (2 ^ 52) * pow2 (ulp_exp x)).
  { rewrite Hux. rewrite (pow2_split (mag x - 52) (mag x)) by lia.
    now replace (mag x - (mag x - 52))%Z with 52%Z by lia. }
  apply Qle_trans with (pow2 (mag x)).
  + apply Qlt_le_weak. eapply Qlt_le_trans; [exact Y2|]. apply pow2_le. lia.
  + rewrite G in X1 |- *. now apply round_ge_grid.
Qed.

Lemma round_mono (x y : Q) : 0 <= x -> x <= y -> round x <= round y.
Proof.
intros Hx0 Hxy.
destruct (Qle_lt_or_eq _ _ Hx0) as [Hx|Hx].
2:{ rewrite <- Hx. rewrite round_0. apply round_nonneg. now rewrite Hx. }
assert (Hy : 0 < y) by (eapply Qlt_le_trans; eassumption).
pose proof (ulp_exp_le x y Hx Hxy) as Hu.
destruct (Z.eq_dec (ulp_exp x) (ulp_exp y)) as [E|N].
- rewrite !round_eq, E.
  apply Qmult_le_compat_r; [|apply Qlt_le_weak, pow2_pos].
  rewrite <- Zle_Qle. apply nearest_even_le.
  apply Qmult_le_compat_r; [exact Hxy|].
  apply Qlt_le_weak, Qinv_lt_0_compat, pow2_pos.
- rewrite (ulp_exp_pos x Hx), (ulp_exp_pos y Hy) in Hu, N.
  assert (Hmag : (mag x < mag y)%Z) by lia.
  assert (Hmin : (-1074 <= mag y)%Z) by lia.
  destruct (mag_spec x Hx) as [_ X2]. destruct (mag_spec y Hy) as [Y1 _].
  apply Qle_trans with (pow2 (mag y)).
  + apply round_le; [|apply pow2_pos|now apply representable_pow2].
    apply Qlt_le_weak. eapply Qlt_le_trans; [exact X2|]. apply pow2_le. lia.
  + apply round_ge; [exact Y1|apply pow2_pos|now apply representable_pow2].
Qed.

(* the result of a rounding is a double *)
Lemma round_is_representable (x : Q) : 0 <= x -> representable (round x).
Proof.
intros Hx0.
destruct (Qle_lt_or_eq _ _ Hx0) as [Hx|Hx].
2:{ rewrite <- Hx, round_0. exists 0%Z. ring. }
set (e := ulp_exp x). set (k := nearest_even (x / pow2 e)).
assert (R : round x == inject_Z k * pow2 e) by apply round_eq.
assert (Hmin : (-1074 <= e)%Z) by apply ulp_exp_min.
assert (Hk0 : (0 <= k)%Z).
{ pose proof (round_nonneg x Hx0) as H. rewrite R in H.
  rewrite Zle_Qle. change (inject_Z 0) with 0.
  pose proof (pow2_pos e) as P.
  destruct (Qlt_le_dec (inject_Z k) 0) as [C|C]; [|exact C].
  exfalso. apply (Qlt_not_le _ _ (pow2_pos e)).
  assert (N : inject_Z k * pow2 e < 0 * pow2 e) by now apply Qmult_lt_r.
  assert (Z0 : 0 * pow2 e == 0) by ring. rewrite Z0 in N.
  now elim (Qlt_not_le _ _ N). }
assert (Hk1 : (k <= 2 ^ 53)%Z).
{ destruct (mag_spec x Hx) as [_ X2].
  assert (B : x <= inject_Z (2 ^ 53) * pow2 (ulp_exp x)).
  { apply Qlt_le_weak. eapply Qlt_le_trans; [exact X2|].
    rewrite <- pow2_Z by lia. rewrite <- pow2_add. apply pow2_le.
    rewrite (ulp_exp_pos x Hx). lia. }
  apply round_le_grid in B. rewrite R in B. fold e in B.
  rewrite Zle_Qle. apply (Qmult_le_r _ _ (pow2 e)); [apply pow2_pos|exact B]. }
destruct (Z.eq_dec k 0%Z) as [K0|K0].
{ rewrite R, K0. exists 0%Z. ring. }
destruct (Z.eq_dec k (2 ^ 53)%Z) as [K1|K1].
- assert (E : round x == inject_Z (2 ^ 52) * pow2 (e + 1)).
  { rewrite R, K1, pow2_add.
    change (pow2 1) with 2. change (2 ^ 53)%Z with (2 ^ 52 * 2)%Z.
    rewrite inject_Z_mult. change (inject_Z 2) with 2. ring. }
  rewrite E. apply representable_dyadic; lia.
- rewrite R. apply representable_dyadic; lia.
Qed.

Lemma round_round (x : Q) : 0 <= x -> round (round x) == round x.
Proof. intros H. apply round_representable. now apply round_is_representable. Qed.

(** the sign *)

Lemma Qfloor_opp_frac (q : Q) :
  ~ q == inject_Z (Qfloor q) -> Qfloor (- q) = (- Qfloor q - 1)%Z.
Proof.
intros N.
pose proof (Qfloor_le q) as H1. pose proof (Qlt_floor q) as H2.
pose proof (Qfloor_le (- q)) as H3. pose proof (Qlt_floor (- q)) as H4.
set (f := Qfloor q) in *. set (g := Qfloor (- q)) in *.
rewrite inject_Z_plus in H2, H4. change (inject_Z 1) with 1 in *.
assert (H1' : inject_Z f < q).
{ destruct (Qle_lt_or_eq _ _ H1) as [L|E]; [exact L|]. elim N. now symmetry. }
assert (A : inject_Z g < inject_Z (- f)) by (rewrite inject_Z_opp; lra).
assert (B : inject_Z (- f - 2) < inject_Z g).
{ assert (I : inject_Z (- f - 2) == - inject_Z f - 2).
  { unfold Qeq. cbn. lia. }
  rewrite I. lra. }
rewrite <- Zlt_Qlt in A, B. lia.
Qed.

Lemma nearest_even_opp (q : Q) : nearest_even (- q) = (- nearest_even q)%Z.
Proof.
destruct (Qeq_dec q (inject_Z (Qfloor q))) as [E|N].
- rewrite E at 1 2. rewrite <- inject_Z_opp, !nearest_even_Z. reflexivity.
- unfold nearest_even. rewrite (Qfloor_opp_frac q N).
  pose proof (Qfloor_le q) as H1. pose proof (Qlt_floor q) as H2.
  set (f := Qfloor q) in *.
  rewrite inject_Z_plus in H2. change (inject_Z 1) with 1 in H2.
  assert (F : - q - inject_Z (- f - 1) == 1 - (q - inject_Z f)).
  { assert (I : inject_Z (- f - 1) == - inject_Z f - 1).
    { unfold Qeq. cbn. lia. }
    rewrite I. ring. }
  assert (C : Qcompare (- q - inject_Z (- f - 1)) (1 # 2)
              = Qcompare (1 - (q - inject_Z f)) (1 # 2)).
  { apply Qcompare_comp; [exact F|reflexivity]. }
  rewrite C.
  replace (Z.even (- f - 1)) with (negb (Z.even f)).
  2:{ replace (- f - 1)%Z with (- (f + 1))%Z by lia.
      rewrite Z.even_opp, Z.even_add. cbn. now destruct (Z.even f). }
  destruct (Qcompare_spec (q - inject_Z f) (1 # 2)) as [Ea|La|Ga];
    destruct (Qcompare_spec (1 - (q - inject_Z f)) (1 # 2)) as [Eb|Lb|Gb];
    try (exfalso; lra); try destruct (Z.even f); cbn [negb]; lia.
Qed.

Lemma ulp_exp_opp (x : Q) : ulp_exp (- x) = ulp_exp x.
Proof. unfold ulp_exp. now rewrite Qabs_opp. Qed.

Lemma round_opp (x : Q) : round (- x) == - round x.
Proof.
rewrite !round_eq, ulp_exp_opp.
assert (E : - x / pow2 (ulp_exp x) == - (x / pow2 (ulp_exp x))).
{ field. apply Qnot_eq_sym, Qlt_not_eq, pow2_pos. }
rewrite (nearest_even_comp _ _ E), nearest_even_opp, inject_Z_opp. ring.
Qed.

Lemma representable_opp (x : Q) : representable x -> representable (- x).
Proof.
intros [m Hm]. exists (- m)%Z. rewrite ulp_exp_opp, inject_Z_opp.
rewrite Hm at 1. ring.
Qed.

(* rounding is monotone *)
Lemma round_le_compat (x y : Q) : x <= y -> round x <= round y.
Proof.
intros H.
destruct (Qlt_le_dec x 0) as [Hx|Hx]; [|now apply round_mono].
destruct (Qlt_le_dec y 0) as [Hy|Hy].
- assert (R : round (- y) <= round (- x)) by (apply round_mono; lra).
  rewrite !round_opp in R. lra.
- apply Qle_trans with 0; [apply round_nonpos; lra|now apply round_nonneg].
Qed.

Lemma round_is_double (x : Q) : representable (round x).
Proof.
destruct (Qlt_le_dec x 0) as [Hx|Hx]; [|now apply round_is_representable].
assert (R : representable (round (- x))) by (apply round_is_representable; lra).
apply representable_opp in R. rewrite round_opp in R.
assert (E : - - round x == round x) by ring. now rewrite E in R.
Qed.

Lemma round_idem (x : Q) : round (round x) == round x.
Proof. apply round_representable, round_is_double. Qed.

(** the operations *)

Lemma add_is_double (x y : Q) : representable (add x y).
Proof. apply round_is_double. Qed.

Lemma mul_is_double (x y : Q) : representable (mul x y).
Proof. apply round_is_double. Qed.

Lemma add_0_r (x : Q) : representable x -> add x 0 == x.
Proof.
intros H. unfold add. rewrite <- (round_representable x H) at 2.
apply round_comp. ring.
Qed.

Lemma add_le_compat (x1 y1 x2 y2 : Q) :
  x1 <= x2 -> y1 <= y2 -> add x1 y1 <= add x2 y2.
Proof. intros H1 H2. apply round_le_compat. lra. Qed.

Lemma mul_le_compat_r (x1 x2 c : Q) : 0 <= c -> x1 <= x2 -> mul x1 c <= mul x2 c.
Proof. intros Hc H. apply round_le_compat. now apply Qmult_le_compat_r. Qed.

Lemma add_nonneg (x y : Q) : 0 <= x -> 0 <= y -> 0 <= add x y.
Proof. intros Hx Hy. apply round_nonneg. lra. Qed.

Lemma mul_nonneg (x y : Q) : 0 <= x -> 0 <= y -> 0 <= mul x y.
Proof. intros Hx Hy. apply round_nonneg. now apply Qmult_le_0_compat. Qed.

Lemma mul_0_l (y : Q) : mul 0 y == 0.
Proof.
unfold mul. assert (E : 0 * y == 0) by ring.
rewrite (round_comp _ _ E). apply round_0.
Qed.

End DoubleFacts.

(** ** The route *)

Module RouteFacts.
Import JsStr DataExtractor PassportRoute StrFacts StepFacts DoubleFacts.

Lemma find_mrz_lines_ok (extractedText : string) :
  exists mrzLines, find_mrz_lines extractedText = Ok mrzLines.
Proof.
  unfold find_mrz_lines. cbv zeta.
  set (allLines := map trim _).
  destruct (for_range_inv (fun _ => True) (scan_body allLines)
              (Nat.min (length allLines) 15) 0 [] I) as (l & E & _); [|eauto].
  intros k mrzLines Hk _. unfold scan_body. cbv zeta.
  destruct (at_in_range allLines (length allLines - 1 - k)) as [l ->]; [lia|].
  cbn [str_of bind].
  repeat match goal with
         | |- context [if ?b then _ else _] => destruct b
         end; eauto.
Qed.

Section WithParser.
Variable parse : string -> res MrzResult.

(** the handler answers every upload, with the record extractPassportData
    returns for the text and for the MRZ data read from it *)
Lemma passport_route_ok (u : Upload) :
  exists mrzLines d,
    find_mrz_lines (upload_text u) = Ok mrzLines /\
    extractPassportData (upload_text u) (read_mrz parse mrzLines) = Ok d /\
    passport_route parse u =
    Ok {| data := cleanData d;
          confidence :=
            {| ocrConfidence := js_round (upload_confidence u);
               extractionAccuracy := extractionAccuracy_of (cleanData d);
               overallConfidence :=
                 overallConfidence_of (upload_confidence u)
                   (extractionAccuracy_of (cleanData d))
                   (match read_mrz parse mrzLines with
                    | Some _ => true | None => false end);
               mrzUsed := match read_mrz parse mrzLines with
                          | Some _ => true | None => false end |} |}.
Proof.
  destruct (find_mrz_lines_ok (upload_text u)) as [mrzLines E1].
  destruct (extractPassportData_writes (upload_text u) (read_mrz parse mrzLines))
    as (d & E2 & _).
  exists mrzLines, d. split; [exact E1|]. split; [exact E2|].
  unfold passport_route. cbv zeta. rewrite E1. cbn [bind]. rewrite E2.
  reflexivity.
Qed.
End WithParser.

(** normalization: the second line always has 44 characters, the first
    one 44 or 45 *)
Lemma length_pad44 (line : string) : String.length (pad44 line) = 44.
Proof.
  unfold pad44, substring, padEnd. cbn [drop]. rewrite length_take, length_app.
  rewrite length_repeat_char. lia.
Qed.

Lemma length_anchor_line1 (line1 : string) :
  String.length line1 = 44 ->
  String.length (anchor_line1 line1) =
  if negb (starts_with_marker line1)
     && (startsWith "P" line1 || startsWith "I" line1 || startsWith "A" line1)
  then 45 else 44.
Proof.
  intros H. unfold anchor_line1.
  destruct (negb (starts_with_marker line1)); cbn [andb]; [|exact H].
  destruct line1 as [|c r]; [discriminate|]. simpl in H.
  destruct (startsWith "P" (String c r)); cbn [orb].
  { rewrite length_app. simpl. lia. }
  destruct (startsWith "I" (String c r)); cbn [orb].
  { rewrite length_app. simpl. lia. }
  destruct (startsWith "A" (String c r)).
  { rewrite length_app. simpl. lia. }
  simpl. lia.
Qed.

(** the confidence figures *)

Lemma js_round_nonneg (x : Q) : (0 <= x)%Q -> (0 <= js_round x)%Z.
Proof.
intros H. unfold js_round.
change 0%Z with (Qfloor (inject_Z 0)). apply Qfloor_resp_le.
change (inject_Z 0) with 0%Q. lra.
Qed.

Lemma js_round_le_100 (x : Q) : (x <= 100)%Q -> (js_round x <= 100)%Z.
Proof.
intros H. unfold js_round.
change 100%Z with (Qfloor (100 + (1 # 2))%Q). apply Qfloor_resp_le. lra.
Qed.

Lemma extractionAccuracy_range (cleanedData : gmap string jsval) :
  (0 <= extractionAccuracy_of cleanedData <= 100)%Z.
Proof.
unfold extractionAccuracy_of. cbv zeta.
pose proof (filter_length_le (extracted cleanedData) fieldsToCheck) as H.
set (n := length (List.filter (extracted cleanedData) fieldsToCheck)) in *.
change (length fieldsToCheck) with 12 in *. cbn [Nat.ltb Nat.leb].
do 13 (destruct n as [|n]; [vm_compute; split; discriminate|]).
lia.
Qed.

(* the sum stays below 100 per summand: an integer of that size is a
   double, and the rounding does not cross it *)
Lemma sum_range (l : list Q) :
  Forall (fun w => 0 <= w <= 100)%Q l ->
  forall (a : Q) (k : Z),
    (0 <= k)%Z -> (k + Z.of_nat (length l) < 2 ^ 46)%Z ->
    (0 <= a <= inject_Z (100 * k))%Q ->
    (0 <= fold_left Double.add l a
       <= inject_Z (100 * (k + Z.of_nat (length l))))%Q.
Proof.
induction 1 as [|w l [Hw0 Hw1] _ IH]; intros a k Hk Hlen [Ha0 Ha1];
  cbn [fold_left length] in *.
- rewrite Z.add_0_r. now split.
- rewrite Nat2Z.inj_succ in Hlen |- *.
  replace (k + Z.succ (Z.of_nat (length l)))%Z
    with (k + 1 + Z.of_nat (length l))%Z by lia.
  apply IH; [lia|lia|].
  change (2 ^ 46)%Z with 70368744177664%Z in Hlen.
  split; [apply add_nonneg; assumption|].
  apply round_le.
  + replace (100 * (k + 1))%Z with (100 * k + 100)%Z by lia.
    rewrite inject_Z_plus. change (inject_Z 100) with 100%Q. lra.
  + change 0%Q with (inject_Z 0). rewrite <- Zlt_Qlt. lia.
  + apply representable_Z. change (2 ^ 53)%Z with 9007199254740992%Z. lia.
Qed.

Lemma image_confidence_range (words : list Q) :
  Forall (fun w => 0 <= w <= 100)%Q words ->
  (Z.of_nat (length words) < 2 ^ 32)%Z ->
  (0 <= image_confidence words <= 100)%Q.
Proof.
intros H Hlen. unfold image_confidence. cbv zeta.
pose proof (filter_length_le (fun conf => negb (Qle_bool conf 0%Q)) words) as Hfl.
set (confidences := List.filter _ words) in *.
assert (Hc : Forall (fun w => 0 <= w <= 100)%Q confidences).
{ apply List.Forall_forall. intros w Hw. apply filter_In in Hw as [Hw _].
  rewrite List.Forall_forall in H. now apply H. }
change (2 ^ 32)%Z with 4294967296%Z in Hlen.
apply Nat2Z.inj_le in Hfl.
assert (Hb : (0 + Z.of_nat (length confidences) < 2 ^ 46)%Z).
{ change (2 ^ 46)%Z with 70368744177664%Z. clear -Hfl Hlen. lia. }
destruct (sum_range confidences Hc 0%Q 0%Z) as [H0 H1];
  [lia|exact Hb|split; vm_compute; discriminate|].
destruct (Nat.ltb_spec 0 (length confidences)) as [Hpos|_]; [|split; lra].
assert (Hn : (0 < inject_Z (Z.of_nat (length confidences)))%Q).
{ change 0%Q with (inject_Z 0). rewrite <- Zlt_Qlt. lia. }
rewrite Z.add_0_l, inject_Z_mult in H1. change (inject_Z 100) with 100%Q in H1.
unfold Double.div. split.
- apply round_nonneg. apply Qle_shift_div_l; [exact Hn|]. lra.
- apply round_le.
  + apply Qle_shift_div_r; [exact Hn|]. lra.
  + reflexivity.
  + apply (representable_Z 100). split; reflexivity.
Qed.

(* the word confidences lie in [0,100], and there are fewer than 2^32 of
   them, as in every JavaScript array *)
Definition words_in_range (u : Upload) : Prop :=
  match u with
  | Pdf _ => True
  | Image _ words =>
      Forall (fun w => 0 <= w <= 100)%Q words /\
      (Z.of_nat (length words) < 2 ^ 32)%Z
  end.

Lemma upload_confidence_range (u : Upload) :
  words_in_range u -> (0 <= upload_confidence u <= 100)%Q.
Proof.
destruct u as [t|t words]; cbn [words_in_range upload_confidence].
- intros _. split; lra.
- intros [H Hlen]. now apply image_confidence_range.
Qed.

(* the two number literals of the formula *)
Lemma lit_half : Double.lit (5 # 10) = (1 # 2)%Q.
Proof. vm_compute. reflexivity. Qed.

Lemma lit_three_tenths_nonneg : (0 <= Double.lit (3 # 10))%Q.
Proof. vm_compute. discriminate. Qed.

Lemma overallConfidence_range (ocr : Q) (acc : Z) (mrz : bool) :
  (0 <= ocr)%Q -> (0 <= acc)%Z ->
  (0 <= overallConfidence_of ocr acc mrz <= 100)%Z.
Proof.
intros Ho Ha. unfold overallConfidence_of. cbv zeta. split; [|apply Z.le_min_l].
apply Z.min_glb; [lia|]. apply js_round_nonneg.
assert (Hq : (0 <= inject_Z acc)%Q).
{ change 0%Q with (inject_Z 0). now rewrite <- Zle_Qle. }
apply add_nonneg; [apply add_nonneg; apply mul_nonneg; try assumption|].
- rewrite lit_half. lra.
- apply lit_three_tenths_nonneg.
- destruct mrz; lra.
Qed.

(* without accuracy and bonus only the OCR term is left *)
Lemma overallConfidence_ocr_only (ocr : Q) :
  overallConfidence_of ocr 0 false =
  Z.min 100 (js_round (Double.mul ocr (1 # 2))).
Proof.
unfold overallConfidence_of. cbv zeta. f_equal.
unfold js_round. apply Qfloor_comp. apply Qplus_comp; [|reflexivity].
rewrite lit_half. change (inject_Z 0) with 0%Q.
set (x := Double.mul ocr (1 # 2)).
set (y := Double.mul 0 (Double.lit (3 # 10))).
assert (Hy : (y == 0)%Q) by apply mul_0_l.
assert (Hx : representable x) by apply mul_is_double.
rewrite (add_0_r (Double.add x y) (add_is_double x y)).
unfold Double.add.
assert (E : (x + y == x)%Q) by (rewrite Hy; ring).
rewrite (round_comp _ _ E). now apply round_representable.
Qed.

(* for the counts that occur, the accuracy computed in doubles is the
   exactly rounded percentage *)
Lemma accuracy_in_doubles (n : nat) :
  n <= 12 ->
  js_round (Double.mul (Double.div (inject_Z (Z.of_nat n)) (inject_Z (Z.of_nat 12)))
              100%Q)
  = js_round (inject_Z (Z.of_nat n) / 12 * 100)%Q.
Proof.
intros H.
do 13 (destruct n as [|n]; [vm_compute; reflexivity|]).
lia.
Qed.

End RouteFacts.

(** * The claims of the specification *)

Import JsStr DataExtractor PassportRoute StrFacts RegexFacts StepFacts CleanFacts RouteFacts.





Lemma cleanData_null_or_string (fields : list string) (d : gmap string jsval) :
  record_of fields d ->
  forall k v, cleanData d !! k = Some v -> null_or_string v.
Proof.
  intros Hd k v. rewrite cleanData_lookup.
  assert (Hv : forall u, d !! k = Some u -> null_or_string u).
  { intros u E. destruct (Hd k) as [Hin Hout].
    destruct (in_dec string_dec k fields) as [Hk|Hk].
    - destruct (Hin Hk) as (u' & E' & Hu). congruence.
    - rewrite (Hout Hk) in E. discriminate. }
  destruct (member k (required_for d)).
  - destruct (d !! k) as [u|] eqn:E; intros [= <-]; [now apply Hv|now left].
  - destruct (null_or_empty (get d k)); [discriminate|]. apply Hv.
Qed.


(** C7: for every input string (the empty one included) extractCNICData and
    extractPassportData return a record and do not throw, every field of
    the record is a string or an explicit null, and cleanData of that
    record holds strings and nulls only. *)
Theorem C7_extraction_never_throws (text : string) :
  (exists d, extractCNICData text = Ok d /\
             record_of cnic_fields d /\
             forall k v, cleanData d !! k = Some v -> null_or_string v) /\
  (forall mrzData, exists d,
     extractPassportData text mrzData = Ok d /\
     record_of passport_fields d /\
     forall k v, cleanData d !! k = Some v -> null_or_string v).
Proof.
  split.
  - destruct (extractCNICData_record text) as (d & E & Hd & _).
    exists d. split; [exact E|]. split; [exact Hd|].
    now apply (cleanData_null_or_string cnic_fields).
  - intros mrzData.
    destruct (extractPassportData_record text mrzData) as (d & E & Hd & _).
    exists d. split; [exact E|]. split; [exact Hd|].
    now apply (cleanData_null_or_string passport_fields).
Qed.

Lemma rawText_kept (d : gmap string jsval) (text : string) :
  text <> EmptyString ->
  d !! "rawText" = Some (Str text) ->
  ~ In "rawText" (required_for d) ->
  cleanData d !! "rawText" = Some (Str text).
Proof.
  intros Hne E Hr. rewrite cleanData_lookup.
  rewrite (proj2 (member_not_In _ _) Hr). unfold get. rewrite E.
  destruct text; [congruence|reflexivity].
Qed.

(** C10: for every non-empty input text the cleaned record of both
    extractors has the key rawText, and its value is the input text. *)
Theorem C10_raw_text_in_cleaned_record (text : string) :
  text <> EmptyString ->
  (exists d, extractCNICData text = Ok d /\
             cleanData d !! "rawText" = Some (Str text)) /\
  (forall mrzData, exists d,
     extractPassportData text mrzData = Ok d /\
     cleanData d !! "rawText" = Some (Str text)).
Proof.
  intros Hne. split.
  - destruct (extractCNICData_record text) as (d & E & Hd & Hraw).
    exists d. split; [exact E|]. apply rawText_kept; [exact Hne|exact Hraw|].
    rewrite (required_for_cnic d Hd). cbv. intuition discriminate.
  - intros mrzData.
    destruct (extractPassportData_record text mrzData) as (d & E & Hd & Hraw).
    exists d. split; [exact E|]. apply rawText_kept; [exact Hne|exact Hraw|].
    rewrite (required_for_passport d Hd). cbv. intuition discriminate.
Qed.

Lemma C10_witness :
  (exists d, extractCNICData "Name: JOHN DOE" = Ok d /\
             cleanData d !! "rawText" = Some (Str "Name: JOHN DOE")) /\
  (forall mrzData, exists d,
     extractPassportData "Name: JOHN DOE" mrzData = Ok d /\
     cleanData d !! "rawText" = Some (Str "Name: JOHN DOE")).
Proof. apply (C10_raw_text_in_cleaned_record "Name: JOHN DOE"). discriminate. Defined.

(* the lines of a text, joined by line feeds *)
Definition unlines (ls : list string) : string :=
  match ls with
  | [] => EmptyString
  | l :: ls' => fold_left (fun acc x => (acc ++ newline ++ x)%string) ls' l
  end.

(** *** C1: MRZ values and the labelled lines *)

(* a passport page whose labelled lines disagree with its MRZ *)
Definition c1_text : string :=
  unlines [ "Passport Number: AB1234567";
            "Surname: SMYTH";
            "Given Names: JOHNNY";
            "Nationality: BRITISH";
            "Date of Birth: 01 JAN 1981";
            "Sex F";
            "Date of Expiry: 01 JAN 2031";
            "Citizenship Number: 11111-1111111-1";
            "1234567897GBR8001014M30010196110188231890<22";
            "P<GBRSMITH<<JOHN<<<<<<<<<<<<<<<<<<<<<<<<<<<<" ].

(* a valid field record for the two MRZ lines of [c1_text] (all the check
   digits are right), its fields in the form the handler reads them: ISO
   dates for formatDate, the sex as "M", the identifier in optionalData.
   The parser is external: the record it returns is an input here *)
Definition c1_fields : MrzFields := {|
  documentNumber := Str "123456789";
  lastName := Str "SMITH";
  firstName := Str "JOHN";
  nationality := Str "GBR";
  birthDate := Str "1980-01-01";
  sex := Str "M";
  expirationDate := Str "2030-01-01";
  issuingCountry := Str "GBR";
  optionalData := Str "6110188231890" |}.

Definition c1_parse (mrzText : string) : res MrzResult :=
  if String.eqb mrzText
       (unlines [ "P<GBRSMITH<<JOHN<<<<<<<<<<<<<<<<<<<<<<<<<<<<";
                  "1234567897GBR8001014M30010196110188231890<22" ])
  then Ok {| valid := true; fields := c1_fields |}
  else Throw.

(* the fields of the response, and of the MRZ data it was built with *)
Definition response_field (r : res Response) (k : string) : jsval :=
  match r with Ok resp => get (data resp) k | Throw => Undefined end.

Definition response_mrzUsed (r : res Response) : bool :=
  match r with Ok resp => mrzUsed (confidence resp) | Throw => false end.

Definition mrz_field (m : res MrzData) (proj : MrzData -> jsval) : jsval :=
  match m with Ok mrz => proj mrz | Throw => Undefined end.

(** C1 (the code departs from it): on [c1_text] the MRZ is decoded and
    valid, yet each of the eight fields both pipelines produce carries the
    value of the labelled line (for gender, of the first gender token of
    the text) and not the MRZ value. *)
Theorem C1_labelled_lines_override_valid_mrz :
  let r := passport_route c1_parse (Pdf c1_text) in
  let mrz := mrz_data_of c1_fields in
  response_mrzUsed r = true /\
  (mrz_field mrz mrz_passportNumber = Str "123456789" /\
   response_field r "passportNumber" = Str "AB1234567") /\
  (mrz_field mrz mrz_surname = Str "SMITH" /\
   response_field r "surname" = Str "SMYTH") /\
  (mrz_field mrz mrz_givenNames = Str "JOHN" /\
   response_field r "givenNames" = Str "JOHNNY") /\
  (mrz_field mrz mrz_nationality = Str "GBR" /\
   response_field r "nationality" = Str "BRITISH") /\
  (mrz_field mrz mrz_dateOfBirth = Str "01 JAN 1980" /\
   response_field r "dateOfBirth" = Str "01 JAN 1981") /\
  (mrz_field mrz mrz_gender = Str "MALE" /\
   response_field r "gender" = Str "F") /\
  (mrz_field mrz mrz_dateOfExpiry = Str "01 JAN 2030" /\
   response_field r "dateOfExpiry" = Str "01 JAN 2031") /\
  (mrz_field mrz mrz_citizenshipNumber = Str "61101-8823189-0" /\
   response_field r "citizenshipNumber" = Str "11111-1111111-1").
Proof. vm_compute. repeat split; reflexivity. Qed.

(** *** C3: the two lines handed to the MRZ parser *)

Definition c3_text : string :=
  unlines [ "1234567897GBR8001014M3001019<<<<<<<<<<<<<<08";
            "P1GBRSMITH<<JOHN<<<<<<<<<<<<<<<<<<<<<<<<<<<<" ].

(* the MRZ text the handler passes to the parser, when it finds two lines *)
Definition mrz_text_of (extractedText : string) : option (string * string) :=
  match find_mrz_lines extractedText with
  | Ok (l1 :: l2 :: _) => Some (normalize_mrz l1 l2)
  | _ => None
  end.

(** C3 (the code departs from it): the two candidate lines of [c3_text] are
    accepted, the first one starts with the category marker P but not with
    "P<", and after the re-anchoring it has 45 characters, not 44. *)
Theorem C3_reanchored_line_has_45_characters :
  exists line1 line2,
    mrz_text_of c3_text = Some (line1, line2) /\
    line1 = "P<1GBRSMITH<<JOHN<<<<<<<<<<<<<<<<<<<<<<<<<<<<" /\
    String.length line1 = 45 /\
    String.length line2 = 44.
Proof. eexists. eexists. vm_compute. repeat split; reflexivity. Qed.

(* in general: 44 characters for the second line; for the first one 45
   exactly when the padded line starts with P, I or A without the filler *)
Lemma normalize_mrz_lengths (l1 l2 : string) :
  String.length (snd (normalize_mrz l1 l2)) = 44 /\
  String.length (fst (normalize_mrz l1 l2)) =
    if negb (starts_with_marker (pad44 l1))
       && (startsWith "P" (pad44 l1) || startsWith "I" (pad44 l1)
           || startsWith "A" (pad44 l1))
    then 45 else 44.
Proof.
  unfold normalize_mrz. cbn [fst snd]. split; [apply length_pad44|].
  apply length_anchor_line1, length_pad44.
Qed.

(** *** C4: the extraction accuracy *)

(* the accuracy as the claim words it: over the required-field set *)
Definition non_null (cleanedData : gmap string jsval) (field : string) : bool :=
  negb (jsval_eqb (get cleanedData field) Null).

Definition accuracy_over_required (cleanedData : gmap string jsval) : Z :=
  js_round (100 * inject_Z (Z.of_nat
              (length (List.filter (non_null cleanedData) passportRequiredFields)))
            / inject_Z (Z.of_nat (length passportRequiredFields)))%Q.

(* the accuracy over the twelve fields the handler checks *)
Definition checked_count (cleanedData : gmap string jsval) : nat :=
  length (List.filter (extracted cleanedData) fieldsToCheck).

Definition no_mrz_parser (mrzText : string) : res MrzResult := Throw.

Definition response_accuracy (r : res Response) : Z :=
  match r with Ok resp => extractionAccuracy (confidence resp) | Throw => (-1)%Z end.

Definition response_accuracy_over_required (r : res Response) : Z :=
  match r with Ok resp => accuracy_over_required (data resp) | Throw => (-1)%Z end.

(* a page with the father's name and nothing else: one required field of
   ten has a value, and none of the twelve checked fields *)
Lemma C4_counterexample :
  let r := passport_route no_mrz_parser (Pdf "Father Name: JOHN SMITH") in
  response_field r "fatherName" = Str "JOHN SMITH" /\
  response_accuracy_over_required r = 10%Z /\
  response_accuracy r = 0%Z.
Proof. vm_compute. repeat split; reflexivity. Qed.

(** C4 (amended): for every passport extraction the reported
    extractionAccuracy is round(100 * n / 12), where n counts the fields
    with a non-null, non-empty value among the twelve fields the handler
    checks (passportNumber, surname, givenNames, nationality, dateOfBirth,
    placeOfBirth, gender, dateOfIssue, dateOfExpiry, issuingAuthority,
    husbandName, citizenshipNumber). *)
Theorem C4_accuracy_over_checked_fields
    (parse : string -> res MrzResult) (u : Upload) :
  exists r,
    passport_route parse u = Ok r /\
    fieldsToCheck =
      [ "passportNumber"; "surname"; "givenNames"; "nationality"; "dateOfBirth";
        "placeOfBirth"; "gender"; "dateOfIssue"; "dateOfExpiry";
        "issuingAuthority"; "husbandName"; "citizenshipNumber" ] /\
    extractionAccuracy (confidence r) =
      js_round (inject_Z (Z.of_nat (checked_count (data r))) / 12 * 100)%Q.
Proof.
  destruct (passport_route_ok parse u) as (mrzLines & d & _ & _ & E).
  eexists. split; [exact E|]. split; [reflexivity|].
  cbn [confidence extractionAccuracy data].
  unfold extractionAccuracy_of, checked_count. cbv zeta.
  change (0 <? length fieldsToCheck)%nat with true. cbv iota.
  apply accuracy_in_doubles.
  apply (filter_length_le (extracted (cleanData d)) fieldsToCheck).
Qed.

(** *** C5: a failed MRZ decoding *)

(* the decoding fails: the parser throws, or reports the record invalid *)
Definition decode_fails (parse : string -> res MrzResult) (mrzText : string) : Prop :=
  match parse mrzText with
  | Ok mrzResult => valid mrzResult = false
  | Throw => True
  end.

(* the MRZ text of an upload cannot be decoded *)
Definition mrz_undecodable (parse : string -> res MrzResult) (u : Upload) : Prop :=
  forall line1 line2,
    mrz_text_of (upload_text u) = Some (line1, line2) ->
    decode_fails parse (line1 ++ newline ++ line2).

(* the response of a heuristic-only extraction *)
Definition heuristic_response (u : Upload) (d : gmap string jsval) : Response :=
  {| data := cleanData d;
     confidence :=
       {| ocrConfidence := js_round (upload_confidence u);
          extractionAccuracy := extractionAccuracy_of (cleanData d);
          overallConfidence :=
            overallConfidence_of (upload_confidence u)
              (extractionAccuracy_of (cleanData d)) false;
          mrzUsed := false |} |}.

Lemma read_mrz_some (parse : string -> res MrzResult) (mrzLines : list string)
    (mrzData : MrzData) :
  read_mrz parse mrzLines = Some mrzData ->
  exists l1 l2 rest mrzResult,
    mrzLines = l1 :: l2 :: rest /\
    parse (fst (normalize_mrz l1 l2) ++ newline ++ snd (normalize_mrz l1 l2))%string
      = Ok mrzResult /\
    valid mrzResult = true.
Proof.
unfold read_mrz.
destruct mrzLines as [|l1 [|l2 rest]]; cbn [length Nat.leb]; try discriminate.
unfold try_mrz. cbn [at_ lookup list_lookup str_of bind].
destruct (normalize_mrz l1 l2) as [line1 line2] eqn:N. cbn [fst snd].
destruct (parse _) as [mrzResult|] eqn:P; cbn [bind]; [|discriminate].
destruct (valid mrzResult) eqn:V; [|discriminate].
intros _. exists l1, l2, rest, mrzResult. rewrite N. cbn [fst snd]. auto.
Qed.

Lemma read_mrz_none (parse : string -> res MrzResult) (text : string)
    (mrzLines : list string) :
  find_mrz_lines text = Ok mrzLines ->
  (forall line1 line2, mrz_text_of text = Some (line1, line2) ->
     decode_fails parse (line1 ++ newline ++ line2)) ->
  read_mrz parse mrzLines = None.
Proof.
intros E H. destruct (read_mrz parse mrzLines) as [mrzData|] eqn:R; [|reflexivity].
apply read_mrz_some in R as (l1 & l2 & rest & mrzResult & -> & P & V).
specialize (H (fst (normalize_mrz l1 l2)) (snd (normalize_mrz l1 l2))).
unfold mrz_text_of, decode_fails in H. rewrite E, P in H.
rewrite H in V; [discriminate|]. now destruct (normalize_mrz l1 l2).
Qed.

(** C5: when the MRZ decoding fails (the parser throws or reports the
    record invalid) the handler still answers, with exactly the response of
    a heuristic-only extraction: no MRZ value in the data and mrzUsed
    false; and whenever a response has mrzUsed true, two MRZ lines were
    found and the parser returned a valid record for them. *)
Theorem C5_failed_mrz_decoding_is_discarded
    (parse : string -> res MrzResult) (u : Upload) :
  mrz_undecodable parse u ->
  (exists d,
     extractPassportData (upload_text u) None = Ok d /\
     passport_route parse u = Ok (heuristic_response u d)) /\
  (forall other_parse r,
     passport_route other_parse u = Ok r ->
     mrzUsed (confidence r) = true ->
     exists line1 line2 mrzResult,
       mrz_text_of (upload_text u) = Some (line1, line2) /\
       other_parse (line1 ++ newline ++ line2)%string = Ok mrzResult /\
       valid mrzResult = true).
Proof.
intros H. split.
- destruct (passport_route_ok parse u) as (mrzLines & d & E1 & E2 & E3).
  rewrite (read_mrz_none parse _ _ E1 H) in E2, E3.
  exists d. split; [exact E2|exact E3].
- intros other_parse r Hr Hused.
  destruct (passport_route_ok other_parse u) as (mrzLines & d & E1 & E2 & E3).
  rewrite E3 in Hr. injection Hr as <-. cbn [confidence mrzUsed] in Hused.
  destruct (read_mrz other_parse mrzLines) as [mrzData|] eqn:R; [|discriminate].
  apply read_mrz_some in R as (l1 & l2 & rest & mrzResult & -> & P & V).
  exists (fst (normalize_mrz l1 l2)), (snd (normalize_mrz l1 l2)), mrzResult.
  split; [|split; assumption].
  unfold mrz_text_of. rewrite E1. now destruct (normalize_mrz l1 l2).
Qed.

(* two MRZ lines are found in [c3_text], and the parser throws *)
Lemma C5_witness :
  (exists d,
     extractPassportData (upload_text (Pdf c3_text)) None = Ok d /\
     passport_route no_mrz_parser (Pdf c3_text) = Ok (heuristic_response (Pdf c3_text) d)) /\
  (forall other_parse r,
     passport_route other_parse (Pdf c3_text) = Ok r ->
     mrzUsed (confidence r) = true ->
     exists line1 line2 mrzResult,
       mrz_text_of (upload_text (Pdf c3_text)) = Some (line1, line2) /\
       other_parse (line1 ++ newline ++ line2)%string = Ok mrzResult /\
       valid mrzResult = true).
Proof.
apply (C5_failed_mrz_decoding_is_discarded no_mrz_parser (Pdf c3_text)).
intros line1 line2 _. exact I.
Defined.

(** *** C8: the range of the confidence figures *)

Lemma find_mrz_lines_empty : find_mrz_lines EmptyString = Ok [].
Proof. vm_compute. reflexivity. Qed.

Lemma read_mrz_nil (parse : string -> res MrzResult) : read_mrz parse [] = None.
Proof. reflexivity. Qed.

(* nothing is extracted from the empty text *)
Lemma accuracy_of_empty :
  match extractPassportData EmptyString None with
  | Ok d => extractionAccuracy_of (cleanData d) = 0%Z
  | Throw => False
  end.
Proof. vm_compute. reflexivity. Qed.

(** C8: for every text and every array of word confidences in [0,100]
    the handler answers, and the reported extractionAccuracy,
    overallConfidence and ocrConfidence are integers between 0 and 100;
    for the empty text no MRZ is used, extractionAccuracy is 0 and
    overallConfidence is min(100, round(ocrConfidence * 0.5)), the mean
    and the product as the doubles the handler computes. *)
Theorem C8_confidence_figures_in_range
    (parse : string -> res MrzResult) (u : Upload) :
  words_in_range u ->
  exists r,
    passport_route parse u = Ok r /\
    (0 <= extractionAccuracy (confidence r) <= 100)%Z /\
    (0 <= overallConfidence (confidence r) <= 100)%Z /\
    (0 <= ocrConfidence (confidence r) <= 100)%Z /\
    (upload_text u = EmptyString ->
       mrzUsed (confidence r) = false /\
       extractionAccuracy (confidence r) = 0%Z /\
       overallConfidence (confidence r) =
         Z.min 100 (js_round (Double.mul (upload_confidence u) (1 # 2)))).
Proof.
intros Hw. destruct (upload_confidence_range u Hw) as [Ho0 Ho1].
destruct (passport_route_ok parse u) as (mrzLines & d & E1 & E2 & E3).
eexists. split; [exact E3|]. cbn [confidence extractionAccuracy
  overallConfidence ocrConfidence mrzUsed].
pose proof (extractionAccuracy_range (cleanData d)) as Ha.
split; [exact Ha|]. split; [apply overallConfidence_range; [exact Ho0|apply Ha]|].
split; [split; [now apply js_round_nonneg|now apply js_round_le_100]|].
intros Ht. rewrite Ht in E1, E2.
rewrite find_mrz_lines_empty in E1. injection E1 as <-.
rewrite (read_mrz_nil parse) in E2 |- *.
assert (Hacc : extractionAccuracy_of (cleanData d) = 0%Z).
{ generalize accuracy_of_empty. rewrite E2. exact (fun H => H). }
clear E2.
split; [reflexivity|]. split; [exact Hacc|].
rewrite Hacc. apply overallConfidence_ocr_only.
Qed.

Lemma C8_witness :
  exists r,
    passport_route no_mrz_parser (Image "" [(90 # 1)%Q; (100 # 1)%Q; 0%Q]) = Ok r /\
    (0 <= extractionAccuracy (confidence r) <= 100)%Z /\
    (0 <= overallConfidence (confidence r) <= 100)%Z /\
    (0 <= ocrConfidence (confidence r) <= 100)%Z /\
    (upload_text (Image "" [(90 # 1)%Q; (100 # 1)%Q; 0%Q]) = EmptyString ->
       mrzUsed (confidence r) = false /\
       extractionAccuracy (confidence r) = 0%Z /\
       overallConfidence (confidence r) =
         Z.min 100 (js_round (Double.mul
                      (upload_confidence (Image "" [(90 # 1)%Q; (100 # 1)%Q; 0%Q]))
                      (1 # 2)))).
Proof.
apply (C8_confidence_figures_in_range no_mrz_parser
         (Image "" [(90 # 1)%Q; (100 # 1)%Q; 0%Q])).
cbn [words_in_range]. split; [repeat constructor; cbv; discriminate|reflexivity].
Defined.

(** *** C9: the national identifier *)

Import ShapeFacts FieldFacts.

(* null, or an identifier in the form XXXXX-XXXXXXX-X *)
Definition null_or_canonical (v : jsval) : Prop :=
  v = Null \/ exists s, v = Str s /\ is_canonical s = true.

(* the field [k] of the record an extractor returns *)
Definition result_field (r : res (gmap string jsval)) (k : string) : jsval :=
  match r with Ok d => get d k | Throw => Undefined end.

(* the value on a "Citizenship Number" label line is stored as it is
   written: thirteen digits stay without dashes, and what follows a dashed
   identifier on the line stays with it *)
Lemma C9_counterexample :
  result_field (extractPassportData "Citizenship Number: 1234512345671" None)
    "citizenshipNumber" = Str "1234512345671" /\
  is_canonical "1234512345671" = false /\
  result_field (extractPassportData "Citizenship Number: 12345-1234567-1 PK" None)
    "citizenshipNumber" = Str "12345-1234567-1 PK".
Proof. vm_compute. repeat split; reflexivity. Qed.

(** C9 (amended): in extractCNICData the cnicNumber is null when the
    identifier pattern has no match in the normalized text, and else the
    digits of the match in the form XXXXX-XXXXXXX-X: a match that has that
    form already is returned as it is.  In extractPassportData, when the
    citizenship number is still unset after the MRZ data and the label
    lines, the first line with an identifier decides: a dashed identifier
    is stored as it is, and thirteen digits are stored in the form
    XXXXX-XXXXXXX-X; without such a line the field stays unset.
    Formatting the digits of a canonical identifier gives it back. *)
Theorem C9_identifier_in_canonical_form (text : string) :
  (exists d,
     extractCNICData text = Ok d /\
     match Regex.exec cnicPattern (trim (collapse text)) with
     | None => get d "cnicNumber" = Null
     | Some m =>
         exists g, grp m 1 = Str g /\
                   get d "cnicNumber" = Str (dashed (digits_of g)) /\
                   is_canonical (dashed (digits_of g)) = true /\
                   (is_canonical g = true -> get d "cnicNumber" = Str g)
     end) /\
  (forall mrzData, exists d,
     extractPassportData text mrzData = Ok d /\
     (truthy (result_field (passport_before_citizenship_fallback text mrzData)
                "citizenshipNumber") = false ->
      (forall pre l post,
         lines_of text = pre ++ l :: post ->
         no_identifier pre = true ->
         (forall m, Regex.exec re_cnic_group (trim l) = Some m ->
            exists g, grp m 1 = Str g /\ is_canonical g = true /\
                      get d "citizenshipNumber" = Str g) /\
         (Regex.exec re_cnic_group (trim l) = None ->
          forall m, Regex.exec re_cnic_plain (trim l) = Some m ->
            exists g, grp m 1 = Str g /\ is_canonical (dashed g) = true /\
                      get d "citizenshipNumber" = Str (dashed g))) /\
      (no_identifier (lines_of text) = true ->
       get d "citizenshipNumber" =
       result_field (passport_before_citizenship_fallback text mrzData)
         "citizenshipNumber"))) /\
  (forall g, is_canonical g = true ->
     is_canonical (dashed (digits_of g)) = true /\ dashed (digits_of g) = g).
Proof.
split; [|split].
- unfold extractCNICData. cbv zeta.
  destruct (cnic_number_spec (trim (collapse text)) (cnic_initial text))
    as (d1 & E1 & S1).
  rewrite E1. cbn [bind].
  pose proof (cnic_date_fields_writes (trim (collapse text)) d1) as Wd.
  repeat run_step.
  match goal with
  | |- context [cnic_address ?n ?d] =>
      destruct (cnic_address_ok n d) as (dl & El & Wl)
  end.
  exists dl. split; [exact El|].
  destruct (Regex.exec cnicPattern (trim (collapse text))) as [m|].
  + destruct S1 as (g & Hg & -> & C). exists g. split; [exact Hg|].
    assert (G : get dl "cnicNumber" = Str (dashed (digits_of g))).
    { back "cnicNumber". rewrite get_set. reflexivity. }
    split; [exact G|]. split; [exact C|].
    intros C'. rewrite G. now rewrite (dashed_canonical_id g C').
  + subst d1. back "cnicNumber". reflexivity.
- intros mrzData. unfold extractPassportData. cbv zeta.
  remember (apply_mrz mrzData (passport_initial text)) as d0 eqn:Hd0.
  repeat run_step.
  match goal with
  | |- context [issue_date_fallback ?n ?d] =>
      destruct (issue_date_fallback_ok n d) as (dl & El & Wl)
  end.
  exists dl. split; [exact El|]. intros Hb.
  rewrite (writes_get_other _ _ _ "citizenshipNumber" Wl) by (cbv; intuition discriminate).
  unfold passport_before_citizenship_fallback, passport_before_date_fallback in Hb |- *.
  cbv zeta in Hb |- *. rewrite <- Hd0 in Hb |- *.
  repeat match goal with
         | E : ?t = Ok ?x |- _ =>
             match type of Hb with
             | context [bind t _] => rewrite E in Hb |- *; cbn [bind] in Hb |- *
             end
         end.
  match goal with
  | E : label_loop rule_citizenshipNumber _ _ = Ok _ |- _ =>
      rewrite E in Hb |- *
  end.
  cbn [result_field] in Hb |- *.
  match goal with
  | E : citizenship_fallback ?l ?d = Ok ?d' |- _ => revert E
  end.
  intros Ec. split.
  + intros pre l post Hlines Hpre. rewrite Hlines in Ec.
    rewrite (citizenship_fallback_first pre post l _ Hb Hpre) in Ec.
    split.
    * intros m Em. rewrite Em in Ec. injection Ec as <-.
      destruct (cnic_group_group _ _ Em) as (g & Hg & C).
      exists g. split; [exact Hg|]. split; [exact C|].
      now rewrite get_set, Hg.
    * intros En m Em. rewrite En, Em in Ec.
      destruct (cnic_plain_group _ _ Em) as (g & Hg & C).
      rewrite Hg in Ec. cbn [str_of bind] in Ec. injection Ec as <-.
      exists g. split; [exact Hg|]. split; [exact C|].
      now rewrite get_set.
  + intros Hn. rewrite (citizenship_fallback_none _ _ Hn) in Ec.
    now injection Ec as <-.
- intros g C. rewrite (dashed_canonical_id g C). auto.
Qed.

Lemma C9_witness :
  exists d,
    extractPassportData "REPUBLIC
1234512345671" None = Ok d /\
    get d "citizenshipNumber" = Str "12345-1234567-1".
Proof.
destruct (C9_identifier_in_canonical_form "REPUBLIC
1234512345671") as (_ & P & _).
destruct (P None) as (d & E & H).
exists d. split; [exact E|].
destruct H as [H _]; [vm_compute; reflexivity|].
destruct (H ["REPUBLIC"] "1234512345671" []) as [_ V];
  [vm_compute; reflexivity|vm_compute; reflexivity|].
destruct (V eq_refl (Regex.Result 0 13 [Some "1234512345671"; Some "1234512345671"]))
  as (g & Hg & _ & G); [vm_compute; reflexivity|].
injection Hg as <-. exact G.
Defined.

(** *** C6: the dates without a label *)

Definition c6_text : string := "01.01.1990 01.01.2015 01.01.2025".

(* three dates and no label: extractPassportData gives the second date to
   dateOfExpiry and none to dateOfIssue *)
Lemma C6_counterexample :
  passport_dates (trim (collapse c6_text))
    = ["01.01.1990"; "01.01.2015"; "01.01.2025"] /\
  result_field (extractPassportData c6_text None) "dateOfBirth" = Str "01.01.1990" /\
  result_field (extractPassportData c6_text None) "dateOfIssue" = Null /\
  result_field (extractPassportData c6_text None) "dateOfExpiry" = Str "01.01.2015".
Proof. vm_compute. repeat split; reflexivity. Qed.

(** C6 (amended): in extractCNICData a date field takes the date its label
    pattern matches and, when that pattern has no match, the date at its
    ordinal position among the dates of the normalized text: first
    dateOfBirth, second dateOfIssue, third dateOfExpiry.  In
    extractPassportData, when the field is still unset as the date
    fallback starts (the MRZ data, the label lines and the line heuristic
    have given nothing for it), dateOfBirth takes the date of the first
    label pattern that matches and otherwise the first collected date,
    dateOfExpiry likewise and otherwise the second collected date;
    dateOfIssue has no ordinal fallback: without a label line and a match
    of the issue pattern it stays null. *)
Theorem C6_dates_by_label_then_ordinal (text : string) :
  let nt := trim (collapse text) in
  let lines := lines_of text in
  (exists d,
     extractCNICData text = Ok d /\
     labelled_else_nth dobPattern 0 nt (get d "dateOfBirth") /\
     labelled_else_nth issuePattern 1 nt (get d "dateOfIssue") /\
     labelled_else_nth expiryPattern 2 nt (get d "dateOfExpiry")) /\
  (forall mrzData, exists d,
     extractPassportData text mrzData = Ok d /\
     (truthy (result_field (passport_before_date_fallback text mrzData)
                "dateOfBirth") = false ->
      labelled_else_ordinal dobPatterns 0 nt (get d "dateOfBirth")) /\
     (truthy (result_field (passport_before_date_fallback text mrzData)
                "dateOfExpiry") = false ->
      labelled_else_ordinal expiryPatterns 1 nt (get d "dateOfExpiry")) /\
     (no_label rule_dateOfIssue lines = true ->
      Regex.test issueDatePattern nt = false ->
      get d "dateOfIssue" = Null)).
Proof.
cbv zeta. split.
- unfold extractCNICData. cbv zeta.
  run_step.
  remember (cnic_date_fields (trim (collapse text)) d) as dd eqn:Hdd.
  repeat run_step.
  match goal with
  | |- context [cnic_address ?n ?d] =>
      destruct (cnic_address_ok n d) as (dl & El & Wl)
  end.
  exists dl. split; [exact El|].
  back "dateOfBirth". back "dateOfIssue". back "dateOfExpiry".
  subst dd. unfold cnic_date_fields. cbv zeta.
  rewrite !get_labelled_or_nth. cbn [String.eqb Ascii.eqb Bool.eqb].
  repeat split; apply labelled_else_nth_intro.
- intros mrzData. unfold extractPassportData. cbv zeta.
  remember (apply_mrz mrzData (passport_initial text)) as d0 eqn:Hd0.
  repeat run_step.
  match goal with
  | |- context [issue_date_fallback ?n ?d] =>
      destruct (issue_date_fallback_ok n d) as (dl & El & Wl)
  end.
  exists dl. split; [exact El|].
  assert (Hpre : passport_before_date_fallback text mrzData = Ok d5).
  { unfold passport_before_date_fallback. cbv zeta. rewrite <- Hd0.
    rewrite E. cbn [bind]. rewrite E0. cbn [bind]. rewrite E1. cbn [bind].
    rewrite E2. cbn [bind]. rewrite E3. cbn [bind]. exact E4. }
  rewrite Hpre. cbn [result_field]. split; [|split].
  + intros Hb. back "dateOfBirth".
    now apply (passport_date_fallback_birth _ _ _ E5).
  + intros Hb. back "dateOfExpiry".
    now apply (passport_date_fallback_expiry _ _ _ E5).
  + intros Hl Hn.
    rewrite (issue_date_fallback_none _ _ Hn) in El. injection El as <-.
    rewrite (label_loop_no_label _ _ _ Hl) in E16. injection E16 as <-.
    back "dateOfIssue". subst d0.
    destruct mrzData as [mrz|]; cbn [apply_mrz]; [|reflexivity].
    rewrite !get_set_if_truthy. reflexivity.
Qed.

(* two dates with the month in letters and no identifier or tracking
   number on their line: the line heuristic stores nothing and the
   fallback gives them to dateOfBirth and dateOfExpiry *)
Lemma C6_witness :
  exists d,
    extractPassportData "05 JAN 1990 06 FEB 2020" None = Ok d /\
    get d "dateOfBirth" = Str "05 JAN 1990" /\
    get d "dateOfExpiry" = Str "06 FEB 2020" /\
    get d "dateOfIssue" = Null.
Proof.
destruct (C6_dates_by_label_then_ordinal "05 JAN 1990 06 FEB 2020") as [_ P].
destruct (P None) as (d & E & B & X & I).
exists d. split; [exact E|]. split; [|split].
- destruct B as [_ B]; [vm_compute; reflexivity|].
  apply B; vm_compute; reflexivity.
- destruct X as [_ X]; [vm_compute; reflexivity|].
  apply X; vm_compute; reflexivity.
- apply I; vm_compute; reflexivity.
Defined.

(** * Further facts about the code *)

Module CleanMoreFacts.
Import JsStr DataExtractor StepFacts CleanFacts.

Lemma has_lookup (k : string) (d : gmap string jsval) :
  has k d = match d !! k with Some _ => true | None => false end.
Proof.
unfold has. destruct (d !! k) eqn:E.
- apply bool_decide_eq_true. eauto.
- apply bool_decide_eq_false. intros [x Hx]. discriminate.
Qed.

(* cleaning does not change what the record is taken for *)
Lemma required_for_cleanData (d : gmap string jsval) :
  required_for (cleanData d) = required_for d.
Proof.
unfold required_for at 1. cbv zeta. rewrite !has_lookup, !cleanData_lookup.
unfold required_for. cbv zeta. rewrite !has_lookup.
destruct (d !! "passportNumber") as [v1|] eqn:E1;
  destruct (d !! "surname") as [v2|] eqn:E2; cbn [orb];
  try reflexivity.
all: unfold get; rewrite ?E1, ?E2; cbn.
all: repeat match goal with |- context [if ?b then _ else _] => destruct b end; reflexivity.
Qed.

End CleanMoreFacts.

Module CharFacts.
Import JsStr Regex StrFacts RegexFacts.

Section Chars.
Variable P : ascii -> bool.

Lemma all_chars_take (n : nat) (s : string) :
  all_chars P s = true -> all_chars P (take n s) = true.
Proof.
revert s. induction n as [|n IH]; intros [|c r]; simpl; auto.
intros H. apply andb_true_iff in H as [Hc Hr]. now rewrite Hc, IH.
Qed.

Lemma all_chars_drop (n : nat) (s : string) :
  all_chars P s = true -> all_chars P (drop n s) = true.
Proof.
revert s. induction n as [|n IH]; intros [|c r]; simpl; auto.
intros H. apply andb_true_iff in H as [Hc Hr]. now apply IH.
Qed.

Lemma all_chars_repeat (c : ascii) (n : nat) :
  P c = true -> all_chars P (repeat_char c n) = true.
Proof. intros H. induction n as [|n IH]; simpl; [reflexivity|]. now rewrite H, IH. Qed.

(* the rest of the input and every capture are made of [P] characters *)
Definition chars_ok (s : mstate) : Prop :=
  all_chars P (ms_rest s) = true /\
  forall n w, ms_caps s !! n = Some (Some w) -> all_chars P w = true.

Lemma eat_chars (p : ascii -> bool) (s s' : mstate) :
  chars_ok s -> In s' (eat p s) -> chars_ok s'.
Proof.
intros [Hr Hc]. unfold eat. destruct (ms_rest s) as [|c r] eqn:E; [intros []|].
destruct (p c); [|intros []]. intros [<-|[]]. split; [|exact Hc].
simpl in *. now apply andb_true_iff in Hr as [_ Hr].
Qed.

Lemma eat_string_chars (fl : flags) (w : string) :
  forall s s', chars_ok s -> In s' (eat_string fl w s) -> chars_ok s'.
Proof.
induction w as [|a w IH]; intros s s' Hs; simpl.
- now intros [<-|[]].
- destruct (ms_rest s) as [|c r] eqn:E; [intros []|].
  destruct (chr_ok fl a c); [|intros []].
  apply IH. destruct Hs as [Hr Hc]. split; [|exact Hc].
  rewrite E in Hr. simpl in *. now apply andb_true_iff in Hr as [_ Hr].
Qed.

Lemma rmatch_chars (fl : flags) (r : re) :
  forall s s', chars_ok s -> In s' (rmatch fl r s) -> chars_ok s'.
Proof.
induction r as [| a | | neg its | a IHa b IHb | a IHa b IHb
               | min max greedy a IHa | n a IHa | | | | | n];
  intros s s' Hs; cbn [rmatch].
- now intros [<-|[]].
- now apply eat_chars.
- now apply eat_chars.
- now apply eat_chars.
- rewrite in_flat_map. intros (s1 & H1 & H2). eauto.
- rewrite in_app_iff. intros [H|H]; eauto.
- apply (rep_iter_inv chars_ok); [|exact Hs]. intros s1 s2 H1 H2. eauto.
- rewrite in_map_iff. intros (s1 & <- & H1).
  destruct (IHa s s1 Hs H1) as [Hr Hc]. split; [exact Hr|].
  intros k w. cbn [set_cap ms_caps].
  destruct (decide (n = k)) as [->|Hne].
  + destruct (decide (k < length (ms_caps s1))) as [Hlt|Hge].
    * rewrite list_lookup_insert_eq by exact Hlt. intros [= <-].
      apply all_chars_take, Hs.
    * rewrite list_insert_ge by lia. apply Hc.
  + rewrite list_lookup_insert_ne by exact Hne. apply Hc.
- intros H. apply guard_sound in H as ->. exact Hs.
- intros H. apply guard_sound in H as ->. exact Hs.
- intros H. apply guard_sound in H as ->. exact Hs.
- intros H. apply guard_sound in H as ->. exact Hs.
- unfold cap. destruct (ms_caps s !! n) as [[w|]|]; try (now intros [<-|[]]).
  now apply eat_string_chars.
Qed.

(* the groups of a match are made of [P] characters *)
Definition groups_ok (m : result) : Prop :=
  forall n w, m_groups m !! n = Some (Some w) -> all_chars P w = true.

Lemma exec_at_chars (rx : regex) (rest : string) (prev : option ascii)
    (pos : nat) (m : result) :
  all_chars P rest = true ->
  exec_at rx rest prev pos = Some m -> groups_ok m.
Proof.
intros Hr. unfold exec_at. cbv zeta.
destruct (rmatch _ _ _) as [|s1 l] eqn:E; [discriminate|]. intros [= <-].
assert (H1 : chars_ok s1).
{ apply (rmatch_chars (rx_flags rx) (rx_re rx)
           (MState rest prev pos (replicate (S (rx_groups rx)) None))).
  - split; [exact Hr|]. intros n w. cbn [ms_caps].
    intros H. apply lookup_replicate in H as [H _]. discriminate.
  - rewrite E. now left. }
intros n w. cbn [m_groups].
destruct (decide (0 = n)) as [<-|Hne].
- destruct (decide (0 < length (ms_caps s1))) as [Hlt|Hge].
  + rewrite list_lookup_insert_eq by exact Hlt. intros [= <-].
    now apply all_chars_take.
  + rewrite list_insert_ge by lia. apply H1.
- rewrite list_lookup_insert_ne by exact Hne. apply H1.
Qed.

(* the characters a template adds besides the groups it refers to *)
Fixpoint template_ok (ngroups : nat) (tpl : string) : bool :=
  match tpl with
  | EmptyString => true
  | String "$" (String "$" r) => P "$" && template_ok ngroups r
  | String "$" (String "&" r) => template_ok ngroups r
  | String "$" (String d r) =>
      (if is_digit d && (1 <=? digit_val d)%nat && (digit_val d <=? ngroups)%nat
       then true else P "$" && P d)
      && template_ok ngroups r
  | String c r => P c && template_ok ngroups r
  end.

Lemma expand_chars (ngroups : nat) (m : result) :
  groups_ok m ->
  forall tpl, template_ok ngroups tpl = true ->
    all_chars P (expand ngroups m tpl) = true.
Proof.
intros Hm.
assert (Hw : all_chars P (whole m) = true).
{ unfold whole. destruct (m_groups m !! 0) as [[w|]|] eqn:E; try reflexivity.
  exact (Hm 0 w E). }
fix IH 1. intros [|c r]; [reflexivity|].
destruct (Ascii.eqb c "$") eqn:Ec.
- apply Ascii.eqb_eq in Ec as ->.
  destruct r as [|d r]; [cbn; intros H; now rewrite andb_true_r in H; rewrite H|].
  destruct (Ascii.eqb d "$") eqn:Ed.
  { apply Ascii.eqb_eq in Ed as ->. cbn. intros H.
    apply andb_true_iff in H as [H1 H2]. now rewrite H1, IH. }
  destruct (Ascii.eqb d "&") eqn:Ea.
  { apply Ascii.eqb_eq in Ea as ->. cbn. intros H.
    rewrite all_chars_app, Hw. now apply IH. }
  assert (Hexp : expand ngroups m (String "$" (String d r)) =
    if is_digit d && (1 <=? digit_val d)%nat && (digit_val d <=? ngroups)%nat
    then match m_groups m !! digit_val d with
         | Some (Some w) => (w ++ expand ngroups m r)%string
         | _ => expand ngroups m r
         end
    else String "$" (String d (expand ngroups m r))).
  { destruct d as [[] [] [] [] [] [] [] []]; try discriminate; reflexivity. }
  assert (Htpl : template_ok ngroups (String "$" (String d r)) =
    (if is_digit d && (1 <=? digit_val d)%nat && (digit_val d <=? ngroups)%nat
     then true else P "$" && P d) && template_ok ngroups r).
  { destruct d as [[] [] [] [] [] [] [] []]; try discriminate; reflexivity. }
  rewrite Hexp, Htpl. intros H. apply andb_true_iff in H as [H1 H2].
  destruct (is_digit d && _ && _).
  + destruct (m_groups m !! digit_val d) as [[w|]|] eqn:E; try now apply IH.
    rewrite all_chars_app, (Hm _ _ E). now apply IH.
  + apply andb_true_iff in H1 as [Ha Hb]. cbn. rewrite Ha, Hb. now apply IH.
- assert (Hexp : expand ngroups m (String c r) = String c (expand ngroups m r)).
  { destruct c as [[] [] [] [] [] [] [] []]; try discriminate; reflexivity. }
  assert (Htpl : template_ok ngroups (String c r) = P c && template_ok ngroups r).
  { destruct c as [[] [] [] [] [] [] [] []]; try discriminate; reflexivity. }
  rewrite Hexp, Htpl. intros H. apply andb_true_iff in H as [H1 H2].
  cbn. rewrite H1. now apply IH.
Qed.

Lemma replace_go_chars (rx : regex) (tpl : string) (all : bool) :
  template_ok (rx_groups rx) tpl = true ->
  forall rest prev pos skip,
    all_chars P rest = true ->
    all_chars P (replace_go rx tpl all rest prev pos skip) = true.
Proof.
intros Ht. induction rest as [|c r IH]; intros prev pos skip Hr.
- destruct skip; cbn [replace_go]; [|reflexivity].
  destruct (exec_at rx "" prev pos) as [m|] eqn:E; [|reflexivity].
  rewrite all_chars_app, (expand_chars _ m (exec_at_chars _ _ _ _ _ Hr E) _ Ht).
  destruct all; [reflexivity|]. now apply all_chars_drop.
- pose proof Hr as Hr'. cbn [all_chars] in Hr'.
  apply andb_true_iff in Hr' as [Hc Hr'].
  destruct skip; cbn [replace_go]; [|now apply IH].
  destruct (exec_at rx (String c r) prev pos) as [m|] eqn:E.
  + rewrite all_chars_app, (expand_chars _ m (exec_at_chars _ _ _ _ _ Hr E) _ Ht).
    destruct all; [|now apply all_chars_drop].
    rewrite all_chars_app, IH by exact Hr'.
    destruct (m_length m =? 0)%nat; cbn; [now rewrite Hc|reflexivity].
  + cbn. rewrite Hc. now apply IH.
Qed.

(** s.replace(rx, tpl) keeps a string inside an alphabet that the
    template stays in *)
Lemma replace_chars (rx : regex) (tpl s : string) :
  template_ok (rx_groups rx) tpl = true ->
  all_chars P s = true -> all_chars P (replace rx tpl s) = true.
Proof. intros Ht Hs. unfold replace. now apply replace_go_chars. Qed.

End Chars.
End CharFacts.

Module MrzFacts.
Import JsStr DataExtractor PassportRoute StrFacts RegexFacts StepFacts ShapeFacts
  RouteFacts CharFacts.

(* the MRZ alphabet: A-Z, 0-9 and the filler *)
Definition mrz_char (c : ascii) : bool :=
  is_upper c || is_digit c || Ascii.eqb c "<".

Lemma all_chars_kept (p q : ascii -> bool) (s : string) :
  (forall c, p c = true -> q c = true) ->
  all_chars q (filter_chars p s) = true.
Proof.
intros H. induction s as [|c r IH]; simpl; [reflexivity|].
destruct (p c) eqn:E; [|exact IH]. simpl. now rewrite (H c E), IH.
Qed.

Lemma outside_class_is_mrz_char (c : ascii) :
  negb (Regex.cls_ok (Regex.Flags true false false) true
          [Regex.CRange "A" "Z"; Regex.CRange "0" "9"; Regex.CChar "<"] c) = true ->
  mrz_char c = true.
Proof. destruct c as [[] [] [] [] [] [] [] []]; vm_compute; congruence. Qed.

Lemma clean_mrz_line_chars (line : string) :
  all_chars mrz_char (clean_mrz_line line) = true.
Proof.
unfold clean_mrz_line. cbv zeta.
do 9 (apply replace_chars; [vm_compute; reflexivity|]).
rewrite (replace_single _
  (Regex.cls_ok (Regex.Flags true false false) true
     [Regex.CRange "A" "Z"; Regex.CRange "0" "9"; Regex.CChar "<"]));
  [|intros s; reflexivity|reflexivity].
apply all_chars_kept, outside_class_is_mrz_char.
Qed.

Lemma accept_line_chars (cleanedLine : string) (mrzLines : list string) :
  all_chars mrz_char cleanedLine = true ->
  Forall (fun l => all_chars mrz_char l = true) mrzLines ->
  Forall (fun l => all_chars mrz_char l = true) (accept_line cleanedLine mrzLines).
Proof.
intros Hc Hl. unfold accept_line.
assert (Hadd : forall l, all_chars mrz_char l = true ->
          Forall (fun l => all_chars mrz_char l = true) (mrzLines ++ [l])).
{ intros l H. apply Forall_app. split; [exact Hl|]. now constructor. }
repeat match goal with
       | |- context [if ?b then _ else _] => destruct b
       end; auto.
apply Hadd, replace_chars; [vm_compute; reflexivity|exact Hc].
Qed.

Lemma accept_line_length (cleanedLine : string) (mrzLines : list string) :
  length mrzLines <= 2 -> length (accept_line cleanedLine mrzLines) <= 2.
Proof.
intros H. unfold accept_line.
destruct (20 <=? String.length cleanedLine)%nat; [|exact H].
destruct (length mrzLines =? 0)%nat eqn:E0.
{ apply Nat.eqb_eq in E0. destruct (isLine1 cleanedLine); [|exact H].
  rewrite List.length_app, E0. simpl. lia. }
destruct (length mrzLines =? 1)%nat eqn:E1; [|exact H].
apply Nat.eqb_eq in E1.
destruct (isLine2 cleanedLine); [rewrite List.length_app, E1; simpl; lia|].
destruct (isLine2_fallback cleanedLine); [rewrite List.length_app, E1; simpl; lia|exact H].
Qed.

(** the scan returns at most two lines, over the MRZ alphabet *)
Lemma find_mrz_lines_chars (extractedText : string) :
  exists mrzLines,
    find_mrz_lines extractedText = Ok mrzLines /\
    length mrzLines <= 2 /\
    Forall (fun l => all_chars mrz_char l = true) mrzLines.
Proof.
unfold find_mrz_lines. cbv zeta.
set (allLines := map trim _).
destruct (for_range_inv
            (fun l => length l <= 2 /\ Forall (fun l => all_chars mrz_char l = true) l)
            (scan_body allLines)
            (Nat.min (length allLines) 15) 0 []) as (l & E & Hl).
- split; [simpl; lia|constructor].
- intros k mrzLines Hk [Hlen Hall]. unfold scan_body. cbv zeta.
  destruct (at_in_range allLines (length allLines - 1 - k)) as [l ->]; [lia|].
  cbn [str_of bind].
  destruct (_ || _); [|eexists; split; [reflexivity|split; assumption]].
  pose proof (accept_line_length (clean_mrz_line (strip_artifacts l)) mrzLines Hlen).
  pose proof (accept_line_chars (clean_mrz_line (strip_artifacts l)) mrzLines
                (clean_mrz_line_chars _) Hall).
  destruct (2 <=? _)%nat; eexists; (split; [reflexivity|split; assumption]).
- exists l. split; [exact E|exact Hl].
Qed.

Lemma pad44_chars (line : string) :
  all_chars mrz_char line = true -> all_chars mrz_char (pad44 line) = true.
Proof.
intros H. unfold pad44, substring, padEnd. cbn [drop].
apply all_chars_take. rewrite all_chars_app, H.
now apply all_chars_repeat.
Qed.

Lemma anchor_line1_chars (line1 : string) :
  all_chars mrz_char line1 = true -> all_chars mrz_char (anchor_line1 line1) = true.
Proof.
intros H. unfold anchor_line1.
repeat match goal with
       | |- context [if ?b then _ else _] => destruct b
       end; try exact H;
  rewrite all_chars_app; rewrite (all_chars_drop mrz_char 1 line1 H); reflexivity.
Qed.

End MrzFacts.

Module AnchorFacts.
Import JsStr Regex StrFacts RegexFacts.

Section Anchored.
Variable rx : regex.
Variable body : re.
Hypothesis Hre : rx_re rx = Seq Bol (Seq body Eol).
Hypothesis Hmulti : f_multi (rx_flags rx) = false.

Lemma exec_at_not_bol (rest : string) (c : ascii) (pos : nat) :
  exec_at rx rest (Some c) pos = None.
Proof.
unfold exec_at. cbv zeta. rewrite Hre. cbn [rmatch].
unfold at_bol. cbn [ms_prev]. rewrite Hmulti. reflexivity.
Qed.

Lemma search_not_bol (rest : string) :
  forall c pos, search rx rest (Some c) pos = None.
Proof.
induction rest as [|a r IH]; intros c pos; cbn [search];
  rewrite exec_at_not_bol; [reflexivity|apply IH].
Qed.

Lemma exec_anchored_at (s : string) : exec rx s = exec_at rx s None 0.
Proof.
unfold exec. destruct s as [|c r]; cbn [search];
  destruct (exec_at rx _ None 0); try reflexivity.
apply search_not_bol.
Qed.

(** a match of /^body$/ is a match of the whole string *)
Lemma exec_anchored (s : string) (m : result) :
  exec rx s = Some m ->
  lang (rx_flags rx) body s /\ whole m = s /\ m_index m = 0.
Proof.
rewrite exec_anchored_at. unfold exec_at. cbv zeta.
destruct (rmatch _ _ _) as [|s1 l] eqn:E; [discriminate|]. intros [= <-].
assert (H : In s1 (rmatch (rx_flags rx) (rx_re rx)
                     (MState s None 0 (replicate (S (rx_groups rx)) None)))).
{ rewrite E. now left. }
rewrite Hre in H. cbn [rmatch] in H.
apply in_flat_map in H as (s2 & H2 & H).
apply guard_sound in H2 as ->.
apply in_flat_map in H as (s3 & H3 & H).
pose proof H as Hg. apply guard_sound in Hg as ->.
unfold guard in H. destruct (at_eol (rx_flags rx) s3) eqn:Heol; [|destruct H].
unfold at_eol in Heol. rewrite Hmulti in Heol.
destruct (ms_rest s3) eqn:Hrest; [|discriminate].
apply rmatch_sound in H3 as (w & (R & Ppos & C) & L).
cbn [ms_rest ms_pos] in R, Ppos. rewrite Hrest, app_nil_r in R. subst w.
split; [exact L|]. split; [|reflexivity].
unfold whole. cbn [m_groups].
rewrite list_lookup_insert_eq.
- rewrite Ppos. cbn. rewrite Nat.sub_0_r.
  rewrite <- (app_nil_r s) at 2. now rewrite take_app_length.
- rewrite C. cbn. rewrite length_replicate. lia.
Qed.

Lemma test_anchored (s : string) :
  test rx s = true -> lang (rx_flags rx) body s.
Proof.
unfold test. destruct (exec rx s) as [m|] eqn:E; [|discriminate].
intros _. now apply exec_anchored in E.
Qed.
End Anchored.

End AnchorFacts.

Module MrzDataFacts.
Import JsStr DataExtractor PassportRoute StrFacts RegexFacts StepFacts ShapeFacts
  FieldFacts AnchorFacts.

(* \d{5}[-]?\d{7}[-]?\d{1} *)
Definition optional_cnic_body : Regex.re :=
  Regex.Seq (digits 5) (Regex.Seq opt_dash
    (Regex.Seq (digits 7) (Regex.Seq opt_dash (digits 1)))).

Lemma optional_cnic_body_shape (g : string) :
  lang no_flags optional_cnic_body g ->
  is_canonical (dashed (filter_chars not_dash g)) = true /\
  String.length (filter_chars not_dash g) = 13.
Proof.
intros (w1 & r1 & -> & H1 & (w2 & r2 & -> & H2 & (w3 & r3 & -> & H3 &
        (w4 & w5 & -> & H4 & H5)))).
apply digits_lang in H1 as [L1 D1]. apply digits_lang in H3 as [L3 D3].
apply digits_lang in H5 as [L5 D5].
apply opt_dash_lang in H2. apply opt_dash_lang in H4.
rewrite !filter_chars_app.
rewrite (digits_not_dash _ D1), (digits_not_dash _ D3), (digits_not_dash _ D5).
rewrite (dashes_dropped _ H2), (dashes_dropped _ H4).
rewrite !app_nil_l.
split.
- rewrite dashed_parts by assumption. now apply canonical_of_parts.
- rewrite !length_app. lia.
Qed.

Lemma dash_is_filter (g : string) :
  Regex.replace re_dash_g EmptyString g = filter_chars not_dash g.
Proof.
now rewrite (replace_single re_dash_g (Ascii.eqb "-"));
  [|intros s; reflexivity|reflexivity].
Qed.

Lemma mrz_citizenship_spec (f : MrzFields) :
  exists v, mrz_citizenship f = Ok v /\ null_or_canonical v.
Proof.
unfold mrz_citizenship.
destruct (truthy (optionalData f)) eqn:T; [|exists Null; split; [reflexivity|now left]].
destruct (truthy_str _ T) as [o ->]. cbn [str_of bind].
set (optionalData := Regex.replace re_space_g "" o).
destruct (Regex.exec re_optional_cnic optionalData) as [m|] eqn:E.
- destruct (exec_group re_optional_cnic optionalData m 1 E) as (g & Hg & L);
    [cbn; lia|reflexivity|].
  rewrite Hg. cbn [str_of bind]. rewrite dash_is_filter.
  destruct (optional_cnic_body_shape g) as [C Len].
  { apply L. cbn. repeat split; auto. }
  rewrite Len. cbn [Nat.eqb]. eexists. split; [reflexivity|]. right. eauto.
- destruct (Regex.test re_only_thirteen optionalData) eqn:T13;
    [|exists Null; split; [reflexivity|now left]].
  eexists. split; [reflexivity|]. right. eexists. split; [reflexivity|].
  apply thirteen_digits_shape.
  exact (test_anchored re_only_thirteen _ eq_refl eq_refl _ T13).
Qed.

(* null, or a string that is not empty *)
Definition null_or_nonempty (v : jsval) : Prop :=
  v = Null \/ exists s, v = Str s /\ nonempty s = true.

Lemma or_null_spec (v : jsval) : null_or_nonempty (or_null v).
Proof.
unfold or_null. destruct (truthy v) eqn:T; [|now left].
destruct v as [| |s]; try discriminate. right. eauto.
Qed.

Lemma nonempty_app_r (a b : string) : nonempty b = true -> nonempty (a ++ b) = true.
Proof. destruct a; [auto|reflexivity]. Qed.

Lemma formatDate_spec (v : jsval) : null_or_nonempty (formatDate v).
Proof.
unfold formatDate. destruct v as [| |d]; try now left.
destruct (nonempty d) eqn:N; [|now left].
destruct (Regex.test re_iso_date d); [|right; eauto].
destruct (split_char "-" d) as [|year [|month [|day [|? ?]]]]; try (right; eauto; fail).
right. eexists. split; [reflexivity|]. now apply nonempty_app_r.
Qed.

Lemma gender_of_sex_spec (f : MrzFields) :
  gender_of_sex f = Null \/ gender_of_sex f = Str "MALE"
  \/ gender_of_sex f = Str "FEMALE".
Proof.
unfold gender_of_sex. destruct (truthy (sex f)); [|now left].
destruct (jsval_eqb _ _); auto.
Qed.

End MrzDataFacts.

Module DateFacts.
Import JsStr DataExtractor PassportRoute StrFacts RegexFacts ShapeFacts.

Lemma chr_same (c : ascii) : Regex.chr_ok no_flags c c = true.
Proof. unfold Regex.chr_ok. cbn. apply Ascii.eqb_refl. Qed.

Lemma iso_date_test (y1 y2 y3 y4 m1 m2 d1 d2 : ascii) :
  is_digit y1 = true -> is_digit y2 = true -> is_digit y3 = true ->
  is_digit y4 = true -> is_digit m1 = true -> is_digit m2 = true ->
  is_digit d1 = true -> is_digit d2 = true ->
  Regex.test re_iso_date
    (String y1 (String y2 (String y3 (String y4 (String "-"
      (String m1 (String m2 (String "-" (String d1 (String d2 ""))))))))))
  = true.
Proof.
intros Hy1 Hy2 Hy3 Hy4 Hm1 Hm2 Hd1 Hd2.
unfold Regex.test, Regex.exec, re_iso_date. cbn [Regex.search].
unfold Regex.exec_at. cbv zeta. cbn [Regex.rx_flags Regex.rx_re Regex.rx_groups].
change (Regex.Flags false false false) with no_flags.
repeat (cbn -[Regex.cls_ok Regex.chr_ok no_flags];
        rewrite ?cls_digit, ?chr_same, ?Hy1, ?Hy2, ?Hy3, ?Hy4, ?Hm1, ?Hm2, ?Hd1, ?Hd2).
reflexivity.
Qed.

Lemma digit_is_not_dash (c : ascii) : is_digit c = true -> Ascii.eqb c "-" = false.
Proof. destruct c as [[] [] [] [] [] [] [] []]; vm_compute; congruence. Qed.

(* the strings of [n] digits *)
Definition digit_string (n : nat) (s : string) : Prop :=
  String.length s = n /\ all_chars is_digit s = true.

Lemma formatDate_iso_date (year month day : string) :
  digit_string 4 year -> digit_string 2 month -> digit_string 2 day ->
  formatDate (Str (year ++ "-" ++ month ++ "-" ++ day)) =
  Str (day ++ " " ++ month_name month ++ " " ++ year).
Proof.
intros [Ly Dy] [Lm Dm] [Ld Dd].
destruct year as [|y1 [|y2 [|y3 [|y4 [|? ?]]]]]; try discriminate.
destruct month as [|m1 [|m2 [|? ?]]]; try discriminate.
destruct day as [|d1 [|d2 [|? ?]]]; try discriminate.
cbn [all_chars] in Dy, Dm, Dd. rewrite !andb_true_r in *.
repeat match goal with H : _ && _ = true |- _ => apply andb_true_iff in H as [? H] end.
unfold formatDate. rewrite !app_cons, !app_nil_l. cbn [nonempty].
rewrite iso_date_test by assumption.
cbn [split_char].
repeat match goal with
       | D : is_digit ?c = true |- context [Ascii.eqb ?c "-"] =>
           rewrite (digit_is_not_dash c D)
       end.
rewrite Ascii.eqb_refl. rewrite !app_cons, !app_nil_l. reflexivity.
Qed.

(* parseInt of two digits *)
Definition two_digits (a b : ascii) : nat := 10 * Regex.digit_val a + Regex.digit_val b.

Lemma month_name_digits (a b : ascii) :
  is_digit a = true -> is_digit b = true ->
  month_name (String a (String b "")) =
  match two_digits a b with
  | O => "undefined"
  | S n => match months !! n with Some m => m | None => "undefined" end
  end.
Proof.
intros Ha Hb. unfold month_name, two_digits. cbn [Regex.read_nat]. rewrite Ha, Hb.
cbn [fst]. replace (10 * (10 * 0 + Regex.digit_val a) + Regex.digit_val b)
  with (10 * Regex.digit_val a + Regex.digit_val b) by lia.
reflexivity.
Qed.

Lemma month_name_out_of_range (a b : ascii) :
  is_digit a = true -> is_digit b = true ->
  two_digits a b = 0 \/ 12 < two_digits a b ->
  month_name (String a (String b "")) = "undefined".
Proof.
intros Ha Hb H. rewrite month_name_digits by assumption.
destruct (two_digits a b) as [|n]; [reflexivity|].
destruct H as [H|H]; [discriminate|].
do 12 (destruct n as [|n]; [lia|]). reflexivity.
Qed.

Lemma month_name_in_range (a b : ascii) :
  is_digit a = true -> is_digit b = true ->
  1 <= two_digits a b <= 12 ->
  months !! (two_digits a b - 1) = Some (month_name (String a (String b ""))).
Proof.
intros Ha Hb H. rewrite month_name_digits by assumption.
destruct (two_digits a b) as [|n]; [lia|].
cbn [Nat.sub]. rewrite Nat.sub_0_r.
do 12 (destruct n as [|n]; [reflexivity|]). lia.
Qed.

(** the parts of s.split(c) do not hold the separator *)
Definition no_char (sep : ascii) (s : string) : bool :=
  all_chars (fun c => negb (Ascii.eqb c sep)) s.

Lemma split_char_parts (sep : ascii) (s : string) :
  Forall (fun w => no_char sep w = true) (split_char sep s).
Proof.
induction s as [|c r IH]; cbn [split_char].
- repeat constructor.
- destruct (Ascii.eqb c sep) eqn:E.
  + constructor; [reflexivity|exact IH].
  + destruct (split_char sep r) as [|w ws].
    * repeat constructor. unfold no_char. cbn. now rewrite E.
    * inversion IH as [|? ? Hw Hws]; subst. constructor; [|exact Hws].
      unfold no_char in *. cbn. now rewrite E, Hw.
Qed.

Lemma split_char_none (sep : ascii) (s : string) :
  no_char sep s = true -> split_char sep s = [s].
Proof.
induction s as [|c r IH]; [reflexivity|].
unfold no_char. cbn [all_chars split_char]. intros H.
apply andb_true_iff in H as [Hc Hr]. apply negb_true_iff in Hc. rewrite Hc.
now rewrite (IH Hr).
Qed.

Lemma no_char_app (sep : ascii) (a b : string) :
  no_char sep (a ++ b) = no_char sep a && no_char sep b.
Proof. apply all_chars_app. Qed.

Lemma month_name_no_dash (month : string) : no_char "-" (month_name month) = true.
Proof.
unfold month_name. destruct (fst _) as [|n]; [reflexivity|].
do 12 (destruct n as [|n]; [reflexivity|]). reflexivity.
Qed.

Lemma formatDate_plain (d : string) :
  nonempty d = true -> no_char "-" d = true -> formatDate (Str d) = Str d.
Proof.
intros N H. unfold formatDate. rewrite N, (split_char_none _ _ H).
now destruct (Regex.test re_iso_date d).
Qed.

Lemma formatDate_fixed (v : jsval) : formatDate (formatDate v) = formatDate v.
Proof.
destruct v as [| |d]; try reflexivity.
assert (H : formatDate (Str d) = Null \/ formatDate (Str d) = Str d \/
            exists out, formatDate (Str d) = Str out /\
                        nonempty out = true /\ no_char "-" out = true).
{ unfold formatDate. destruct (nonempty d); [|now left].
  destruct (Regex.test re_iso_date d); [|now right; left].
  pose proof (split_char_parts "-" d) as Hp.
  destruct (split_char "-" d) as [|year [|month [|day [|? ?]]]];
    try (now right; left).
  inversion Hp as [|? ? Hy Hp1]; subst. inversion Hp1 as [|? ? Hm Hp2]; subst.
  inversion Hp2 as [|? ? Hd _]; subst.
  right; right. eexists. split; [reflexivity|]. split.
  - destruct day; reflexivity.
  - rewrite !no_char_app, Hy, Hd, month_name_no_dash. reflexivity. }
destruct H as [H|[H|(out & H & N & D)]].
- now rewrite H.
- now rewrite H, H.
- rewrite H. now apply formatDate_plain.
Qed.

End DateFacts.

Module ConfidenceFacts.
Import JsStr DataExtractor PassportRoute DoubleFacts RouteFacts.

Lemma js_round_mono (x y : Q) : (x <= y)%Q -> (js_round x <= js_round y)%Z.
Proof. intros H. unfold js_round. apply Qfloor_resp_le. lra. Qed.

Lemma js_round_shift (x : Q) (n : Z) :
  js_round (x + inject_Z n) = (js_round x + n)%Z.
Proof.
unfold js_round.
pose proof (Qfloor_le (x + (1 # 2))) as H1.
pose proof (Qlt_floor (x + (1 # 2))) as H2.
pose proof (Qfloor_le (x + inject_Z n + (1 # 2))) as H3.
pose proof (Qlt_floor (x + inject_Z n + (1 # 2))) as H4.
set (a := Qfloor (x + (1 # 2))) in *.
set (b := Qfloor (x + inject_Z n + (1 # 2))) in *.
rewrite inject_Z_plus in H2, H4. change (inject_Z 1) with 1%Q in *.
assert (Ha : (inject_Z b < inject_Z (a + n + 1))%Q).
{ rewrite !inject_Z_plus. change (inject_Z 1) with 1%Q. lra. }
assert (Hb : (inject_Z (a + n) < inject_Z (b + 1))%Q).
{ rewrite !inject_Z_plus. change (inject_Z 1) with 1%Q. lra. }
rewrite <- Zlt_Qlt in Ha, Hb. lia.
Qed.

Lemma overallConfidence_mono (ocr1 ocr2 : Q) (acc1 acc2 : Z) (mrz : bool) :
  (ocr1 <= ocr2)%Q -> (acc1 <= acc2)%Z ->
  (overallConfidence_of ocr1 acc1 mrz <= overallConfidence_of ocr2 acc2 mrz)%Z.
Proof.
intros Ho Ha. unfold overallConfidence_of. cbv zeta.
apply Z.min_le_compat_l, js_round_mono.
assert (Hq : (inject_Z acc1 <= inject_Z acc2)%Q) by now rewrite <- Zle_Qle.
apply add_le_compat; [|lra].
apply add_le_compat; apply mul_le_compat_r; try assumption.
- rewrite lit_half. lra.
- apply lit_three_tenths_nonneg.
Qed.

(* the sum of the two terms, before the bonus is added *)
Definition weighted (ocr : Q) (acc : Z) : Q :=
  Double.add (Double.mul ocr (Double.lit (5 # 10)))
             (Double.mul (inject_Z acc) (Double.lit (3 # 10))).

Lemma weighted_eq (ocr : Q) (acc : Z) :
  weighted ocr acc =
  Double.add (Double.mul ocr (Double.lit (5 # 10)))
             (Double.mul (inject_Z acc) (Double.lit (3 # 10))).
Proof. unfold weighted. reflexivity. Qed.

Lemma weighted_range (ocr : Q) (acc : Z) :
  (0 <= ocr <= 100)%Q -> (0 <= acc <= 100)%Z ->
  (0 <= weighted ocr acc <= 80)%Q.
Proof.
intros [Ho0 Ho1] [Ha0 Ha1]. unfold weighted.
assert (Hq0 : (0 <= inject_Z acc)%Q).
{ change 0%Q with (inject_Z 0). now rewrite <- Zle_Qle. }
assert (Hq1 : (inject_Z acc <= 100)%Q).
{ change 100%Q with (inject_Z 100). now rewrite <- Zle_Qle. }
pose proof lit_three_tenths_nonneg as H3.
assert (H3' : (Double.lit (3 # 10) <= 3 # 10)%Q) by (vm_compute; discriminate).
split.
- apply add_nonneg; apply mul_nonneg; try assumption; rewrite lit_half; lra.
- assert (A : (Double.mul ocr (Double.lit (5 # 10)) <= 50)%Q).
  { apply round_le; [rewrite lit_half; lra|reflexivity|].
    apply (representable_Z 50). split; reflexivity. }
  assert (B : (Double.mul (inject_Z acc) (Double.lit (3 # 10)) <= 30)%Q).
  { apply round_le; [|reflexivity|apply (representable_Z 30); split; reflexivity].
    apply Qle_trans with (100 * Double.lit (3 # 10))%Q.
    - now apply Qmult_le_compat_r.
    - lra. }
  apply round_le; [lra|reflexivity|].
  apply (representable_Z 80). split; reflexivity.
Qed.

Lemma overallConfidence_plain (ocr : Q) (acc : Z) :
  overallConfidence_of ocr acc false = Z.min 100 (js_round (weighted ocr acc)).
Proof.
unfold overallConfidence_of, weighted. cbv zeta iota. f_equal.
unfold js_round. apply Qfloor_comp. apply Qplus_comp; [|reflexivity].
match goal with
| |- (Double.add (Double.add ?x ?y) 0 == _)%Q =>
    exact (add_0_r (Double.add x y) (add_is_double x y))
end.
Qed.

(* k + 1/2 is a double *)
Lemma representable_half (k : Z) :
  (0 <= k < 2 ^ 51)%Z -> representable (inject_Z k + (1 # 2))%Q.
Proof.
intros H. change (2 ^ 51)%Z with 2251799813685248%Z in H.
destruct (representable_dyadic (2 * k + 1) (-1)) as [m Hm];
  [change (2 ^ 53)%Z with 9007199254740992%Z; lia|lia|].
assert (E : (inject_Z (2 * k + 1) * Double.pow2 (-1) == inject_Z k + (1 # 2))%Q).
{ rewrite inject_Z_plus, inject_Z_mult. change (Double.pow2 (-1)) with (1 # 2)%Q.
  change (inject_Z 2) with 2%Q. change (inject_Z 1) with 1%Q. ring. }
rewrite E in Hm. now exists m.
Qed.

(* the bonus of 20 is added before the rounding to a double, which can
   carry the sum up to the next half: the rounded figure gains 20 or 21 *)
Lemma overallConfidence_bonus (ocr : Q) (acc : Z) :
  (0 <= ocr <= 100)%Q -> (0 <= acc <= 100)%Z ->
  let plain := js_round (weighted ocr acc) in
  overallConfidence_of ocr acc true = Z.min 100 (plain + 20) \/
  overallConfidence_of ocr acc true = Z.min 100 (plain + 21).
Proof.
intros Ho Ha. cbv zeta.
destruct (weighted_range ocr acc Ho Ha) as [W0 W1].
unfold overallConfidence_of. cbv zeta iota. rewrite <- (weighted_eq ocr acc).
generalize dependent (weighted ocr acc). intros a W0 W1.
pose proof (Qfloor_le (a + (1 # 2))) as K1.
pose proof (Qlt_floor (a + (1 # 2))) as K2.
fold (js_round a) in K1, K2 |- *.
set (k := js_round a) in *.
rewrite inject_Z_plus in K2. change (inject_Z 1) with 1%Q in K2.
assert (K0 : (0 <= k)%Z) by now apply js_round_nonneg.
assert (K80 : (k <= 80)%Z).
{ assert (B : (inject_Z k < inject_Z 81)%Q) by (change (inject_Z 81) with 81%Q; lra).
  rewrite <- Zlt_Qlt in B. lia. }
assert (L : (inject_Z (k + 19) + (1 # 2) <= Double.add a 20)%Q).
{ unfold Double.add. apply round_ge.
  - rewrite inject_Z_plus. change (inject_Z 19) with 19%Q. lra.
  - rewrite inject_Z_plus. change (inject_Z 19) with 19%Q.
    assert (0 <= inject_Z k)%Q by (change 0%Q with (inject_Z 0); now rewrite <- Zle_Qle).
    lra.
  - apply representable_half. change (2 ^ 51)%Z with 2251799813685248%Z. lia. }
assert (U : (Double.add a 20 <= inject_Z (k + 20) + (1 # 2))%Q).
{ unfold Double.add. apply round_le.
  - rewrite inject_Z_plus. change (inject_Z 20) with 20%Q. lra.
  - rewrite inject_Z_plus. change (inject_Z 20) with 20%Q.
    assert (0 <= inject_Z k)%Q by (change 0%Q with (inject_Z 0); now rewrite <- Zle_Qle).
    lra.
  - apply representable_half. change (2 ^ 51)%Z with 2251799813685248%Z. lia. }
generalize dependent (Double.add a 20). intros b L U.
assert (R1 : (k + 20 <= js_round b)%Z).
{ unfold js_round. rewrite <- (Qfloor_Z (k + 20)). apply Qfloor_resp_le.
  rewrite inject_Z_plus in L |- *.
  change (inject_Z 19) with 19%Q in L. change (inject_Z 20) with 20%Q. lra. }
assert (R2 : (js_round b <= k + 21)%Z).
{ unfold js_round. rewrite <- (Qfloor_Z (k + 21)). apply Qfloor_resp_le.
  rewrite inject_Z_plus in U |- *.
  change (inject_Z 20) with 20%Q in U. change (inject_Z 21) with 21%Q. lra. }
destruct (Z.eq_dec (js_round b) (k + 20)%Z) as [E|N]; [left|right]; f_equal; lia.
Qed.

End ConfidenceFacts.

Module HusbandFacts.
Import JsStr DataExtractor PassportRoute StrFacts StepFacts CleanFacts RouteFacts
  ConfidenceFacts.

Lemma husbandName_null (text : string) (mrzData : option MrzData) :
  exists d,
    extractPassportData text mrzData = Ok d /\
    get d "husbandName" = Null /\
    get (cleanData d) "husbandName" = Null.
Proof.
destruct (extractPassportData_writes text mrzData) as (d & E & W).
destruct (extractPassportData_record text mrzData) as (d' & E' & R & _).
rewrite E in E'. injection E' as <-.
exists d. split; [exact E|].
assert (H : d !! "husbandName" = Some Null).
{ rewrite (writes_other _ _ _ "husbandName" W) by (cbv; intuition discriminate).
  reflexivity. }
split; [unfold get; now rewrite H|].
unfold get. rewrite cleanData_lookup, (required_for_passport d R), H. reflexivity.
Qed.

Lemma filter_length_lt {A : Type} (f : A -> bool) (x : A) (l : list A) :
  In x l -> f x = false -> length (List.filter f l) < length l.
Proof.
induction l as [|a l IH]; [intros []|]. intros [->|H] Hx; cbn [List.filter length].
- rewrite Hx. pose proof (filter_length_le f l). lia.
- specialize (IH H Hx). destruct (f a); cbn [length]; lia.
Qed.

Lemma accuracy_below (cleanedData : gmap string jsval) (field : string) :
  In field fieldsToCheck ->
  extracted cleanedData field = false ->
  (extractionAccuracy_of cleanedData <= 92)%Z.
Proof.
intros Hin Hf. unfold extractionAccuracy_of. cbv zeta.
pose proof (filter_length_lt (extracted cleanedData) field fieldsToCheck Hin Hf) as H.
set (n := length (List.filter (extracted cleanedData) fieldsToCheck)) in *.
change (length fieldsToCheck) with 12 in *. cbn [Nat.ltb Nat.leb].
do 12 (destruct n as [|n]; [vm_compute; discriminate|]).
lia.
Qed.

Lemma overallConfidence_below (ocr : Q) (acc : Z) (mrz : bool) :
  (ocr <= 100)%Q -> (acc <= 92)%Z ->
  (overallConfidence_of ocr acc mrz <= 98)%Z.
Proof.
intros Ho Ha.
etransitivity; [apply (overallConfidence_mono ocr 100 acc 92 mrz Ho Ha)|].
destruct mrz; vm_compute; discriminate.
Qed.

End HusbandFacts.

Module WordFacts.
Import JsStr Regex StrFacts RegexFacts.

Lemma toUpperCase_app (a b : string) :
  toUpperCase (a ++ b) = (toUpperCase a ++ toUpperCase b)%string.
Proof.
unfold toUpperCase. induction a as [|c a IH]; [reflexivity|].
rewrite app_cons. cbn [map_chars]. now rewrite IH, app_cons.
Qed.

Lemma upper_upper (c : ascii) : upper (upper c) = upper c.
Proof. destruct c as [[] [] [] [] [] [] [] []]; reflexivity. Qed.

Lemma toUpperCase_fixed (s : string) : toUpperCase (toUpperCase s) = toUpperCase s.
Proof.
unfold toUpperCase. induction s as [|c s IH]; [reflexivity|].
cbn [map_chars]. now rewrite upper_upper, IH.
Qed.

Lemma length_toUpperCase (s : string) :
  String.length (toUpperCase s) = String.length s.
Proof. apply length_map_chars. Qed.

(* all the words [a ++ b] *)
Definition products (xs ys : list string) : list string :=
  flat_map (fun a => map (fun b => (a ++ b)%string) ys) xs.

(* the words of a pattern of letters, sequences and alternatives, in
   upper case *)
Fixpoint upper_words (r : re) : option (list string) :=
  match r with
  | Empty => Some [EmptyString]
  | Chr a => Some [String (upper a) EmptyString]
  | Seq a b =>
      match upper_words a, upper_words b with
      | Some xs, Some ys => Some (products xs ys)
      | _, _ => None
      end
  | Alt a b =>
      match upper_words a, upper_words b with
      | Some xs, Some ys => Some (xs ++ ys)
      | _, _ => None
      end
  | Grp _ a => upper_words a
  | _ => None
  end.

Lemma upper_words_lang (fl : flags) (r : re) :
  f_icase fl = true ->
  forall ws w, upper_words r = Some ws -> lang fl r w -> In (toUpperCase w) ws.
Proof.
intros Hi. induction r as [| a | | neg its | a IHa b IHb | a IHa b IHb
               | min max greedy a IHa | n a IHa | | | | | n];
  intros ws w; cbn [upper_words lang]; try discriminate.
- intros [= <-] ->. now left.
- intros [= <-] (c & -> & H). unfold chr_ok in H. rewrite Hi in H.
  apply Ascii.eqb_eq in H. cbn. rewrite H. now left.
- destruct (upper_words a) as [xs|]; [|discriminate].
  destruct (upper_words b) as [ys|]; [|discriminate].
  intros [= <-] (w1 & w2 & -> & H1 & H2). rewrite toUpperCase_app.
  unfold products. apply in_flat_map. exists (toUpperCase w1).
  split; [now apply IHa|]. apply in_map_iff. exists (toUpperCase w2).
  split; [reflexivity|now apply IHb].
- destruct (upper_words a) as [xs|]; [|discriminate].
  destruct (upper_words b) as [ys|]; [|discriminate].
  intros [= <-] [H|H]; apply in_app_iff; [left; now apply IHa|right; now apply IHb].
- intros E H. now apply IHa.
Qed.

End WordFacts.

Module GenderFacts.
Import JsStr DataExtractor StrFacts RegexFacts StepFacts FieldFacts WordFacts.

Definition gender_words : list string := ["MALE"; "FEMALE"; "M"; "F"].

(* the pattern inside the group of genderPattern *)
Definition gender_body : Regex.re :=
  Eval vm_compute in
    match group_body 1 (Regex.rx_re genderPattern) with
    | Some g => g
    | None => Regex.Empty
    end.

Lemma gender_field_spec (nt : string) (d : gmap string jsval) :
  exists d',
    gender_field nt d = Ok d' /\
    writes ["gender"] d d' /\
    (get d' "gender" = get d "gender" \/
     exists g, get d' "gender" = Str g /\ In g gender_words) /\
    (Regex.test genderPattern nt = false -> d' = d).
Proof.
unfold gender_field, Regex.test.
destruct (Regex.exec genderPattern nt) as [m|] eqn:E.
- destruct (exec_group genderPattern nt m 1 E) as (g & Hg & L);
    [cbn; lia|reflexivity|].
  rewrite Hg. cbn [str_of bind]. eexists. split; [reflexivity|].
  split; [apply writes_set|]. split; [|discriminate].
  right. exists (toUpperCase g). split; [now rewrite get_set|].
  apply (upper_words_lang (Regex.rx_flags genderPattern) gender_body);
    [reflexivity|reflexivity|].
  apply L. cbn. repeat split; auto.
- exists d. split; [reflexivity|]. split; [apply writes_refl|].
  split; [now left|reflexivity].
Qed.

End GenderFacts.

Module PassportFieldFacts.
Import JsStr DataExtractor StrFacts RegexFacts StepFacts ShapeFacts FieldFacts WordFacts.

(* the field [k] is as before, or a string with the property [P] *)
Definition same_or (P : string -> Prop) (k : string) (d d' : gmap string jsval) : Prop :=
  get d' k = get d k \/ exists s, get d' k = Str s /\ P s.

Lemma same_or_refl (P : string -> Prop) (k : string) (d : gmap string jsval) :
  same_or P k d d.
Proof. now left. Qed.

Lemma same_or_set (P : string -> Prop) (k s : string) (d0 d : gmap string jsval) :
  P s -> same_or P k d0 (set k (Str s) d).
Proof. intros H. right. exists s. split; [|exact H]. now rewrite get_set, String.eqb_refl. Qed.

Lemma same_or_trans (P : string -> Prop) (k : string) (d1 d2 d3 : gmap string jsval) :
  same_or P k d1 d2 -> same_or P k d2 d3 -> same_or P k d1 d3.
Proof.
intros H12 [H|H]; [|now right].
destruct H12 as [H'|(s & H' & Hs)]; [left; congruence|].
right. exists s. split; [congruence|exact Hs].
Qed.

Section LabelLoop.
Variable rule : label_rule.
Variable P : string -> Prop.
Hypothesis Hsame : forall v, lr_same_ok rule v = true -> P (lr_store rule v).
Hypothesis Hnext : forall v, lr_next_ok rule v = true -> P (lr_store rule v).

Lemma label_body_sets (lines : list string) (i : nat) (d0 d : gmap string jsval) :
  i < length lines ->
  same_or P (lr_key rule) d0 d ->
  exists c, label_body rule lines i d = Ok c /\
            same_or P (lr_key rule) d0 (ctl_state c).
Proof.
intros Hi H0. unfold label_body.
destruct (at_in_range lines i Hi) as [l ->]. cbn [str_of bind].
destruct (lr_is_label rule _); [|eexists; split; [reflexivity|exact H0]].
assert (Hn : exists c, label_next_line rule lines i d = Ok c /\
                       same_or P (lr_key rule) d0 (ctl_state c)).
{ unfold label_next_line.
  destruct (negb _ && (i + 1 <? length lines)%nat) eqn:G;
    [|eexists; split; [reflexivity|exact H0]].
  apply andb_true_iff in G as [_ G]. apply Nat.ltb_lt in G.
  destruct (at_in_range lines (i + 1) G) as [l2 ->]. cbn [str_of bind].
  destruct (lr_next_ok rule _) eqn:Ok2; [|eexists; split; [reflexivity|exact H0]].
  eexists. split; [reflexivity|]. cbn [ctl_state]. apply same_or_set. now apply Hnext. }
unfold label_same_line.
destruct (Regex.exec (lr_same rule) (trim l)) as [m|]; cbn [and_then]; [|exact Hn].
destruct (truthy (grp m 1)) eqn:T; cbn [and_then]; [|exact Hn].
destruct (truthy_str _ T) as [g ->]. cbn [str_of bind].
destruct (lr_same_ok rule _) eqn:Ok1; cbn [and_then]; [|exact Hn].
eexists. split; [reflexivity|]. cbn [ctl_state]. apply same_or_set. now apply Hsame.
Qed.

Lemma label_loop_sets (lines : list string) (d : gmap string jsval) :
  exists d', label_loop rule lines d = Ok d' /\
             writes [lr_key rule] d d' /\
             same_or P (lr_key rule) d d'.
Proof.
destruct (label_loop_ok rule lines d) as (d' & E & W).
exists d'. split; [exact E|]. split; [exact W|].
destruct (for_range_inv (same_or P (lr_key rule) d) (label_body rule lines)
            (length lines) 0 d (same_or_refl _ _ _)) as (d2 & E2 & H2).
- intros i d1 Hi H1. apply label_body_sets; [lia|exact H1].
- unfold label_loop in E. rewrite E in E2. now injection E2 as <-.
Qed.
End LabelLoop.

(** the passport number *)

(* 6 to 12 characters, in upper case *)
Definition number_like (s : string) : Prop :=
  6 <= String.length s <= 12 /\ toUpperCase s = s.

Lemma number_like_upper (v : string) :
  6 <= String.length v <= 12 -> number_like (toUpperCase v).
Proof.
intros H. split; [now rewrite length_toUpperCase|apply toUpperCase_fixed].
Qed.


Lemma passportPattern_group (nt : string) (m : Regex.result) :
  Regex.exec passportPattern nt = Some m ->
  exists g, grp m 1 = Str g /\ 6 <= String.length g <= 12.
Proof.
intros E. destruct (exec_group passportPattern nt m 1 E) as (g & Hg & L);
  [cbn; lia|reflexivity|].
exists g. split; [exact Hg|].
refine (proj1 (rep_class_lang _ 6 12 true false
                 [Regex.CRange "A" "Z"; Regex.CRange "0" "9"] g _ _)); [|lia].
apply L. cbn. repeat split; auto.
Qed.

Lemma passport_shape_group (line : string) (m : Regex.result) :
  Regex.exec re_passport_shape line = Some m ->
  exists g, grp m 1 = Str g /\ 6 <= String.length g <= 12.
Proof.
intros E. destruct (exec_group re_passport_shape line m 1 E) as (g & Hg & L);
  [cbn; lia|reflexivity|].
exists g. split; [exact Hg|].
assert (H : lang (Regex.rx_flags re_passport_shape)
              (Regex.Seq (Regex.Rep 2 (Some 2) true (Regex.Cls false [Regex.CRange "A" "Z"]))
                 (Regex.Rep 7 (Some 8) true (Regex.Cls false [Regex.CDigit]))) g).
{ apply L. cbn. repeat split; auto. }
destruct H as (w1 & w2 & -> & H1 & H2).
apply rep_class_lang in H1 as [H1 _]; [|lia].
apply rep_class_lang in H2 as [H2 _]; [|lia].
rewrite length_app. lia.
Qed.

Lemma passport_number_fallback_sets (lines : list string) (nt : string)
    (d : gmap string jsval) :
  exists d', passport_number_fallback lines nt d = Ok d' /\
             writes ["passportNumber"] d d' /\
             same_or number_like "passportNumber" d d' /\
             (truthy (get d "passportNumber") = true -> d' = d).
Proof.
destruct (passport_number_fallback_ok lines nt d) as (d' & E & W).
exists d'. split; [exact E|]. split; [exact W|].
revert E. unfold passport_number_fallback.
destruct (truthy (get d "passportNumber")) eqn:T; cbn [negb].
{ intros [= <-]. split; [apply same_or_refl|reflexivity]. }
intros E. split; [|discriminate].
assert (H1 : exists d1,
          match Regex.exec passportPattern nt with
          | Some passportMatch =>
              let* g := str_of (grp passportMatch 1) in
              Ok (set "passportNumber" (Str (toUpperCase g)) d)
          | None => Ok d
          end = Ok d1 /\ same_or number_like "passportNumber" d d1).
{ destruct (Regex.exec passportPattern nt) as [m|] eqn:Em.
  - destruct (passportPattern_group nt m Em) as (g & -> & Hg). cbn [str_of bind].
    eexists. split; [reflexivity|]. apply same_or_set. now apply number_like_upper.
  - exists d. split; [reflexivity|apply same_or_refl]. }
destruct H1 as (d1 & E1 & S1). rewrite E1 in E. cbn [bind] in E.
destruct (negb (truthy (get d1 "passportNumber"))); [|now injection E as <-].
destruct (for_range_inv (same_or number_like "passportNumber" d)
            (passport_number_lines_body lines) (length lines) 0 d1 S1)
  as (d2 & E2 & S2).
- intros i d3 Hi H3. unfold passport_number_lines_body.
  destruct (at_in_range lines i) as [l ->]; [lia|]. cbn [str_of bind].
  destruct (Regex.exec re_passport_shape l) as [m|] eqn:Em.
  + destruct (passport_shape_group l m Em) as (g & -> & Hg). cbn [str_of bind].
    eexists. split; [reflexivity|]. apply same_or_set. now apply number_like_upper.
  + eexists. split; [reflexivity|exact H3].
- rewrite E in E2. now injection E2 as <-.
Qed.


End PassportFieldFacts.

Module KeptFacts.
Import JsStr DataExtractor StrFacts RegexFacts StepFacts ShapeFacts FieldFacts
  WordFacts GenderFacts PassportFieldFacts.

(** a fallback leaves a field alone that already has a value *)

Lemma dob_lines_fallback_kept (lines : list string) (d : gmap string jsval) :
  truthy (get d "dateOfBirth") = true -> dob_lines_fallback lines d = Ok d.
Proof. intros T. unfold dob_lines_fallback. now rewrite T. Qed.

Lemma expiry_lines_fallback_kept (lines : list string) (d : gmap string jsval) :
  truthy (get d "dateOfExpiry") = true -> expiry_lines_fallback lines d = Ok d.
Proof. intros T. unfold expiry_lines_fallback. now rewrite T. Qed.

Lemma passport_number_fallback_kept (lines : list string) (nt : string)
    (d : gmap string jsval) :
  truthy (get d "passportNumber") = true -> passport_number_fallback lines nt d = Ok d.
Proof. intros T. unfold passport_number_fallback. now rewrite T. Qed.

Lemma nationality_fallback_kept (lines : list string) (d : gmap string jsval) :
  truthy (get d "nationality") = true -> nationality_fallback lines d = Ok d.
Proof. intros T. unfold nationality_fallback. now rewrite T. Qed.

Lemma given_names_fallback_kept (lines : list string) (d : gmap string jsval) :
  truthy (get d "givenNames") = true -> given_names_fallback lines d = Ok d.
Proof. intros T. unfold given_names_fallback. now rewrite T. Qed.

Lemma citizenship_fallback_kept (lines : list string) (d : gmap string jsval) :
  truthy (get d "citizenshipNumber") = true -> citizenship_fallback lines d = Ok d.
Proof. intros T. unfold citizenship_fallback. now rewrite T. Qed.

Lemma nth_date_kept (k : string) (n : nat) (dates : list string)
    (d : gmap string jsval) :
  truthy (get d k) = true -> nth_date k n dates d = d.
Proof. intros T. unfold nth_date. now rewrite T. Qed.

(* with a date of birth the date fallback writes the date of expiry only,
   and the other way round *)
Lemma passport_date_fallback_birth_kept (nt : string) (d : gmap string jsval) :
  truthy (get d "dateOfBirth") = true ->
  exists d', passport_date_fallback nt d = Ok d' /\ writes ["dateOfExpiry"] d d'.
Proof.
intros T. unfold passport_date_fallback.
destruct (_ || _); [|exists d; split; [reflexivity|apply writes_refl]].
cbv zeta. rewrite (labelled_dates_kept _ _ _ _ T). cbn [bind].
rewrite (nth_date_kept _ _ _ _ T).
destruct (labelled_dates_ok "dateOfExpiry" nt expiryPatterns d) as (d1 & E1 & W1).
rewrite E1. cbn [bind]. eexists. split; [reflexivity|].
eapply writes_trans; [exact W1|apply nth_date_writes].
Qed.

Lemma passport_date_fallback_expiry_kept (nt : string) (d : gmap string jsval) :
  truthy (get d "dateOfExpiry") = true ->
  exists d', passport_date_fallback nt d = Ok d' /\ writes ["dateOfBirth"] d d'.
Proof.
intros T. unfold passport_date_fallback.
destruct (_ || _); [|exists d; split; [reflexivity|apply writes_refl]].
cbv zeta.
destruct (labelled_dates_ok "dateOfBirth" nt dobPatterns d) as (d1 & E1 & W1).
rewrite E1. cbn [bind].
pose proof (nth_date_writes "dateOfBirth" 0 (passport_dates nt) d1) as W2.
set (d2 := nth_date "dateOfBirth" 0 (passport_dates nt) d1) in *.
assert (T2 : truthy (get d2 "dateOfExpiry") = true).
{ rewrite (writes_get_other _ _ _ "dateOfExpiry" W2) by (cbv; intuition discriminate).
  rewrite (writes_get_other _ _ _ "dateOfExpiry" W1) by (cbv; intuition discriminate).
  exact T. }
rewrite (labelled_dates_kept _ _ _ _ T2). cbn [bind].
rewrite (nth_date_kept _ _ _ _ T2).
eexists. split; [reflexivity|]. eapply writes_trans; [exact W1|exact W2].
Qed.

Lemma gender_field_none (nt : string) (d : gmap string jsval) :
  Regex.test genderPattern nt = false -> gender_field nt d = Ok d.
Proof.
intros T. unfold gender_field. now rewrite (test_false _ _ T).
Qed.

(* the value the MRZ data give to a field *)
Lemma get_apply_mrz (mrz : MrzData) (d : gmap string jsval) (k : string) :
  get (apply_mrz (Some mrz) d) k =
  if String.eqb "citizenshipNumber" k && truthy (mrz_citizenshipNumber mrz)
  then mrz_citizenshipNumber mrz
  else if String.eqb "dateOfExpiry" k && truthy (mrz_dateOfExpiry mrz)
  then mrz_dateOfExpiry mrz
  else if String.eqb "gender" k && truthy (mrz_gender mrz)
  then mrz_gender mrz
  else if String.eqb "dateOfBirth" k && truthy (mrz_dateOfBirth mrz)
  then mrz_dateOfBirth mrz
  else if String.eqb "nationality" k && truthy (mrz_nationality mrz)
  then mrz_nationality mrz
  else if String.eqb "givenNames" k && truthy (mrz_givenNames mrz)
  then mrz_givenNames mrz
  else if String.eqb "surname" k && truthy (mrz_surname mrz)
  then mrz_surname mrz
  else if String.eqb "passportNumber" k && truthy (mrz_passportNumber mrz)
  then mrz_passportNumber mrz
  else get d k.
Proof. cbn [apply_mrz]. now rewrite !get_set_if_truthy. Qed.

(* the steps that leave a field with a value as it is *)
Ltac kept_step k G :=
  lazymatch goal with
  | Hl : no_label ?r ?l = true |- context [bind (label_loop ?r ?l ?d) _] =>
      rewrite (label_loop_no_label r l d Hl); cbn [bind]
  | |- context [bind (passport_number_fallback ?l ?n ?d) _] =>
      rewrite (passport_number_fallback_kept l n d) by (back k; exact G); cbn [bind]
  | |- context [bind (dob_lines_fallback ?l ?d) _] =>
      rewrite (dob_lines_fallback_kept l d) by (back k; exact G); cbn [bind]
  | |- context [bind (expiry_lines_fallback ?l ?d) _] =>
      rewrite (expiry_lines_fallback_kept l d) by (back k; exact G); cbn [bind]
  | |- context [bind (nationality_fallback ?l ?d) _] =>
      rewrite (nationality_fallback_kept l d) by (back k; exact G); cbn [bind]
  | |- context [bind (given_names_fallback ?l ?d) _] =>
      rewrite (given_names_fallback_kept l d) by (back k; exact G); cbn [bind]
  | |- context [bind (citizenship_fallback ?l ?d) _] =>
      rewrite (citizenship_fallback_kept l d) by (back k; exact G); cbn [bind]
  end.

Ltac last_step :=
  match goal with
  | |- context [issue_date_fallback ?n ?d] =>
      let dl := fresh "dl" in
      let El := fresh "El" in
      let Wl := fresh "Wl" in
      destruct (issue_date_fallback_ok n d) as (dl & El & Wl);
      exists dl; split; [exact El|]
  end.

(* the date fallback, for a date field that has a value *)
Ltac date_step lem k G :=
  lazymatch goal with
  | |- context [bind (passport_date_fallback ?n ?d) _] =>
      let d' := fresh "d" in
      let E := fresh "E" in
      let W := fresh "W" in
      destruct (lem n d) as (d' & E & W); [back k; exact G|];
      rewrite E; cbn [bind]
  end.

Ltac gender_step Hg :=
  lazymatch goal with
  | |- context [bind (gender_field ?n ?d) _] =>
      rewrite (gender_field_none n d Hg); cbn [bind]
  end.

Ltac mrz_value T :=
  rewrite get_apply_mrz; cbn [String.eqb Ascii.eqb Bool.eqb andb]; now rewrite T.

Section Kept.
Variable text : string.
Variable mrz : MrzData.

Let d0 := apply_mrz (Some mrz) (passport_initial text).

Lemma mrz_passportNumber_kept :
  truthy (mrz_passportNumber mrz) = true ->
  no_label rule_passportNumber (lines_of text) = true ->
  exists d, extractPassportData text (Some mrz) = Ok d /\
            get d "passportNumber" = mrz_passportNumber mrz.
Proof.
intros T Hl. unfold extractPassportData. cbv zeta. fold d0.
assert (G0 : get d0 "passportNumber" = mrz_passportNumber mrz) by (unfold d0; mrz_value T).
assert (G : truthy (get d0 "passportNumber") = true) by now rewrite G0.
repeat first [kept_step "passportNumber" G | run_step].
last_step. back "passportNumber". exact G0.
Qed.

Lemma mrz_surname_kept :
  truthy (mrz_surname mrz) = true ->
  no_label rule_surname (lines_of text) = true ->
  exists d, extractPassportData text (Some mrz) = Ok d /\
            get d "surname" = mrz_surname mrz.
Proof.
intros T Hl. unfold extractPassportData. cbv zeta. fold d0.
assert (G0 : get d0 "surname" = mrz_surname mrz) by (unfold d0; mrz_value T).
assert (G : truthy (get d0 "surname") = true) by now rewrite G0.
repeat first [kept_step "surname" G | run_step].
last_step. back "surname". exact G0.
Qed.

Lemma mrz_givenNames_kept :
  truthy (mrz_givenNames mrz) = true ->
  no_label rule_givenNames (lines_of text) = true ->
  exists d, extractPassportData text (Some mrz) = Ok d /\
            get d "givenNames" = mrz_givenNames mrz.
Proof.
intros T Hl. unfold extractPassportData. cbv zeta. fold d0.
assert (G0 : get d0 "givenNames" = mrz_givenNames mrz) by (unfold d0; mrz_value T).
assert (G : truthy (get d0 "givenNames") = true) by now rewrite G0.
repeat first [kept_step "givenNames" G | run_step].
last_step. back "givenNames". exact G0.
Qed.

Lemma mrz_nationality_kept :
  truthy (mrz_nationality mrz) = true ->
  no_label rule_nationality (lines_of text) = true ->
  exists d, extractPassportData text (Some mrz) = Ok d /\
            get d "nationality" = mrz_nationality mrz.
Proof.
intros T Hl. unfold extractPassportData. cbv zeta. fold d0.
assert (G0 : get d0 "nationality" = mrz_nationality mrz) by (unfold d0; mrz_value T).
assert (G : truthy (get d0 "nationality") = true) by now rewrite G0.
repeat first [kept_step "nationality" G | run_step].
last_step. back "nationality". exact G0.
Qed.

Lemma mrz_citizenshipNumber_kept :
  truthy (mrz_citizenshipNumber mrz) = true ->
  no_label rule_citizenshipNumber (lines_of text) = true ->
  exists d, extractPassportData text (Some mrz) = Ok d /\
            get d "citizenshipNumber" = mrz_citizenshipNumber mrz.
Proof.
intros T Hl. unfold extractPassportData. cbv zeta. fold d0.
assert (G0 : get d0 "citizenshipNumber" = mrz_citizenshipNumber mrz)
  by (unfold d0; mrz_value T).
assert (G : truthy (get d0 "citizenshipNumber") = true) by now rewrite G0.
repeat first [kept_step "citizenshipNumber" G | run_step].
last_step. back "citizenshipNumber". exact G0.
Qed.

Lemma mrz_dateOfBirth_kept :
  truthy (mrz_dateOfBirth mrz) = true ->
  no_label rule_dateOfBirth (lines_of text) = true ->
  exists d, extractPassportData text (Some mrz) = Ok d /\
            get d "dateOfBirth" = mrz_dateOfBirth mrz.
Proof.
intros T Hl. unfold extractPassportData. cbv zeta. fold d0.
assert (G0 : get d0 "dateOfBirth" = mrz_dateOfBirth mrz).
{ unfold d0. rewrite get_apply_mrz. cbn [String.eqb Ascii.eqb Bool.eqb andb].
  now rewrite T. }
assert (G : truthy (get d0 "dateOfBirth") = true) by now rewrite G0.
repeat first [kept_step "dateOfBirth" G
             | date_step passport_date_fallback_birth_kept "dateOfBirth" G
             | run_step].
last_step. back "dateOfBirth". exact G0.
Qed.

Lemma mrz_dateOfExpiry_kept :
  truthy (mrz_dateOfExpiry mrz) = true ->
  no_label rule_dateOfExpiry (lines_of text) = true ->
  exists d, extractPassportData text (Some mrz) = Ok d /\
            get d "dateOfExpiry" = mrz_dateOfExpiry mrz.
Proof.
intros T Hl. unfold extractPassportData. cbv zeta. fold d0.
assert (G0 : get d0 "dateOfExpiry" = mrz_dateOfExpiry mrz).
{ unfold d0. rewrite get_apply_mrz. cbn [String.eqb Ascii.eqb Bool.eqb andb].
  now rewrite T. }
assert (G : truthy (get d0 "dateOfExpiry") = true) by now rewrite G0.
repeat first [kept_step "dateOfExpiry" G
             | date_step passport_date_fallback_expiry_kept "dateOfExpiry" G
             | run_step].
last_step. back "dateOfExpiry". exact G0.
Qed.

Lemma mrz_gender_kept :
  truthy (mrz_gender mrz) = true ->
  Regex.test genderPattern (trim (collapse text)) = false ->
  exists d, extractPassportData text (Some mrz) = Ok d /\
            get d "gender" = mrz_gender mrz.
Proof.
intros T Hg. unfold extractPassportData. cbv zeta. fold d0.
assert (G0 : get d0 "gender" = mrz_gender mrz).
{ unfold d0. rewrite get_apply_mrz. cbn [String.eqb Ascii.eqb Bool.eqb andb].
  now rewrite T. }
repeat first [gender_step Hg | run_step].
last_step. back "gender". exact G0.
Qed.

End Kept.
End KeptFacts.

Module GenderRouteFacts.
Import JsStr DataExtractor PassportRoute StrFacts RegexFacts StepFacts CleanFacts
  FieldFacts RouteFacts GenderFacts KeptFacts MrzDataFacts.

(* null or one of MALE, FEMALE, M, F *)
Definition gender_value (v : jsval) : Prop :=
  v = Null \/ exists g, v = Str g /\ In g gender_words.

Lemma cnic_gender (text : string) :
  exists d, extractCNICData text = Ok d /\ gender_value (get d "gender").
Proof.
unfold extractCNICData. cbv zeta.
run_step.
remember (cnic_date_fields (trim (collapse text)) d) as dd eqn:Hdd.
pose proof (cnic_date_fields_writes (trim (collapse text)) d) as Wd.
rewrite <- Hdd in Wd.
destruct (gender_field_spec (trim (collapse text)) dd) as (dg & Eg & _ & Sg & _).
rewrite Eg. cbn [bind].
repeat run_step.
match goal with
| |- context [cnic_address ?n ?d] =>
    destruct (cnic_address_ok n d) as (dl & El & Wl)
end.
exists dl. split; [exact El|]. back "gender".
destruct Sg as [Sg|Sg]; [|now right].
left. rewrite Sg. back "gender". reflexivity.
Qed.

Lemma passport_gender (text : string) (mrzData : option MrzData) :
  (forall mrz, mrzData = Some mrz -> gender_value (mrz_gender mrz)) ->
  exists d, extractPassportData text mrzData = Ok d /\ gender_value (get d "gender").
Proof.
intros Hm. unfold extractPassportData. cbv zeta.
set (d0 := apply_mrz mrzData (passport_initial text)).
assert (G0 : gender_value (get d0 "gender")).
{ unfold d0. destruct mrzData as [mrz|]; [|now left].
  rewrite get_apply_mrz. cbn [String.eqb Ascii.eqb Bool.eqb andb].
  destruct (truthy (mrz_gender mrz)); [now apply Hm|now left]. }
do 7 run_step.
match goal with
| |- context [bind (gender_field ?n ?d) _] =>
    destruct (gender_field_spec n d) as (dg & Eg & _ & Sg & _)
end.
rewrite Eg. cbn [bind].
repeat run_step. last_step. back "gender".
destruct Sg as [Sg|Sg]; [|now right].
rewrite Sg. back "gender". exact G0.
Qed.

Lemma read_mrz_data (parse : string -> res MrzResult) (mrzLines : list string)
    (mrz : MrzData) :
  read_mrz parse mrzLines = Some mrz ->
  exists f, mrz_data_of f = Ok mrz.
Proof.
unfold read_mrz. destruct (2 <=? length mrzLines)%nat; [|discriminate].
unfold try_mrz.
destruct (str_of (at_ mrzLines 0)) as [l1|]; cbn [bind]; [|discriminate].
destruct (str_of (at_ mrzLines 1)) as [l2|]; cbn [bind]; [|discriminate].
destruct (normalize_mrz l1 l2) as [line1 line2].
destruct (parse _) as [mrzResult|]; cbn [bind]; [|discriminate].
destruct (valid mrzResult); [|discriminate].
destruct (mrz_data_of (fields mrzResult)) as [m|] eqn:E; cbn [bind]; [|discriminate].
intros [= <-]. eauto.
Qed.

Lemma mrz_data_gender (f : MrzFields) (mrz : MrzData) :
  mrz_data_of f = Ok mrz -> gender_value (mrz_gender mrz).
Proof.
unfold mrz_data_of. destruct (mrz_citizenship f) as [c|]; cbn [bind]; [|discriminate].
intros [= <-]. cbn [mrz_gender].
destruct (gender_of_sex_spec f) as [ -> | [ -> | -> ] ]; [now left| |];
  right; eexists; (split; [reflexivity|]); cbv; tauto.
Qed.

End GenderRouteFacts.

Module UpperFacts.
Import JsStr DataExtractor StrFacts RegexFacts StepFacts FieldFacts WordFacts
  GenderFacts PassportFieldFacts.

(* in upper case: toUpperCase changes nothing *)
Definition upper_case (s : string) : Prop := toUpperCase s = s.

Lemma upper_case_upper (s : string) : upper_case (toUpperCase s).
Proof. apply toUpperCase_fixed. Qed.

Lemma upper_case_app (a b : string) :
  upper_case a -> upper_case b -> upper_case (a ++ b).
Proof. unfold upper_case. intros Ha Hb. now rewrite toUpperCase_app, Ha, Hb. Qed.

Lemma both {A : Type} (m : res A) (P Q : A -> Prop) :
  (exists a, m = Ok a /\ P a) -> (exists a, m = Ok a /\ Q a) ->
  exists a, m = Ok a /\ P a /\ Q a.
Proof.
intros (a & E & HP) (a' & E' & HQ). rewrite E in E'. injection E' as <-. eauto.
Qed.

(* how a loop body ends, for the invariant [same_or P k d0] *)
Ltac keep_it := eexists; split; [reflexivity|assumption].
Ltac put_upper :=
  eexists; split; [reflexivity|];
  cbn [ctl_state]; apply same_or_set;
  first [apply upper_case_upper | reflexivity].
Ltac upper_end := first [keep_it | put_upper].

Lemma and_then_same_or (P : string -> Prop) (k : string) (d0 d : gmap string jsval)
    (a : res (ctl (gmap string jsval)))
    (b : gmap string jsval -> res (ctl (gmap string jsval))) :
  same_or P k d0 d ->
  (a = Ok (Next d) \/ exists c, a = Ok (Break c) /\ same_or P k d0 c) ->
  (exists c, b d = Ok c /\ same_or P k d0 (ctl_state c)) ->
  exists c, and_then a b = Ok c /\ same_or P k d0 (ctl_state c).
Proof.
intros H0 [->|(c & -> & Hc)] Hb; cbn [and_then]; [exact Hb|].
eexists. split; [reflexivity|exact Hc].
Qed.

Lemma cnic_name_label_upper (lines : list string) (d : gmap string jsval) :
  exists d', cnic_name_label lines d = Ok d' /\ same_or upper_case "name" d d'.
Proof.
unfold cnic_name_label.
apply (for_range_inv (same_or upper_case "name" d)); [apply same_or_refl|].
intros i d1 Hi H1. unfold cnic_name_label_body.
destruct (at_in_range lines i) as [l ->]; [lia|]. cbn [str_of bind].
match goal with |- context [if ?b then _ else _] => destruct b; [|upper_end] end.
apply (and_then_same_or _ _ _ d1); [exact H1| |].
- unfold cnic_name_same_line.
  destruct (Regex.exec _ _) as [m|]; [|now left].
  destruct (truthy (grp m 1)) eqn:T; [|now left].
  apply truthy_str in T as [g ->]. cbn [str_of bind].
  match goal with |- context [if ?b then _ else _] => destruct b; [|now left] end.
  right. eexists. split; [reflexivity|]. apply same_or_set, upper_case_upper.
- unfold cnic_name_next_line.
  destruct (negb _ && (i + 1 <? length lines)%nat) eqn:C; [|upper_end].
  apply andb_true_iff in C as [_ C]. apply Nat.ltb_lt in C.
  destruct (at_in_range lines (i + 1) C) as [l' ->]. cbn [str_of bind].
  match goal with |- context [if ?b then _ else _] => destruct b; upper_end end.
Qed.

Lemma cnic_name_fallback_upper (lines : list string) (d : gmap string jsval) :
  exists d', cnic_name_fallback lines d = Ok d' /\ same_or upper_case "name" d d'.
Proof.
unfold cnic_name_fallback.
match goal with
| |- context [if ?b then _ else _] =>
    destruct b; [|exists d; split; [reflexivity|apply same_or_refl]]
end.
destruct (index_loop_ok lines (header_end_body lines)
            (Nat.min (length lines) 5)) as [h ->]; [lia| |].
{ intros i o Hi. unfold header_end_body.
  destruct (at_in_range lines i Hi) as [l ->]. cbn [str_of bind].
  match goal with |- context [if ?b then _ else _] => destruct b; eauto end. }
cbn [bind].
apply (for_range_inv (same_or upper_case "name" d)); [apply same_or_refl|].
intros i d1 Hi H1. unfold cnic_name_fallback_body.
destruct (at_in_range lines i) as [l ->]; [lia|]. cbn [str_of bind].
match goal with |- context [if ?b then _ else _] => destruct b; upper_end end.
Qed.

Lemma cnic_father_label_upper (lines : list string) (d : gmap string jsval) :
  exists d', cnic_father_label lines d = Ok d' /\
             same_or upper_case "fatherName" d d'.
Proof.
unfold cnic_father_label.
apply (for_range_inv (same_or upper_case "fatherName" d)); [apply same_or_refl|].
intros i d1 Hi H1. unfold cnic_father_label_body.
destruct (at_in_range lines i) as [l ->]; [lia|]. cbn [str_of bind].
match goal with |- context [if ?b then _ else _] => destruct b; [|upper_end] end.
apply (and_then_same_or _ _ _ d1); [exact H1| |].
- unfold cnic_father_same_line.
  destruct (Regex.exec _ _) as [m|]; [|now left].
  destruct (truthy (grp m 1)) eqn:T; [|now left].
  apply truthy_str in T as [g ->]. cbn [str_of bind].
  match goal with |- context [if ?b then _ else _] => destruct b; [|now left] end.
  destruct (differs_from_name_ok (collapse (trim g)) d1) as [b ->].
  cbn [bind]. destruct b; [|now left].
  right. eexists. split; [reflexivity|]. apply same_or_set, upper_case_upper.
- unfold cnic_father_next_line.
  destruct (negb _ && (i + 1 <? length lines)%nat) eqn:C; [|upper_end].
  apply andb_true_iff in C as [_ C]. apply Nat.ltb_lt in C.
  destruct (at_in_range lines (i + 1) C) as [l' ->]. cbn [str_of bind].
  match goal with |- context [if ?b then _ else _] => destruct b; [|upper_end] end.
  destruct (differs_from_name_ok (collapse (trim l')) d1) as [b ->].
  cbn [bind]. destruct b; upper_end.
Qed.

Lemma cnic_father_fallback_upper (lines : list string) (d : gmap string jsval) :
  exists d', cnic_father_fallback lines d = Ok d' /\
             same_or upper_case "fatherName" d d'.
Proof.
unfold cnic_father_fallback.
destruct (negb _ && truthy (get d "name") && _) eqn:C;
  [|exists d; split; [reflexivity|apply same_or_refl]].
apply andb_true_iff in C as [C _]. apply andb_true_iff in C as [_ T].
apply truthy_str in T as [name ->]. cbn [str_of bind].
destruct (index_loop_ok lines (name_line_body lines name) (length lines))
  as [h ->]; [lia| |].
{ intros i o Hi. unfold name_line_body.
  destruct (at_in_range lines i Hi) as [l ->]. cbn [str_of bind].
  match goal with |- context [if ?b then _ else _] => destruct b; eauto end. }
cbn [bind].
apply (for_range_inv (same_or upper_case "fatherName" d)); [apply same_or_refl|].
intros i d1 Hi H1. unfold cnic_father_fallback_body.
destruct (at_in_range lines i) as [l ->]; [lia|]. cbn [str_of bind].
repeat match goal with
       | |- context [if ?b then _ else _] => destruct b; try solve [upper_end]
       end.
Qed.

Lemma country_keywords_upper :
  forallb (fun keyword =>
    String.eqb (toUpperCase (normalize_country keyword)) (normalize_country keyword))
    countryKeywords = true.
Proof. vm_compute. reflexivity. Qed.

Lemma country_keyword_upper (keyword : string) :
  In keyword countryKeywords -> upper_case (normalize_country keyword).
Proof.
intros H. pose proof country_keywords_upper as F.
rewrite forallb_forall in F. apply String.eqb_eq, F, H.
Qed.

Lemma cnic_country_upper (text : string) (d : gmap string jsval) :
  exists d', cnic_country text d = Ok d' /\ same_or upper_case "country" d d'.
Proof.
unfold cnic_country.
destruct (for_of_inv (same_or upper_case "country" d) (country_keyword_body text)
            countryKeywords d (same_or_refl _ _ _)) as (d1 & -> & H1).
{ intros k d1 Hk H1. pose proof keyword_regexps_parse as H.
  rewrite forallb_forall in H. specialize (H k Hk).
  unfold country_keyword_body.
  destruct (keyword_regexp k) as [rx|]; [|discriminate]. cbn [bind].
  destruct (Regex.test rx text); [|keep_it].
  eexists. split; [reflexivity|]. apply same_or_set. now apply country_keyword_upper. }
cbn [bind].
assert (exists d2,
  (if negb (truthy (get d1 "country"))
   then for_of (country_pattern_body text) countryPatterns d1
   else Ok d1) = Ok d2 /\ same_or upper_case "country" d d2) as (d2 & -> & H2).
{ destruct (negb _); [|eauto].
  apply for_of_inv; [exact H1|]. intros p d2 _ H2.
  unfold country_pattern_body.
  destruct (Regex.exec p text) as [m|]; [|keep_it].
  destruct (truthy (grp m 1)) eqn:T; [|keep_it].
  apply truthy_str in T as [g ->]. cbn [str_of bind].
  destruct (matched_country _) as [keyword|] eqn:M.
  - eexists. split; [reflexivity|]. apply same_or_set.
    apply country_keyword_upper. unfold matched_country in M.
    now apply find_some in M as [M _].
  - match goal with |- context [if ?b then _ else _] => destruct b; upper_end end. }
cbn [bind].
repeat match goal with
       | |- context [if ?b then _ else _] => destruct b
       end;
  eexists; (split; [reflexivity|]); try exact H2;
  apply same_or_set; reflexivity.
Qed.

End UpperFacts.

Module CountryFacts.
Import JsStr DataExtractor StrFacts RegexFacts StepFacts FieldFacts.

Lemma keyword_regexp_pakistan : keyword_regexp "PAKISTAN" = Ok re_pakistan_word.
Proof. vm_compute. reflexivity. Qed.

Lemma keyword_regexp_pak : keyword_regexp "PAK" = Ok re_pak_word.
Proof. vm_compute. reflexivity. Qed.

Lemma cnic_country_pakistan (text : string) (d : gmap string jsval) :
  Regex.test re_pakistan_word text = true \/ Regex.test re_pak_word text = true ->
  cnic_country text d = Ok (set "country" (Str "PAKISTAN") d).
Proof.
intros H. unfold cnic_country.
assert (E : for_of (country_keyword_body text) countryKeywords d =
            Ok (set "country" (Str "PAKISTAN") d)).
{ unfold countryKeywords. cbn [for_of]. unfold country_keyword_body at 1.
  rewrite keyword_regexp_pakistan. cbn [bind].
  destruct (Regex.test re_pakistan_word text) eqn:T1; [reflexivity|].
  destruct H as [H|H]; [discriminate|].
  unfold country_keyword_body at 1. rewrite keyword_regexp_pak. cbn [bind].
  rewrite H. reflexivity. }
rewrite E. cbn [bind]. rewrite get_set, String.eqb_refl. cbn [truthy nonempty negb].
cbn [bind]. rewrite get_set, String.eqb_refl. reflexivity.
Qed.

End CountryFacts.

Module DateShapeFacts.
Import JsStr DataExtractor StrFacts RegexFacts StepFacts ShapeFacts FieldFacts.

(* the separators of a numeric date *)
Definition is_sep (c : ascii) : bool := Ascii.eqb "." c || Ascii.eqb "/" c.

Lemma cls_digit_any (fl : Regex.flags) (c : ascii) :
  Regex.cls_ok fl false [Regex.CDigit] c = is_digit c.
Proof.
unfold Regex.cls_ok. destruct (Regex.f_icase fl);
  destruct c as [[] [] [] [] [] [] [] []]; reflexivity.
Qed.

Lemma cls_sep_any (fl : Regex.flags) (c : ascii) :
  Regex.cls_ok fl false [Regex.CChar "."; Regex.CChar "/"] c = is_sep c.
Proof.
unfold Regex.cls_ok. destruct (Regex.f_icase fl);
  destruct c as [[] [] [] [] [] [] [] []]; reflexivity.
Qed.

(* one or two digits, a separator, one or two digits, a separator and
   four digits *)
Definition numeric_date (s : string) : Prop :=
  exists day a month b year,
    s = (day ++ String a month ++ String b year)%string /\
    is_sep a = true /\ is_sep b = true /\
    1 <= String.length day <= 2 /\ all_chars is_digit day = true /\
    1 <= String.length month <= 2 /\ all_chars is_digit month = true /\
    String.length year = 4 /\ all_chars is_digit year = true.

(* \d{1,2}[.\/]\d{1,2}[.\/]\d{4} *)
Definition date_body : Regex.re :=
  Regex.Seq (Regex.Rep 1 (Some 2) true (Regex.Cls false [Regex.CDigit]))
    (Regex.Seq (Regex.Cls false [Regex.CChar "."; Regex.CChar "/"])
       (Regex.Seq (Regex.Rep 1 (Some 2) true (Regex.Cls false [Regex.CDigit]))
          (Regex.Seq (Regex.Cls false [Regex.CChar "."; Regex.CChar "/"])
             (Regex.Rep 4 (Some 4) true (Regex.Cls false [Regex.CDigit]))))).

Lemma digits_any (fl : Regex.flags) (lo hi : nat) (w : string) :
  lang fl (Regex.Rep lo (Some hi) true (Regex.Cls false [Regex.CDigit])) w ->
  lo <= hi ->
  lo <= String.length w <= hi /\ all_chars is_digit w = true.
Proof.
intros H Hle. apply rep_class_lang in H as [H1 H2]; [|exact Hle].
split; [exact H1|]. eapply all_chars_impl; [|exact H2].
intros c. now rewrite cls_digit_any.
Qed.

Lemma date_body_shape (fl : Regex.flags) (w : string) :
  lang fl date_body w -> numeric_date w.
Proof.
intros (day & r1 & -> & H1 & (s1 & r2 & -> & (a & -> & Ha) &
         (month & r3 & -> & H3 & (s2 & year & -> & (b & -> & Hb) & H5)))).
apply digits_any in H1 as [L1 D1]; [|lia].
apply digits_any in H3 as [L3 D3]; [|lia].
apply digits_any in H5 as [L5 D5]; [|lia].
rewrite cls_sep_any in Ha, Hb.
exists day, a, month, b, year. rewrite !app_cons, !app_nil_l.
repeat split; try assumption; lia.
Qed.

(* null or a numeric date *)
Definition null_or_date (v : jsval) : Prop :=
  v = Null \/ exists s, v = Str s /\ numeric_date s.

Lemma cnic_dates_shape (nt : string) (n : nat) (x : string) :
  cnic_dates nt !! n = Some x -> numeric_date x.
Proof.
unfold cnic_dates. intros H. apply list_lookup_fmap_Some in H as (m & -> & H).
apply list_elem_of_lookup_2, list_elem_of_In in H.
apply (date_body_shape (Regex.rx_flags datePattern)).
exact (scan_whole datePattern _ _ _ _ m H).
Qed.

Lemma labelled_date_shape (pattern : Regex.regex) (nt : string) (m : Regex.result) :
  (1 <=? Regex.rx_groups pattern)%nat && defines 1 (Regex.rx_re pattern) = true ->
  groups_are 1 date_body (Regex.rx_re pattern) ->
  Regex.exec pattern nt = Some m ->
  exists g, grp m 1 = Str g /\ numeric_date g.
Proof.
intros H G E. apply andb_true_iff in H as [H1 H2]. apply Nat.leb_le in H1.
destruct (exec_group pattern nt m 1 E) as (g & Hg & L); [lia|exact H2|].
exists g. split; [exact Hg|]. eapply date_body_shape, L, G.
Qed.

Lemma labelled_or_nth_shape (pattern : Regex.regex) (k : string) (n : nat)
    (nt : string) (d : gmap string jsval) :
  (1 <=? Regex.rx_groups pattern)%nat && defines 1 (Regex.rx_re pattern) = true ->
  groups_are 1 date_body (Regex.rx_re pattern) ->
  null_or_date (get d k) ->
  null_or_date (get (labelled_or_nth pattern k n nt (cnic_dates nt) d) k).
Proof.
intros H G H0. rewrite get_labelled_or_nth, String.eqb_refl.
destruct (Regex.exec pattern nt) as [m|] eqn:E.
- destruct (labelled_date_shape pattern nt m H G E) as (g & -> & Hg). right. eauto.
- destruct (Nat.leb_spec (n + 1) (length (cnic_dates nt))) as [Hn|Hn]; [|exact H0].
  destruct (lookup_lt_is_Some_2 (cnic_dates nt) n) as [x Hx]; [lia|].
  unfold at_. rewrite Hx. right. exists x. split; [reflexivity|].
  now apply (cnic_dates_shape nt n).
Qed.

End DateShapeFacts.

Module MonthDateFacts.
Import JsStr DataExtractor StrFacts RegexFacts StepFacts ShapeFacts FieldFacts
  AnchorFacts WordFacts PassportFieldFacts DateFacts DateShapeFacts.

Definition month_words : list string :=
  [ "JAN"; "FEB"; "MAR"; "APR"; "MAY"; "JUN";
    "JUL"; "AUG"; "SEP"; "OCT"; "NOV"; "DEC" ].

(* DD MMM YYYY *)
Definition month_date_form (s : string) : Prop :=
  exists day month year,
    s = (day ++ " " ++ month ++ " " ++ year)%string /\
    digit_string 2 day /\ In month month_words /\ digit_string 4 year.

Lemma padStart_digits (day : string) :
  1 <= String.length day <= 2 -> all_chars is_digit day = true ->
  digit_string 2 (padStart 2 "0" day).
Proof.
intros L D. unfold padStart.
destruct day as [|a [|b [|? ?]]]; cbn in L; try lia; split; try reflexivity.
- cbn in D |- *. exact D.
- exact D.
Qed.

Lemma padStart_two (s : string) : String.length s = 2 -> padStart 2 "0" s = s.
Proof. intros L. unfold padStart. now rewrite L. Qed.

Lemma a_digit_whole (s : string) (m : Regex.result) :
  Regex.exec re_a_digit s = Some m ->
  String.length (Regex.whole m) = 1 /\ all_chars is_digit (Regex.whole m) = true.
Proof.
intros E. apply exec_whole in E as (pre & post & _ & (c & -> & Hc) & _).
rewrite cls_digit_any in Hc. cbn. now rewrite Hc.
Qed.

Lemma fix_day_digits (dflt day0 : string) :
  digit_string 2 dflt -> digit_string 2 (padStart 2 "0" (fix_day dflt day0)).
Proof.
intros [Ld Dd]. unfold fix_day. cbv zeta.
match goal with
| |- context [Regex.test re_day_digits ?day] => generalize day
end.
intros day. destruct (Regex.test re_day_digits day) eqn:T; cbn [negb].
- apply (test_anchored re_day_digits _ eq_refl eq_refl) in T.
  apply digits_any in T as [L D]; [|lia]. now apply padStart_digits.
- destruct (Regex.exec re_a_digit day) as [m|] eqn:E.
  + destruct (a_digit_whole _ _ E) as [L D].
    rewrite (padStart_two (padStart 2 "0" (Regex.whole m))).
    * apply padStart_digits; [lia|exact D].
    * apply padStart_digits; [lia|exact D].
  + rewrite padStart_two by exact Ld. now split.
Qed.

(* a pattern whose groups 2 and 3 are a month name and four digits *)
Definition month_body : Regex.re :=
  Eval vm_compute in
    match group_body 2 (Regex.rx_re re_dob_line) with
    | Some g => g
    | None => Regex.Empty
    end.

Definition year_body : Regex.re :=
  Regex.Rep 4 (Some 4) true (Regex.Cls false [Regex.CDigit]).

Definition month_pattern (rx : Regex.regex) : Prop :=
  Regex.f_icase (Regex.rx_flags rx) = true /\
  (3 <=? Regex.rx_groups rx)%nat
    && defines 1 (Regex.rx_re rx) && defines 2 (Regex.rx_re rx)
    && defines 3 (Regex.rx_re rx) = true /\
  groups_are 2 month_body (Regex.rx_re rx) /\
  groups_are 3 year_body (Regex.rx_re rx).

Lemma month_date_shape (rx : Regex.regex) (dflt line : string) (m : Regex.result) :
  month_pattern rx -> digit_string 2 dflt ->
  Regex.exec rx line = Some m ->
  exists date, month_date dflt m = Ok date /\ month_date_form date.
Proof.
intros (Hi & Hd & G2 & G3) Hdflt E.
pose proof Hd as Hd'.
apply andb_true_iff in Hd' as [Hd' D3]. apply andb_true_iff in Hd' as [Hd' D2].
apply andb_true_iff in Hd' as [Hn D1]. apply Nat.leb_le in Hn.
destruct (exec_group rx line m 1 E) as (g1 & Hg1 & _); [lia|exact D1|].
destruct (exec_group rx line m 2 E) as (g2 & Hg2 & L2); [lia|exact D2|].
destruct (exec_group rx line m 3 E) as (g3 & Hg3 & L3); [lia|exact D3|].
unfold month_date. rewrite Hg1, Hg2, Hg3. cbn [str_of bind].
eexists. split; [reflexivity|].
exists (padStart 2 "0" (fix_day dflt g1)), (toUpperCase g2), g3.
split; [reflexivity|]. split; [now apply fix_day_digits|]. split.
- apply (upper_words_lang (Regex.rx_flags rx) month_body); [exact Hi|reflexivity|].
  now apply L2.
- specialize (L3 _ G3). apply digits_any in L3 as [L D]; [|lia]. split; [lia|exact D].
Qed.

Lemma re_dob_line_month : month_pattern re_dob_line.
Proof.
split; [reflexivity|]. split; [reflexivity|].
cbn. repeat split; auto; discriminate.
Qed.

Lemma re_expiry_line_month : month_pattern re_expiry_line.
Proof.
split; [reflexivity|]. split; [reflexivity|].
cbn. repeat split; auto; discriminate.
Qed.

Lemma two_digits_10 : digit_string 2 "10".
Proof. now split. Qed.
Lemma two_digits_01 : digit_string 2 "01".
Proof. now split. Qed.

Lemma dob_lines_fallback_form (lines : list string) (d : gmap string jsval) :
  exists d', dob_lines_fallback lines d = Ok d' /\
             same_or month_date_form "dateOfBirth" d d'.
Proof.
unfold dob_lines_fallback.
destruct (negb _); [|exists d; split; [reflexivity|apply same_or_refl]].
apply (for_range_inv (same_or month_date_form "dateOfBirth" d)); [apply same_or_refl|].
intros i d1 Hi H1. unfold dob_lines_body.
destruct (at_in_range lines i) as [l ->]; [lia|]. cbn [str_of bind].
destruct (Regex.exec re_dob_line (trim l)) as [m|] eqn:E;
  [|eexists; split; [reflexivity|exact H1]].
destruct (month_date_shape _ "10" _ _ re_dob_line_month two_digits_10 E)
  as (date & -> & F).
cbn [bind].
destruct (_ || _); eexists; (split; [reflexivity|]); [|exact H1].
now apply same_or_set.
Qed.

Lemma expiry_lines_fallback_form (lines : list string) (d : gmap string jsval) :
  exists d', expiry_lines_fallback lines d = Ok d' /\
             same_or month_date_form "dateOfExpiry" d d'.
Proof.
unfold expiry_lines_fallback.
destruct (negb _); [|exists d; split; [reflexivity|apply same_or_refl]].
apply (for_range_inv (same_or month_date_form "dateOfExpiry" d)); [apply same_or_refl|].
intros i d1 Hi H1. unfold expiry_lines_body.
destruct (at_in_range lines i) as [l ->]; [lia|]. cbn [str_of bind].
destruct (Regex.exec re_expiry_line (trim l)) as [m|] eqn:E;
  [|eexists; split; [reflexivity|exact H1]].
destruct (negb _); [|eexists; split; [reflexivity|exact H1]].
destruct (month_date_shape _ "01" _ _ re_expiry_line_month two_digits_01 E)
  as (date & -> & F).
cbn [bind].
destruct (Regex.test _ _); eexists; (split; [reflexivity|]); [|exact H1].
now apply same_or_set.
Qed.

End MonthDateFacts.

Module ScanFacts.
Import JsStr DataExtractor PassportRoute StrFacts StepFacts RouteFacts.

(* a loop invariant that may speak of the iterations done so far *)
Lemma for_range_inv_ix {S : Type} (I : nat -> S -> Prop)
    (body : nat -> S -> res (ctl S)) :
  (forall k k' s, k <= k' -> I k s -> I k' s) ->
  forall count from s,
    I from s ->
    (forall i s1, from <= i < from + count -> I i s1 ->
       exists c, body i s1 = Ok c /\ I (Datatypes.S i) (ctl_state c)) ->
    exists s', for_range body from count s = Ok s' /\ I (from + count) s'.
Proof.
intros Hmono. induction count as [|count IH]; intros from s Hs Hbody.
- exists s. split; [reflexivity|]. now rewrite Nat.add_0_r.
- cbn [for_range]. destruct (Hbody from s) as (c & -> & Hc); [lia|exact Hs|].
  destruct c as [s1|s1]; cbn [ctl_state] in Hc.
  + destruct (IH (Datatypes.S from) s1 Hc) as (s' & E & Hs').
    { intros i s2 Hi. apply Hbody. lia. }
    exists s'. split; [exact E|]. now replace (from + Datatypes.S count)
      with (Datatypes.S from + count) by lia.
  + exists s1. split; [reflexivity|]. eapply Hmono; [|exact Hc]. lia.
Qed.

(* a line of the text made ready for the tests of the scan *)
Definition cleaned (line : string) : string :=
  clean_mrz_line (strip_artifacts line).

(* the first line as it is stored: with the filler after its first letter *)
Definition first_form (cleanedLine : string) : string :=
  if negb (starts_with_marker cleanedLine)
  then Regex.replace (RX "^([PIA])([A-Z])" "") "$1<$2" cleanedLine
  else cleanedLine.

Section Scan.
Variable allLines : list string.

(* the line the iteration [k] looks at *)
Definition visited (k : nat) : option string :=
  allLines !! (length allLines - 1 - k).

(* what the array holds after the first [k] iterations *)
Definition scanned (k : nat) (mrzLines : list string) : Prop :=
  mrzLines = [] \/
  (exists k1 a, k1 < k /\ visited k1 = Some a /\
     isLine1 (cleaned a) = true /\ mrzLines = [first_form (cleaned a)]) \/
  (exists k1 k2 a b, k1 < k2 /\ k2 < k /\
     visited k1 = Some a /\ visited k2 = Some b /\
     isLine1 (cleaned a) = true /\
     mrzLines = [first_form (cleaned a); cleaned b]).

Lemma scanned_mono (k k' : nat) (mrzLines : list string) :
  k <= k' -> scanned k mrzLines -> scanned k' mrzLines.
Proof.
intros Hk [H|[(k1 & a & H1 & H)|(k1 & k2 & a & b & H1 & H2 & H)]].
- now left.
- right; left. exists k1, a. split; [lia|exact H].
- right; right. exists k1, k2, a, b. split; [lia|]. split; [lia|exact H].
Qed.

Lemma accept_line_scanned (k : nat) (l : string) (mrzLines : list string) :
  visited k = Some l ->
  scanned k mrzLines ->
  scanned (S k) (accept_line (cleaned l) mrzLines).
Proof.
intros Hv H. unfold accept_line.
destruct (20 <=? String.length (cleaned l))%nat;
  [|eapply scanned_mono; [|exact H]; lia].
destruct H as [->|[(k1 & a & H1 & Ha & L1 & ->)|(k1 & k2 & a & b & H1 & H2 & Ha & Hb & L1 & ->)]];
  cbn [length Nat.eqb app].
- destruct (isLine1 (cleaned l)) eqn:L; [|now left].
  right; left. exists k, l. split; [lia|]. split; [exact Hv|]. split; [exact L|].
  reflexivity.
- assert (Hadd : scanned (S k) [first_form (cleaned a); cleaned l]).
  { right; right. exists k1, k, a, l. repeat split; auto. }
  assert (Hkeep : scanned (S k) [first_form (cleaned a)]).
  { right; left. exists k1, a. split; [lia|]. auto. }
  destruct (isLine2 (cleaned l)); [exact Hadd|].
  destruct (isLine2_fallback (cleaned l)); [exact Hadd|exact Hkeep].
- right; right. exists k1, k2, a, b. split; [lia|]. split; [lia|]. auto.
Qed.

End Scan.

Lemma find_mrz_lines_scanned (extractedText : string) :
  let allLines := map trim (split_char (ascii_of_nat 10) extractedText) in
  exists mrzLines,
    find_mrz_lines extractedText = Ok mrzLines /\
    scanned allLines (Nat.min (length allLines) 15) mrzLines.
Proof.
cbv zeta. unfold find_mrz_lines. cbv zeta.
set (allLines := map trim _).
destruct (for_range_inv_ix (scanned allLines) (scan_body allLines)
            (scanned_mono allLines)
            (Nat.min (length allLines) 15) 0 []) as (l & E & Hl).
- now left.
- intros k mrzLines Hk H. unfold scan_body. cbv zeta.
  assert (Hlt : length allLines - 1 - k < length allLines) by lia.
  destruct (lookup_lt_is_Some_2 allLines _ Hlt) as [a Ha].
  unfold at_. rewrite Ha. cbn [str_of bind].
  destruct (_ || _);
    [|eexists; split; [reflexivity|]; eapply scanned_mono; [|exact H]; lia].
  pose proof (accept_line_scanned allLines k a mrzLines Ha H) as H'.
  unfold cleaned in H'.
  destruct (2 <=? _)%nat; eexists; (split; [reflexivity|exact H']).
- exists l. split; [exact E|exact Hl].
Qed.

End ScanFacts.

Module SameLineFacts.
Import JsStr DataExtractor StrFacts RegexFacts StepFacts FieldFacts WordFacts
  GenderFacts PassportFieldFacts KeptFacts.

(* the value a label line carries after its label, if it is accepted *)
Definition same_line_value (rule : label_rule) (line : string) : option string :=
  match Regex.exec (lr_same rule) line with
  | Some sameLineMatch =>
      match grp sameLineMatch 1 with
      | Str g =>
          if nonempty g && lr_same_ok rule (lr_clean rule (trim g))
          then Some (lr_store rule (lr_clean rule (trim g)))
          else None
      | _ => None
      end
  | None => None
  end.

Lemma label_same_line_value (rule : label_rule) (line s : string)
    (d : gmap string jsval) :
  same_line_value rule line = Some s ->
  label_same_line rule line d = Ok (Break (set (lr_key rule) (Str s) d)).
Proof.
unfold same_line_value, label_same_line.
destruct (Regex.exec (lr_same rule) line) as [m|]; [|discriminate].
destruct (grp m 1) as [| |g]; try discriminate. cbn [truthy].
destruct (nonempty g); cbn [andb]; [|discriminate]. cbn [str_of bind].
destruct (lr_same_ok rule _); [|discriminate]. now intros [= <-].
Qed.

(** the first line with the label decides, when its value is accepted *)
Lemma label_loop_first (rule : label_rule) (pre post : list string)
    (l s : string) (d : gmap string jsval) :
  no_label rule pre = true ->
  lr_is_label rule (toUpperCase (trim l)) = true ->
  same_line_value rule (trim l) = Some s ->
  label_loop rule (pre ++ l :: post) d = Ok (set (lr_key rule) (Str s) d).
Proof.
intros Hpre Hl Hs. unfold label_loop.
rewrite List.length_app. cbn [length].
rewrite (for_range_skip _ d (length pre) (S (length post)) 0).
- cbn [Nat.add for_range]. unfold label_body at 1. unfold at_.
  rewrite lookup_app_r by lia. rewrite Nat.sub_diag. cbn [lookup list_lookup].
  cbn [str_of bind]. rewrite Hl. rewrite (label_same_line_value _ _ _ _ Hs).
  reflexivity.
- intros i Hi. unfold label_body. unfold at_.
  rewrite lookup_app_l by lia.
  destruct (lookup_lt_is_Some_2 pre i) as [a Ha]; [lia|]. rewrite Ha.
  cbn [str_of bind].
  unfold no_label in Hpre. rewrite forallb_forall in Hpre.
  specialize (Hpre a). rewrite negb_true_iff in Hpre.
  rewrite Hpre; [reflexivity|]. apply list_elem_of_In. eapply list_elem_of_lookup_2, Ha.
Qed.

(* the label rules of the fields that the MRZ also gives *)
Definition mrz_label_rules : list label_rule :=
  [ rule_passportNumber; rule_surname; rule_givenNames; rule_nationality;
    rule_dateOfBirth; rule_dateOfExpiry; rule_citizenshipNumber ].

Lemma has_digit_nonempty (v : string) : has_digit v = true -> nonempty v = true.
Proof. destruct v; [discriminate|reflexivity]. Qed.

Lemma nonempty_upper (v : string) : nonempty v = true -> nonempty (toUpperCase v) = true.
Proof. destruct v; [discriminate|reflexivity]. Qed.

Lemma len_at_least_nonempty (n : nat) (v : string) :
  len_at_least (S n) v = true -> nonempty v = true.
Proof. destruct v; [discriminate|reflexivity]. Qed.

Lemma same_line_value_nonempty (rule : label_rule) (line s : string) :
  In rule mrz_label_rules ->
  same_line_value rule line = Some s -> nonempty s = true.
Proof.
intros Hr. unfold same_line_value.
destruct (Regex.exec (lr_same rule) line) as [m|]; [|discriminate].
destruct (grp m 1) as [| |g]; try discriminate.
destruct (nonempty g); cbn [andb]; [|discriminate].
destruct (lr_same_ok rule _) eqn:Hok; [|discriminate]. intros [= <-].
cbv [mrz_label_rules In] in Hr.
destruct Hr as [<-|[<-|[<-|[<-|[<-|[<-|[<-|[]]]]]]]]; cbn in Hok |- *.
- apply nonempty_upper. unfold len_between in Hok.
  apply andb_true_iff in Hok as [Hok _]. now apply (len_at_least_nonempty 5).
- apply andb_true_iff in Hok as [Hok _].
  apply nonempty_upper. now apply (len_at_least_nonempty 1).
- apply andb_true_iff in Hok as [Hok _].
  apply nonempty_upper. now apply (len_at_least_nonempty 1).
- apply nonempty_upper. now apply (len_at_least_nonempty 2).
- now apply nonempty_upper, has_digit_nonempty.
- now apply nonempty_upper, has_digit_nonempty.
- now apply has_digit_nonempty.
Qed.

(* the label loop of the field finds the value [s] on its first label line *)
Ltac first_label_step Hloop :=
  lazymatch goal with
  | |- context [bind (label_loop ?r ?l ?d) _] =>
      rewrite (Hloop d); cbn [bind]
  end.

Ltac kept_or_run k G lem :=
  first [ kept_step k G
        | date_step lem k G
        | run_step ].

Section SameLine.
Variable text : string.
Variable mrzData : option MrzData.
Variable s : string.
Hypothesis Hs : nonempty s = true.

Ltac same_line_chain k Hloop lem :=
  unfold extractPassportData; cbv zeta;
  repeat
    lazymatch goal with
    | |- context [bind (label_loop ?r ?l ?d) _] =>
        first [ rewrite (Hloop d); cbn [bind]
              | step_by (label_loop_ok r l d) ]
    | |- context [bind (passport_number_fallback ?l ?n ?d) _] =>
        first [ rewrite (passport_number_fallback_kept l n d)
                  by (back k; rewrite get_set; exact Hs); cbn [bind]
              | run_step ]
    | |- context [bind (dob_lines_fallback ?l ?d) _] =>
        first [ rewrite (dob_lines_fallback_kept l d)
                  by (back k; rewrite get_set; exact Hs); cbn [bind]
              | run_step ]
    | |- context [bind (expiry_lines_fallback ?l ?d) _] =>
        first [ rewrite (expiry_lines_fallback_kept l d)
                  by (back k; rewrite get_set; exact Hs); cbn [bind]
              | run_step ]
    | |- context [bind (nationality_fallback ?l ?d) _] =>
        first [ rewrite (nationality_fallback_kept l d)
                  by (back k; rewrite get_set; exact Hs); cbn [bind]
              | run_step ]
    | |- context [bind (given_names_fallback ?l ?d) _] =>
        first [ rewrite (given_names_fallback_kept l d)
                  by (back k; rewrite get_set; exact Hs); cbn [bind]
              | run_step ]
    | |- context [bind (citizenship_fallback ?l ?d) _] =>
        first [ rewrite (citizenship_fallback_kept l d)
                  by (back k; rewrite get_set; exact Hs); cbn [bind]
              | run_step ]
    | |- context [bind (passport_date_fallback ?n ?d) _] =>
        first [ let d' := fresh "d" in
                let E := fresh "E" in
                let W := fresh "W" in
                destruct (lem n d) as (d' & E & W);
                [back k; rewrite get_set; exact Hs|];
                rewrite E; cbn [bind]
              | run_step ]
    | _ => run_step
    end;
  last_step; back k; now rewrite get_set.

Lemma same_line_passportNumber :
  (forall d, label_loop rule_passportNumber (lines_of text) d
             = Ok (set "passportNumber" (Str s) d)) ->
  exists d, extractPassportData text mrzData = Ok d /\
            get d "passportNumber" = Str s.
Proof.
intros Hloop.
same_line_chain "passportNumber" Hloop passport_date_fallback_birth_kept.
Qed.

Lemma same_line_surname :
  (forall d, label_loop rule_surname (lines_of text) d
             = Ok (set "surname" (Str s) d)) ->
  exists d, extractPassportData text mrzData = Ok d /\
            get d "surname" = Str s.
Proof.
intros Hloop.
same_line_chain "surname" Hloop passport_date_fallback_birth_kept.
Qed.

Lemma same_line_givenNames :
  (forall d, label_loop rule_givenNames (lines_of text) d
             = Ok (set "givenNames" (Str s) d)) ->
  exists d, extractPassportData text mrzData = Ok d /\
            get d "givenNames" = Str s.
Proof.
intros Hloop.
same_line_chain "givenNames" Hloop passport_date_fallback_birth_kept.
Qed.

Lemma same_line_nationality :
  (forall d, label_loop rule_nationality (lines_of text) d
             = Ok (set "nationality" (Str s) d)) ->
  exists d, extractPassportData text mrzData = Ok d /\
            get d "nationality" = Str s.
Proof.
intros Hloop.
same_line_chain "nationality" Hloop passport_date_fallback_birth_kept.
Qed.

Lemma same_line_dateOfBirth :
  (forall d, label_loop rule_dateOfBirth (lines_of text) d
             = Ok (set "dateOfBirth" (Str s) d)) ->
  exists d, extractPassportData text mrzData = Ok d /\
            get d "dateOfBirth" = Str s.
Proof.
intros Hloop.
same_line_chain "dateOfBirth" Hloop passport_date_fallback_birth_kept.
Qed.

Lemma same_line_dateOfExpiry :
  (forall d, label_loop rule_dateOfExpiry (lines_of text) d
             = Ok (set "dateOfExpiry" (Str s) d)) ->
  exists d, extractPassportData text mrzData = Ok d /\
            get d "dateOfExpiry" = Str s.
Proof.
intros Hloop.
same_line_chain "dateOfExpiry" Hloop passport_date_fallback_expiry_kept.
Qed.

Lemma same_line_citizenshipNumber :
  (forall d, label_loop rule_citizenshipNumber (lines_of text) d
             = Ok (set "citizenshipNumber" (Str s) d)) ->
  exists d, extractPassportData text mrzData = Ok d /\
            get d "citizenshipNumber" = Str s.
Proof.
intros Hloop.
same_line_chain "citizenshipNumber" Hloop passport_date_fallback_birth_kept.
Qed.

End SameLine.
End SameLineFacts.

Module PassportUpperFacts.
Import JsStr DataExtractor StrFacts RegexFacts StepFacts FieldFacts WordFacts
  GenderFacts PassportFieldFacts UpperFacts.

Lemma upper_rule_sets (rule : label_rule) (lines : list string)
    (d : gmap string jsval) :
  lr_store rule = toUpperCase ->
  exists d', label_loop rule lines d = Ok d' /\
             writes [lr_key rule] d d' /\
             same_or upper_case (lr_key rule) d d'.
Proof.
intros Hs. apply (label_loop_sets rule upper_case);
  intros v _; rewrite Hs; apply upper_case_upper.
Qed.

Lemma passport_number_fallback_upper (lines : list string) (nt : string)
    (d : gmap string jsval) :
  exists d', passport_number_fallback lines nt d = Ok d' /\
             writes ["passportNumber"] d d' /\
             same_or upper_case "passportNumber" d d'.
Proof.
destruct (passport_number_fallback_sets lines nt d) as (d' & E & W & S & _).
exists d'. split; [exact E|]. split; [exact W|].
destruct S as [S|(s & S & _ & U)]; [now left|right; eauto].
Qed.

Ltac guarded_loop k d :=
  match goal with
  | |- context [if ?b then _ else _] =>
      destruct b; [|exists d; split; [reflexivity|apply same_or_refl]]
  end;
  apply (for_range_inv (same_or upper_case k d)); [apply same_or_refl|];
  intros i d1 Hi H1.

Ltac line_at lines :=
  match goal with
  | i : nat |- context [at_ lines ?i] =>
      let l := fresh "l" in
      destruct (at_in_range lines i) as [l ->]; [lia|]; cbn [str_of bind]
  end.

Lemma nationality_fallback_upper (lines : list string) (d : gmap string jsval) :
  exists d', nationality_fallback lines d = Ok d' /\
             same_or upper_case "nationality" d d'.
Proof.
unfold nationality_fallback. guarded_loop "nationality" d.
unfold nationality_fallback_body. line_at lines.
match goal with |- context [if ?b then _ else _] => destruct b; upper_end end.
Qed.

Lemma given_names_fallback_upper (lines : list string) (d : gmap string jsval) :
  exists d', given_names_fallback lines d = Ok d' /\
             same_or upper_case "givenNames" d d'.
Proof.
unfold given_names_fallback. guarded_loop "givenNames" d.
unfold given_names_fallback_body. line_at lines.
match goal with |- context [if ?b then _ else _] => destruct b; [|upper_end] end.
destruct (Regex.exec _ _) as [m|]; [|upper_end].
destruct (truthy (grp m 1)) eqn:T; [|upper_end].
apply truthy_str in T as [g ->]. cbn [str_of bind].
match goal with |- context [if ?b then _ else _] => destruct b; upper_end end.
Qed.

Lemma place_fallback_upper (lines : list string) (d : gmap string jsval) :
  exists d', place_fallback lines d = Ok d' /\
             same_or upper_case "placeOfBirth" d d'.
Proof.
unfold place_fallback. guarded_loop "placeOfBirth" d.
unfold place_fallback_body. line_at lines.
destruct (Regex.exec re_place_pak _) as [m|] eqn:E; [|upper_end].
use_group E 1. cbn [str_of bind].
match goal with |- context [if ?b then _ else _] => destruct b; [|upper_end] end.
eexists. split; [reflexivity|]. cbn [ctl_state]. apply same_or_set.
apply upper_case_app; [apply upper_case_upper|reflexivity].
Qed.

Lemma father_fallback_upper (lines : list string) (d : gmap string jsval) :
  exists d', father_fallback lines d = Ok d' /\
             same_or upper_case "fatherName" d d'.
Proof.
unfold father_fallback. guarded_loop "fatherName" d.
unfold father_fallback_body. line_at lines.
match goal with |- context [if ?b then _ else _] => destruct b; [|upper_end] end.
match goal with |- context [if ?b then _ else _] => destruct b; upper_end end.
Qed.

Lemma authority_fallback_upper (lines : list string) (d : gmap string jsval) :
  exists d', authority_fallback lines d = Ok d' /\
             same_or upper_case "issuingAuthority" d d'.
Proof.
unfold authority_fallback. guarded_loop "issuingAuthority" d.
unfold authority_fallback_body. line_at lines.
match goal with |- context [if ?b then _ else _] => destruct b; upper_end end.
Qed.

End PassportUpperFacts.

Module LegacyFacts.
Import JsStr DataExtractor StrFacts RegexFacts StepFacts CleanFacts FieldFacts.

Lemma legacy_passport_number_ok (nt : string) (d : gmap string jsval) :
  exists d', LegacyExtractor.passport_number nt d = Ok d' /\
             writes ["passportNumber"] d d'.
Proof.
unfold LegacyExtractor.passport_number.
destruct (Regex.exec LegacyExtractor.passportPattern nt) as [m|] eqn:E; [|ends].
use_group E 1. cbn [str_of bind]. ends.
Qed.

Lemma trimmed_group_ok (rx : Regex.regex) (k nt : string) (d : gmap string jsval) :
  (1 <=? 1)%nat && (1 <=? Regex.rx_groups rx)%nat
    && defines 1 (Regex.rx_re rx) = true ->
  exists d', LegacyExtractor.trimmed_group rx k nt d = Ok d' /\ writes [k] d d'.
Proof.
intros H. unfold LegacyExtractor.trimmed_group.
destruct (Regex.exec rx nt) as [m|] eqn:E; [|ends].
destruct (grp_defined _ _ _ 1 E H) as [g ->]. cbn [str_of bind]. ends.
Qed.

Lemma first_pattern_ok (k nt : string) (patterns : list LegacyExtractor.pattern)
    (d : gmap string jsval) :
  exists d', for_of (LegacyExtractor.first_pattern_body k nt) patterns d = Ok d' /\
             writes [k] d d'.
Proof.
apply for_of_inv; [apply writes_refl|].
intros p d1 _ H1. unfold LegacyExtractor.first_pattern_body.
destruct (LegacyExtractor.pmatch p nt) as [m|];
  [|eexists; split; [reflexivity|exact H1]].
destruct (truthy (grp m 1)) eqn:T; [|eexists; split; [reflexivity|exact H1]].
apply truthy_str in T as [g ->]. cbn [str_of bind].
eexists. split; [reflexivity|]. cbn [ctl_state].
eapply writes_trans; [exact H1|apply writes_set].
Qed.

Definition legacy_written : list string :=
  [ "passportNumber"; "surname"; "givenNames"; "nationality"; "dateOfBirth";
    "placeOfBirth"; "gender"; "dateOfIssue"; "dateOfExpiry"; "issuingAuthority" ].

Definition legacy_fields : list string := legacy_written ++ ["rawText"].

Lemma legacy_initial_record (text : string) :
  record_of legacy_fields (LegacyExtractor.passport_initial text).
Proof.
intros k. split.
- intros H. unfold LegacyExtractor.passport_initial. present_key H.
- intros H. unfold LegacyExtractor.passport_initial. absent_key H.
Qed.

(* the steps of the earlier extractPassportData, one after the other *)
Ltac legacy_step :=
  lazymatch goal with
  | |- context [bind (LegacyExtractor.passport_number ?n ?d) _] =>
      step_by (legacy_passport_number_ok n d)
  | |- context [bind (gender_field ?n ?d) _] => step_by (gender_field_ok n d)
  | |- context [bind (LegacyExtractor.trimmed_group ?rx ?k ?n ?d) _] =>
      step_by (trimmed_group_ok rx k n d eq_refl)
  | |- context [bind (for_of (LegacyExtractor.first_pattern_body ?k ?n) ?ps ?d) _] =>
      step_by (first_pattern_ok k n ps d)
  end.

Lemma legacy_extract_steps (text : string) :
  exists d0 d1 d,
    LegacyExtractor.passport_number (trim (collapse text))
      (LegacyExtractor.passport_initial text) = Ok d0 /\
    writes ["passportNumber"] (LegacyExtractor.passport_initial text) d0 /\
    d1 = cnic_date_fields (trim (collapse text)) d0 /\
    LegacyExtractor.extractPassportData text = Ok d /\
    writes ["gender"; "nationality"; "surname"; "givenNames"; "placeOfBirth";
            "issuingAuthority"] d1 d.
Proof.
unfold LegacyExtractor.extractPassportData. cbv zeta.
destruct (legacy_passport_number_ok (trim (collapse text))
            (LegacyExtractor.passport_initial text)) as (d0 & E0 & W0).
rewrite E0. cbn [bind].
exists d0, (cnic_date_fields (trim (collapse text)) d0).
remember (cnic_date_fields (trim (collapse text)) d0) as d1 eqn:Hd1.
repeat legacy_step.
match goal with
| |- context [LegacyExtractor.trimmed_group ?rx ?k ?n ?dp] =>
    destruct (trimmed_group_ok rx k n dp eq_refl) as (dl & El & Wl)
end.
exists dl. split; [reflexivity|]. split; [exact W0|]. split; [reflexivity|].
split; [exact El|].
chain ["gender"; "nationality"; "surname"; "givenNames"; "placeOfBirth";
       "issuingAuthority"].
Qed.

Lemma legacy_extract_record (text : string) :
  exists d, LegacyExtractor.extractPassportData text = Ok d /\
            record_of legacy_fields d.
Proof.
destruct (legacy_extract_steps text) as (d0 & d1 & d & E0 & W0 & -> & E & W).
exists d. split; [exact E|].
eapply (record_of_writes legacy_fields legacy_written).
- intros k H. apply in_or_app. now left.
- apply legacy_initial_record.
- apply (writes_trans _ _ d0); [eapply writes_mono; [|exact W0]; incl_keys|].
  apply (writes_trans _ _ (cnic_date_fields (trim (collapse text)) d0)).
  + eapply writes_mono; [|apply cnic_date_fields_writes]. incl_keys.
  + eapply writes_mono; [|exact W]. incl_keys.
Qed.

Lemma legacy_cleanData_lookup (d : gmap string jsval) (k : string) :
  LegacyExtractor.cleanData d !! k =
  if member k LegacyExtractor.requiredFields
  then match d !! k with Some v => Some v | None => Some Null end
  else if null_or_empty (get d k) then None else d !! k.
Proof.
unfold LegacyExtractor.cleanData.
rewrite ensure_required_lookup, drop_empty_lookup.
destruct (member k LegacyExtractor.requiredFields) eqn:M; cbn [negb andb].
- rewrite andb_false_r. now destruct (d !! k).
- rewrite andb_true_r. destruct (null_or_empty (get d k)); [reflexivity|].
  now destruct (d !! k).
Qed.

End LegacyFacts.

Module SchemaFacts.
Import JsStr DataExtractor StrFacts StepFacts CleanFacts.

(* the keys of a response: the required ones are there, with a string or
   null; any other key is a field of the document and has a string that
   is not empty *)
Definition response_schema (fields required : list string)
    (data : gmap string jsval) : Prop :=
  (forall k, In k required ->
     exists v, data !! k = Some v /\ null_or_string v) /\
  (forall k v, data !! k = Some v ->
     In k fields /\
     ((In k required /\ null_or_string v) \/
      exists s, v = Str s /\ nonempty s = true)).

Lemma cleanData_schema (fields required : list string) (d : gmap string jsval) :
  record_of fields d ->
  required_for d = required ->
  incl required fields ->
  response_schema fields required (cleanData d).
Proof.
intros R Hreq Hincl. split.
- intros k Hk. rewrite cleanData_lookup, Hreq.
  apply member_In in Hk as Hm. rewrite Hm.
  destruct (proj1 (R k) (Hincl k Hk)) as (v & -> & Hv). eauto.
- intros k v. rewrite cleanData_lookup, Hreq.
  destruct (in_dec string_dec k fields) as [Hf|Hf].
  + destruct (proj1 (R k) Hf) as (w & Hw & Hnull).
    unfold get. rewrite Hw. change (default Undefined (Some w)) with w.
    destruct (member k required) eqn:M.
    * intros [= <-]. split; [exact Hf|]. left. split; [|exact Hnull].
      now apply member_In.
    * destruct (null_or_empty w) eqn:N; [discriminate|]. intros [= <-].
      split; [exact Hf|]. right.
      destruct Hnull as [->|[s ->]]; [discriminate|]. exists s. split; [reflexivity|].
      cbn in N. now apply negb_false_iff in N.
  + rewrite (proj2 (R k) Hf). unfold get. rewrite (proj2 (R k) Hf).
    destruct (member k required) eqn:M.
    * apply member_In in M. elim Hf. now apply Hincl.
    * cbn. discriminate.
Qed.

Lemma length_number_lines (ls : list string) :
  forall idx, length (CnicRoute.number_lines idx ls) = length ls.
Proof. induction ls as [|l ls IH]; intros idx; cbn; [reflexivity|now rewrite IH]. Qed.

End SchemaFacts.

Module TrackingFacts.
Import JsStr DataExtractor StrFacts RegexFacts StepFacts ShapeFacts FieldFacts.
Import CharFacts PassportFieldFacts.

(* a match at a later position is found by the search, unless an earlier
   one is *)
Lemma search_found (rx : Regex.regex) (pre rest : string) :
  (forall prev pos, Regex.exec_at rx rest prev pos <> None) ->
  forall prev pos, Regex.search rx (pre ++ rest) prev pos <> None.
Proof.
intros H. induction pre as [|c pre IH]; intros prev pos.
- rewrite app_nil_l. destruct rest; cbn [Regex.search];
    destruct (Regex.exec_at rx _ prev pos) eqn:E; try discriminate;
    now elim (H prev pos).
- rewrite app_cons. cbn [Regex.search].
  destruct (Regex.exec_at rx _ prev pos); [discriminate|]. apply IH.
Qed.

Lemma take_drop (n : nat) (s : string) : (take n s ++ drop n s)%string = s.
Proof.
revert s. induction n as [|n IH]; intros [|c s]; try reflexivity.
simpl take. simpl drop. now rewrite app_cons, IH.
Qed.

(* /\d{4}$/ has a match in every string of four digits or more *)
Lemma year_end_digits (num : string) :
  all_chars is_digit num = true ->
  4 <= String.length num ->
  Regex.test re_year_end num = true.
Proof.
intros D L.
set (n := String.length num - 4).
assert (Ld : String.length (drop n num) = 4) by (rewrite length_drop; lia).
pose proof (all_chars_drop is_digit n num D) as Dd.
rewrite <- (take_drop n num).
destruct (drop n num) as [|c1 [|c2 [|c3 [|c4 [|c5 r]]]]]; try discriminate.
cbn [all_chars] in Dd.
apply andb_true_iff in Dd as [D1 Dd]. apply andb_true_iff in Dd as [D2 Dd].
apply andb_true_iff in Dd as [D3 Dd]. apply andb_true_iff in Dd as [D4 _].
unfold Regex.test, Regex.exec.
match goal with
| |- match ?e with _ => _ end = true =>
    destruct e eqn:E; [reflexivity|exfalso; revert E]
end.
apply search_found. intros prev pos.
unfold Regex.exec_at.
change (Regex.rx_flags re_year_end) with no_flags.
change (Regex.rx_re re_year_end)
  with (Regex.Seq (Regex.Rep 4 (Some 4) true (Regex.Cls false [Regex.CDigit])) Regex.Eol).
cbn [Regex.rmatch Regex.rep_iter Regex.eat Regex.ms_rest Regex.step_char
     Nat.eqb Nat.ltb Nat.leb Nat.pred andb flat_map app Regex.ms_pos].
rewrite !cls_digit, D1. cbn [flat_map app Regex.eat Regex.ms_rest Regex.step_char].
rewrite !cls_digit, D2. cbn [flat_map app Regex.eat Regex.ms_rest Regex.step_char].
rewrite !cls_digit, D3. cbn [flat_map app Regex.eat Regex.ms_rest Regex.step_char].
rewrite !cls_digit, D4.
cbn. discriminate.
Qed.

(* /\d{5}-\d{7}-\d{1}/ has no match in a string of digits *)
Lemma dashed_not_in_digits (num : string) :
  all_chars is_digit num = true ->
  Regex.test re_cnic_dashed num = false.
Proof.
intros D. unfold Regex.test.
destruct (Regex.exec re_cnic_dashed num) as [m|] eqn:E; [exfalso|reflexivity].
apply exec_whole in E as (pre & post & Hs & L & _).
change (Regex.rx_flags re_cnic_dashed) with no_flags in L.
change (Regex.rx_re re_cnic_dashed) with cnic_dashed_body in L.
destruct L as (w1 & r1 & Hw & H1 & (w2 & r2 & -> & H2 & _)).
apply chr_lang in H2 as ->.
rewrite Hs, Hw in D.
rewrite !all_chars_app in D.
change (all_chars is_digit (String "-" EmptyString)) with false in D.
rewrite andb_false_l, !andb_false_r in D. discriminate.
Qed.

(* ten to twelve digits *)
Lemma tracking_word_group (line : string) (m : Regex.result) :
  Regex.exec re_tracking_word line = Some m ->
  exists g, grp m 1 = Str g /\
            10 <= String.length g <= 12 /\ all_chars is_digit g = true.
Proof.
intros E. destruct (exec_group re_tracking_word line m 1 E) as (g & Hg & L);
  [cbn; lia|reflexivity|].
exists g. split; [exact Hg|].
assert (H : lang no_flags
              (Regex.Rep 10 (Some 12) true (Regex.Cls false [Regex.CDigit])) g).
{ apply L. cbn. repeat split; auto. }
apply rep_class_lang in H as [H1 H2]; [|lia]. split; [lia|].
eapply all_chars_impl; [|exact H2]. intros c. now rewrite cls_digit.
Qed.

(* exactly eleven digits *)
Definition eleven_digits (s : string) : Prop :=
  String.length s = 11 /\ all_chars is_digit s = true.

Lemma tracking_fallback_sets (lines : list string) (d : gmap string jsval) :
  exists d', tracking_fallback lines d = Ok d' /\
             writes ["trackingNumber"] d d' /\
             same_or eleven_digits "trackingNumber" d d'.
Proof.
destruct (tracking_fallback_ok lines d) as (d' & E & W).
exists d'. split; [exact E|]. split; [exact W|].
revert E. unfold tracking_fallback.
destruct (negb _); [|intros [= <-]; apply same_or_refl].
intros E.
destruct (for_range_inv (same_or eleven_digits "trackingNumber" d)
            (tracking_fallback_body lines) (length lines) 0 d (same_or_refl _ _ _))
  as (d2 & E2 & S2).
- intros i d1 Hi H1. unfold tracking_fallback_body.
  destruct (at_in_range lines i) as [l ->]; [lia|]. cbn [str_of bind].
  destruct (Regex.exec re_tracking_word (trim l)) as [m|] eqn:Em;
    [|eexists; split; [reflexivity|exact H1]].
  destruct (tracking_word_group _ m Em) as (g & -> & Lg & Dg). cbn [str_of bind].
  rewrite (year_end_digits g Dg) by lia.
  rewrite (dashed_not_in_digits g Dg). cbn [negb orb andb].
  rewrite andb_true_r.
  destruct (String.length g =? 11)%nat eqn:L11.
  + apply Nat.eqb_eq in L11.
    eexists. split; [reflexivity|]. cbn [ctl_state]. apply same_or_set. now split.
  + eexists. split; [reflexivity|exact H1].
- rewrite E in E2. now injection E2 as <-.
Qed.

Lemma rule_trackingNumber_sets (lines : list string) (d : gmap string jsval) :
  exists d', label_loop rule_trackingNumber lines d = Ok d' /\
             writes ["trackingNumber"] d d' /\
             same_or (fun s => 5 <= String.length s) "trackingNumber" d d'.
Proof.
apply (label_loop_sets rule_trackingNumber (fun s => 5 <= String.length s)).
- intros v H. change (len_at_least 5 v = true) in H.
  change (5 <= String.length v).
  unfold len_at_least in H. now apply Nat.leb_le in H.
- intros v H.
  change (len_at_least 5 v && Regex.test re_all_digits v = true) in H.
  change (5 <= String.length v).
  apply andb_true_iff in H as [H _].
  unfold len_at_least in H. now apply Nat.leb_le in H.
Qed.

End TrackingFacts.

(** * Further properties of the code *)

Import CleanMoreFacts.

(** X1: cleanData is idempotent, for every object: cleaning a cleaned
    record changes nothing, and the cleaned record is taken for the same
    kind of document (passport or identity card) as the record. *)
Theorem cleanData_idempotent (data : gmap string jsval) :
  cleanData (cleanData data) = cleanData data /\
  required_for (cleanData data) = required_for data.
Proof.
split; [|apply required_for_cleanData].
apply map_eq. intros k. rewrite cleanData_lookup, required_for_cleanData.
rewrite (cleanData_lookup data k).
destruct (member k (required_for data)) eqn:M.
- destruct (data !! k); reflexivity.
- unfold get. rewrite (cleanData_lookup data k), M.
  destruct (data !! k) as [v|] eqn:E; unfold get; rewrite ?E; cbn.
  + destruct (null_or_empty v) eqn:N; cbn; [reflexivity|]. now rewrite N.
  + reflexivity.
Qed.

(** X2: cleanData neither loses nor alters a value, for every object: a
    key whose value is not null and not the empty string keeps its value,
    and a key of the cleaned record has the value it had, or is a required
    key that was missing and is now null. *)
Theorem cleanData_keeps_values (data : gmap string jsval) (k : string) :
  (forall v, data !! k = Some v -> null_or_empty v = false ->
     cleanData data !! k = Some v) /\
  (forall v, cleanData data !! k = Some v ->
     data !! k = Some v \/
     (data !! k = None /\ v = Null /\ In k (required_for data))).
Proof.
rewrite cleanData_lookup. split.
- intros v E N. rewrite E. unfold get. rewrite E.
  change (default Undefined (Some v)) with v. rewrite N.
  now destruct (member k (required_for data)).
- intros v. destruct (member k (required_for data)) eqn:M.
  + apply member_In in M. destruct (data !! k) as [w|]; intros [= <-]; auto.
  + destruct (null_or_empty (get data k)); [discriminate|auto].
Qed.

Lemma cleanData_keeps_values_witness :
  cleanData (set "name" (Str "ALI") (set "address" (Str "") ∅)) !! "name"
    = Some (Str "ALI").
Proof.
apply (cleanData_keeps_values (set "name" (Str "ALI") (set "address" (Str "") ∅)) "name");
  reflexivity.
Defined.

Import CharFacts MrzFacts.

(** X3: the two lines the /passport handler hands to the MRZ parser are
    made of the characters A-Z, 0-9 and the filler only; the second line
    has 44 characters and the first one 44 or 45. *)
Theorem mrz_lines_for_parser (extractedText line1 line2 : string) :
  mrz_text_of extractedText = Some (line1, line2) ->
  all_chars mrz_char line1 = true /\
  all_chars mrz_char line2 = true /\
  String.length line2 = 44 /\
  (String.length line1 = 44 \/ String.length line1 = 45).
Proof.
unfold mrz_text_of.
destruct (find_mrz_lines_chars extractedText) as (mrzLines & -> & _ & F).
destruct mrzLines as [|l1 [|l2 rest]]; try discriminate.
intros [= <- <-].
inversion F as [|? ? H1 F1]; subst. inversion F1 as [|? ? H2 _]; subst.
destruct (normalize_mrz_lengths l1 l2) as [L2 L1].
unfold normalize_mrz in *. cbn [fst snd] in *.
split; [apply anchor_line1_chars, pad44_chars, H1|].
split; [apply pad44_chars, H2|]. split; [exact L2|].
rewrite L1. destruct (_ && _); auto.
Qed.

Lemma mrz_lines_for_parser_witness :
  exists line1 line2,
    mrz_text_of c1_text = Some (line1, line2) /\
    all_chars mrz_char line1 = true /\
    all_chars mrz_char line2 = true /\
    String.length line2 = 44 /\
    (String.length line1 = 44 \/ String.length line1 = 45).
Proof.
eexists. eexists. split; [vm_compute; reflexivity|].
apply (mrz_lines_for_parser c1_text). vm_compute. reflexivity.
Defined.

Import AnchorFacts MrzDataFacts DateFacts.

(** X4: formatDate turns a date YYYY-MM-DD into DD MMM YYYY, the month
    being the entry of the month table at the month number; the month is
    not checked: for 00 and for 13 to 99 the text reads "undefined". *)
Theorem formatDate_iso (year day : string) (m1 m2 : ascii) :
  digit_string 4 year -> digit_string 2 day ->
  is_digit m1 = true -> is_digit m2 = true ->
  let month := String m1 (String m2 EmptyString) in
  formatDate (Str (year ++ "-" ++ month ++ "-" ++ day)) =
    Str (day ++ " " ++ month_name month ++ " " ++ year) /\
  (1 <= two_digits m1 m2 <= 12 ->
     months !! (two_digits m1 m2 - 1) = Some (month_name month)) /\
  (two_digits m1 m2 = 0 \/ 12 < two_digits m1 m2 ->
     month_name month = "undefined").
Proof.
intros Hy Hd H1 H2 month. split; [|split].
- apply formatDate_iso_date; [exact Hy| |exact Hd].
  split; [reflexivity|]. cbn. now rewrite H1, H2.
- now apply month_name_in_range.
- now apply month_name_out_of_range.
Qed.

Lemma formatDate_iso_witness :
  formatDate (Str "1980-01-05") = Str "05 JAN 1980" /\
  formatDate (Str "1980-13-05") = Str "05 undefined 1980".
Proof.
split.
- apply (formatDate_iso "1980" "05" "0" "1"); repeat split; reflexivity.
- pose proof (formatDate_iso "1980" "05" "1" "3") as H. cbv zeta in H.
  destruct H as (E & _ & U);
    [split; reflexivity|split; reflexivity|reflexivity|reflexivity|].
  rewrite U in E by (right; vm_compute; lia). exact E.
Defined.

(** X5: formatDate is idempotent: a date that was formatted is returned as
    it is when formatted again. *)
Theorem formatDate_idempotent (dateStr : jsval) :
  formatDate (formatDate dateStr) = formatDate dateStr.
Proof. apply formatDate_fixed. Qed.

(** X6: the MRZ data object of the /passport handler is built without an
    exception for every parser result; none of its fields is undefined or
    an empty string, the gender is MALE, FEMALE or null and the
    citizenship number is null or of the form XXXXX-XXXXXXX-X. *)
Theorem mrz_data_well_formed (f : MrzFields) :
  exists mrz,
    mrz_data_of f = Ok mrz /\
    Forall null_or_nonempty
      [ mrz_passportNumber mrz; mrz_surname mrz; mrz_givenNames mrz;
        mrz_nationality mrz; mrz_dateOfBirth mrz; mrz_gender mrz;
        mrz_dateOfExpiry mrz; mrz_issuingAuthority mrz;
        mrz_citizenshipNumber mrz ] /\
    (mrz_gender mrz = Null \/ mrz_gender mrz = Str "MALE"
     \/ mrz_gender mrz = Str "FEMALE") /\
    null_or_canonical (mrz_citizenshipNumber mrz).
Proof.
unfold mrz_data_of. destruct (mrz_citizenship_spec f) as (c & -> & Hc).
cbn [bind]. eexists. split; [reflexivity|].
cbn [mrz_passportNumber mrz_surname mrz_givenNames mrz_nationality
     mrz_dateOfBirth mrz_gender mrz_dateOfExpiry mrz_issuingAuthority
     mrz_citizenshipNumber].
split; [|split; [apply gender_of_sex_spec|exact Hc]].
repeat match goal with
       | |- Forall _ (_ :: _) => apply List.Forall_cons
       | |- Forall _ [] => apply List.Forall_nil
       end;
  try apply or_null_spec; try apply formatDate_spec.
- destruct (gender_of_sex_spec f) as [ -> | [ -> | -> ] ];
    [now left|right; eauto|right; eauto].
- destruct Hc as [->|(s & -> & C)]; [now left|]. right. exists s. split; [reflexivity|].
  destruct s; [discriminate|reflexivity].
Qed.

Import ConfidenceFacts.

(** X7: the overall confidence grows with the OCR confidence and with the
    extraction accuracy.  For figures between 0 and 100, a used MRZ adds 20
    or 21 to the rounded figure before the cap at 100: the bonus is added
    to the double before Math.round, and the sum can round up to the next
    half, as it does at OCR confidence 0.8 and accuracy 67 (20 without the
    MRZ, 41 with it). *)
Theorem overallConfidence_monotone (ocr1 ocr2 : Q) (acc1 acc2 : Z) (mrz : bool) :
  (ocr1 <= ocr2)%Q -> (acc1 <= acc2)%Z ->
  (overallConfidence_of ocr1 acc1 mrz <= overallConfidence_of ocr2 acc2 mrz)%Z /\
  ((0 <= ocr1 <= 100)%Q -> (0 <= acc1 <= 100)%Z ->
   let plain := js_round (weighted ocr1 acc1) in
   overallConfidence_of ocr1 acc1 false = plain /\
   (overallConfidence_of ocr1 acc1 true = Z.min 100 (plain + 20) \/
    overallConfidence_of ocr1 acc1 true = Z.min 100 (plain + 21))) /\
  overallConfidence_of (Double.lit (8 # 10)) 67 false = 20%Z /\
  overallConfidence_of (Double.lit (8 # 10)) 67 true = 41%Z.
Proof.
intros Ho Ha. split; [now apply overallConfidence_mono|]. split.
- intros Hr1 Hr2. cbv zeta. split; [|now apply overallConfidence_bonus].
  rewrite overallConfidence_plain. apply Z.min_r.
  destruct (weighted_range ocr1 acc1 Hr1 Hr2) as [_ W].
  etransitivity; [apply js_round_le_100; lra|reflexivity].
- split; vm_compute; reflexivity.
Qed.

Lemma overallConfidence_monotone_witness :
  (overallConfidence_of 50 40 true <= overallConfidence_of 90 75 true)%Z /\
  (overallConfidence_of 50 40 true = Z.min 100 (overallConfidence_of 50 40 false + 20) \/
   overallConfidence_of 50 40 true = Z.min 100 (overallConfidence_of 50 40 false + 21)).
Proof.
destruct (overallConfidence_monotone 50 90 40 75 true) as (M & B & _); [lra|lia|].
split; [exact M|].
destruct B as [P B]; [split; vm_compute; discriminate|lia|].
cbv zeta in P, B. rewrite P. exact B.
Defined.

Import HusbandFacts.

(** X8: no step of extractPassportData writes husbandName: the field is
    null in every record, so the /passport handler never counts more than
    eleven of its twelve fields: the extraction accuracy is at most 92
    and, with word confidences up to 100, the overall confidence at most
    98. *)
Theorem husbandName_never_extracted
    (parse : string -> res MrzResult) (u : Upload) :
  (forall mrzData, exists d,
     extractPassportData (upload_text u) mrzData = Ok d /\
     get d "husbandName" = Null) /\
  exists r,
    passport_route parse u = Ok r /\
    get (data r) "husbandName" = Null /\
    (extractionAccuracy (confidence r) <= 92)%Z /\
    (words_in_range u -> (overallConfidence (confidence r) <= 98)%Z).
Proof.
split.
- intros mrzData. destruct (husbandName_null (upload_text u) mrzData) as (d & E & H & _).
  eauto.
- destruct (passport_route_ok parse u) as (mrzLines & d & E1 & E2 & E3).
  destruct (husbandName_null (upload_text u) (read_mrz parse mrzLines))
    as (d' & E' & _ & H).
  rewrite E2 in E'. injection E' as <-.
  eexists. split; [exact E3|]. cbn [data confidence extractionAccuracy overallConfidence].
  assert (Ha : (extractionAccuracy_of (cleanData d) <= 92)%Z).
  { apply (accuracy_below _ "husbandName"); [cbv; tauto|].
    unfold extracted. now rewrite H. }
  split; [exact H|]. split; [exact Ha|].
  intros Hw. apply overallConfidence_below; [|exact Ha].
  now apply upload_confidence_range.
Qed.

Lemma husbandName_never_extracted_witness :
  exists r,
    passport_route no_mrz_parser (Image "Husband Name: ALI" [100%Q]) = Ok r /\
    get (data r) "husbandName" = Null /\
    (overallConfidence (confidence r) <= 98)%Z.
Proof.
destruct (husbandName_never_extracted no_mrz_parser
            (Image "Husband Name: ALI" [100%Q])) as [_ (r & E & H & _ & C)].
exists r. split; [exact E|]. split; [exact H|].
apply C. cbn [words_in_range]. split; [repeat constructor; cbv; discriminate|reflexivity].
Defined.

Import WordFacts GenderFacts PassportFieldFacts KeptFacts GenderRouteFacts.

(** X9: the gender is one of MALE, FEMALE, M and F or it is missing: in
    the record of extractCNICData the field is null or one of the four
    words, and in the data of every /passport response the key is absent
    or holds one of them. *)
Theorem gender_is_one_of_four_words :
  (forall text, exists d,
     extractCNICData text = Ok d /\ gender_value (get d "gender")) /\
  (forall parse u, exists r,
     passport_route parse u = Ok r /\
     (data r !! "gender" = None \/
      exists g, data r !! "gender" = Some (Str g) /\ In g gender_words)).
Proof.
split; [apply cnic_gender|]. intros parse u.
destruct (passport_route_ok parse u) as (mrzLines & d & E1 & E2 & E3).
eexists. split; [exact E3|]. cbn [data].
destruct (passport_gender (upload_text u) (read_mrz parse mrzLines))
  as (d' & E' & G).
{ intros mrz Hm. apply read_mrz_data in Hm as [f Hf]. eapply mrz_data_gender, Hf. }
rewrite E2 in E'. injection E' as <-.
destruct (extractPassportData_record (upload_text u) (read_mrz parse mrzLines))
  as (d' & E' & R & _).
rewrite E2 in E'. injection E' as <-.
rewrite cleanData_lookup, (required_for_passport d R).
change (member "gender" passportRequiredFields) with false. cbv iota.
destruct (proj1 (R "gender")) as (v & Hv & _); [cbv; tauto|].
assert (Hget : get d "gender" = v) by (unfold get; now rewrite Hv).
rewrite Hget in *. rewrite Hv.
destruct G as [->|(g & -> & Hg)]; [now left|].
right. exists g. split; [|exact Hg].
destruct g; [cbv in Hg; intuition discriminate|reflexivity].
Qed.



(** X11: a value of the MRZ data is the value of the record when the text
    has no line with the label of the field: the fallbacks of
    extractPassportData do not replace it.  For the gender, which has no
    label loop, the MRZ value stays when the gender pattern has no match
    in the text. *)
Theorem mrz_value_kept_without_label (text : string) (mrz : MrzData) :
  let lines := lines_of text in
  exists d,
    extractPassportData text (Some mrz) = Ok d /\
    (truthy (mrz_passportNumber mrz) = true ->
     no_label rule_passportNumber lines = true ->
     get d "passportNumber" = mrz_passportNumber mrz) /\
    (truthy (mrz_surname mrz) = true ->
     no_label rule_surname lines = true ->
     get d "surname" = mrz_surname mrz) /\
    (truthy (mrz_givenNames mrz) = true ->
     no_label rule_givenNames lines = true ->
     get d "givenNames" = mrz_givenNames mrz) /\
    (truthy (mrz_nationality mrz) = true ->
     no_label rule_nationality lines = true ->
     get d "nationality" = mrz_nationality mrz) /\
    (truthy (mrz_dateOfBirth mrz) = true ->
     no_label rule_dateOfBirth lines = true ->
     get d "dateOfBirth" = mrz_dateOfBirth mrz) /\
    (truthy (mrz_dateOfExpiry mrz) = true ->
     no_label rule_dateOfExpiry lines = true ->
     get d "dateOfExpiry" = mrz_dateOfExpiry mrz) /\
    (truthy (mrz_citizenshipNumber mrz) = true ->
     no_label rule_citizenshipNumber lines = true ->
     get d "citizenshipNumber" = mrz_citizenshipNumber mrz) /\
    (truthy (mrz_gender mrz) = true ->
     Regex.test genderPattern (trim (collapse text)) = false ->
     get d "gender" = mrz_gender mrz).
Proof.
cbv zeta.
destruct (extractPassportData_writes text (Some mrz)) as (d & E & _).
exists d. split; [exact E|].
repeat split; intros T Hl.
- destruct (mrz_passportNumber_kept text mrz T Hl) as (d' & E' & G).
  rewrite E in E'. now injection E' as <-.
- destruct (mrz_surname_kept text mrz T Hl) as (d' & E' & G).
  rewrite E in E'. now injection E' as <-.
- destruct (mrz_givenNames_kept text mrz T Hl) as (d' & E' & G).
  rewrite E in E'. now injection E' as <-.
- destruct (mrz_nationality_kept text mrz T Hl) as (d' & E' & G).
  rewrite E in E'. now injection E' as <-.
- destruct (mrz_dateOfBirth_kept text mrz T Hl) as (d' & E' & G).
  rewrite E in E'. now injection E' as <-.
- destruct (mrz_dateOfExpiry_kept text mrz T Hl) as (d' & E' & G).
  rewrite E in E'. now injection E' as <-.
- destruct (mrz_citizenshipNumber_kept text mrz T Hl) as (d' & E' & G).
  rewrite E in E'. now injection E' as <-.
- destruct (mrz_gender_kept text mrz T Hl) as (d' & E' & G).
  rewrite E in E'. now injection E' as <-.
Qed.

(* the MRZ data of [c1_fields] *)
Definition c1_mrz : MrzData :=
  match mrz_data_of c1_fields with
  | Ok mrz => mrz
  | Throw =>
      {| mrz_passportNumber := Null; mrz_surname := Null; mrz_givenNames := Null;
         mrz_nationality := Null; mrz_dateOfBirth := Null; mrz_gender := Null;
         mrz_dateOfExpiry := Null; mrz_issuingAuthority := Null;
         mrz_citizenshipNumber := Null |}
  end.

Lemma mrz_value_kept_without_label_witness :
  exists d,
    extractPassportData "Place of Birth: LEEDS" (Some c1_mrz) = Ok d /\
    get d "passportNumber" = Str "123456789" /\
    get d "surname" = Str "SMITH" /\
    get d "dateOfBirth" = Str "01 JAN 1980" /\
    get d "gender" = Str "MALE".
Proof.
destruct (mrz_value_kept_without_label "Place of Birth: LEEDS" c1_mrz)
  as (d & E & H1 & H2 & _ & _ & H5 & _ & _ & H8).
exists d. split; [exact E|].
split; [apply H1; vm_compute; reflexivity|].
split; [apply H2; vm_compute; reflexivity|].
split; [apply H5; vm_compute; reflexivity|].
apply H8; vm_compute; reflexivity.
Defined.

Import CountryFacts DateShapeFacts MonthDateFacts UpperFacts.

(** X12: when the text has PAKISTAN or PAK as a word of its own, in any
    case, the country of extractCNICData is PAKISTAN, whatever other
    country the text names: the two keywords are tried first. *)
Theorem country_pakistan_first (text : string) :
  Regex.test re_pakistan_word text = true \/ Regex.test re_pak_word text = true ->
  exists d,
    extractCNICData text = Ok d /\
    get d "country" = Str "PAKISTAN" /\
    cleanData d !! "country" = Some (Str "PAKISTAN").
Proof.
intros H.
assert (E : exists d, extractCNICData text = Ok d /\ get d "country" = Str "PAKISTAN").
{ unfold extractCNICData. cbv zeta.
  run_step.
  remember (cnic_date_fields (trim (collapse text)) d) as dd eqn:Hdd.
  do 5 run_step.
  rewrite (cnic_country_pakistan text _ H). cbn [bind].
  match goal with
  | |- context [cnic_address ?n ?d] =>
      destruct (cnic_address_ok n d) as (dl & El & Wl)
  end.
  exists dl. split; [exact El|]. back "country".
  now rewrite get_set. }
destruct E as (d & E & G). exists d. split; [exact E|]. split; [exact G|].
destruct (extractCNICData_record text) as (d' & E' & R & _).
rewrite E in E'. injection E' as <-.
rewrite cleanData_lookup, (required_for_cnic d R).
change (member "country" cnicRequiredFields) with true. cbv iota.
unfold get in G. destruct (d !! "country") as [v|]; [|discriminate].
cbn in G. now rewrite G.
Qed.

Lemma country_pakistan_first_witness :
  exists d,
    extractCNICData "Visa for CANADA. Islamic Republic of Pakistan" = Ok d /\
    get d "country" = Str "PAKISTAN" /\
    cleanData d !! "country" = Some (Str "PAKISTAN").
Proof.
apply (country_pakistan_first "Visa for CANADA. Islamic Republic of Pakistan").
left. vm_compute. reflexivity.
Defined.

(** X13: every date of the record of extractCNICData is null or a numeric
    date: one or two digits, a dot or a slash, one or two digits, a dot or
    a slash, and four digits. *)
Theorem cnic_dates_are_numeric (text : string) :
  exists d,
    extractCNICData text = Ok d /\
    null_or_date (get d "dateOfBirth") /\
    null_or_date (get d "dateOfIssue") /\
    null_or_date (get d "dateOfExpiry").
Proof.
unfold extractCNICData. cbv zeta.
run_step.
remember (cnic_date_fields (trim (collapse text)) d) as dd eqn:Hdd.
repeat run_step.
match goal with
| |- context [cnic_address ?n ?d] =>
    destruct (cnic_address_ok n d) as (dl & El & Wl)
end.
exists dl. split; [exact El|].
back "dateOfBirth". back "dateOfIssue". back "dateOfExpiry".
subst dd. unfold cnic_date_fields. cbv zeta.
set (nt := trim (collapse text)).
assert (G : forall k, In k ["dateOfBirth"; "dateOfIssue"; "dateOfExpiry"] ->
            null_or_date (get d k)).
{ intros k Hk. left.
  rewrite (writes_get_other _ _ _ k W) by
    (cbv in Hk |- *; intuition (subst; discriminate)).
  cbv in Hk. intuition (subst; reflexivity). }
assert (Hdob : (1 <=? Regex.rx_groups dobPattern)%nat
                 && defines 1 (Regex.rx_re dobPattern) = true) by reflexivity.
assert (Hiss : (1 <=? Regex.rx_groups issuePattern)%nat
                 && defines 1 (Regex.rx_re issuePattern) = true) by reflexivity.
assert (Hexp : (1 <=? Regex.rx_groups expiryPattern)%nat
                 && defines 1 (Regex.rx_re expiryPattern) = true) by reflexivity.
assert (Gdob : groups_are 1 date_body (Regex.rx_re dobPattern))
  by (cbn; repeat split; auto).
assert (Giss : groups_are 1 date_body (Regex.rx_re issuePattern))
  by (cbn; repeat split; auto).
assert (Gexp : groups_are 1 date_body (Regex.rx_re expiryPattern))
  by (cbn; repeat split; auto).
split; [|split].
- rewrite !(get_labelled_or_nth expiryPattern), !(get_labelled_or_nth issuePattern).
  cbn [String.eqb Ascii.eqb Bool.eqb].
  apply labelled_or_nth_shape; [exact Hdob|exact Gdob|]. apply G. cbv. tauto.
- rewrite !(get_labelled_or_nth expiryPattern).
  cbn [String.eqb Ascii.eqb Bool.eqb].
  apply labelled_or_nth_shape; [exact Hiss|exact Giss|].
  rewrite get_labelled_or_nth. cbn [String.eqb Ascii.eqb Bool.eqb].
  apply G. cbv. tauto.
- apply labelled_or_nth_shape; [exact Hexp|exact Gexp|].
  rewrite !get_labelled_or_nth. cbn [String.eqb Ascii.eqb Bool.eqb].
  apply G. cbv. tauto.
Qed.

(** X14: the date that extractPassportData builds from a line with a month
    name always reads DD MMM YYYY: two digits (the misread days lo, io,
    1o, o1 and o2 repaired, a day without a digit replaced by the
    default), the month name in upper case and four digits.  The two line
    fallbacks leave the field as it is or store such a date. *)
Theorem month_line_dates_are_formed (lines : list string) (data : gmap string jsval) :
  (exists d', dob_lines_fallback lines data = Ok d' /\
     (get d' "dateOfBirth" = get data "dateOfBirth" \/
      exists s, get d' "dateOfBirth" = Str s /\ month_date_form s)) /\
  (exists d', expiry_lines_fallback lines data = Ok d' /\
     (get d' "dateOfExpiry" = get data "dateOfExpiry" \/
      exists s, get d' "dateOfExpiry" = Str s /\ month_date_form s)).
Proof.
split; [apply dob_lines_fallback_form|apply expiry_lines_fallback_form].
Qed.

(* null, or a string in upper case *)
Definition null_or_upper (v : jsval) : Prop :=
  v = Null \/ exists s, v = Str s /\ upper_case s.

(** X15: the name, the father's name, the country and the gender of the
    record of extractCNICData are null or in upper case. *)
Theorem cnic_names_in_upper_case (text : string) :
  exists d,
    extractCNICData text = Ok d /\
    null_or_upper (get d "name") /\
    null_or_upper (get d "fatherName") /\
    null_or_upper (get d "country") /\
    null_or_upper (get d "gender").
Proof.
unfold extractCNICData. cbv zeta.
run_step.
remember (cnic_date_fields (trim (collapse text)) d) as dd eqn:Hdd.
pose proof (cnic_date_fields_writes (trim (collapse text)) d) as Wd.
rewrite <- Hdd in Wd.
destruct (gender_field_spec (trim (collapse text)) dd) as (dg & Eg & Wg & Sg & _).
rewrite Eg. cbn [bind].
destruct (both _ _ _ (cnic_name_label_ok (lines_of text) dg)
            (cnic_name_label_upper (lines_of text) dg)) as (d1 & E1 & W1 & S1).
rewrite E1. cbn [bind].
destruct (both _ _ _ (cnic_name_fallback_ok (lines_of text) d1)
            (cnic_name_fallback_upper (lines_of text) d1)) as (d2 & E2 & W2 & S2).
rewrite E2. cbn [bind].
destruct (both _ _ _ (cnic_father_label_ok (lines_of text) d2)
            (cnic_father_label_upper (lines_of text) d2)) as (d3 & E3 & W3 & S3).
rewrite E3. cbn [bind].
destruct (both _ _ _ (cnic_father_fallback_ok (lines_of text) d3)
            (cnic_father_fallback_upper (lines_of text) d3)) as (d4 & E4 & W4 & S4).
rewrite E4. cbn [bind].
destruct (both _ _ _ (cnic_country_ok text d4)
            (cnic_country_upper text d4)) as (d5 & E5 & W5 & S5).
rewrite E5. cbn [bind].
destruct (cnic_address_ok (trim (collapse text)) d5) as (dl & El & Wl).
exists dl. split; [exact El|].
split; [|split; [|split]].
- rewrite (writes_get_other _ _ _ "name" Wl) by (cbv; intuition discriminate).
  rewrite (writes_get_other _ _ _ "name" W5) by (cbv; intuition discriminate).
  rewrite (writes_get_other _ _ _ "name" W4) by (cbv; intuition discriminate).
  rewrite (writes_get_other _ _ _ "name" W3) by (cbv; intuition discriminate).
  destruct (same_or_trans _ _ _ _ _ S1 S2) as [H|H]; [|now right].
  left. rewrite H.
  rewrite (writes_get_other _ _ _ "name" Wg) by (cbv; intuition discriminate).
  rewrite (writes_get_other _ _ _ "name" Wd) by (cbv; intuition discriminate).
  rewrite (writes_get_other _ _ _ "name" W) by (cbv; intuition discriminate).
  reflexivity.
- rewrite (writes_get_other _ _ _ "fatherName" Wl) by (cbv; intuition discriminate).
  rewrite (writes_get_other _ _ _ "fatherName" W5) by (cbv; intuition discriminate).
  destruct (same_or_trans _ _ _ _ _ S3 S4) as [H|H]; [|now right].
  left. rewrite H.
  rewrite (writes_get_other _ _ _ "fatherName" W2) by (cbv; intuition discriminate).
  rewrite (writes_get_other _ _ _ "fatherName" W1) by (cbv; intuition discriminate).
  rewrite (writes_get_other _ _ _ "fatherName" Wg) by (cbv; intuition discriminate).
  rewrite (writes_get_other _ _ _ "fatherName" Wd) by (cbv; intuition discriminate).
  rewrite (writes_get_other _ _ _ "fatherName" W) by (cbv; intuition discriminate).
  reflexivity.
- rewrite (writes_get_other _ _ _ "country" Wl) by (cbv; intuition discriminate).
  destruct S5 as [H|H]; [|now right].
  left. rewrite H.
  rewrite (writes_get_other _ _ _ "country" W4) by (cbv; intuition discriminate).
  rewrite (writes_get_other _ _ _ "country" W3) by (cbv; intuition discriminate).
  rewrite (writes_get_other _ _ _ "country" W2) by (cbv; intuition discriminate).
  rewrite (writes_get_other _ _ _ "country" W1) by (cbv; intuition discriminate).
  rewrite (writes_get_other _ _ _ "country" Wg) by (cbv; intuition discriminate).
  rewrite (writes_get_other _ _ _ "country" Wd) by (cbv; intuition discriminate).
  rewrite (writes_get_other _ _ _ "country" W) by (cbv; intuition discriminate).
  reflexivity.
- rewrite (writes_get_other _ _ _ "gender" Wl) by (cbv; intuition discriminate).
  rewrite (writes_get_other _ _ _ "gender" W5) by (cbv; intuition discriminate).
  rewrite (writes_get_other _ _ _ "gender" W4) by (cbv; intuition discriminate).
  rewrite (writes_get_other _ _ _ "gender" W3) by (cbv; intuition discriminate).
  rewrite (writes_get_other _ _ _ "gender" W2) by (cbv; intuition discriminate).
  rewrite (writes_get_other _ _ _ "gender" W1) by (cbv; intuition discriminate).
  destruct Sg as [H|(g & H & Hg)].
  + left. rewrite H.
    rewrite (writes_get_other _ _ _ "gender" Wd) by (cbv; intuition discriminate).
    rewrite (writes_get_other _ _ _ "gender" W) by (cbv; intuition discriminate).
    reflexivity.
  + right. exists g. split; [exact H|].
    cbv in Hg. intuition (subst; reflexivity).
Qed.

Import ScanFacts SameLineFacts.

(** X16: the MRZ lines are looked for from the last line of the text
    upwards, in the last fifteen lines only: when two lines are found, the
    line stored first (the one sent to the parser as line 1) lies below the
    line stored second, and nothing else is stored. *)
Theorem mrz_scan_bottom_up (extractedText l1 l2 : string) (rest : list string) :
  find_mrz_lines extractedText = Ok (l1 :: l2 :: rest) ->
  let allLines := map trim (split_char (ascii_of_nat 10) extractedText) in
  rest = [] /\
  exists i j a b,
    j < i /\ i < length allLines /\ length allLines <= j + 15 /\
    allLines !! i = Some a /\ allLines !! j = Some b /\
    isLine1 (cleaned a) = true /\
    l1 = first_form (cleaned a) /\ l2 = cleaned b.
Proof.
intros E. cbv zeta.
destruct (find_mrz_lines_scanned extractedText) as (mrzLines & E' & H).
cbv zeta in H. rewrite E in E'. injection E' as <-.
set (allLines := map trim _) in *.
destruct H as [H|[(k1 & a & _ & _ & _ & H)|(k1 & k2 & a & b & H1 & H2 & Ha & Hb & L & H)]];
  try discriminate.
injection H as -> -> ->. split; [reflexivity|].
unfold visited in Ha, Hb.
assert (Hk : k2 < length allLines) by lia.
exists (length allLines - 1 - k1), (length allLines - 1 - k2), a, b.
repeat split; try assumption; lia.
Qed.

Lemma mrz_scan_bottom_up_witness :
  exists i j a b,
    j < i /\ i < 10 /\
    map trim (split_char (ascii_of_nat 10) c1_text) !! i = Some a /\
    map trim (split_char (ascii_of_nat 10) c1_text) !! j = Some b /\
    first_form (cleaned a) = "P<GBRSMITH<<JOHN<<<<<<<<<<<<<<<<<<<<<<<<<<<<" /\
    cleaned b = "1234567897GBR8001014M30010196110188231890<22".
Proof.
destruct (mrz_scan_bottom_up c1_text
            "P<GBRSMITH<<JOHN<<<<<<<<<<<<<<<<<<<<<<<<<<<<"
            "1234567897GBR8001014M30010196110188231890<22" [])
  as [_ (i & j & a & b & H1 & H2 & _ & Ha & Hb & _ & E1 & E2)].
{ vm_compute. reflexivity. }
exists i, j, a, b. split; [exact H1|]. split; [exact H2|].
split; [exact Ha|]. split; [exact Hb|]. split; [now rewrite E1|now rewrite E2].
Defined.

(** X17: in extractPassportData the value on the first line that carries
    the label of a field, when it is accepted, is the value of the record,
    whatever the MRZ data say and whatever follows: this holds for each of
    the seven fields with a label that the MRZ also gives. *)
Theorem same_line_label_decides (text : string) (mrzData : option MrzData)
    (rule : label_rule) (pre post : list string) (l s : string) :
  In rule mrz_label_rules ->
  lines_of text = pre ++ l :: post ->
  no_label rule pre = true ->
  lr_is_label rule (toUpperCase (trim l)) = true ->
  same_line_value rule (trim l) = Some s ->
  exists d,
    extractPassportData text mrzData = Ok d /\
    get d (lr_key rule) = Str s.
Proof.
intros Hr Hlines Hpre Hl Hv.
pose proof (same_line_value_nonempty rule _ _ Hr Hv) as Hs.
assert (Hloop : forall d, label_loop rule (lines_of text) d
                          = Ok (set (lr_key rule) (Str s) d)).
{ intros d. rewrite Hlines. now apply label_loop_first. }
cbv [mrz_label_rules In] in Hr.
destruct Hr as [<-|[<-|[<-|[<-|[<-|[<-|[<-|[]]]]]]]].
- now apply same_line_passportNumber.
- now apply same_line_surname.
- now apply same_line_givenNames.
- now apply same_line_nationality.
- now apply same_line_dateOfBirth.
- now apply same_line_dateOfExpiry.
- now apply same_line_citizenshipNumber.
Qed.

Lemma same_line_label_decides_witness :
  exists d,
    extractPassportData "REPUBLIC
Surname: SMYTH
Surname: OTHER" (Some c1_mrz) = Ok d /\
    get d "surname" = Str "SMYTH".
Proof.
apply (same_line_label_decides _ (Some c1_mrz) rule_surname
         ["REPUBLIC"] ["Surname: OTHER"] "Surname: SMYTH" "SMYTH").
- right; left. reflexivity.
- vm_compute. reflexivity.
- vm_compute. reflexivity.
- vm_compute. reflexivity.
- vm_compute. reflexivity.
Defined.

Import PassportUpperFacts.

(* the MRZ values of the upper-case fields are in upper case *)
Definition mrz_in_upper_case (mrzData : option MrzData) : Prop :=
  forall mrz, mrzData = Some mrz ->
    null_or_upper (or_null (mrz_passportNumber mrz)) /\
    null_or_upper (or_null (mrz_surname mrz)) /\
    null_or_upper (or_null (mrz_givenNames mrz)) /\
    null_or_upper (or_null (mrz_nationality mrz)).

Ltac upper_step :=
  lazymatch goal with
  | |- context [bind (label_loop ?r ?l ?d) _] =>
      first [ let d' := fresh "d" in
              let E := fresh "E" in
              let W := fresh "W" in
              let S := fresh "S" in
              destruct (upper_rule_sets r l d eq_refl) as (d' & E & W & S);
              let k := eval lazy in (lr_key r) in
              change (lr_key r) with k in W, S;
              rewrite E; cbn [bind]
            | run_step ]
  | |- context [bind (passport_number_fallback ?l ?n ?d) _] =>
      let d' := fresh "d" in
      let E := fresh "E" in
      let W := fresh "W" in
      let S := fresh "S" in
      destruct (passport_number_fallback_upper l n d) as (d' & E & W & S);
      rewrite E; cbn [bind]
  | |- context [bind (nationality_fallback ?l ?d) _] =>
      let d' := fresh "d" in
      let E := fresh "E" in
      let W := fresh "W" in
      let S := fresh "S" in
      destruct (both _ _ _ (nationality_fallback_ok l d)
                  (nationality_fallback_upper l d)) as (d' & E & W & S);
      rewrite E; cbn [bind]
  | |- context [bind (given_names_fallback ?l ?d) _] =>
      let d' := fresh "d" in
      let E := fresh "E" in
      let W := fresh "W" in
      let S := fresh "S" in
      destruct (both _ _ _ (given_names_fallback_ok l d)
                  (given_names_fallback_upper l d)) as (d' & E & W & S);
      rewrite E; cbn [bind]
  | |- context [bind (place_fallback ?l ?d) _] =>
      let d' := fresh "d" in
      let E := fresh "E" in
      let W := fresh "W" in
      let S := fresh "S" in
      destruct (both _ _ _ (place_fallback_ok l d)
                  (place_fallback_upper l d)) as (d' & E & W & S);
      rewrite E; cbn [bind]
  | |- context [bind (father_fallback ?l ?d) _] =>
      let d' := fresh "d" in
      let E := fresh "E" in
      let W := fresh "W" in
      let S := fresh "S" in
      destruct (both _ _ _ (father_fallback_ok l d)
                  (father_fallback_upper l d)) as (d' & E & W & S);
      rewrite E; cbn [bind]
  | |- context [bind (authority_fallback ?l ?d) _] =>
      let d' := fresh "d" in
      let E := fresh "E" in
      let W := fresh "W" in
      let S := fresh "S" in
      destruct (both _ _ _ (authority_fallback_ok l d)
                  (authority_fallback_upper l d)) as (d' & E & W & S);
      rewrite E; cbn [bind]
  | _ => run_step
  end.

(* back to the state before the steps that write [k] in upper case *)
Ltac upper_back k :=
  repeat (back k;
          match goal with
          | S : same_or upper_case k ?d ?d' |- null_or_upper (get ?d' k) =>
              let H := fresh "H" in
              destruct S as [H|H]; [rewrite H; clear H|right; exact H]
          end);
  back k.

(** X18: the passport number, the surname, the given names, the
    nationality, the place of birth, the father's name and the issuing
    authority of the record of extractPassportData are null or in upper
    case, when the values of the MRZ data are. *)
Theorem passport_names_in_upper_case (text : string) (mrzData : option MrzData) :
  mrz_in_upper_case mrzData ->
  exists d,
    extractPassportData text mrzData = Ok d /\
    Forall (fun k => null_or_upper (get d k))
      [ "passportNumber"; "surname"; "givenNames"; "nationality";
        "placeOfBirth"; "fatherName"; "issuingAuthority" ].
Proof.
intros Hm. unfold extractPassportData. cbv zeta.
set (d0 := apply_mrz mrzData (passport_initial text)).
assert (G0 : forall k,
          In k [ "passportNumber"; "surname"; "givenNames"; "nationality";
                 "placeOfBirth"; "fatherName"; "issuingAuthority" ] ->
          null_or_upper (get d0 k)).
{ intros k Hk. unfold d0. destruct mrzData as [mrz|].
  - destruct (Hm mrz eq_refl) as (H1 & H2 & H3 & H4). unfold or_null in *.
    cbv [In] in Hk.
    destruct Hk as [<-|[<-|[<-|[<-|[<-|[<-|[<-|[]]]]]]]];
      rewrite get_apply_mrz; cbn [String.eqb Ascii.eqb Bool.eqb andb];
      repeat match goal with
             | |- context [if truthy ?v then _ else _] =>
                 destruct (truthy v) eqn:?
             end;
      try assumption; now left.
  - cbv [In] in Hk.
    destruct Hk as [<-|[<-|[<-|[<-|[<-|[<-|[<-|[]]]]]]]]; now left. }
repeat upper_step. last_step.
repeat match goal with
       | |- Forall _ (_ :: _) => apply List.Forall_cons
       | |- Forall _ [] => apply List.Forall_nil
       end.
- upper_back "passportNumber".
  apply G0. cbv. tauto.
- upper_back "surname".
  apply G0. cbv. tauto.
- upper_back "givenNames".
  apply G0. cbv. tauto.
- upper_back "nationality".
  apply G0. cbv. tauto.
- upper_back "placeOfBirth".
  apply G0. cbv. tauto.
- upper_back "fatherName".
  apply G0. cbv. tauto.
- upper_back "issuingAuthority".
  apply G0. cbv. tauto.
Qed.

Lemma passport_names_in_upper_case_witness :
  exists d,
    extractPassportData "Surname: Smyth" None = Ok d /\
    Forall (fun k => null_or_upper (get d k))
      [ "passportNumber"; "surname"; "givenNames"; "nationality";
        "placeOfBirth"; "fatherName"; "issuingAuthority" ].
Proof.
apply (passport_names_in_upper_case "Surname: Smyth" None). intros mrz [=].
Defined.

Import LegacyFacts.

(** X19: the earlier extractPassportData returns a record for every text,
    with its eleven keys each null or a string, and it gives the dates by
    label and else by position: the first date of the normalized text to
    dateOfBirth, the second to dateOfIssue and the third to dateOfExpiry. *)
Theorem legacy_passport_dates_by_position (text : string) :
  let nt := trim (collapse text) in
  exists d,
    LegacyExtractor.extractPassportData text = Ok d /\
    record_of legacy_fields d /\
    labelled_else_nth dobPattern 0 nt (get d "dateOfBirth") /\
    labelled_else_nth issuePattern 1 nt (get d "dateOfIssue") /\
    labelled_else_nth expiryPattern 2 nt (get d "dateOfExpiry").
Proof.
cbv zeta.
destruct (legacy_extract_steps text) as (d0 & d1 & d & E0 & W0 & Hd1 & E & W).
destruct (legacy_extract_record text) as (d' & E' & R).
rewrite E in E'. injection E' as <-.
exists d. split; [exact E|]. split; [exact R|].
rewrite !(writes_get_other _ _ _ _ W) by (cbv; intuition discriminate).
subst d1. unfold cnic_date_fields. cbv zeta.
rewrite !get_labelled_or_nth. cbn [String.eqb Ascii.eqb Bool.eqb].
repeat split; apply labelled_else_nth_intro.
Qed.

(* three dates without a label, as for C6 *)
Lemma legacy_passport_dates_example :
  result_field (LegacyExtractor.extractPassportData c6_text) "dateOfBirth"
    = Str "01.01.1990" /\
  result_field (LegacyExtractor.extractPassportData c6_text) "dateOfIssue"
    = Str "01.01.2015" /\
  result_field (LegacyExtractor.extractPassportData c6_text) "dateOfExpiry"
    = Str "01.01.2025".
Proof. vm_compute. repeat split; reflexivity. Qed.

(** X20: the earlier cleanData keeps the four identity-card fields for
    every record: cleaned, a passport record of the earlier extractor
    always has the keys name, fatherName, country and cnicNumber with the
    value null, and it has a passport field only when that field was
    extracted (for the passport number: only when the pattern matched). *)
Theorem legacy_cleanData_on_passport_record (text : string) :
  exists d,
    LegacyExtractor.extractPassportData text = Ok d /\
    Forall (fun k => LegacyExtractor.cleanData d !! k = Some Null)
      LegacyExtractor.requiredFields /\
    (forall k, In k legacy_written ->
       LegacyExtractor.cleanData d !! k =
       if null_or_empty (get d k) then None else d !! k) /\
    (Regex.test LegacyExtractor.passportPattern (trim (collapse text)) = false ->
     LegacyExtractor.cleanData d !! "passportNumber" = None).
Proof.
destruct (legacy_extract_steps text) as (d0 & d1 & d & E0 & W0 & Hd1 & E & W).
destruct (legacy_extract_record text) as (d' & E' & R).
rewrite E in E'. injection E' as <-.
exists d. split; [exact E|].
assert (Hclean : forall k, In k legacy_written ->
          LegacyExtractor.cleanData d !! k =
          if null_or_empty (get d k) then None else d !! k).
{ intros k Hk. rewrite legacy_cleanData_lookup.
  cbv [legacy_written In] in Hk.
  destruct Hk as [<-|[<-|[<-|[<-|[<-|[<-|[<-|[<-|[<-|[<-|[]]]]]]]]]]]; reflexivity. }
split; [|split; [exact Hclean|]].
- unfold LegacyExtractor.requiredFields.
  repeat match goal with
         | |- Forall _ (_ :: _) => apply List.Forall_cons
         | |- Forall _ [] => apply List.Forall_nil
         end;
    rewrite legacy_cleanData_lookup;
    match goal with
    | |- context [d !! ?k] =>
        rewrite (proj2 (R k)) by (cbv; intuition discriminate)
    end; reflexivity.
- intros T. rewrite Hclean by (cbv; tauto).
  assert (G : get d "passportNumber" = Null).
  { rewrite (writes_get_other _ _ _ _ W) by (cbv; intuition discriminate).
    subst d1.
    rewrite (writes_get_other _ _ _ _ (cnic_date_fields_writes _ d0))
      by (cbv; intuition discriminate).
    unfold LegacyExtractor.passport_number in E0.
    rewrite (test_false _ _ T) in E0. injection E0 as <-. reflexivity. }
  now rewrite G.
Qed.

Lemma legacy_cleanData_on_passport_record_witness :
  exists d,
    LegacyExtractor.extractPassportData "Nationality: British" = Ok d /\
    LegacyExtractor.cleanData d !! "passportNumber" = None /\
    LegacyExtractor.cleanData d !! "cnicNumber" = Some Null.
Proof.
destruct (legacy_cleanData_on_passport_record "Nationality: British")
  as (d & E & F & _ & H).
exists d. split; [exact E|]. split; [apply H; vm_compute; reflexivity|].
rewrite List.Forall_forall in F. apply F. cbv. tauto.
Defined.

Import SchemaFacts.

(** X21: the /cnic handler answers every request: 400 without a file, the
    error reply when the recognition of the file throws, and else 200 with
    the cleaned record of extractCNICData for the recognised text.  The
    data hold the four required keys (string or null) and, besides them,
    only fields of the card with a string that is not empty.  The debug
    block is left out exactly when debug=true was not asked for and the
    name or the father's name was found; it holds the raw text and at most
    20 lines. *)
Theorem cnic_route_replies
    (extractTextFromPDF extractTextFromImage : string -> res string)
    (req : CnicRoute.Request) :
  let reply := CnicRoute.cnic_route extractTextFromPDF extractTextFromImage req in
  match CnicRoute.file req with
  | None => reply = CnicRoute.BadRequest
  | Some f =>
      match CnicRoute.recognise extractTextFromPDF extractTextFromImage f with
      | Throw => reply = CnicRoute.Failure
      | Ok extractedText =>
          exists d debug,
            extractCNICData extractedText = Ok d /\
            reply = CnicRoute.Success (cleanData d) debug /\
            response_schema cnic_fields cnicRequiredFields (cleanData d) /\
            (debug = None <->
             jsval_eqb (CnicRoute.query_debug req) (Str "true") = false /\
             (truthy (get (cleanData d) "name") = true \/
              truthy (get (cleanData d) "fatherName") = true)) /\
            (forall b, debug = Some b ->
               CnicRoute.rawText b = extractedText /\
               length (CnicRoute.lines b) <= 20)
      end
  end.
Proof.
cbv zeta. unfold CnicRoute.cnic_route.
destruct (CnicRoute.file req) as [f|]; [|reflexivity].
unfold CnicRoute.cnic_body.
destruct (CnicRoute.recognise _ _ f) as [text|]; cbn [bind]; [|reflexivity].
destruct (extractCNICData_record text) as (d & E & R & _).
rewrite E. cbn [bind]. cbv zeta.
eexists d, _. split; [reflexivity|]. split; [reflexivity|].
split; [|split].
- apply cleanData_schema; [exact R|now apply required_for_cnic|].
  intros k Hk. cbv in Hk |- *. tauto.
- destruct (jsval_eqb (CnicRoute.query_debug req) (Str "true")); cbn [orb].
  { split; [discriminate|]. intros [H _]. discriminate. }
  destruct (truthy (get (cleanData d) "name"));
    destruct (truthy (get (cleanData d) "fatherName")); cbn [negb andb];
    split; try discriminate; try tauto; intuition discriminate.
- intros b Hb.
  destruct (_ || _); [|discriminate]. injection Hb as <-.
  cbn [CnicRoute.debug_block CnicRoute.rawText CnicRoute.lines].
  split; [reflexivity|]. rewrite length_firstn. lia.
Qed.

(** X22: the data of every /passport response hold the ten required keys
    (string or null) and, besides them, only fields of the passport with a
    string that is not empty. *)
Theorem passport_response_schema (parse : string -> res MrzResult) (u : Upload) :
  exists r,
    passport_route parse u = Ok r /\
    response_schema passport_fields passportRequiredFields (data r).
Proof.
destruct (passport_route_ok parse u) as (mrzLines & d & E1 & E2 & E3).
eexists. split; [exact E3|]. cbn [data].
destruct (extractPassportData_record (upload_text u) (read_mrz parse mrzLines))
  as (d' & E' & R & _).
rewrite E2 in E'. injection E' as <-.
apply cleanData_schema; [exact R|now apply required_for_passport|].
intros k Hk. cbv in Hk |- *. tauto.
Qed.

Import TrackingFacts.

(** X23: the tracking number of a passport record is null or a string of at
    least five characters; when no line of the text carries the label
    (TRACKING and NUMBER), it is null or exactly eleven digits: the
    fallback finds runs of ten to twelve digits but its test lets only the
    runs of eleven through. *)
Theorem trackingNumber_shape (text : string) (mrzData : option MrzData) :
  exists d,
    extractPassportData text mrzData = Ok d /\
    (get d "trackingNumber" = Null \/
     exists s, get d "trackingNumber" = Str s /\
               5 <= String.length s /\
               (no_label rule_trackingNumber (lines_of text) = true ->
                String.length s = 11 /\ all_chars is_digit s = true)).
Proof.
unfold extractPassportData. cbv zeta.
set (d0 := apply_mrz mrzData (passport_initial text)).
assert (G0 : get d0 "trackingNumber" = Null).
{ unfold d0. destruct mrzData as [mrz|]; [|reflexivity].
  rewrite get_apply_mrz. reflexivity. }
do 20 run_step.
match goal with
| |- context [bind (label_loop rule_trackingNumber ?l ?d) _] =>
    assert (G : get d "trackingNumber" = Null) by (back "trackingNumber"; exact G0);
    pose proof (label_loop_no_label rule_trackingNumber l d) as Hno;
    destruct (rule_trackingNumber_sets l d) as (dt1 & Et1 & Wt1 & St1);
    rewrite Et1 in Hno |- *; cbn [bind]
end.
match goal with
| |- context [bind (tracking_fallback ?l ?d) _] =>
    destruct (tracking_fallback_sets l d) as (dt2 & Et2 & Wt2 & St2);
    rewrite Et2; cbn [bind]
end.
repeat run_step. last_step. back "trackingNumber".
destruct St2 as [S2|(s & S2 & L2 & D2)].
- rewrite S2. destruct St1 as [S1|(s & S1 & L1)].
  + left. congruence.
  + right. exists s. split; [exact S1|]. split; [exact L1|].
    intros Hl. specialize (Hno Hl). injection Hno as ->. congruence.
- right. exists s. split; [exact S2|]. split; [lia|]. intros _. now split.
Qed.

Lemma trackingNumber_shape_example :
  result_field (extractPassportData "1234567890
123456789012
12345678901" None) "trackingNumber" = Str "12345678901".
Proof. vm_compute. reflexivity. Qed.

Lemma trackingNumber_shape_witness :
  no_label rule_trackingNumber (lines_of "1234567890
12345678901") = true /\
  exists d,
    extractPassportData "1234567890
12345678901" None = Ok d /\
    (get d "trackingNumber" = Null \/
     exists s, get d "trackingNumber" = Str s /\
               String.length s = 11 /\ all_chars is_digit s = true).
Proof.
assert (Hl : no_label rule_trackingNumber (lines_of "1234567890
12345678901") = true) by (vm_compute; reflexivity).
split; [exact Hl|].
destruct (trackingNumber_shape "1234567890
12345678901" None) as (d & E & [H|(s & Hs & _ & H)]).
- exists d. split; [exact E|now left].
- exists d. split; [exact E|]. right. exists s.
  destruct (H Hl) as [H1 H2]. auto.
Defined.

